(* ===== verification/_CoqProject ===== *)
-Q . S2P
Prelude.v
PyStr.v
Sha256.v
Json.v
JsonLoads.v
Merkle.v
Models.v
Session.v
EventIntegrity.v
Identifiers.v
Rbac.v
Outbox.v
Encryption.v
Uploads.v
Channels.v
ChannelProps.v
Messages.v
MessageProps.v
MerkleAudit.v
MerkleAuditProps.v
Auth.v
Worker.v
Limits.v
Policies.v
Admin.v
EmailVerification.v
UploadCrypt.v
UploadCryptProps.v
UploadStore.v
Delivery.v
Tasks.v
WorkBudget.v
WsTickets.v
AuthControl.v
WsManager.v
WsManagerProps.v
Presence.v
PresenceProps.v
