(* ===== verification/Prelude.v ===== *)
(** * Verification of the distributed publish/subscribe messaging system

    The program is a FastAPI backend ([backend/app]) with a delivery worker
    ([worker/worker_app]) around PostgreSQL, RabbitMQ and Redis.  Users create
    channels, join them by request or invite, publish messages with attachments
    and reactions, and read history.  Every state change is one database
    transaction that also writes an audit event into a hash chain and a row
    into an outbox; the worker drains the outbox to the broker with retries and
    dead-lettering, and projects the desired queue bindings onto it.

    ** Correspondence

    - [Prelude], [PyStr], [Sha256], [Json]: Python strings, integers, dates and
      [json.dumps], the SHA-256 function, records with updates, [ORDER BY], the
      exception type [exc] and the result type [res].
    - [Merkle]: services/merkle_service.py (roots, proofs, verification).
    - [Models]: db/models.py, one record per table, the source's enumerations.
    - [Session]: a SQLAlchemy session as a state and exception monad [M].  The
      state holds the committed database ([durable]), the open transaction
      ([work]), the positions in the streams of the [World] (clock, uuid4,
      secrets, database faults) and the services outside the database.
      [commit], [rollback], flush with constraint errors and aborted statements
      are operations of the monad; an exception keeps the state reached.
    - [EventIntegrity]: services/event_integrity_service.py, event_service.py and
      the worker's copy of the hash in outbox_runner.py.
    - [Identifiers], [Rbac]: core/identifiers.py, services/rbac.py.
    - [Outbox]: services/outbox_service.py.
    - [Encryption]: core/encryption.py; Fernet and HKDF are the class [Crypto]
      with the laws [CryptoLaws].
    - [Uploads], [Messages], [MessageProps]: services/message_service.py.
    - [Channels], [ChannelProps]: services/channel_service.py.
    - [Worker]: worker_app/outbox_runner.py, mq/topology.py, redis_fanout.py; the
      broker is the class [Broker] with the laws [BrokerLaws].
    - [Delivery]: services/delivery_service.py.
    - [MerkleAudit], [MerkleAuditProps]: services/merkle_audit_service.py and
      merkle_checkpoint_service.py; Ed25519 is the class [Ed25519] with the laws
      [Ed25519Laws], the interpreter's conversions the class [Conversions].
    - [Auth]: services/auth_service.py, core/security.py; JWT and password hashing
      are the classes [Jwt] and [Passwords] with their laws.
    - [EmailVerification]: services/email_verification_service.py and
      build_verification_url; the mailer is the class [Mailer].
    - [UploadCrypt], [UploadCryptProps]: core/upload_encryption.py; AES-GCM is the
      class [Aead] with the laws [AeadLaws].  A generator is the list of the
      chunks it yields with its final outcome, a disk a map from paths to bytes.
    - [UploadStore]: MessageService.store_upload_content and the path resolver.
    - [Limits]: services/download_service.py ([Download]) and
      services/rate_limit_service.py ([RateLimit]).
    - [Policies]: core/password_policy.py, core/payload_limits.py.
    - [Admin]: services/admin_service.py, superadmin_bootstrap_service.py; the
      database's case folding is the class [Collation].
    - [JsonLoads]: [json.loads], which the modelled code applies to what others
      wrote; the conversion of float literals is the class [Floats].
    - [Tasks]: [async] functions as trees of atomic segments, the event loop as a
      step relation, and a program logic for tasks among others.
    - [WorkBudget]: realtime/ws_abuse_control.py.  [WsTickets]:
      services/ws_ticket_service.py, over the two Redis commands of the class
      [TicketRedis].  [AuthControl]: realtime/auth_control.py.
    - [WsManager], [WsManagerProps]: realtime/ws_manager.py and protocol.py on
      [Tasks]; pydantic's validation is the class [Protocol].
    - [Presence], [PresenceProps]: realtime/presence.py and redis_pubsub.py, over
      Redis commands of the class [RedisData] with the laws [RedisLaws].
    An operation [async def f(db, ...)] is a definition [f : ... -> M result]; a
    check that raises [AppError(_, status, code)] is [guard b (AppError status
    code)].  Part of a long function may be a definition of its own next to it
    ([publish_new], [move_marker], [check_invite]).  Settings are classes whose
    fields are the ones the code reads.

    ** What the theorems show

    - Merkle and audit: roots equal the RFC 6962 tree hash, proofs verify and are
      sound up to explicit SHA-256 collisions, verifiers are total; the audit
      chain verifies after any interleaving of writers, faults and rollbacks, and
      verified histories are determined by their last hash.
    - Channels: operations refine an authorization policy, are atomic and keep
      the tables well formed; slug search ends; invites round trip and are used
      once.
    - Messages: each channel is an append-only gap-free log under any sequence of
      requests; retries are idempotent; paging and synchronisation are exact;
      markers move forward; bodies are encrypted at rest and recoverable.
    - Outbox and worker: desired bindings follow authorization, the worker refines
      an abstract outbox machine, rows respect their attempt limits, only
      confirmed messages count as published, the broker ends up with the desired
      bindings; manual retries are authorized and keep the invariant.
    - Uploads and encryption: access policy, quotas, key rotation.
    - Checkpoints: a new checkpoint extends a verified chain to a verified one,
      the cycle ends with nothing pending, exported bundles are accepted offline,
      and an accepted bundle is about a stored event, up to explicit collisions.
    - Sessions: deadlines hold under any sequence of requests, revocation is
      final, refresh tokens are used once, and a login gives access.
    - Upload files: sealing and streaming round trip, every streamed chunk is
      authentic and in place, accepted files are canonical, the two readers agree,
      rotation keeps the plaintext; stored content is what is downloaded, a
      refused upload leaves nothing.
    - Mail addresses: a confirmation verifies exactly the mailbox the token was
      sent to, once; a user has at most one live challenge.
    - Limits: download slots are bounded and returned under any interleaving; the
      local rate limiter equals a table of windows and stays bounded.
    - Administration: searches are literal, displayed details are whitelisted and
      typed, deactivation locks an account out, the bootstrap promotes nobody.
    - Realtime: tickets work once and in time; under any interleaving of the
      tasks of a process and any change of the database, events and history only
      reach users who were members, connections respect the quota; revocations
      round trip and close the registered sockets, but miss a socket whose
      handshake is under way; the work a socket is admitted for is bounded.
    - Presence: the Redis scripts simulate a table of leases under any history of
      calls, failures and expired keys; a full reaper run leaves exactly the users
      with a live lease online, and the transitions reported are real.
    ** Fuel and bounds

    Recursion is structural except: the Merkle loops (fuel from the number of
    leaves, or of bits of the claimed count; extra fuel changes nothing), the
    slug search (fuel [n + 2] for [n] channels, proved enough by pigeonhole), the
    UTF-8 decoder (fuel the number of bytes), the worker's batch (the source's
    limit of 100 records), the checkpoint cycle (one unit per pending event and
    one more, proved enough), the worker's persistence retries (the source's three
    attempts), and the loops over files and streams: reading and decrypting a file
    (its length; a frame consumes at least one byte), draining a buffer (its
    length), measuring a JSON value (its number of nodes) and scanning one (the
    length of the text; what [json.dumps] wrote is read back in full).  The loops
    of the realtime tasks run over the list of what they receive.  Integers are
    unbounded as in Python; identifiers are 128-bit numbers; instants are
    microseconds since the epoch.

    ** Not modelled

    The HTTP routes, request schemas and configuration (FastAPI and pydantic
    glue), the start and stop of background
    tasks and the joint life of the tasks of a socket, the Redis script of the rate limiter and the streaming response
    classes, SMTP delivery, channel listings and views, the periodic loop around
    the checkpoint cycle, migrations, operator scripts and the frontend.  The
    modelled disk has no symbolic links, and a write does not fail half way.  The depth limit of [json.loads] and
    the rounding of floats in the token buckets are not modelled.

    Row and advisory locks are modelled by running transactions one after the
    other, which is what they enforce for the rows concerned. *)

From stdpp Require Export base tactics option list gmap strings sorting pretty.
From Stdlib Require Export ZArith Lia.

(** ** Scopes and numeric conventions

    Python integers are unbounded, so they are [Z].  A Python [str] is the
    list of its code points and a Python [bytes] the list of its octets, both
    [list Z]; the abbreviations only document which of the two is meant. *)

Declare Scope msg_scope.
Delimit Scope msg_scope with msg.
Global Open Scope Z_scope.

Abbreviation pystr := (list Z) (only parsing).
Abbreviation bytes := (list Z) (only parsing).
(** [uuid.UUID]: the 128-bit integer. *)
Abbreviation uuid := N (only parsing).
(** Timezone-aware UTC instants, in microseconds since the Unix epoch. *)
Abbreviation instant := Z (only parsing).

(** ** Record update

    [r <| p := v |>] is [r] with field [p] replaced; [r <| p ::= f |>] applies
    [f] to it.  The setter of a field is computed from the record's
    eta-expansion, which every record type declares once as an [Eta]
    instance. *)

Class Eta (R : Type) := eta : R -> R.
Class Field {R T : Type} (p : R -> T) := upd : (T -> T) -> R -> R.
Global Arguments upd {R T} p {_} f r /.

Ltac derive_field :=
  lazymatch goal with
  | |- @Field ?R ?T ?p =>
      let inst := constr:(_ : Eta R) in
      let g := constr:(fun r : R => ltac:(
        let e := eval hnf in (inst r) in
        lazymatch eval pattern (p r) in e with
        | ?h _ =>
            let k := eval cbv beta in (fun f : T -> T => h (f (p r))) in
            exact k
        end)) in
      let g' := eval cbv beta in g in
      exact (fun f r => g' r f)
  end.
#[export] Hint Extern 1 (Field _) => derive_field : typeclass_instances.

#[warnings="-postfix-notation-not-level-1"]
Notation "r <| p ::= f |>" := (upd p f r)
  (at level 12, left associativity, p at level 9).
#[warnings="-postfix-notation-not-level-1"]
Notation "r <| p := v |>" := (upd p (fun _ => v) r)
  (at level 12, left associativity, p at level 9).

(** ** Exceptions and fallible pure functions

    [AppError] (core/errors.py) keeps the HTTP status and the stable error
    code; the human-readable message is not modelled because no control flow
    reads it.  The other constructors are the Python exceptions the modelled
    code raises or catches. *)

Inductive exc :=
| AppError (status : Z) (code : string)
| ValueError (what : string)
| TypeError (what : string)
| KeyError (what : string)
| IndexError (what : string)
| MerkleIntegrityError (code : string)
| IntegrityError (constraint : string)
| DbError (sqlstate : string)
| BrokerError (text : list Z)
| MissingGreenlet (attribute : string)
| OverflowError (what : string)
| UploadFormatError (what : string)
| UploadIntegrityError (what : string)
| UploadKeyError (what : string)
| OSError (what : string)
| RuntimeError (what : string)
| RedisError (what : string)
| AttributeError (what : string).

Definition res (A : Type) : Type := exc + A.

Global Instance res_ret : MRet res := fun A x => inr x.
Global Instance res_bind : MBind res := fun A B f m =>
  match m with inl e => inl e | inr x => f x end.
Definition raise {A} (e : exc) : res A := inl e.
Definition is_ok {A} (r : res A) : bool := match r with inr _ => true | inl _ => false end.

(** A list comprehension whose element expression may raise. *)
Fixpoint res_map {A B} (f : A -> res B) (l : list A) : res (list B) :=
  match l with
  | [] => mret []
  | x :: l => y ← f x; ys ← res_map f l; mret (y :: ys)
  end.

Lemma res_bind_ok {A B} (m : res A) (f : A -> res B) b :
  (m ≫= f) = inr b <-> exists a, m = inr a /\ f a = inr b.
Proof. destruct m; cbn; split; [done | by intros (? & [=] & ?) | by eauto | by intros (? & [= ->] & ?)]. Qed.

Lemma res_map_ok {A B} (f : A -> res B) l l' :
  res_map f l = inr l' <-> Forall2 (fun x y => f x = inr y) l l'.
Proof.
  revert l'. induction l as [|x l IH]; intros l'; cbn.
  - split; [intros [= <-]; constructor | inversion 1; done].
  - split.
    + destruct (f x) as [|y] eqn:Ey; cbn; [done|].
      destruct (res_map f l) as [|ys] eqn:Eys; cbn; [done|].
      intros [= <-]. constructor; [done|]. by apply IH.
    + inversion 1 as [|? y ? ys Hy Hys]; subst. rewrite Hy. cbn.
      apply IH in Hys. by rewrite Hys.
Qed.

Lemma res_map_pure {A B} (f : A -> B) l : res_map (fun x => inr (f x)) l = inr (f <$> l).
Proof. induction l as [|x l IH]; cbn; [done|]. by rewrite IH. Qed.

(** ** Lexicographic keys and ORDER BY

    Every ORDER BY of the modelled queries sorts by a tuple of integers
    (timestamps, 128-bit UUIDs, sequence numbers; a descending column is
    negated), so one lexicographic order on integer lists covers them. *)

Fixpoint lex_leb (a b : list Z) : bool :=
  match a, b with
  | [], _ => true
  | _ :: _, [] => false
  | x :: a, y :: b => if x <? y then true else if y <? x then false else lex_leb a b
  end.
Definition lex_le (a b : list Z) : Prop := lex_leb a b = true.
Definition lex_lt (a b : list Z) : Prop := lex_le a b /\ a <> b.

Global Instance lex_le_dec : RelDecision lex_le.
Proof. intros a b. unfold lex_le. apply _. Defined.

Lemma lex_leb_cons x a y b :
  lex_leb (x :: a) (y :: b) = true <-> x < y \/ (x = y /\ lex_leb a b = true).
Proof.
  cbn. destruct (Z.ltb_spec x y); [split; [by left | done]|].
  destruct (Z.ltb_spec y x).
  - split; [done | intros [?|[? ?]]; lia].
  - split; [intros; right; split; [lia | done] | intros [?|[? ?]]; [lia | done]].
Qed.

Global Instance lex_le_refl : Reflexive lex_le.
Proof. intros a. unfold lex_le. induction a; [done|]. apply lex_leb_cons. auto. Qed.

Global Instance lex_le_trans : Transitive lex_le.
Proof.
  intros a. unfold lex_le. induction a as [|x a IH]; intros b c; [done|].
  destruct b as [|y b]; [done|]. destruct c as [|z c]; [done|].
  rewrite !lex_leb_cons. intros [?|[-> ?]] [?|[-> ?]]; [left; lia ..|].
  right. split; [done|]. eauto.
Qed.

Global Instance lex_le_total : Total lex_le.
Proof.
  intros a. unfold lex_le. induction a as [|x a IH]; intros b; [by left|].
  destruct b as [|y b]; [by right|]. rewrite !lex_leb_cons.
  destruct (Z.lt_trichotomy x y) as [?|[->|?]]; [tauto| |tauto].
  destruct (IH b); tauto.
Qed.

Global Instance lex_le_antisymm : AntiSymm (=) lex_le.
Proof.
  intros a. unfold lex_le. induction a as [|x a IH]; intros b; destruct b as [|y b]; try done.
  rewrite !lex_leb_cons. intros [?|[-> H1]] [?|[? H2]]; [lia..|].
  f_equal. by apply IH.
Qed.

Section OrderBy.
Context {A : Type} (key : A -> list Z).

Definition key_le (x y : A) : Prop := lex_le (key x) (key y).
Global Instance key_le_dec : RelDecision key_le.
Proof. intros x y. unfold key_le. apply _. Defined.
Global Instance key_le_total : Total key_le.
Proof. intros x y. apply lex_le_total. Qed.
Global Instance key_le_trans : Transitive key_le.
Proof. intros x y z. apply lex_le_trans. Qed.

(** SELECT ... ORDER BY key. *)
Definition order_by (l : list A) : list A := merge_sort key_le l.

Lemma order_by_perm l : order_by l ≡ₚ l.
Proof. apply merge_sort_Permutation. Qed.

Lemma order_by_sorted l : StronglySorted key_le (order_by l).
Proof. apply Sorted_StronglySorted; [apply _|]. apply Sorted_merge_sort; apply _. Qed.

Lemma order_by_length l : length (order_by l) = length l.
Proof. by rewrite order_by_perm. Qed.

Lemma elem_of_order_by x l : x ∈ order_by l <-> x ∈ l.
Proof. by rewrite order_by_perm. Qed.

(** A list that is already ordered, and whose keys tell its elements apart,
    is what the query returns for any listing of the same rows. *)
Lemma order_by_unique l l' :
  (forall x y, x ∈ l -> y ∈ l -> key x = key y -> x = y) ->
  StronglySorted key_le l' -> l' ≡ₚ l -> order_by l = l'.
Proof.
  intros Hinj Hs Hp. apply StronglySorted_unique_strong with key_le.
  - intros x y Hx Hy Hxy Hyx. apply Hinj.
    + by apply elem_of_order_by.
    + by rewrite <-Hp.
    + by apply (anti_symm lex_le).
  - apply order_by_sorted.
  - done.
  - by rewrite order_by_perm.
Qed.

(** The result of a query does not depend on the order rows are found in. *)
Lemma order_by_perm_eq l l' :
  (forall x y, x ∈ l -> y ∈ l -> key x = key y -> x = y) -> l ≡ₚ l' -> order_by l = order_by l'.
Proof.
  intros Hinj Hp. apply order_by_unique; [done|apply order_by_sorted|].
  by rewrite order_by_perm.
Qed.
End OrderBy.

(** Sorting by a key commutes with a map that keeps the key. *)
Section OrderByMap.
Context {A B : Type} (key : A -> list Z) (key' : B -> list Z) (f : A -> B).
Context (Hkey : forall x, key' (f x) = key x).

Lemma list_merge_map (l1 l2 : list A) :
  list_merge (key_le key') (f <$> l1) (f <$> l2) = f <$> list_merge (key_le key) l1 l2.
Proof.
  revert l2. induction l1 as [|x l1 IH1]; intros l2; [by destruct l2|].
  induction l2 as [|y l2 IH2]; [done|].
  rewrite !fmap_cons, !list_merge_cons.
  assert (E : key_le key' (f x) (f y) <-> key_le key x y) by (unfold key_le; by rewrite !Hkey).
  destruct (decide (key_le key x y)), (decide (key_le key' (f x) (f y))); try tauto; cbn.
  - by rewrite <-IH1.
  - by rewrite <-IH2.
Qed.

Lemma merge_list_to_stack_map (st : list (option (list A))) (l : list A) :
  merge_list_to_stack (key_le key') (fmap (M:=option) (fmap (M:=list) f) <$> st) (f <$> l)
  = fmap (M:=option) (fmap (M:=list) f) <$> merge_list_to_stack (key_le key) st l.
Proof.
  revert l. induction st as [|[l'|] st IH]; intros l; [done| |done].
  cbn. f_equal. rewrite list_merge_map. apply IH.
Qed.

Lemma merge_stack_map (st : list (option (list A))) :
  merge_stack (key_le key') (fmap (M:=option) (fmap (M:=list) f) <$> st) = f <$> merge_stack (key_le key) st.
Proof.
  induction st as [|[l'|] st IH]; [done| |done]. cbn. rewrite <-list_merge_map. f_equal. apply IH.
Qed.

Lemma order_by_map (l : list A) : order_by key' (f <$> l) = f <$> order_by key l.
Proof.
  unfold order_by, merge_sort. change (@nil (option (list B))) with (fmap (M:=option) (fmap (M:=list) f) <$> @nil (option (list A))).
  generalize (@nil (option (list A))). induction l as [|x l IH]; intros st; cbn.
  - apply merge_stack_map.
  - rewrite <-IH. f_equal. apply (merge_list_to_stack_map st [x]).
Qed.
End OrderByMap.

(** Descending order is the ascending order read backwards. *)
Lemma lex_le_opp a b : length a = length b -> lex_le (Z.opp <$> b) (Z.opp <$> a) <-> lex_le a b.
Proof.
  unfold lex_le. revert b. induction a as [|x a IH]; intros [|y b]; try done. cbn [length].
  intros [= Hl]. rewrite !fmap_cons, !lex_leb_cons, IH by done.
  split; intros [?|[? ?]]; [left; lia|right; split; [lia|done]|left; lia|right; split; [lia|done]].
Qed.

Lemma StronglySorted_app_inv {A} (R : A -> A -> Prop) l x :
  StronglySorted R (l ++ [x]) -> StronglySorted R l /\ Forall (fun y => R y x) l.
Proof.
  induction l as [|y l IH]; cbn; [repeat constructor|].
  inversion 1 as [|? ? Hs Hf]; subst. destruct (IH Hs) as [H1 H2].
  apply Forall_app in Hf as [Hf1 Hf2]. split; constructor; auto. by inversion Hf2.
Qed.

Lemma StronglySorted_snoc {A} (R : A -> A -> Prop) l x :
  StronglySorted R l -> Forall (fun y => R y x) l -> StronglySorted R (l ++ [x]).
Proof.
  induction 1 as [|y l Hs IH Hf]; cbn; [repeat constructor|].
  intros [Hy Hl]%Forall_cons. constructor; [auto|]. apply Forall_app. auto.
Qed.

Lemma StronglySorted_reverse {A} (R : A -> A -> Prop) l :
  StronglySorted R l -> StronglySorted (flip R) (reverse l).
Proof.
  induction 1 as [|x l Hs IH Hf]; [constructor|]. rewrite reverse_cons.
  apply StronglySorted_snoc; [done|]. by rewrite reverse_Permutation.
Qed.

Lemma fmap_opp_inj (a b : list Z) : Z.opp <$> a = Z.opp <$> b -> a = b.
Proof.
  revert b. induction a as [|x a IH]; intros [|y b]; try done. cbn. intros [= E1 E2].
  f_equal; [lia|by apply IH].
Qed.

Lemma order_by_desc {A} (key : A -> list Z) n l :
  (forall x, length (key x) = n) ->
  (forall x y, x ∈ l -> y ∈ l -> key x = key y -> x = y) ->
  order_by (fun x => Z.opp <$> key x) l = reverse (order_by key l).
Proof.
  intros Hn Hinj. apply order_by_unique.
  - intros x y Hx Hy E. apply Hinj; [done..|]. by apply fmap_opp_inj.
  - pose proof (StronglySorted_reverse _ _ (order_by_sorted key l)) as Hs.
    induction Hs as [|x k _ IH Hf]; constructor; [done|]. eapply Forall_impl; [exact Hf|].
    intros y Hxy. apply lex_le_opp; [by rewrite !Hn|exact Hxy].
  - by rewrite reverse_Permutation, order_by_perm.
Qed.

(** ** Generic list lemmas *)

Lemma last_app_cons {A} (l : list A) x : last (l ++ [x]) = Some x.
Proof. apply last_snoc. Qed.

Lemma Forall2_same_length_lookup {A B} (P : A -> B -> Prop) l k :
  Forall2 P l k -> length l = length k.
Proof. apply Forall2_length. Qed.

Lemma nodup_map_inj {A B} (f : A -> B) (l : list A) x y :
  NoDup (f <$> l) -> x ∈ l -> y ∈ l -> f x = f y -> x = y.
Proof.
  induction l as [|a l IH]; cbn; [intros _ H; inversion H|].
  intros [Hn Hd]%NoDup_cons Hx Hy E.
  apply elem_of_cons in Hx as [->|Hx]; apply elem_of_cons in Hy as [->|Hy]; auto.
  - destruct Hn. rewrite E. by apply list_elem_of_fmap_2.
  - destruct Hn. rewrite <-E. by apply list_elem_of_fmap_2.
Qed.

Global Instance list_filter_bool_perm {A} (p : A -> bool) : Proper ((≡ₚ) ==> (≡ₚ)) (List.filter p).
Proof.
  induction 1 as [|x l l' _ IH|x y l|l1 l2 l3 _ IH1 _ IH2]; cbn; [done| | |by etrans].
  - by destruct (p x); rewrite IH.
  - destruct (p x), (p y); try done. apply Permutation_swap.
Qed.

Lemma elem_of_filter_bool {A} (p : A -> bool) l x : x ∈ List.filter p l <-> x ∈ l /\ p x = true.
Proof. rewrite !list_elem_of_In. apply filter_In. Qed.

Lemma filter_bool_ext_in {A} (p q : A -> bool) l :
  (forall x, x ∈ l -> p x = q x) -> List.filter p l = List.filter q l.
Proof. intros Hpq. apply filter_ext_in. intros x Hx. apply Hpq. by apply list_elem_of_In. Qed.

Lemma StronglySorted_head_all {A} (R : A -> A -> Prop) l x :
  StronglySorted R l -> last l = Some x -> forall y, y ∈ l -> y = x \/ R y x.
Proof.
  intros Hs Hl y Hy. apply last_Some in Hl as [k ->].
  apply StronglySorted_app_inv in Hs as [_ Hf].
  apply elem_of_app in Hy as [Hy|Hy]; [right|left; by apply list_elem_of_singleton in Hy].
  rewrite Forall_forall in Hf. by apply Hf.
Qed.

(** ** Tactics and hint databases *)

(** Decompose hypotheses about successful runs of the exception monad. *)
Ltac res_inv :=
  repeat match goal with
  | H : (_ ≫= _) = inr _ |- _ => apply res_bind_ok in H as (? & ? & ?)
  | H : inr _ = inr _ |- _ => injection H as H; subst
  | H : mret _ = inr _ |- _ => injection H as H; subst
  | H : inl _ = inr _ |- _ => discriminate H
  | H : raise _ = inr _ |- _ => discriminate H
  end.

(** Case analysis on the scrutinee of a match or an if in a hypothesis or in
    the goal, keeping the equation. *)
Ltac case_in H :=
  match type of H with
  | context [match ?x with _ => _ end] => destruct x eqn:?
  end.
Ltac case_goal :=
  match goal with
  | |- context [match ?x with _ => _ end] => destruct x eqn:?
  end.

Create HintDb msg discriminated.
#[export] Hint Resolve order_by_perm order_by_sorted : msg.
