(* ===== verification/PyStr.v ===== *)
(** * Python strings and bytes

    The parts of [str], [bytes], [int], [uuid.UUID], [datetime] and
    [re]/[struct] that the modelled code uses, written out on code points and
    octets: literals, hexadecimal, decimal, UTF-8, [strip], [lower],
    [startswith], fixed-width big-endian packing and ISO-8601 timestamps. *)

From S2P Require Import Prelude.
Local Open Scope Z_scope.

(** ** Literals *)

(** A source literal; every literal of the program is ASCII. *)
Definition py (s : string) : pystr :=
  (fun a => Z.of_N (Ascii.N_of_ascii a)) <$> String.list_ascii_of_string s.

Definition str_eqb (a b : pystr) : bool := bool_decide (a = b).

(** ** Hexadecimal *)

Definition hex_digit (d : Z) : Z := if d <? 10 then 48 + d else 87 + d.
Definition hex_val (c : Z) : option Z :=
  if (48 <=? c) && (c <=? 57) then Some (c - 48)
  else if (97 <=? c) && (c <=? 102) then Some (c - 87)
  else if (65 <=? c) && (c <=? 70) then Some (c - 55)
  else None.

(** [bytes.hex()]. *)
Definition hex_of_byte (b : Z) : pystr := [hex_digit (b / 16); hex_digit (b mod 16)].
Definition hex_of_bytes (bs : bytes) : pystr := bs ≫= hex_of_byte.
Global Arguments hex_of_bytes : simpl never.

(** [bytes.fromhex] on a string without white space. *)
Fixpoint bytes_fromhex (s : pystr) : option bytes :=
  match s with
  | [] => Some []
  | [_] => None
  | a :: b :: s' =>
      h ← hex_val a; l ← hex_val b; rest ← bytes_fromhex s'; Some (16 * h + l :: rest)
  end.

Definition is_byte (b : Z) : Prop := 0 <= b < 256.
Definition is_lower_hex (c : Z) : bool :=
  ((48 <=? c) && (c <=? 57)) || ((97 <=? c) && (c <=? 102)).

(** [re.fullmatch(r"^[0-9a-f]{64}$", s)].  In Python [$] would also match
    before a trailing newline, but [fullmatch] must consume the whole string. *)
Definition is_hash_hex (s : pystr) : bool := (length s =? 64)%nat && forallb is_lower_hex s.

Lemma hex_digit_lower d : 0 <= d < 16 -> is_lower_hex (hex_digit d) = true.
Proof.
  intros H. unfold is_lower_hex, hex_digit.
  destruct (Z.ltb_spec d 10); rewrite ?orb_true_iff, ?andb_true_iff, ?Z.leb_le; lia.
Qed.

Lemma hex_val_digit d : 0 <= d < 16 -> hex_val (hex_digit d) = Some d.
Proof.
  intros H. unfold hex_val, hex_digit.
  destruct (Z.ltb_spec d 10);
    repeat (case_match;
      rewrite ?andb_true_iff, ?andb_false_iff, ?Z.leb_le, ?Z.leb_gt in *; try lia);
    f_equal; lia.
Qed.

Lemma hex_digit_val c : is_lower_hex c = true -> exists d, hex_val c = Some d /\ hex_digit d = c /\ 0 <= d < 16.
Proof.
  unfold is_lower_hex, hex_val, hex_digit.
  rewrite orb_true_iff, !andb_true_iff, !Z.leb_le. intros [H|H].
  - exists (c - 48). repeat case_match; rewrite ?andb_true_iff, ?andb_false_iff, ?Z.leb_le, ?Z.leb_gt,
      ?Z.ltb_lt, ?Z.ltb_ge in *; split_and?; try f_equal; lia.
  - exists (c - 87). repeat case_match; rewrite ?andb_true_iff, ?andb_false_iff, ?Z.leb_le, ?Z.leb_gt,
      ?Z.ltb_lt, ?Z.ltb_ge in *; split_and?; try f_equal; lia.
Qed.

Lemma hex_of_bytes_cons b bs : hex_of_bytes (b :: bs) = hex_digit (b / 16) :: hex_digit (b mod 16) :: hex_of_bytes bs.
Proof. reflexivity. Qed.

Lemma byte_nibbles b : is_byte b -> 0 <= b / 16 < 16 /\ 0 <= b mod 16 < 16.
Proof.
  unfold is_byte. intros H. split; [|by apply Z.mod_pos_bound].
  split; [apply Z.div_pos; lia | apply Z.div_lt_upper_bound; lia].
Qed.

(** Hexadecimal round trip: [bytes.fromhex(b.hex()) == b]. *)
Lemma fromhex_hex bs : Forall is_byte bs -> bytes_fromhex (hex_of_bytes bs) = Some bs.
Proof.
  induction 1 as [|b bs Hb _ IH]; [done|].
  rewrite hex_of_bytes_cons. cbn [bytes_fromhex].
  destruct (byte_nibbles b Hb). rewrite !hex_val_digit by done. cbn.
  rewrite IH. cbn. by rewrite <-Z_div_mod_eq_full.
Qed.

Lemma length_hex_of_bytes bs : length (hex_of_bytes bs) = (2 * length bs)%nat.
Proof. induction bs as [|b bs IH]; [done|]. rewrite hex_of_bytes_cons. cbn [length]. lia. Qed.

Lemma hex_of_bytes_inj bs cs :
  Forall is_byte bs -> Forall is_byte cs -> hex_of_bytes bs = hex_of_bytes cs -> bs = cs.
Proof.
  intros Hb Hc E. apply (f_equal bytes_fromhex) in E.
  rewrite !fromhex_hex in E by done. by injection E.
Qed.

Lemma hex_of_bytes_lower bs : Forall is_byte bs -> forallb is_lower_hex (hex_of_bytes bs) = true.
Proof.
  induction 1 as [|b bs Hb _ IH]; [done|]. rewrite hex_of_bytes_cons. cbn [forallb].
  destruct (byte_nibbles b Hb). by rewrite !hex_digit_lower, IH.
Qed.

(** A digest's [hexdigest()] always passes the hash regular expression. *)
Lemma is_hash_hex_of_bytes bs :
  Forall is_byte bs -> length bs = 32%nat -> is_hash_hex (hex_of_bytes bs) = true.
Proof.
  intros Hb Hl. unfold is_hash_hex. rewrite length_hex_of_bytes, Hl.
  by rewrite hex_of_bytes_lower.
Qed.

(** A lower-case hexadecimal string is the [hex()] of the bytes it decodes to. *)
Lemma hex_fromhex n s :
  length s = (2 * n)%nat -> forallb is_lower_hex s = true ->
  exists bs, bytes_fromhex s = Some bs /\ hex_of_bytes bs = s /\ length bs = n /\ Forall is_byte bs.
Proof.
  revert s. induction n as [|n IH]; intros s Hl Hs.
  - destruct s; [|done]. exists []. done.
  - destruct s as [|a [|b s]]; [done|cbn in Hl; lia|]. cbn in Hs.
    apply andb_prop in Hs as [Ha [Hb Hs]%andb_prop].
    destruct (IH s) as (bs & E & Hh & Hn & Hf); [cbn in Hl; lia|done|].
    apply hex_digit_val in Ha as (h & Eh & Dh & Rh).
    apply hex_digit_val in Hb as (l & El & Dl & Rl).
    exists (16 * h + l :: bs). cbn [bytes_fromhex]. rewrite Eh, El. cbn. rewrite E. cbn.
    split_and!; [done| |lia|constructor; [unfold is_byte; lia|done]].
    rewrite hex_of_bytes_cons, Hh.
    replace ((16 * h + l) / 16) with h by (apply Z.div_unique with l; lia).
    replace ((16 * h + l) mod 16) with l by (apply Z.mod_unique with h; lia).
    by rewrite Dh, Dl.
Qed.

(** ** Fixed-width big-endian packing ([int.to_bytes], [struct.pack(">...")]) *)

Fixpoint be_bytes (n : nat) (w : Z) : bytes :=
  match n with
  | O => []
  | S n => (w / 256 ^ Z.of_nat n) mod 256 :: be_bytes n w
  end.

Definition be_val (bs : bytes) : Z := fold_left (fun acc b => 256 * acc + b) bs 0.

Lemma length_be_bytes n w : length (be_bytes n w) = n.
Proof. induction n; cbn; congruence. Qed.

Lemma be_bytes_byte n w : Forall is_byte (be_bytes n w).
Proof. induction n; cbn; constructor; [apply Z.mod_pos_bound; lia|done]. Qed.

Lemma be_val_snoc bs b : be_val (bs ++ [b]) = 256 * be_val bs + b.
Proof. unfold be_val. by rewrite fold_left_app. Qed.

(** ** Decimal *)

(** [str(n)] of an integer. *)
Definition str_of_Z (n : Z) : pystr := py (pretty n).

(** ** UUIDs *)

(** The 32 hexadecimal digits of [UUID.hex]. *)
Definition uuid_hex (u : uuid) : pystr := hex_of_bytes (be_bytes 16 (Z.of_N u)).

(** [str(uuid)]: 8-4-4-4-12 lower-case hexadecimal digits. *)
Definition uuid_str (u : uuid) : pystr :=
  let h := uuid_hex u in
  take 8 h ++ [45] ++ take 4 (drop 8 h) ++ [45] ++ take 4 (drop 12 h) ++ [45]
  ++ take 4 (drop 16 h) ++ [45] ++ drop 20 h.

(** ** Character classes, [strip] and [lower] *)

(** [str.isspace()] of one character: the White_Space code points and the
    information separators 28-31. *)
Definition isspace (c : Z) : bool :=
  ((9 <=? c) && (c <=? 13)) || ((28 <=? c) && (c <=? 32))
  || (c =? 133) || (c =? 160) || (c =? 5760)
  || ((8192 <=? c) && (c <=? 8202)) || (c =? 8232) || (c =? 8233)
  || (c =? 8239) || (c =? 8287) || (c =? 12288).

Fixpoint lstrip_when (p : Z -> bool) (s : pystr) : pystr :=
  match s with
  | c :: s' => if p c then lstrip_when p s' else s
  | [] => []
  end.
Definition rstrip_when (p : Z -> bool) (s : pystr) : pystr := rev (lstrip_when p (rev s)).
(** [s.strip()] and [s.strip(chars)]. *)
Definition strip_when (p : Z -> bool) (s : pystr) : pystr := rstrip_when p (lstrip_when p s).
Definition strip (s : pystr) : pystr := strip_when isspace s.

(** The Unicode Character Database is data of the interpreter: the lower-case
    mapping of a non-ASCII code point and its general category are left as
    parameters; ASCII is written out. *)
Class UnicodeData := {
  ucd_lower : Z -> list Z;
  ucd_is_control : Z -> bool;
}.

Definition lower_char `{UnicodeData} (c : Z) : pystr :=
  if (65 <=? c) && (c <=? 90) then [c + 32]
  else if c <? 128 then [c] else ucd_lower c.
Definition lower `{UnicodeData} (s : pystr) : pystr := s ≫= lower_char.

Fixpoint startswith (p s : pystr) : bool :=
  match p, s with
  | [], _ => true
  | _ :: _, [] => false
  | a :: p, b :: s => (a =? b) && startswith p s
  end.

Definition removeprefix (p s : pystr) : pystr := if startswith p s then drop (length p) s else s.

Lemma startswith_app p s : startswith p (p ++ s) = true.
Proof. induction p as [|a p IH]; cbn; [done|]. by rewrite Z.eqb_refl. Qed.

Lemma startswith_spec p s : startswith p s = true <-> exists t, s = p ++ t.
Proof.
  split.
  - revert s. induction p as [|a p IH]; intros s; cbn; [eauto|].
    destruct s as [|b s]; [done|]. intros [->%Z.eqb_eq H]%andb_prop.
    apply IH in H as [t ->]. by exists t.
  - intros [t ->]. apply startswith_app.
Qed.

Lemma removeprefix_app p s : removeprefix p (p ++ s) = s.
Proof. unfold removeprefix. by rewrite startswith_app, drop_app_length. Qed.

(** ** UTF-8 *)

(** [str.encode("utf-8")] of one code point; surrogates cannot be encoded. *)
Definition utf8_char (c : Z) : option bytes :=
  if c <? 0 then None
  else if c <? 128 then Some [c]
  else if c <? 2048 then Some [192 + c / 64; 128 + c mod 64]
  else if (55296 <=? c) && (c <=? 57343) then None
  else if c <? 65536 then Some [224 + c / 4096; 128 + (c / 64) mod 64; 128 + c mod 64]
  else if c <? 1114112 then
    Some [240 + c / 262144; 128 + (c / 4096) mod 64; 128 + (c / 64) mod 64; 128 + c mod 64]
  else None.

Fixpoint utf8_encode (s : pystr) : option bytes :=
  match s with
  | [] => Some []
  | c :: s => b ← utf8_char c; rest ← utf8_encode s; Some (b ++ rest)
  end.

Definition is_ascii (c : Z) : Prop := 0 <= c < 128.

Lemma utf8_ascii s : Forall is_ascii s -> utf8_encode s = Some s.
Proof.
  induction 1 as [|c s [H1 H2] _ IH]; [done|]. cbn. unfold utf8_char.
  destruct (Z.ltb_spec c 0); [lia|]. destruct (Z.ltb_spec c 128); [|lia].
  cbn. by rewrite IH.
Qed.

(** ** Timestamps *)

Definition zpad (n : nat) (s : pystr) : pystr := replicate (n - length s) 48 ++ s.

(** Proleptic Gregorian calendar: (year, month, day) of a day number counted
    from 1970-01-01. *)
Definition civil_of_days (days : Z) : Z * Z * Z :=
  let z := days + 719468 in
  let era := z / 146097 in
  let doe := z mod 146097 in
  let yoe := (doe - doe / 1460 + doe / 36524 - doe / 146096) / 365 in
  let doy := doe - (365 * yoe + yoe / 4 - yoe / 100) in
  let mp := (5 * doy + 2) / 153 in
  let d := doy - (153 * mp + 2) / 5 + 1 in
  let m := if mp <? 10 then mp + 3 else mp - 9 in
  let y := yoe + era * 400 in
  ((if m <=? 2 then y + 1 else y), m, d).

Definition us_per_day : Z := 86400000000.

(** [dt.isoformat(timespec="microseconds")] without the offset. *)
Definition iso_us (t : Z) : pystr :=
  let '(y, m, d) := civil_of_days (t / us_per_day) in
  let r := t mod us_per_day in
  let pad n x := zpad n (str_of_Z x) in
  pad 4%nat y ++ py "-" ++ pad 2%nat m ++ py "-" ++ pad 2%nat d ++ py "T"
  ++ pad 2%nat (r / 3600000000) ++ py ":" ++ pad 2%nat ((r / 60000000) mod 60) ++ py ":"
  ++ pad 2%nat ((r / 1000000) mod 60) ++ py "." ++ pad 6%nat (r mod 1000000).

Example iso_us_example :
  iso_us 1735689599999999 = py "2024-12-31T23:59:59.999999".
Proof. vm_compute. reflexivity. Qed.

Example uuid_str_example :
  uuid_str 0x0123456789abcdef0123456789abcdef = py "01234567-89ab-cdef-0123-456789abcdef".
Proof. vm_compute. reflexivity. Qed.

(** ** Decimal numerals are told apart by their text *)

Lemma py_inj s t : py s = py t -> s = t.
Proof.
  unfold py. revert t. induction s as [|a s IH]; intros [|b t]; cbn; try done.
  intros [= E1 E2]. f_equal; [|by apply IH].
  rewrite <-(Ascii.ascii_N_embedding a), <-(Ascii.ascii_N_embedding b).
  f_equal. lia.
Qed.

Lemma str_of_Z_inj n m : str_of_Z n = str_of_Z m -> n = m.
Proof. unfold str_of_Z. intros E%py_inj. by apply (inj pretty) in E. Qed.

Definition is_digit (c : Z) : bool := (48 <=? c) && (c <=? 57).

Definition is_digitish (c : Z) : bool := (c =? 45) || is_digit c.

Lemma py_cons a s : py (String a s) = Z.of_N (Ascii.N_of_ascii a) :: py s.
Proof. done. Qed.

Lemma pretty_N_char_digit r : (r < 10)%N -> is_digit (Z.of_N (Ascii.N_of_ascii (pretty_N_char r))) = true.
Proof.
  intros Hr.
  assert (r = 0 \/ r = 1 \/ r = 2 \/ r = 3 \/ r = 4 \/ r = 5 \/ r = 6 \/ r = 7 \/ r = 8 \/ r = 9)%N as H by lia.
  destruct_or! H; subst; reflexivity.
Qed.

Lemma pretty_N_go_digits x s :
  forallb is_digit (py s) = true ->
  forallb is_digit (py (pretty_N_go x s)) = true
  /\ (x <> 0%N \/ py s <> [] -> py (pretty_N_go x s) <> []).
Proof.
  revert s. induction (N.lt_wf_0 x) as [x _ IH]; intros s Hs.
  destruct (decide (0 < x)%N) as [Hx|Hx].
  2: { assert (x = 0%N) as -> by lia. rewrite pretty_N_go_0. split; [done|]. by intros [|]. }
  rewrite pretty_N_go_step by done.
  destruct (IH (x / 10)%N (N.div_lt x 10 Hx eq_refl) (String (pretty_N_char (x mod 10)) s)) as [H1 H2].
  - rewrite py_cons. cbn [forallb]. rewrite Hs, pretty_N_char_digit; [done|]. by apply N.mod_lt.
  - split; [done|]. intros _. apply H2. by right.
Qed.

Lemma str_of_N_digits (x : N) : forallb is_digit (py (pretty x)) = true /\ py (pretty x) <> [].
Proof.
  unfold pretty, pretty_N. case_decide as Hx; [done|].
  destruct (pretty_N_go_digits x "" eq_refl) as [H1 H2]. eauto.
Qed.

Lemma str_of_Z_nonneg_digits n : 0 <= n -> forallb is_digit (str_of_Z n) = true /\ str_of_Z n <> [].
Proof.
  intros Hn. unfold str_of_Z. destruct n as [|p|p]; [done| |lia]. apply (str_of_N_digits (N.pos p)).
Qed.

Lemma str_of_Z_digitish n : forallb is_digitish (str_of_Z n) = true /\ str_of_Z n <> [].
Proof.
  assert (Himp : forall s, forallb is_digit s = true -> forallb is_digitish s = true).
  { intros s. rewrite !forallb_forall. intros H c Hc. unfold is_digitish. by rewrite H, orb_true_r. }
  destruct (Z.le_gt_cases 0 n) as [Hn|Hn].
  - destruct (str_of_Z_nonneg_digits n Hn). auto.
  - destruct n as [|p|p]; [lia..|]. unfold str_of_Z.
    change (py (pretty (Z.neg p))) with (45 :: py (pretty (N.pos p))).
    split; [|done]. cbn [forallb]. apply andb_true_iff. split; [done|].
    apply Himp, (str_of_N_digits (N.pos p)).
Qed.

(** ** Timestamps and UUIDs are told apart by their text *)

Definition dec_step (acc c : Z) : Z := 10 * acc + (c - 48).
Definition dec_val (s : pystr) : Z := fold_left dec_step s 0.

Lemma pretty_N_char_val r : (r < 10)%N -> Z.of_N (Ascii.N_of_ascii (pretty_N_char r)) - 48 = Z.of_N r.
Proof.
  intros Hr.
  assert (r = 0 \/ r = 1 \/ r = 2 \/ r = 3 \/ r = 4 \/ r = 5 \/ r = 6 \/ r = 7 \/ r = 8 \/ r = 9)%N as H by lia.
  destruct_or! H; subst; reflexivity.
Qed.

Lemma dec_val_go x s : dec_val (py (pretty_N_go x s)) = fold_left dec_step (py s) (Z.of_N x).
Proof.
  revert s. induction (N.lt_wf_0 x) as [x _ IH]; intros s.
  destruct (decide (0 < x)%N) as [Hx|Hx].
  - rewrite pretty_N_go_step by done. rewrite IH by (by apply N.div_lt).
    rewrite py_cons. cbn [fold_left]. f_equal. unfold dec_step.
    rewrite pretty_N_char_val by (by apply N.mod_lt). rewrite N2Z.inj_div, N2Z.inj_mod.
    rewrite <-Z_div_mod_eq_full. done.
  - assert (x = 0%N) as -> by lia. by rewrite pretty_N_go_0.
Qed.

Lemma dec_val_str n : 0 <= n -> dec_val (str_of_Z n) = n.
Proof.
  intros Hn. unfold str_of_Z. destruct n as [|p|p]; [done| |lia].
  change (pretty (Z.pos p)) with (pretty_N_go (N.pos p) ""). by rewrite dec_val_go.
Qed.

Lemma dec_val_zpad n s : dec_val (zpad n s) = dec_val s.
Proof.
  unfold dec_val, zpad. rewrite fold_left_app. f_equal.
  induction (n - length s)%nat as [|k IH]; [done|]. cbn. by apply IH.
Qed.

Lemma zpad_inj n a b : 0 <= a -> 0 <= b -> zpad n (str_of_Z a) = zpad n (str_of_Z b) -> a = b.
Proof.
  intros Ha Hb E. apply (f_equal dec_val) in E. by rewrite !dec_val_zpad, !dec_val_str in E.
Qed.

Lemma zpad_digits n a : 0 <= a -> forallb is_digit (zpad n (str_of_Z a)) = true.
Proof.
  intros Ha. unfold zpad. rewrite forallb_app. apply andb_true_iff. split.
  - induction (n - length (str_of_Z a))%nat; cbn; auto.
  - by apply str_of_Z_nonneg_digits.
Qed.

Lemma digits_sep_inj d1 d2 c r1 r2 :
  forallb is_digit d1 = true -> forallb is_digit d2 = true -> is_digit c = false ->
  d1 ++ [c] ++ r1 = d2 ++ [c] ++ r2 -> d1 = d2 /\ r1 = r2.
Proof.
  intros H1 H2 Hc. revert d2 H2. induction d1 as [|a d1 IH]; intros [|b d2] H2 E; cbn in *.
  - by injection E.
  - injection E as <- _. by rewrite Hc in H2.
  - injection E as -> _. by rewrite Hc in H1.
  - injection E as -> E. apply andb_prop in H1 as [_ H1], H2 as [_ H2].
    destruct (IH H1 d2 H2 E) as [-> ->]. done.
Qed.

(** One padded field followed by a separator. *)
Lemma zpad_sep_inj n a b c r1 r2 :
  0 <= a -> 0 <= b -> is_digit c = false ->
  zpad n (str_of_Z a) ++ [c] ++ r1 = zpad n (str_of_Z b) ++ [c] ++ r2 -> a = b /\ r1 = r2.
Proof.
  intros Ha Hb Hc E. apply digits_sep_inj in E as [E ->]; [|by apply zpad_digits..|done].
  split; [|done]. by apply zpad_inj in E.
Qed.

(** Year of era, day of year and month index of a day of a 400-year era. *)
Definition era_fields (doe : Z) : Z * Z * Z :=
  let yoe := (doe - doe / 1460 + doe / 36524 - doe / 146096) / 365 in
  let doy := doe - (365 * yoe + yoe / 4 - yoe / 100) in
  (yoe, doy, (5 * doy + 2) / 153).

Definition era_fields_ok (doe : Z) : bool :=
  let '(yoe, doy, mp) := era_fields doe in
  (0 <=? yoe) && (yoe <? 400) && (0 <=? mp) && (mp <? 12) && (1 <=? doy - (153 * mp + 2) / 5 + 1).

Lemma era_bounds doe a b c q q4 q100 :
  0 <= doe < 146097 -> a = doe / 1460 -> b = doe / 36524 -> c = doe / 146096 ->
  q = (doe - a + b - c) / 365 -> q4 = q / 4 -> q100 = q / 100 ->
  0 <= q < 400 /\ 0 <= doe - (365 * q + q4 - q100) <= 365.
Proof.
  intros.
  assert (b = 0 \/ b = 1 \/ b = 2 \/ b = 3 \/ b = 4) as Hb by (Z.to_euclidean_division_equations; lia).
  assert (c = 0 \/ c = 1) as Hc by (Z.to_euclidean_division_equations; lia).
  assert (Hq : 0 <= q < 400) by (destruct_or! Hb; destruct_or! Hc; Z.to_euclidean_division_equations; lia).
  split; [done|].
  assert (q100 = 0 \/ q100 = 1 \/ q100 = 2 \/ q100 = 3) as Hq1 by (Z.to_euclidean_division_equations; lia).
  destruct_or! Hb; destruct_or! Hc; destruct_or! Hq1; Z.to_euclidean_division_equations; lia.
Qed.

Lemma era_fields_range doe : 0 <= doe < 146097 -> era_fields_ok doe = true.
Proof.
  intros H. unfold era_fields_ok, era_fields.
  set (yoe := (doe - doe / 1460 + doe / 36524 - doe / 146096) / 365).
  destruct (era_bounds doe (doe / 1460) (doe / 36524) (doe / 146096) yoe (yoe / 4) (yoe / 100))
    as [Hy Hd]; [done..|].
  set (doy := doe - (365 * yoe + yoe / 4 - yoe / 100)) in *. clearbody doy yoe.
  rewrite !andb_true_iff, !Z.leb_le, !Z.ltb_lt. Z.to_euclidean_division_equations. lia.
Qed.

Lemma civil_of_days_eq days :
  let z := days + 719468 in
  let '(yoe, doy, mp) := era_fields (z mod 146097) in
  civil_of_days days =
    ((if (if mp <? 10 then mp + 3 else mp - 9) <=? 2 then yoe + z / 146097 * 400 + 1 else yoe + z / 146097 * 400),
     (if mp <? 10 then mp + 3 else mp - 9), doy - (153 * mp + 2) / 5 + 1).
Proof. reflexivity. Qed.

Lemma civil_of_days_inj a b : civil_of_days a = civil_of_days b -> a = b.
Proof.
  pose proof (civil_of_days_eq a) as Ea. pose proof (civil_of_days_eq b) as Eb. cbv zeta in Ea, Eb.
  pose proof (Z_div_mod_eq_full (a + 719468) 146097) as Da.
  pose proof (Z_div_mod_eq_full (b + 719468) 146097) as Db.
  pose proof (era_fields_range _ (Z.mod_pos_bound (a + 719468) 146097 eq_refl)) as Ra.
  pose proof (era_fields_range _ (Z.mod_pos_bound (b + 719468) 146097 eq_refl)) as Rb.
  set (da := (a + 719468) mod 146097) in *. set (db := (b + 719468) mod 146097) in *.
  unfold era_fields_ok in Ra, Rb.
  destruct (era_fields da) as [[ya oa] ma] eqn:Fa. destruct (era_fields db) as [[yb ob] mb] eqn:Fb.
  rewrite Ea, Eb. clear Ea Eb. intros E.
  assert (Hda : da = oa + (365 * ya + ya / 4 - ya / 100)).
  { unfold era_fields in Fa. injection Fa as <- <- <-. lia. }
  assert (Hdb : db = ob + (365 * yb + yb / 4 - yb / 100)).
  { unfold era_fields in Fb. injection Fb as <- <- <-. lia. }
  injection E as Ey Em Ed.
  assert (ma = mb) by (destruct (Z.ltb_spec ma 10), (Z.ltb_spec mb 10); lia). subst mb.
  assert (oa = ob) by lia. subst ob.
  assert (ya + (a + 719468) / 146097 * 400 = yb + (b + 719468) / 146097 * 400)
    by (destruct ((if ma <? 10 then ma + 3 else ma - 9) <=? 2); lia).
  assert (ya = yb) by lia. subst yb. lia.
Qed.

Lemma civil_of_days_nonneg days y m d :
  -719468 <= days -> civil_of_days days = (y, m, d) -> 0 <= y /\ 0 <= m /\ 0 <= d.
Proof.
  intros Hd E. pose proof (civil_of_days_eq days) as Ec. cbv zeta in Ec.
  pose proof (era_fields_range _ (Z.mod_pos_bound (days + 719468) 146097 eq_refl)) as R.
  unfold era_fields_ok in R.
  destruct (era_fields ((days + 719468) mod 146097)) as [[yoe doy] mp]. rewrite Ec in E.
  assert (0 <= (days + 719468) / 146097) by (apply Z.div_pos; lia).
  injection E as <- <- <-. destruct (Z.ltb_spec mp 10); [|destruct (Z.leb_spec (mp - 9) 2)];
    [destruct (Z.leb_spec (mp + 3) 2)|..]; lia.
Qed.

(** Instants from the year 0 on: everything a [datetime] can hold. *)
Definition instant_ok (t : Z) : Prop := -719468 * us_per_day <= t.

Lemma iso_us_inj t u : instant_ok t -> instant_ok u -> iso_us t = iso_us u -> t = u.
Proof.
  intros Ht Hu. unfold iso_us. unfold instant_ok, us_per_day in *.
  assert (Dt : -719468 <= t / 86400000000) by (apply Z.div_le_lower_bound; lia).
  assert (Du : -719468 <= u / 86400000000) by (apply Z.div_le_lower_bound; lia).
  destruct (civil_of_days (t / 86400000000)) as [[y m] d] eqn:Et.
  destruct (civil_of_days (u / 86400000000)) as [[y' m'] d'] eqn:Eu.
  destruct (civil_of_days_nonneg _ _ _ _ Dt Et) as (? & ? & ?).
  destruct (civil_of_days_nonneg _ _ _ _ Du Eu) as (? & ? & ?).
  pose proof (Z.mod_pos_bound t 86400000000 eq_refl) as Rt.
  pose proof (Z.mod_pos_bound u 86400000000 eq_refl) as Ru.
  set (r := t mod 86400000000) in *. set (q := u mod 86400000000) in *.
  change (py "-") with [45]. change (py "T") with [84]. change (py ":") with [58]. change (py ".") with [46].
  intros E.
  apply zpad_sep_inj in E as [-> E]; [|done..]. apply zpad_sep_inj in E as [-> E]; [|done..].
  apply zpad_sep_inj in E as [-> E]; [|done..].
  apply zpad_sep_inj in E as [E1 E]; [|apply Z.div_pos; lia..|done].
  apply zpad_sep_inj in E as [E2 E]; [|apply Z.mod_pos_bound; lia..|done].
  apply zpad_sep_inj in E as [E3 E]; [|apply Z.mod_pos_bound; lia..|done].
  apply zpad_inj in E; [|apply Z.mod_pos_bound; lia..].
  assert (t / 86400000000 = u / 86400000000) by (apply civil_of_days_inj; congruence).
  assert (r = q) by (clear -Rt Ru E1 E2 E3 E; clearbody r q; Z.to_euclidean_division_equations; lia).
  rewrite (Z_div_mod_eq_full t 86400000000), (Z_div_mod_eq_full u 86400000000). unfold r, q in *. lia.
Qed.

Lemma be_val_app bs b : be_val (b :: bs) = b * 256 ^ Z.of_nat (length bs) + be_val bs.
Proof.
  unfold be_val. cbn [fold_left]. rewrite Z.mul_0_r, Z.add_0_l.
  assert (Hg : forall l acc, fold_left (fun acc b => 256 * acc + b) l acc
               = acc * 256 ^ Z.of_nat (length l) + fold_left (fun acc b => 256 * acc + b) l 0).
  { clear. induction l as [|x l IH]; intros acc; cbn [fold_left length]; [cbn; lia|].
    rewrite IH, (IH (256 * 0 + x)). rewrite Nat2Z.inj_succ, Z.pow_succ_r by lia. ring. }
  apply Hg.
Qed.

Lemma be_val_bytes n w : 0 <= w -> be_val (be_bytes n w) = w mod 256 ^ Z.of_nat n.
Proof.
  intros Hw. induction n as [|n IH]; [cbn; by rewrite Z.mod_1_r|].
  cbn [be_bytes]. rewrite be_val_app, IH, length_be_bytes.
  rewrite Nat2Z.inj_succ, Z.pow_succ_r by lia.
  rewrite (Z.mul_comm 256), Z.rem_mul_r by (try apply Z.pow_nonzero; lia). lia.
Qed.

(** 128-bit numbers. *)
Definition uuid_ok (u : uuid) : Prop := (u < 2 ^ 128)%N.

Lemma uuid_hex_inj u v : uuid_ok u -> uuid_ok v -> uuid_hex u = uuid_hex v -> u = v.
Proof.
  unfold uuid_ok, uuid_hex. intros Hu Hv E.
  apply hex_of_bytes_inj in E; [|apply be_bytes_byte..].
  apply (f_equal be_val) in E. rewrite !be_val_bytes in E by lia.
  change (256 ^ Z.of_nat 16) with (2 ^ 128) in E. rewrite !Z.mod_small in E by lia. lia.
Qed.

Lemma uuid_str_inj u v : uuid_ok u -> uuid_ok v -> uuid_str u = uuid_str v -> u = v.
Proof.
  intros Hu Hv E. apply uuid_hex_inj; [done..|].
  assert (Lu : length (uuid_hex u) = 32%nat) by (unfold uuid_hex; by rewrite length_hex_of_bytes, length_be_bytes).
  assert (Lv : length (uuid_hex v) = 32%nat) by (unfold uuid_hex; by rewrite length_hex_of_bytes, length_be_bytes).
  unfold uuid_str in E. set (a := uuid_hex u) in *. set (b := uuid_hex v) in *. clearbody a b.
  rewrite <-(take_drop 8 a), <-(take_drop 8 b).
  rewrite <-(take_drop 4 (drop 8 a)), <-(take_drop 4 (drop 8 b)), !drop_drop.
  rewrite <-(take_drop 4 (drop (8 + 4) a)), <-(take_drop 4 (drop (8 + 4) b)), !drop_drop.
  rewrite <-(take_drop 4 (drop (8 + 4 + 4) a)), <-(take_drop 4 (drop (8 + 4 + 4) b)), !drop_drop.
  cbn [Nat.add].
  apply app_inj_1 in E as [-> E]; [|by rewrite !length_take, Lu, Lv]. injection E as E.
  apply app_inj_1 in E as [-> E]; [|by rewrite !length_take, !length_drop, Lu, Lv]. injection E as E.
  apply app_inj_1 in E as [-> E]; [|by rewrite !length_take, !length_drop, Lu, Lv]. injection E as E.
  apply app_inj_1 in E as [-> E]; [|by rewrite !length_take, !length_drop, Lu, Lv]. injection E as E.
  by rewrite E.
Qed.
