(* ===== verification/Sha256.v ===== *)
(** * hashlib.sha256

    FIPS 180-4 SHA-256 on octet lists, executable.  The proofs of the
    development only use that a digest is 32 octets; whenever a security
    statement would need collision resistance it exhibits the colliding pair
    of preimages instead of assuming that there is none. *)

From S2P Require Import Prelude PyStr.
Local Open Scope Z_scope.

Definition word (x : Z) : Z := Z.land x 0xffffffff.
Definition rotr (n x : Z) : Z := Z.lor (Z.shiftr x n) (word (Z.shiftl x (32 - n))).

(** The round constants are the first 32 bits of the fractional parts of the
    cube roots of the first 64 primes, the initial state those of the square
    roots of the first eight; both are computed here rather than listed. *)
Definition is_prime (n : nat) : bool :=
  forallb (fun d => negb (n mod d =? 0)%nat) (seq 2 (n - 2)).
Definition first_primes : list Z := Z.of_nat <$> List.filter is_prime (seq 2 310).

(** Integer cube root, one binary digit per unit of fuel. *)
Fixpoint cube_root (bits : nat) (acc n : Z) : Z :=
  match bits with
  | O => acc
  | S bits =>
      let acc' := acc + 2 ^ Z.of_nat bits in
      cube_root bits (if acc' ^ 3 <=? n then acc' else acc) n
  end.

Definition K256 : list Z :=
  Eval vm_compute in (fun p => word (cube_root 40 0 (p * 2 ^ 96))) <$> first_primes.
Definition H256 : list Z :=
  Eval vm_compute in (fun p => word (Z.sqrt (p * 2 ^ 64))) <$> take 8 first_primes.

Record sha_state := ShaState { ha : Z; hb : Z; hc : Z; hd_ : Z; he : Z; hf : Z; hg : Z; hh : Z }.

Definition sha_init : sha_state :=
  let h i := nth i H256 0 in
  ShaState (h 0%nat) (h 1%nat) (h 2%nat) (h 3%nat) (h 4%nat) (h 5%nat) (h 6%nat) (h 7%nat).

Definition sha_round (s : sha_state) (kw : Z * Z) : sha_state :=
  let '(k, w) := kw in
  let s1 := Z.lxor (rotr 6 (he s)) (Z.lxor (rotr 11 (he s)) (rotr 25 (he s))) in
  let ch := Z.lxor (Z.land (he s) (hf s)) (Z.land (Z.lxor (he s) 0xffffffff) (hg s)) in
  let t1 := word (hh s + s1 + ch + k + w) in
  let s0 := Z.lxor (rotr 2 (ha s)) (Z.lxor (rotr 13 (ha s)) (rotr 22 (ha s))) in
  let maj := Z.lxor (Z.land (ha s) (hb s)) (Z.lxor (Z.land (ha s) (hc s)) (Z.land (hb s) (hc s))) in
  let t2 := word (s0 + maj) in
  ShaState (word (t1 + t2)) (ha s) (hb s) (hc s) (word (hd_ s + t1)) (he s) (hf s) (hg s).

(** The message schedule, most recent word first. *)
Definition sha_extend (w : list Z) : list Z :=
  let at_ i := nth i w 0 in
  let s0 := Z.lxor (rotr 7 (at_ 14%nat)) (Z.lxor (rotr 18 (at_ 14%nat)) (Z.shiftr (at_ 14%nat) 3)) in
  let s1 := Z.lxor (rotr 17 (at_ 1%nat)) (Z.lxor (rotr 19 (at_ 1%nat)) (Z.shiftr (at_ 1%nat) 10)) in
  word (at_ 15%nat + s0 + at_ 6%nat + s1) :: w.

Definition sha_schedule (block : list Z) : list Z := rev (Nat.iter 48 sha_extend (rev block)).

Fixpoint words_of_bytes (bs : bytes) : list Z :=
  match bs with
  | a :: b :: c :: d :: rest => be_val [a; b; c; d] :: words_of_bytes rest
  | _ => []
  end.

Definition sha_block (s : sha_state) (block : list Z) : sha_state :=
  let r := fold_left sha_round (combine K256 (sha_schedule block)) s in
  ShaState (word (ha s + ha r)) (word (hb s + hb r)) (word (hc s + hc r)) (word (hd_ s + hd_ r))
           (word (he s + he r)) (word (hf s + hf r)) (word (hg s + hg r)) (word (hh s + hh r)).

Definition sha_pad (bs : bytes) : bytes :=
  let n := Z.of_nat (length bs) in
  bs ++ [128] ++ replicate (Z.to_nat ((55 - n) mod 64)) 0 ++ be_bytes 8 (8 * n).

Fixpoint sha_blocks (fuel : nat) (s : sha_state) (ws : list Z) : sha_state :=
  match fuel, ws with
  | S fuel, _ :: _ => sha_blocks fuel (sha_block s (take 16 ws)) (drop 16 ws)
  | _, _ => s
  end.

Definition sha_digest (s : sha_state) : bytes :=
  be_bytes 4 (ha s) ++ be_bytes 4 (hb s) ++ be_bytes 4 (hc s) ++ be_bytes 4 (hd_ s)
  ++ be_bytes 4 (he s) ++ be_bytes 4 (hf s) ++ be_bytes 4 (hg s) ++ be_bytes 4 (hh s).

(** [hashlib.sha256(bs).digest()]; one unit of fuel per padded word is more
    than one per 16-word block. *)
Definition sha256 (bs : bytes) : bytes :=
  let ws := words_of_bytes (sha_pad bs) in
  sha_digest (sha_blocks (length ws) sha_init ws).

(** [hashlib.sha256(bs).hexdigest()]. *)
Definition sha256_hexdigest (bs : bytes) : pystr := hex_of_bytes (sha256 bs).

Example sha256_abc :
  sha256_hexdigest (py "abc")
  = py "ba7816bf8f01cfea414140de5dae2223b00361a396177a9cb410ff61f20015ad".
Proof. vm_compute. reflexivity. Qed.

Example sha256_two_blocks :
  sha256_hexdigest (py "abcdbcdecdefdefgefghfghighijhijkijkljklmklmnlmnomnopnopq")
  = py "248d6a61d20638b8e5c026930c3e6039a33ce45964ff2167f6ecedd419db06c1".
Proof. vm_compute. reflexivity. Qed.

Lemma length_sha256 bs : length (sha256 bs) = 32%nat.
Proof. unfold sha256, sha_digest. rewrite !length_app, !length_be_bytes. reflexivity. Qed.

Lemma sha256_byte bs : Forall is_byte (sha256 bs).
Proof. unfold sha256, sha_digest. rewrite !Forall_app. split_and!; apply be_bytes_byte. Qed.

Global Opaque sha256.

Lemma sha256_hexdigest_hex bs : is_hash_hex (sha256_hexdigest bs) = true.
Proof. apply is_hash_hex_of_bytes; [apply sha256_byte | apply length_sha256]. Qed.

Lemma sha256_hexdigest_inj x y : sha256_hexdigest x = sha256_hexdigest y -> sha256 x = sha256 y.
Proof. apply hex_of_bytes_inj; apply sha256_byte. Qed.

(** A pair of distinct preimages of the same digest. *)
Definition sha_collision (x y : bytes) : Prop := x <> y /\ sha256 x = sha256 y.

Lemma sha_equal_or_collision x y :
  sha256_hexdigest x = sha256_hexdigest y -> x = y \/ sha_collision x y.
Proof.
  intros E%sha256_hexdigest_inj. destruct (decide (x = y)); [by left | by right].
Qed.

#[export] Hint Resolve length_sha256 sha256_byte sha256_hexdigest_hex : msg.
