(* ===== verification/Json.v ===== *)
(** * Dynamic Python values and json.dumps

    [pyval] is the type of the values that event payloads, outbox payloads and
    untrusted proof bundles are made of.  [json_dumps] is
    [json.dumps(v, sort_keys=True, separators=(",", ":"), default=str)] with
    the default [ensure_ascii=True].  The main lemma, [json_dumps_inj], says
    that the encoding loses nothing but the order of dictionary entries. *)

From S2P Require Import Prelude PyStr.
Local Open Scope Z_scope.

(** ** Values *)

(** A float is kept as the text [float.__repr__] gives it.  A datetime is its
    local clock reading in microseconds with the UTC offset of its tzinfo
    ([None] for a naive one).  Dictionaries of the modelled code have string
    keys and keep insertion order. *)
#[warnings="-register-all"]
Inductive pyval :=
| PNone
| PBool (b : bool)
| PInt (n : Z)
| PFloat (repr : list Z)
| PStr (s : list Z)
| PUuid (u : N)
| PDatetime (offset : option Z) (local : Z)
| PEnum (value : list Z)
| PList (l : list pyval)
| PTuple (l : list pyval)
| PDict (kvs : list (list Z * pyval)).

Section PyvalInd.
Context (P : pyval -> Prop).
Context (HNone : P PNone) (HBool : forall b, P (PBool b)) (HInt : forall n, P (PInt n)).
Context (HFloat : forall r, P (PFloat r)) (HStr : forall s, P (PStr s)).
Context (HUuid : forall u, P (PUuid u)) (HDt : forall o t, P (PDatetime o t)).
Context (HEnum : forall s, P (PEnum s)).
Context (HList : forall l, Forall P l -> P (PList l)).
Context (HTuple : forall l, Forall P l -> P (PTuple l)).
Context (HDict : forall kvs, Forall (fun kv => P kv.2) kvs -> P (PDict kvs)).

Fixpoint pyval_ind' (v : pyval) : P v :=
  match v with
  | PNone => HNone
  | PBool b => HBool b
  | PInt n => HInt n
  | PFloat r => HFloat r
  | PStr s => HStr s
  | PUuid u => HUuid u
  | PDatetime o t => HDt o t
  | PEnum s => HEnum s
  | PList l => HList l ((fix go l : Forall P l :=
      match l with [] => Forall_nil_2 _ | x :: l => Forall_cons_2 _ _ _ (pyval_ind' x) (go l) end) l)
  | PTuple l => HTuple l ((fix go l : Forall P l :=
      match l with [] => Forall_nil_2 _ | x :: l => Forall_cons_2 _ _ _ (pyval_ind' x) (go l) end) l)
  | PDict kvs => HDict kvs ((fix go l : Forall (fun kv => P kv.2) l :=
      match l with [] => Forall_nil_2 _ | x :: l => Forall_cons_2 _ _ _ (pyval_ind' x.2) (go l) end) kvs)
  end.
End PyvalInd.

Lemma PStr_inj a b : PStr a = PStr b -> a = b.
Proof. by intros [= ->]. Qed.

(** [bool(v)]. *)
Definition truthy (v : pyval) : bool :=
  match v with
  | PNone | PBool false | PInt 0 | PStr [] | PEnum [] | PList [] | PTuple [] | PDict [] => false
  | PFloat r => negb (str_eqb r (py "0.0") || str_eqb r (py "-0.0"))
  | _ => true
  end.

(** [d.get(key)] of a dictionary with distinct keys. *)
Fixpoint assoc {A} (k : pystr) (kvs : list (list Z * A)) : option A :=
  match kvs with
  | [] => None
  | (k', v) :: kvs => if str_eqb k k' then Some v else assoc k kvs
  end.

(** [set(d) == set(keys)] for a dictionary with distinct keys. *)
Definition keys_are (keys : list pystr) {A} (kvs : list (list Z * A)) : bool :=
  forallb (fun kv => existsb (str_eqb kv.1) keys) kvs
  && forallb (fun k => existsb (fun kv => str_eqb k kv.1) kvs) keys.

(** [d[key] = v]: replaces the entry in place or appends it. *)
Fixpoint dict_set (kvs : list (list Z * pyval)) (key : pystr) (v : pyval) : list (list Z * pyval) :=
  match kvs with
  | [] => [(key, v)]
  | (k, w) :: kvs => if str_eqb key k then (k, v) :: kvs else (k, w) :: dict_set kvs key v
  end.

(** ** String encoding *)

Definition hex4 (n : Z) : pystr :=
  [hex_digit (n / 4096 mod 16); hex_digit (n / 256 mod 16); hex_digit (n / 16 mod 16); hex_digit (n mod 16)].

(** py_encode_basestring_ascii, one code point. *)
Definition json_escape (c : Z) : pystr :=
  if c =? 34 then [92; 34]
  else if c =? 92 then [92; 92]
  else if c =? 8 then [92; 98]
  else if c =? 12 then [92; 102]
  else if c =? 10 then [92; 110]
  else if c =? 13 then [92; 114]
  else if c =? 9 then [92; 116]
  else if (32 <=? c) && (c <=? 126) then [c]
  else if c <? 65536 then [92; 117] ++ hex4 c
  else
    let n := c - 65536 in
    [92; 117] ++ hex4 (55296 + n / 1024) ++ [92; 117] ++ hex4 (56320 + n mod 1024).

Definition json_str (s : pystr) : pystr := [34] ++ (s ≫= json_escape) ++ [34].

(** ** json.dumps *)

Fixpoint join (sep : pystr) (l : list pystr) : pystr :=
  match l with
  | [] => []
  | [x] => x
  | x :: l => x ++ sep ++ join sep l
  end.

Definition json_item (kv : list Z * list Z) : pystr := json_str kv.1 ++ [58] ++ kv.2.

(** [str(dt)]: microseconds are dropped when they are zero, and the UTC offset
    is printed in whole minutes. *)
Definition str_of_offset (o : Z) : pystr :=
  let m := Z.abs o / 60000000 in
  (if o <? 0 then [45] else [43])
  ++ zpad 2 (str_of_Z (m / 60)) ++ [58] ++ zpad 2 (str_of_Z (m mod 60)).

Definition str_of_datetime (o : option Z) (t : Z) : pystr :=
  let clock := drop 11 (iso_us t) in
  take 10 (iso_us t) ++ [32] ++ (if t mod 1000000 =? 0 then take 8 clock else clock)
  ++ (match o with None => [] | Some o => str_of_offset o end).

Fixpoint json_dumps (v : pyval) : pystr :=
  match v with
  | PNone => py "null"
  | PBool true => py "true"
  | PBool false => py "false"
  | PInt n => str_of_Z n
  | PFloat r => r
  | PStr s => json_str s
  | PEnum s => json_str s
  | PUuid u => json_str (uuid_str u)
  | PDatetime o t => json_str (str_of_datetime o t)
  | PList l => [91] ++ join [44] (map json_dumps l) ++ [93]
  | PTuple l => [91] ++ join [44] (map json_dumps l) ++ [93]
  | PDict kvs =>
      [123] ++ join [44] (map json_item
        (order_by fst (map (fun kv => (kv.1, json_dumps kv.2)) kvs))) ++ [125]
  end.

(** [json.dumps(v, default=str)]: insertion order and spaced separators. *)
Fixpoint json_dumps_plain (v : pyval) : pystr :=
  match v with
  | PList l | PTuple l => [91] ++ join [44; 32] (map json_dumps_plain l) ++ [93]
  | PDict kvs =>
      [123] ++ join [44; 32] (map (fun kv => json_str kv.1 ++ [58; 32] ++ json_dumps_plain kv.2) kvs) ++ [125]
  | _ => json_dumps v
  end.

(** [json.dumps(v, separators=(",", ":"))]: insertion order. *)
Fixpoint json_dumps_compact (v : pyval) : pystr :=
  match v with
  | PList l | PTuple l => [91] ++ join [44] (map json_dumps_compact l) ++ [93]
  | PDict kvs => [123] ++ join [44] (map (fun kv => json_str kv.1 ++ [58] ++ json_dumps_compact kv.2) kvs) ++ [125]
  | _ => json_dumps v
  end.

(** [json.dumps(v, separators=(",", ":"), ensure_ascii=False)]: only the
    quote, the backslash and control characters are escaped. *)
Definition json_escape_raw (c : Z) : pystr :=
  if (127 <=? c) then [c] else json_escape c.
Definition json_str_raw (s : pystr) : pystr := [34] ++ (s ≫= json_escape_raw) ++ [34].
Fixpoint json_dumps_raw (v : pyval) : pystr :=
  match v with
  | PStr s => json_str_raw s
  | PList l | PTuple l => [91] ++ join [44] (map json_dumps_raw l) ++ [93]
  | PDict kvs => [123] ++ join [44] (map (fun kv => json_str_raw kv.1 ++ [58] ++ json_dumps_raw kv.2) kvs) ++ [125]
  | _ => json_dumps v
  end.

Example json_dumps_example :
  json_dumps (PDict [(py "b", PList [PInt (-5); PNone; PBool true]);
                     (py "a", PDict [(py "x", PStr [233; 128512])])])
  = py "{" ++ json_str (py "a") ++ py ":{" ++ json_str (py "x") ++ py ":" ++ [34]
    ++ py "\u00e9\ud83d\ude00" ++ [34] ++ py "}," ++ json_str (py "b") ++ py ":[-5,null,true]}".
Proof. vm_compute. reflexivity. Qed.

(** ** Injectivity of the encoding *)

(** A value with its dictionaries listed in key order, which is all that
    [sort_keys=True] forgets. *)
Fixpoint json_norm (v : pyval) : pyval :=
  match v with
  | PList l => PList (map json_norm l)
  | PTuple l => PList (map json_norm l)
  | PDict kvs => PDict (order_by fst (map (fun kv => (kv.1, json_norm kv.2)) kvs))
  | _ => v
  end.

(** Unicode scalar values: what a UTF-8 database or a UTF-8 request can hold. *)
Definition is_scalar (c : Z) : bool :=
  (0 <=? c) && (c <? 1114112) && negb ((55296 <=? c) && (c <=? 57343)).
Definition scalar_str (s : pystr) : bool := forallb is_scalar s.

Definition is_delim (c : Z) : bool := (c =? 44) || (c =? 93) || (c =? 125).

(** The text of a float: a number token that no integer has. *)
Definition float_text (r : pystr) : bool :=
  forallb (fun c => negb (is_delim c)) r && negb (forallb is_digitish r)
  && match r with
     | c :: _ => negb (existsb (Z.eqb c) [34; 91; 123; 110; 116; 102])
     | [] => false
     end.

(** Values that reach the encoder after canonicalisation. *)
Fixpoint json_ok (v : pyval) : bool :=
  match v with
  | PNone | PBool _ | PInt _ => true
  | PFloat r => float_text r
  | PStr s => scalar_str s
  | PList l => forallb json_ok l
  | PDict kvs =>
      bool_decide (NoDup (map fst kvs)) && forallb (fun kv => scalar_str kv.1 && json_ok kv.2) kvs
  | PUuid _ | PDatetime _ _ | PEnum _ | PTuple _ => false
  end.

Lemma hex_digit_inj a b : 0 <= a < 16 -> 0 <= b < 16 -> hex_digit a = hex_digit b -> a = b.
Proof. intros Ha Hb E. apply (f_equal hex_val) in E. rewrite !hex_val_digit in E by done. by injection E. Qed.

Lemma hex4_inj n m r1 r2 :
  0 <= n < 65536 -> 0 <= m < 65536 -> hex4 n ++ r1 = hex4 m ++ r2 -> n = m /\ r1 = r2.
Proof.
  intros Hn Hm [= E1 E2 E3 E4 ->]. split; [|done].
  apply hex_digit_inj in E1, E2, E3, E4; try (apply Z.mod_pos_bound; lia).
  Z.to_euclidean_division_equations. lia.
Qed.

(** The single-letter escapes and what they stand for. *)
Definition unescape (d : Z) : Z :=
  if d =? 98 then 8 else if d =? 102 then 12 else if d =? 110 then 10
  else if d =? 114 then 13 else if d =? 116 then 9 else d.

Inductive escape_view (c : Z) : pystr -> Prop :=
| EscNamed d : d <> 117 -> c = unescape d -> escape_view c [92; d]
| EscLit : c <> 34 -> c <> 92 -> escape_view c [c]
| EscBmp h : 0 <= c < 65536 -> ~ (55296 <= c <= 57343) -> h = hex4 c ->
    escape_view c ([92; 117] ++ h)
| EscAstral h t : 65536 <= c < 1114112 -> h = hex4 (55296 + (c - 65536) / 1024) ->
    t = hex4 (56320 + (c - 65536) mod 1024) ->
    escape_view c ([92; 117] ++ h ++ [92; 117] ++ t).

Lemma json_escape_view c : is_scalar c = true -> escape_view c (json_escape c).
Proof.
  unfold is_scalar, json_escape. rewrite !andb_true_iff, negb_true_iff, andb_false_iff,
    Z.leb_le, Z.ltb_lt, !Z.leb_gt. intros [[H0 H1] H2].
  repeat (match goal with |- context [if ?c =? ?k then _ else _] => destruct (Z.eqb_spec c k) end;
    [subst; by apply EscNamed|]).
  destruct (_ && _) eqn:?; [by apply EscLit|].
  destruct (Z.ltb_spec c 65536); [apply EscBmp; [lia..|done] | apply EscAstral; [lia|done..]].
Qed.

Lemma json_escape_inj c d r1 r2 :
  is_scalar c = true -> is_scalar d = true ->
  json_escape c ++ r1 = json_escape d ++ r2 -> c = d /\ r1 = r2.
Proof.
  intros [c1 Hn1 Hc1|Hq1 Hb1|h1 Hr1 Hs1 Hh1|h1 t1 Hr1 Hh1 Ht1]%json_escape_view
         [d1 Hn2 Hd1|Hq2 Hb2|h2 Hr2 Hs2 Hh2|h2 t2 Hr2 Hh2 Ht2]%json_escape_view;
    rewrite <-?app_assoc; cbn [app]; intros E; try (injection E; intros; congruence);
    try (injection E; intros; split; congruence); injection E as E; rewrite Hh1, Hh2 in E.
  - by apply hex4_inj in E.
  - exfalso. apply hex4_inj in E as [E _]; [|done|]; Z.to_euclidean_division_equations; lia.
  - exfalso. apply hex4_inj in E as [E _]; [| |done]; Z.to_euclidean_division_equations; lia.
  - apply hex4_inj in E as [E1 E]; [|Z.to_euclidean_division_equations; lia..].
    injection E as E. rewrite Ht1, Ht2 in E.
    apply hex4_inj in E as [E2 E]; [|Z.to_euclidean_division_equations; lia..].
    split; [Z.to_euclidean_division_equations; lia | done].
Qed.

Lemma json_escape_not_quote c : is_scalar c = true -> exists x t, json_escape c = x :: t /\ x <> 34.
Proof. intros []%json_escape_view; cbn; eauto. Qed.

Lemma json_str_inj s s' r1 r2 :
  scalar_str s = true -> scalar_str s' = true ->
  json_str s ++ r1 = json_str s' ++ r2 -> s = s' /\ r1 = r2.
Proof.
  unfold json_str. rewrite <-!app_assoc. cbn [app]. intros Hs Hs' [= E].
  revert s' Hs' E. induction s as [|c s IH]; intros s' Hs' E; cbn in Hs.
  - destruct s' as [|d s']; [by injection E|]. exfalso. cbn in E, Hs'.
    apply andb_prop in Hs' as [(x & t & Ex & Hx)%json_escape_not_quote _].
    rewrite Ex in E. by injection E.
  - apply andb_prop in Hs as [Hc Hs]. destruct s' as [|d s']; cbn in E, Hs'.
    + exfalso. apply json_escape_not_quote in Hc as (x & t & Ex & Hx).
      rewrite Ex in E. by injection E.
    + apply andb_prop in Hs' as [Hd Hs']. rewrite <-!app_assoc in E.
      apply json_escape_inj in E as [-> E]; [|done..].
      destruct (IH Hs s' Hs' E) as [-> ->]. done.
Qed.

(** Number and keyword tokens end at a delimiter. *)
Definition stops (r : pystr) : Prop := match r with [] => True | c :: _ => is_delim c = true end.

Lemma token_inj t1 t2 r1 r2 :
  forallb (fun c => negb (is_delim c)) t1 = true -> forallb (fun c => negb (is_delim c)) t2 = true ->
  stops r1 -> stops r2 -> t1 ++ r1 = t2 ++ r2 -> t1 = t2 /\ r1 = r2.
Proof.
  revert t2. induction t1 as [|a t1 IH]; intros [|b t2] H1 H2 S1 S2 E; cbn in *; try done.
  - subst r1. cbn in S1. by rewrite S1 in H2.
  - subst r2. cbn in S2. by rewrite S2 in H1.
  - injection E as -> E. apply andb_prop in H1 as [_ H1], H2 as [_ H2].
    destruct (IH t2 H1 H2 S1 S2 E) as [-> ->]. done.
Qed.

Section Sequences.
(** A bracketed, comma-separated sequence decodes when its items do. *)
Context {A : Type} (enc : A -> pystr) (ok : A -> Prop) (R : A -> A -> Prop) (close : Z).
Context (Hclose : is_delim close = true) (Hcomma : close <> 44).
Context (Hhead : forall x, ok x -> exists c t, enc x = c :: t /\ is_delim c = false).

Definition decodes (x : A) : Prop := forall y r1 r2,
  ok y -> stops r1 -> stops r2 -> enc x ++ r1 = enc y ++ r2 -> R x y /\ r1 = r2.

Lemma join_cons x l : join [44] (map enc (x :: l)) =
  enc x ++ match l with [] => [] | _ => 44 :: join [44] (map enc l) end.
Proof. destruct l; cbn; [by rewrite app_nil_r | done]. Qed.

Lemma join_inj l l' r1 r2 :
  Forall ok l -> Forall decodes l -> Forall ok l' ->
  join [44] (map enc l) ++ close :: r1 = join [44] (map enc l') ++ close :: r2 ->
  Forall2 R l l' /\ r1 = r2.
Proof.
  intros Hok Hl. revert l'. induction l as [|x l IH]; intros l' Hl' E.
  - destruct l' as [|y l']; [by injection E|]. exfalso.
    apply Forall_cons in Hl' as [(c & t & Ec & Hc)%Hhead _].
    rewrite join_cons, Ec in E. injection E as <- _. congruence.
  - apply Forall_cons in Hok as [Hx Hok]. apply Forall_cons in Hl as [Dx Hl].
    destruct l' as [|y l'].
    + exfalso. apply Hhead in Hx as (c & t & Ec & Hc).
      rewrite join_cons, Ec in E. injection E as -> _. congruence.
    + apply Forall_cons in Hl' as [Hy Hl'].
      rewrite !join_cons, <-!app_assoc in E.
      apply Dx in E as [HR E]; [|done|by destruct l|by destruct l'].
      destruct l as [|x2 l], l' as [|y2 l']; cbn in E.
      * injection E as ->. eauto using Forall2.
      * injection E as E _. congruence.
      * injection E as E _. congruence.
      * injection E as E. destruct (IH Hok Hl (y2 :: l') Hl' E). eauto using Forall2.
Qed.
End Sequences.

Definition atom_text (v : pyval) : option pystr :=
  match v with
  | PNone => Some (py "null")
  | PBool true => Some (py "true")
  | PBool false => Some (py "false")
  | PInt n => Some (str_of_Z n)
  | PFloat r => Some r
  | _ => None
  end.

Definition opener (c : Z) : bool := (c =? 34) || (c =? 91) || (c =? 123).

Lemma digitish_not_delim s :
  forallb is_digitish s = true -> forallb (fun c => negb (is_delim c)) s = true.
Proof.
  rewrite !forallb_forall. intros H c Hc. specialize (H c Hc).
  unfold is_digitish, is_digit, is_delim in *. lia.
Qed.

Lemma atom_text_shape v t :
  atom_text v = Some t -> json_ok v = true ->
  forallb (fun c => negb (is_delim c)) t = true /\ exists c r, t = c :: r /\ opener c = false.
Proof.
  destruct v as [|[]|n|r| | | | | | |]; cbn; intros [= <-] Hok; try (split; [done|eauto]).
  - destruct (str_of_Z_digitish n) as [Hd Hn]. split; [by apply digitish_not_delim|].
    destruct (str_of_Z n) as [|c r] eqn:E; [done|]. exists c, r. split; [done|].
    cbn in Hd. apply andb_prop in Hd as [Hd _]. unfold is_digitish, is_digit, opener in *. lia.
  - unfold float_text in Hok. apply andb_prop in Hok as [[H1 H2]%andb_prop H3]. split; [done|].
    destruct r as [|c r]; [done|]. exists c, r. split; [done|]. cbn in H3. unfold opener. lia.
Qed.

Lemma atom_text_inj v w t :
  atom_text v = Some t -> atom_text w = Some t -> json_ok v = true -> json_ok w = true -> v = w.
Proof.
  assert (Hint : forall n s, str_of_Z n = s -> forallb is_digitish s = true).
  { intros n s <-. apply str_of_Z_digitish. }
  intros E1 E2 Hv Hw. rewrite <-E1 in E2.
  destruct v as [|[]|n|r| | | | | | |], w as [|[]|m|q| | | | | | |]; cbn in Hv, Hw; try done; clear E1;
    unfold atom_text in E2; apply (inj Some) in E2; try done;
    try (by apply Hint in E2); try (by (symmetry in E2; apply Hint in E2)); subst; try done.
  - f_equal. by apply str_of_Z_inj.
  - exfalso. unfold float_text in Hw. destruct (str_of_Z_digitish n) as [Hd _]. rewrite Hd in Hw. lia.
  - exfalso. unfold float_text in Hv. destruct (str_of_Z_digitish m) as [Hd _]. rewrite Hd in Hv. lia.
Qed.

Lemma json_dumps_head v : json_ok v = true -> exists c t, json_dumps v = c :: t /\ is_delim c = false.
Proof.
  intros Hok. destruct (atom_text v) as [t|] eqn:E.
  - destruct (atom_text_shape v t E Hok) as [Hd (c & r & -> & _)].
    exists c, r. split; [by destruct v as [|[]| | | | | | | | |]; simplify_eq/=|].
    cbn in Hd. by apply andb_prop in Hd as [Hd%negb_true_iff _].
  - destruct v as [|[]| | | | | | | | |]; try done; eexists _, _; (split; [reflexivity|done]).
Qed.

Lemma order_by_map_values {A B} (f : A -> B) (kvs : list (list Z * A)) :
  NoDup (map fst kvs) ->
  order_by fst (map (fun kv => (kv.1, f kv.2)) kvs)
  = map (fun kv => (kv.1, f kv.2)) (order_by fst kvs).
Proof.
  intros Hd. set (g := fun kv : list Z * A => (kv.1, f kv.2)).
  assert (Hk : forall l, map fst (map g l) = map fst l) by (intros; by rewrite map_map).
  apply order_by_unique.
  - intros x y Hx Hy E. apply (nodup_map_inj fst (map g kvs)); [|done..].
    by rewrite <-(Hk kvs) in Hd.
  - pose proof (order_by_sorted fst kvs) as Hs. induction Hs as [|x l _ IH Hf]; cbn; constructor; [done|].
    apply Forall_fmap. exact Hf.
  - apply fmap_Permutation, order_by_perm.
Qed.

Definition same_item (a b : list Z * pyval) : Prop :=
  a.1 = b.1 /\ json_norm a.2 = json_norm b.2.
Definition item_ok (kv : list Z * pyval) : Prop := scalar_str kv.1 = true /\ json_ok kv.2 = true.

Lemma json_ok_dict kvs :
  json_ok (PDict kvs) = true <-> NoDup (map fst kvs) /\ Forall item_ok kvs.
Proof.
  cbn. rewrite andb_true_iff, bool_decide_eq_true, forallb_forall, Forall_forall.
  unfold item_ok. setoid_rewrite andb_true_iff. setoid_rewrite list_elem_of_In. done.
Qed.

Lemma json_dumps_dict kvs : NoDup (map fst kvs) ->
  json_dumps (PDict kvs)
  = 123 :: join [44] (map (fun kv => json_str kv.1 ++ [58] ++ json_dumps kv.2) (order_by fst kvs)) ++ [125].
Proof.
  intros Hd. cbn [json_dumps]. rewrite order_by_map_values by done.
  by rewrite map_map.
Qed.

Lemma json_norm_dict kvs kvs' : NoDup (map fst kvs) -> NoDup (map fst kvs') ->
  Forall2 same_item (order_by fst kvs) (order_by fst kvs') ->
  json_norm (PDict kvs) = json_norm (PDict kvs').
Proof.
  intros Hd Hd' H. cbn [json_norm]. rewrite !order_by_map_values by done. f_equal.
  induction H as [|x y l l' [H1 H2] _ IH]; cbn; [done|]. congruence.
Qed.

Abbreviation decodable := (decodes json_dumps (fun w => json_ok w = true)
                             (fun v w => json_norm v = json_norm w)).

Lemma json_dumps_atom v t : atom_text v = Some t -> json_dumps v = t.
Proof. by destruct v as [|[]| | | | | | | | |]; intros; simplify_eq/=. Qed.

Lemma atom_not_composite v w t r1 r2 :
  atom_text v = Some t -> atom_text w = None -> json_ok v = true -> json_ok w = true ->
  json_dumps v ++ r1 <> json_dumps w ++ r2.
Proof.
  intros Ht Hw Hv Hok E. rewrite (json_dumps_atom v t Ht) in E.
  destruct (atom_text_shape v t Ht Hv) as [_ (c & r & -> & Hc)].
  destruct w as [|[]| | | | | | | | |]; try done; cbn in E; by injection E as -> _.
Qed.

Lemma atom_decodes v t : atom_text v = Some t -> json_ok v = true -> decodable v.
Proof.
  intros Ht Hv w r1 r2 Hw S1 S2 E.
  destruct (atom_text w) as [t'|] eqn:Et; [|by eapply atom_not_composite in E].
  rewrite (json_dumps_atom v t Ht), (json_dumps_atom w t' Et) in E.
  apply token_inj in E as [<- ->]; [| by eapply atom_text_shape | by eapply atom_text_shape |done..].
  split; [|done]. f_equal. by eapply atom_text_inj.
Qed.

Lemma item_decodes kv : scalar_str kv.1 = true -> decodable kv.2 ->
  decodes (fun kv => json_str kv.1 ++ [58] ++ json_dumps kv.2) item_ok same_item kv.
Proof.
  intros Hs Hv [k w] r1 r2 [Hk Hw] S1 S2 E. cbn [fst snd] in *. rewrite <-!app_assoc in E.
  apply json_str_inj in E as [Ek E]; [|done..]. cbn [app] in E. injection E as E.
  apply Hv in E as [Hn ->]; [|done..]. done.
Qed.

Lemma dict_decodes kvs :
  json_ok (PDict kvs) = true -> Forall (fun kv => decodable kv.2) kvs ->
  decodable (PDict kvs).
Proof.
  intros [Hd Hf]%json_ok_dict Hdec w r1 r2 Hw S1 S2 E.
  destruct (atom_text w) as [t|] eqn:Et; [by symmetry in E; eapply atom_not_composite in E; [|..|apply json_ok_dict]|].
  destruct w as [|[]| | | | | | | | |kvs']; try done; try (by cbn in E; injection E).
  apply json_ok_dict in Hw as [Hd' Hf'].
  rewrite !json_dumps_dict in E by done. cbn [app] in E. injection E as E.
  rewrite <-!app_assoc in E. cbn [app] in E.
  eapply (join_inj _ item_ok same_item) in E as [HR ->];
    [split; [by apply json_norm_dict|done] | done | done | | | | ].
  - intros [k v] [_ Hv]. eexists _, _. split; [reflexivity|done].
  - by rewrite order_by_perm.
  - rewrite order_by_perm. rewrite Forall_forall in *. intros kv Hkv.
    apply item_decodes; [apply Hf, Hkv | apply Hdec, Hkv].
  - by rewrite order_by_perm.
Qed.

Lemma list_decodes l :
  json_ok (PList l) = true -> Forall decodable l -> decodable (PList l).
Proof.
  intros Hv Hdec w r1 r2 Hw S1 S2 E.
  destruct (atom_text w) as [t|] eqn:Et; [by symmetry in E; eapply atom_not_composite in E|].
  destruct w as [|[]| | | | | | |l'| |]; try done; try (by cbn in E; injection E).
  cbn in Hv, Hw. rewrite forallb_forall in Hv, Hw.
  cbn [json_dumps app] in E. injection E as E. rewrite <-!app_assoc in E. cbn [app] in E.
  eapply (join_inj json_dumps (fun w => json_ok w = true) (fun v w => json_norm v = json_norm w))
    in E as [HR ->]; [split; [|done] | done | done | apply json_dumps_head | | done | ].
  - cbn [json_norm]. f_equal. clear -HR. induction HR as [|x y ? ? Hxy _ IH]; cbn [map]; [done|]. by rewrite Hxy, IH.
  - apply Forall_forall. intros x Hx. by apply Hv, list_elem_of_In.
  - apply Forall_forall. intros x Hx. by apply Hw, list_elem_of_In.
Qed.

(** Two encodings that continue the same text came from values equal up to
    the order of dictionary entries. *)
Lemma json_dumps_decodes v : json_ok v = true -> decodable v.
Proof.
  induction v as [|[]|n|r|s|u|o t|s|l IH|l IH|kvs IH] using pyval_ind'; intros Hv;
    try (by eapply atom_decodes; [reflexivity|exact Hv]); try done.
  - intros w r1 r2 Hw S1 S2 E.
    destruct (atom_text w) as [t|] eqn:Et; [by symmetry in E; eapply atom_not_composite in E|].
    destruct w as [|[]| | |s'| | | | | |]; try done; try (by cbn in E; injection E).
    cbn in Hv, Hw. apply json_str_inj in E as [-> ->]; done.
  - apply list_decodes; [done|]. cbn in Hv. rewrite forallb_forall in Hv. rewrite Forall_forall in *.
    intros x Hx. apply IH; [done|]. by apply Hv, list_elem_of_In.
  - apply dict_decodes; [done|]. apply json_ok_dict in Hv as [_ Hf]. rewrite Forall_forall in *.
    intros kv Hkv. apply IH; [done|]. by apply Hf.
Qed.

Lemma json_dumps_inj v w :
  json_ok v = true -> json_ok w = true -> json_dumps v = json_dumps w -> json_norm v = json_norm w.
Proof.
  intros Hv Hw E. apply (json_dumps_decodes v Hv w [] []); [done..|]. by rewrite !app_nil_r.
Qed.

Lemma json_norm_dict_lookup a b k v w :
  json_norm (PDict a) = json_norm (PDict b) -> NoDup (map fst b) ->
  (k, v) ∈ a -> (k, w) ∈ b -> json_norm v = json_norm w.
Proof.
  intros E Hd Hv Hw. cbn [json_norm] in E. injection E as E.
  assert (Hin : (k, json_norm v) ∈ map (fun kv => (kv.1, json_norm kv.2)) b).
  { apply (elem_of_order_by fst). rewrite <-E. apply elem_of_order_by.
    change (k, json_norm v) with ((fun kv : list Z * pyval => (kv.1, json_norm kv.2)) (k, v)).
    by apply list_elem_of_fmap_2. }
  apply list_elem_of_fmap in Hin as ([k' u] & [= -> Eu] & Hu).
  assert ((k', u) = (k', w)) as [= ->] by (by apply (nodup_map_inj fst b)). done.
Qed.

Lemma json_ok_ascii_str s : scalar_str s = true -> json_ok (PStr s) = true.
Proof. done. Qed.

Lemma scalar_str_app s t : scalar_str (s ++ t) = scalar_str s && scalar_str t.
Proof. apply forallb_app. Qed.

Lemma scalar_str_impl (p : Z -> bool) s :
  (forall c, p c = true -> is_scalar c = true) -> forallb p s = true -> scalar_str s = true.
Proof. unfold scalar_str. rewrite !forallb_forall. auto. Qed.

Lemma digit_scalar c : is_digit c = true -> is_scalar c = true.
Proof. unfold is_digit, is_scalar. lia. Qed.
Lemma lower_hex_scalar c : is_lower_hex c = true -> is_scalar c = true.
Proof. unfold is_lower_hex, is_scalar. lia. Qed.

Lemma scalar_str_take n s : scalar_str s = true -> scalar_str (take n s) = true.
Proof. intros H. rewrite <-(take_drop n s), scalar_str_app in H. by apply andb_prop in H as [? _]. Qed.
Lemma scalar_str_drop n s : scalar_str s = true -> scalar_str (drop n s) = true.
Proof. intros H. rewrite <-(take_drop n s), scalar_str_app in H. by apply andb_prop in H as [_ ?]. Qed.

Lemma uuid_str_scalar u : scalar_str (uuid_str u) = true.
Proof.
  assert (Hh : scalar_str (uuid_hex u) = true).
  { eapply scalar_str_impl; [apply lower_hex_scalar|]. apply hex_of_bytes_lower, be_bytes_byte. }
  unfold uuid_str. rewrite !scalar_str_app.
  rewrite !scalar_str_take by (by rewrite ?scalar_str_drop). by rewrite scalar_str_drop.
Qed.

Lemma zpad_scalar n a : 0 <= a -> scalar_str (zpad n (str_of_Z a)) = true.
Proof. intros Ha. eapply scalar_str_impl; [apply digit_scalar|]. by apply zpad_digits. Qed.

Lemma iso_us_scalar t : instant_ok t -> scalar_str (iso_us t) = true.
Proof.
  intros Ht. unfold iso_us. unfold instant_ok, us_per_day in *.
  assert (Dt : -719468 <= t / 86400000000) by (apply Z.div_le_lower_bound; lia).
  destruct (civil_of_days _) as [[y m] d] eqn:Et.
  destruct (civil_of_days_nonneg _ _ _ _ Dt Et) as (? & ? & ?).
  pose proof (Z.mod_pos_bound t 86400000000 eq_refl) as Rt.
  rewrite !scalar_str_app, !zpad_scalar by first [done | apply Z.div_pos; lia | apply Z.mod_pos_bound; lia].
  done.
Qed.
