(* ===== verification/JsonLoads.v ===== *)
(** * json.loads

    The standard library's JSON scanner on a string: white space, literals,
    numbers, strings with their escapes and surrogate pairs, arrays and objects
    (a repeated key keeps its first place and its last value).  The conversion
    of a decimal literal to a float and back is the class [Floats].  The main
    lemmas say that the scanner reads back what [json.dumps] wrote, with or
    without [ensure_ascii]. *)

From S2P Require Import Prelude PyStr Json.
Local Open Scope Z_scope.

(** [repr(float(text))] of a decimal literal. *)
Class Floats := { float_repr : list Z -> list Z }.

Definition json_decode_error : exc := ValueError "JSONDecodeError".
Definition is_decode_error (e : exc) : bool :=
  match e with ValueError what => String.eqb what "JSONDecodeError" | _ => false end.
(** [int] refuses to convert more than 4300 digits. *)
Definition int_digits_error : exc := ValueError "int string conversion".
Definition INT_MAX_STR_DIGITS : nat := 4300.

(** ** Tokens *)

Definition is_json_ws (c : Z) : bool := (c =? 32) || (c =? 9) || (c =? 10) || (c =? 13).
Definition skip_ws (s : pystr) : pystr := lstrip_when is_json_ws s.

Definition hex4_val (a b c d : Z) : option Z :=
  a ← hex_val a; b ← hex_val b; c ← hex_val c; d ← hex_val d; Some (4096 * a + 256 * b + 16 * c + d).

(** The letter of a short escape. *)
Definition short_escape (d : Z) : option Z :=
  if (d =? 34) || (d =? 92) || (d =? 47) then Some d
  else if d =? 98 then Some 8 else if d =? 102 then Some 12 else if d =? 110 then Some 10
  else if d =? 114 then Some 13 else if d =? 116 then Some 9 else None.

Definition prepend (c : Z) (r : option (list Z * list Z)) : option (list Z * list Z) :=
  match r with Some (t, rest) => Some (c :: t, rest) | None => None end.

(** The text of a string up to its closing quote, and what follows. *)
Fixpoint scan_string (s : pystr) : option (list Z * list Z) :=
  match s with
  | [] => None
  | c :: s =>
      if c =? 34 then Some ([], s)
      else if c =? 92 then
        match s with
        | [] => None
        | e :: s1 =>
            if e =? 117 then
              match s1 with
              | a :: b :: c :: d :: s2 =>
                  match hex4_val a b c d with
                  | None => None
                  | Some u =>
                      if (55296 <=? u) && (u <=? 56319) then
                        match s2 with
                        | x :: y :: a :: b :: c :: d :: s3 =>
                            if (x =? 92) && (y =? 117) then
                              match hex4_val a b c d with
                              | None => None
                              | Some v =>
                                  if (56320 <=? v) && (v <=? 57343)
                                  then prepend (65536 + (u - 55296) * 1024 + (v - 56320)) (scan_string s3)
                                  else prepend u (scan_string s2)
                              end
                            else prepend u (scan_string s2)
                        | _ => prepend u (scan_string s2)
                        end
                      else prepend u (scan_string s2)
                  end
              | _ => None
              end
            else match short_escape e with Some c => prepend c (scan_string s1) | None => None end
        end
      else if c <? 32 then None
      else prepend c (scan_string s)
  end.

Fixpoint span (p : Z -> bool) (s : pystr) : list Z * list Z :=
  match s with
  | c :: s' => if p c then let '(a, b) := span p s' in (c :: a, b) else ([], s)
  | [] => ([], [])
  end.

(** The fraction and the exponent of a number, each present only in full. *)
Definition scan_fraction (s : pystr) : list Z * list Z :=
  match s with
  | 46 :: s' => match span is_digit s' with ([], _) => ([], s) | (ds, r) => (46 :: ds, r) end
  | _ => ([], s)
  end.
Definition scan_exponent (s : pystr) : list Z * list Z :=
  match s with
  | e :: s' =>
      if (e =? 101) || (e =? 69) then
        let '(sign, s2) := match s' with
                           | c :: s2 => if (c =? 43) || (c =? 45) then ([c], s2) else ([], s')
                           | [] => ([], [])
                           end in
        match span is_digit s2 with ([], _) => ([], s) | (ds, r) => (e :: sign ++ ds, r) end
      else ([], s)
  | [] => ([], s)
  end.

(** A number: its sign, the digits of its integer part, the rest of its text. *)
Definition scan_digits (s : pystr) : option (list Z * list Z) :=
  match s with
  | 48 :: s' => Some ([48], s')
  | _ => match span is_digit s with ([], _) => None | (ds, r) => Some (ds, r) end
  end.

Definition int_of_digits (ds : pystr) : res Z :=
  if (INT_MAX_STR_DIGITS <? length ds)%nat then raise int_digits_error else mret (dec_val ds).

Section Floats.
Context `{Floats}.

Definition scan_number (s : pystr) : res (pyval * list Z) :=
  let '(sign, s1) := match s with 45 :: s1 => ([45], s1) | _ => ([], s) end in
  match scan_digits s1 with
  | None => raise json_decode_error
  | Some (ds, s2) =>
      let '(frac, s3) := scan_fraction s2 in
      let '(expo, s4) := scan_exponent s3 in
      match frac ++ expo with
      | [] => n ← int_of_digits ds; mret (PInt (if (sign : list Z) then n else - n), s4)
      | _ => mret (PFloat (float_repr (sign ++ ds ++ frac ++ expo)), s4)
      end
  end.

(** ** Values *)

(** The remaining text after a prefix. *)
Definition after (prefix : string) (s : pystr) : option (list Z) :=
  if startswith (py prefix) s then Some (drop (length (py prefix)) s) else None.

(** The items of an array or an object up to the closing bracket; the input
    starts at an item, and [item] reads one. *)
Fixpoint scan_items {A} (item : pystr -> res (A * list Z)) (close : Z) (fuel : nat) (s : pystr) : res (list A * list Z) :=
  match fuel with
  | O => raise json_decode_error
  | S fuel =>
      '(x, s1) ← item s;
      match skip_ws s1 with
      | c :: s2 =>
          if c =? close then mret ([x], s2)
          else if c =? 44 then '(xs, s3) ← scan_items item close fuel (skip_ws s2); mret (x :: xs, s3)
          else raise json_decode_error
      | [] => raise json_decode_error
      end
  end.

Definition closes (close : Z) (s : pystr) : bool := match s with c :: _ => c =? close | [] => false end.

(** A member of an object. *)
Definition scan_member (value : pystr -> res (pyval * list Z)) (s : pystr) : res ((list Z * pyval) * list Z) :=
  if negb (closes 34 s) then raise json_decode_error
  else
    match scan_string (tail s) with
    | Some (key, s1) =>
        let s2 := skip_ws s1 in
        if negb (closes 58 s2) then raise json_decode_error
        else '(v, s3) ← value (skip_ws (tail s2)); mret ((key, v), s3)
    | None => raise json_decode_error
    end.

Definition dict_of_pairs (kvs : list (list Z * pyval)) : list (list Z * pyval) :=
  fold_left (fun d kv => dict_set d kv.1 kv.2) kvs [].

Definition scan_word (s : pystr) : res (pyval * list Z) :=
  match after "null" s, after "true" s, after "false" s, after "NaN" s, after "Infinity" s, after "-Infinity" s with
  | Some r, _, _, _, _, _ => mret (PNone, r)
  | _, Some r, _, _, _, _ => mret (PBool true, r)
  | _, _, Some r, _, _, _ => mret (PBool false, r)
  | _, _, _, Some r, _, _ => mret (PFloat (py "nan"), r)
  | _, _, _, _, Some r, _ => mret (PFloat (py "inf"), r)
  | _, _, _, _, _, Some r => mret (PFloat (py "-inf"), r)
  | _, _, _, _, _, _ => scan_number s
  end.

Fixpoint scan_once (fuel : nat) (s : pystr) : res (pyval * list Z) :=
  match fuel with
  | O => raise json_decode_error
  | S fuel =>
      match s with
      | [] => raise json_decode_error
      | c :: s1 =>
          if c =? 34 then
            match scan_string s1 with Some (t, r) => mret (PStr t, r) | None => raise json_decode_error end
          else if c =? 91 then
            let s2 := skip_ws s1 in
            if closes 93 s2 then mret (PList [], tail s2)
            else '(xs, r) ← scan_items (scan_once fuel) 93 fuel s2; mret (PList xs, r)
          else if c =? 123 then
            let s2 := skip_ws s1 in
            if closes 125 s2 then mret (PDict [], tail s2)
            else '(kvs, r) ← scan_items (scan_member (scan_once fuel)) 125 fuel s2; mret (PDict (dict_of_pairs kvs), r)
          else scan_word s
      end
  end.

(** Every scan consumes a character, so the length is fuel enough. *)
Definition json_loads (s : pystr) : res pyval :=
  '(v, r) ← scan_once (S (length s)) (skip_ws s);
  match skip_ws r with [] => mret v | _ => raise json_decode_error end.
End Floats.

(** ** Reading back what was written *)

Lemma skip_ws_id c s : is_json_ws c = false -> skip_ws (c :: s) = c :: s.
Proof. unfold skip_ws. cbn. by intros ->. Qed.

Lemma hex4_val_hex4 n : 0 <= n < 65536 ->
  hex4_val (hex_digit (n / 4096 mod 16)) (hex_digit (n / 256 mod 16)) (hex_digit (n / 16 mod 16)) (hex_digit (n mod 16)) = Some n.
Proof.
  intros Hn. unfold hex4_val. rewrite !hex_val_digit by (apply Z.mod_pos_bound; lia). cbn. f_equal.
  Z.to_euclidean_division_equations. lia.
Qed.

(** What a scanner must read of an escaped character. *)
Definition scans (esc : Z -> list Z) : Prop :=
  forall c t, is_scalar c = true -> scan_string (esc c ++ t) = prepend c (scan_string t).

Lemma scan_plain c t : c <> 34 -> c <> 92 -> 32 <= c -> scan_string (c :: t) = prepend c (scan_string t).
Proof.
  intros H1 H2 H3. cbn [scan_string]. by rewrite (proj2 (Z.eqb_neq c 34)), (proj2 (Z.eqb_neq c 92)), (proj2 (Z.ltb_ge c 32)).
Qed.

Lemma scan_u a b c d u t : hex4_val a b c d = Some u -> ~ 55296 <= u <= 56319 ->
  scan_string (92 :: 117 :: a :: b :: c :: d :: t) = prepend u (scan_string t).
Proof.
  intros E Hu. cbn [scan_string]. change (92 =? 34) with false. change (92 =? 92) with true. cbn iota. rewrite E.
  by replace ((55296 <=? u) && (u <=? 56319)) with false by lia.
Qed.

Lemma scan_pair a b c d a' b' c' d' u v t :
  hex4_val a b c d = Some u -> hex4_val a' b' c' d' = Some v -> 55296 <= u <= 56319 -> 56320 <= v <= 57343 ->
  scan_string (92 :: 117 :: a :: b :: c :: d :: 92 :: 117 :: a' :: b' :: c' :: d' :: t)
  = prepend (65536 + (u - 55296) * 1024 + (v - 56320)) (scan_string t).
Proof.
  intros E E' Hu Hv. cbn [scan_string]. change (92 =? 34) with false. change (92 =? 92) with true. cbn iota. rewrite E, E'.
  replace ((55296 <=? u) && (u <=? 56319)) with true by lia. by replace ((56320 <=? v) && (v <=? 57343)) with true by lia.
Qed.

Lemma escape_scans : scans json_escape.
Proof.
  intros c t Hs. assert (Hb : 0 <= c < 1114112 /\ ~ 55296 <= c <= 57343) by (unfold is_scalar in Hs; lia). clear Hs. unfold json_escape.
  repeat (match goal with |- context [if ?c =? ?k then _ else _] => destruct (Z.eqb_spec c k) end; [by subst|]).
  destruct ((32 <=? c) && _) eqn:Ep; [apply scan_plain; lia|]. destruct (Z.ltb_spec c 65536); cbn [app hex4].
  - apply scan_u; [apply hex4_val_hex4|]; lia.
  - erewrite scan_pair; [|apply hex4_val_hex4|apply hex4_val_hex4|..];
      [f_equal|..]; Z.to_euclidean_division_equations; lia.
Qed.

Lemma escape_raw_scans : scans json_escape_raw.
Proof.
  intros c t Hs. unfold json_escape_raw. destruct (Z.leb_spec 127 c); [apply scan_plain; lia|]. by apply escape_scans.
Qed.

Definition quoted (esc : Z -> list Z) (s : pystr) : pystr := [34] ++ (s ≫= esc) ++ [34].

Lemma scan_quoted esc s r : scans esc -> scalar_str s = true -> scan_string ((s ≫= esc) ++ 34 :: r) = Some (s, r).
Proof.
  intros He. induction s as [|c s IH]; [done|]. unfold scalar_str. cbn [forallb mbind list_bind].
  intros [Hc Hs]%andb_prop. rewrite <-app_assoc, He by done. change (list_bind _ _ esc s) with (s ≫= esc). by rewrite IH.
Qed.

(** *** Numbers *)

Lemma span_app p s ds r' rest :
  span p s = (ds, r') -> match rest with c :: _ => p c = false | [] => True end -> span p (s ++ rest) = (ds, r' ++ rest).
Proof.
  revert ds. induction s as [|c s IH]; intros ds; cbn.
  - intros [= <- <-] Hr. destruct rest as [|c rest]; cbn; [done|]. by rewrite Hr.
  - destruct (p c); [|by intros [= <- <-]]. destruct (span p s) as [a b] eqn:E. intros [= <- <-] Hr.
    by rewrite (IH _ eq_refl).
Qed.

Lemma span_all p s rest : forallb p s = true -> match rest with c :: _ => p c = false | [] => True end -> span p (s ++ rest) = (s, rest).
Proof.
  intros Hs Hr. induction s as [|c s IH]; cbn in *.
  - destruct rest as [|c rest]; cbn; [done|]. by rewrite Hr.
  - apply andb_prop in Hs as [-> Hs]. by rewrite IH.
Qed.

Lemma stops_digit rest : stops rest -> match rest with c :: _ => is_digit c = false | [] => True end.
Proof. destruct rest as [|c rest]; [done|]. cbn. unfold is_delim, is_digit. lia. Qed.

Lemma scan_fraction_app s a b rest : stops rest -> scan_fraction s = (a, b) -> scan_fraction (s ++ rest) = (a, b ++ rest).
Proof.
  intros Hr. destruct s as [|c s]; [|destruct (Z.eqb_spec c 46) as [->|Hc]].
  - intros [= <- <-]. destruct rest as [|c rest]; [done|]. cbn in Hr. unfold is_delim in Hr. cbn [app].
    unfold scan_fraction. destruct c as [|p|p]; try done. do 6 (destruct p as [p|p|]; try done).
  - cbn [scan_fraction app]. destruct (span is_digit s) as [ds r] eqn:E.
    rewrite (span_app _ _ _ _ rest E) by by apply stops_digit. destruct ds; by intros [= <- <-].
  - assert (Hf : forall u, scan_fraction (c :: u) = ([], c :: u)).
    { intros u. unfold scan_fraction. destruct c as [|p|p]; try done. do 6 (destruct p as [p|p|]; try done). }
    cbn [app]. rewrite !Hf. by intros [= <- <-].
Qed.

Lemma scan_exponent_app s a b rest : stops rest -> scan_exponent s = (a, b) -> scan_exponent (s ++ rest) = (a, b ++ rest).
Proof.
  intros Hr. assert (Hd := stops_digit _ Hr). destruct s as [|e s].
  - intros [= <- <-]. destruct rest as [|c rest]; [done|]. cbn in *. unfold is_delim in Hr.
    by replace ((c =? 101) || (c =? 69)) with false by lia.
  - cbn [scan_exponent app]. destruct ((e =? 101) || (e =? 69)); [|by intros [= <- <-]].
    destruct s as [|c s]; cbn [app].
    + cbn. intros [= <- <-]. destruct rest as [|c rest]; [done|]. unfold stops, is_delim in Hr.
      replace ((c =? 43) || (c =? 45)) with false by lia. cbn [span]. by rewrite Hd.
    + destruct ((c =? 43) || (c =? 45)).
      * destruct (span is_digit s) as [ds r] eqn:E. rewrite (span_app _ _ _ _ rest E Hd). destruct ds; by intros [= <- <-].
      * destruct (span is_digit (c :: s)) as [ds r] eqn:E. change (c :: s ++ rest) with ((c :: s) ++ rest).
        rewrite (span_app _ _ _ _ rest E Hd). destruct ds; by intros [= <- <-].
Qed.

Lemma scan_digits_app s ds b rest : stops rest -> scan_digits s = Some (ds, b) -> scan_digits (s ++ rest) = Some (ds, b ++ rest).
Proof.
  intros Hr. assert (Hd := stops_digit _ Hr).
  assert (Hz : forall s, scan_digits s = match s with
     | c :: s' => if c =? 48 then Some ([48], s') else match span is_digit s with ([], _) => None | (ds, r) => Some (ds, r) end
     | [] => None end).
  { intros [|c s0]; [done|]. destruct (Z.eqb_spec c 48) as [->|Hc]; [done|]. unfold scan_digits.
    destruct c as [|p|p]; try done. do 6 (destruct p as [p|p|]; try done). }
  rewrite !Hz. destruct s as [|c s]; [done|]. cbn [app]. destruct (c =? 48); [by intros [= <- <-]|].
  destruct (span is_digit (c :: s)) as [x y] eqn:E. change (c :: s ++ rest) with ((c :: s) ++ rest).
  rewrite (span_app _ _ _ _ rest E Hd). destruct x; [done|]. by intros [= <- <-].
Qed.

Lemma scan_number_app `{Floats} s v b rest : stops rest -> scan_number s = inr (v, b) -> scan_number (s ++ rest) = inr (v, b ++ rest).
Proof.
  intros Hr.
  assert (Hsign : exists sign s1, (match s with 45 :: s1 => ([45], s1) | _ => ([], s) end) = (sign, s1)
    /\ (s1 = [] \/ (match s ++ rest with 45 :: s1 => ([45], s1) | _ => ([], s ++ rest) end) = (sign, s1 ++ rest))).
  { destruct s as [|c s0]; [by exists [], []; auto|]. cbn [app].
    destruct c as [|p|p]; try (by eexists _, _; split; [reflexivity|right]).
    do 6 (destruct p as [p|p|]; try (by eexists _, _; split; [reflexivity|right])). }
  destruct Hsign as (sign & s1 & E1 & E2). unfold scan_number. rewrite E1. destruct E2 as [->|E2]; [done|]. rewrite E2.
  destruct (scan_digits s1) as [[ds s2]|] eqn:Ed; [|done]. rewrite (scan_digits_app _ _ _ rest Hr Ed).
  destruct (scan_fraction s2) as [f s3] eqn:Ef. rewrite (scan_fraction_app _ _ _ rest Hr Ef).
  destruct (scan_exponent s3) as [x s4] eqn:Ex. rewrite (scan_exponent_app _ _ _ rest Hr Ex).
  destruct (f ++ x); [|by intros [= <- <-]]. destruct (int_of_digits ds); [done|]. by intros [= <- <-].
Qed.

(** The decimal digits of an integer start with a zero only for zero. *)
Lemma pretty_N_go_head x s : (0 < x)%N ->
  exists d t, py (pretty_N_go x s) = d :: t /\ is_digit d = true /\ d <> 48.
Proof.
  revert s. induction (N.lt_wf_0 x) as [x _ IH]; intros s Hx. rewrite pretty_N_go_step by done.
  destruct (decide (x < 10)%N) as [Hlt|Hge].
  - rewrite N.div_small by done. rewrite pretty_N_go_0, py_cons. eexists _, _. split; [reflexivity|].
    rewrite N.mod_small by done. split; [by apply pretty_N_char_digit|].
    assert (x = 1 \/ x = 2 \/ x = 3 \/ x = 4 \/ x = 5 \/ x = 6 \/ x = 7 \/ x = 8 \/ x = 9)%N as Hd by lia.
    destruct_or! Hd; subst; done.
  - apply IH; [by apply N.div_lt|]. apply N.div_str_pos. lia.
Qed.

Lemma str_of_N_head (x : N) : x <> 0%N -> exists d t, py (pretty x) = d :: t /\ is_digit d = true /\ d <> 48.
Proof. intros Hx. unfold pretty, pretty_N. case_decide; [done|]. apply pretty_N_go_head. lia. Qed.

Lemma scan_number_digits `{Floats} (sign : bool) (x : N) : (x <> 0%N \/ sign = false) ->
  (length (py (pretty x)) <= INT_MAX_STR_DIGITS)%nat ->
  scan_number ((if sign then [45] else []) ++ py (pretty x)) = inr (PInt (if sign then - Z.of_N x else Z.of_N x), []).
Proof.
  intros Hx Hl. destruct (decide (x = 0%N)) as [->|Hnz].
  { destruct Hx as [Hx| ->]; [by destruct Hx|]. vm_compute. done. }
  pose proof (str_of_N_digits x) as [Hd _]. pose proof (dec_val_str (Z.of_N x) ltac:(lia)) as Hv.
  assert (Es : str_of_Z (Z.of_N x) = py (pretty x)) by (destruct x; done). rewrite Es in Hv.
  destruct (str_of_N_head x Hnz) as (d & t & E & Hdd & H48). rewrite E in *.
  assert (Hsd : scan_digits (d :: t) = Some (d :: t, [])).
  { unfold scan_digits. assert (Hsp : span is_digit (d :: t) = (d :: t, [])).
    { pose proof (span_all is_digit (d :: t) [] Hd I) as Hsp. by rewrite app_nil_r in Hsp. }
    rewrite Hsp. destruct d as [|p|p]; try done. do 6 (destruct p as [p|p|]; try done). }
  assert (Hint : int_of_digits (d :: t) = inr (Z.of_N x)).
  { unfold int_of_digits. rewrite (proj2 (Nat.ltb_ge _ _)) by done. by rewrite Hv. }
  destruct sign; cbn [app]; unfold scan_number.
  - rewrite Hsd. cbn [scan_fraction scan_exponent app]. rewrite Hint. done.
  - assert (Hns : (match d :: t with 45 :: s1 => ([45], s1) | _ => ([], d :: t) end) = ([], d :: t)).
    { unfold is_digit in Hdd. destruct d as [|p|p]; try done. do 6 (destruct p as [p|p|]; try done). }
    rewrite Hns, Hsd. cbn [scan_fraction scan_exponent app]. rewrite Hint. done.
Qed.

Lemma scan_word_number `{Floats} s v b rest : scan_number s = inr (v, b) -> scan_word (s ++ rest) = scan_number (s ++ rest)
  /\ exists c u, s = c :: u /\ is_digitish c = true.
Proof.
  intros E. assert (Hhead : exists c u, s = c :: u /\ (is_digit c = true \/ c = 45 /\ exists d w, u = d :: w /\ is_digit d = true)).
  { assert (Hsd : forall u ds r, scan_digits u = Some (ds, r) -> exists d w, u = d :: w /\ is_digit d = true).
    { intros [|d w] ds r; [done|]. intros Eu. exists d, w. split; [done|]. destruct (is_digit d) eqn:Hd; [done|].
      unfold scan_digits in Eu. cbn [span] in Eu. rewrite Hd in Eu.
      destruct d as [|p|p]; try done. do 6 (destruct p as [p|p|]; try done). }
    unfold scan_number in E. destruct s as [|c u]; [done|]. exists c, u. split; [done|].
    destruct (Z.eqb_spec c 45) as [->|Hc].
    - right. split; [done|]. destruct (scan_digits u) as [[ds r]|] eqn:Ed; [|done]. by eapply Hsd.
    - left. assert (Hns : (match c :: u with 45 :: s1 => ([45], s1) | _ => ([], c :: u) end) = ([], c :: u)).
      { destruct c as [|p|p]; try done. do 6 (destruct p as [p|p|]; try done). }
      rewrite Hns in E. destruct (scan_digits (c :: u)) as [[ds r]|] eqn:Ed; [|done].
      apply Hsd in Ed as (d & w & [= -> ->] & Hd). done. }
  destruct Hhead as (c & u & -> & Hc). split.
  - assert (Hd : forall k, (k = 110 \/ k = 116 \/ k = 102 \/ k = 78 \/ k = 73) -> (k =? c) = false).
    { intros k Hk. unfold is_digit in Hc. lia. }
    unfold scan_word, after. change (py "null") with [110; 117; 108; 108]. change (py "true") with [116; 114; 117; 101].
    change (py "false") with [102; 97; 108; 115; 101]. change (py "NaN") with [78; 97; 78].
    change (py "Infinity") with [73; 110; 102; 105; 110; 105; 116; 121].
    change (py "-Infinity") with [45; 73; 110; 102; 105; 110; 105; 116; 121]. cbn [app startswith].
    rewrite !Hd by auto. cbn [andb]. destruct Hc as [Hc|(-> & d & w & -> & Hw)].
    + by replace (45 =? c) with false by (unfold is_digit in Hc; lia).
    + cbn [app]. replace (73 =? d) with false by (unfold is_digit in Hw; lia). by rewrite andb_false_r.
  - exists c, u. split; [done|]. unfold is_digitish. destruct Hc as [->|[-> _]]; [by rewrite orb_true_r|done].
Qed.

(** *** Values *)

Fixpoint dumps (esc : Z -> list Z) (v : pyval) : pystr :=
  match v with
  | PStr s => quoted esc s
  | PList l => [91] ++ join [44] (map (dumps esc) l) ++ [93]
  | PDict kvs => [123] ++ join [44] (map (fun kv => quoted esc kv.1 ++ [58] ++ dumps esc kv.2) kvs) ++ [125]
  | _ => json_dumps v
  end.

(** The values that survive a round trip: strings of Unicode scalars,
    dictionaries with distinct keys, convertible integers and finite floats in
    the text of [repr]. *)
Fixpoint loadable `{Floats} (v : pyval) : bool :=
  match v with
  | PNone | PBool _ => true
  | PInt n => (length (str_of_Z (Z.abs n)) <=? INT_MAX_STR_DIGITS)%nat
  | PFloat r => match scan_number r with inr (PFloat r', []) => str_eqb r' r | _ => false end
  | PStr s => scalar_str s
  | PList l => forallb loadable l
  | PDict kvs => bool_decide (NoDup (map fst kvs)) && forallb (fun kv => scalar_str kv.1 && loadable kv.2) kvs
  | _ => false
  end.

Section Loads.
Context `{Floats} (esc : Z -> list Z) (Hesc : scans esc).

Definition reads_back (v : pyval) : Prop := forall fuel rest,
  stops rest -> (length (dumps esc v) <= fuel)%nat -> scan_once fuel (dumps esc v ++ rest) = inr (v, rest).

Lemma scan_number_back v : match v with PInt _ | PFloat _ => True | _ => False end -> loadable v = true ->
  scan_number (dumps esc v) = inr (v, []).
Proof.
  destruct v as [| |n|r| | | | | | |]; try done; intros _ Hl; cbn [dumps json_dumps].
  - cbn [loadable] in Hl. apply Nat.leb_le in Hl. destruct n as [|p|p]; cbn [Z.abs] in Hl.
    + by vm_compute.
    + apply (scan_number_digits false (N.pos p)); [by right|done].
    + apply (scan_number_digits true (N.pos p)); [by left|done].
  - cbn [loadable] in Hl. destruct (scan_number r) as [|[[] [|]]]; try done. unfold str_eqb in Hl.
    apply bool_decide_eq_true in Hl as ->. done.
Qed.

Lemma number_reads_back v : match v with PInt _ | PFloat _ => True | _ => False end -> loadable v = true -> reads_back v.
Proof.
  intros Hn Hl [|fuel] rest Hr Hf.
  - pose proof (scan_number_back v Hn Hl) as E. destruct (dumps esc v); [done|]. cbn in Hf. lia.
  - pose proof (scan_number_back v Hn Hl) as E. destruct (scan_word_number _ _ _ rest E) as [Ew (c & u & Ec & Hc)].
    rewrite (scan_number_app _ _ _ rest Hr E) in Ew. rewrite Ec in *. cbn [app] in *. cbn [scan_once].
    unfold is_digitish, is_digit in Hc.
    replace (c =? 34) with false by lia. replace (c =? 91) with false by lia. by replace (c =? 123) with false by lia.
Qed.

Lemma dumps_head v : loadable v = true -> exists c t, dumps esc v = c :: t /\ is_json_ws c = false /\ c <> 93 /\ c <> 125.
Proof.
  intros Hl. destruct v as [|[]|n|r| | | | | | |]; try done; try (eexists _, _; split; [reflexivity|done]).
  1: pose proof (scan_number_back (PInt n) I Hl) as E. 2: pose proof (scan_number_back (PFloat r) I Hl) as E.
  all: destruct (scan_word_number _ _ _ [] E) as [_ (c & u & -> & Hc)];
    exists c, u; unfold is_digitish, is_digit in Hc; unfold is_json_ws; split_and!; [done|lia..].
Qed.

(** A non-empty sequence of items up to its closing bracket. *)
Lemma scan_items_back {A} (item : pystr -> res (A * list Z)) (enc : A -> list Z) close xs rest fuel :
  is_delim close = true -> close <> 44 -> is_json_ws close = false ->
  xs <> [] -> (length xs <= fuel)%nat ->
  (forall x, x ∈ xs -> exists c t, enc x = c :: t /\ is_json_ws c = false) ->
  (forall x r, x ∈ xs -> stops r -> item (enc x ++ r) = inr (x, r)) ->
  scan_items item close fuel (join [44] (map enc xs) ++ close :: rest) = inr (xs, rest).
Proof.
  intros Hd Hc Hw. revert fuel. induction xs as [|x xs IH]; intros fuel Hne Hf Hh Hi; [done|].
  destruct fuel as [|fuel]; [cbn in Hf; lia|]. cbn [scan_items]. destruct xs as [|y xs].
  - cbn [map join]. rewrite Hi by (set_solver || done). cbn [mbind res_bind]. rewrite skip_ws_id by done. by rewrite Z.eqb_refl.
  - change (join [44] (map enc (x :: y :: xs))) with (enc x ++ 44 :: join [44] (map enc (y :: xs))).
    rewrite <-app_assoc. rewrite Hi by (set_solver || done). cbn [mbind res_bind app]. rewrite skip_ws_id by done.
    replace (44 =? close) with false by lia. rewrite Z.eqb_refl.
    assert (Hs : skip_ws (join [44] (map enc (y :: xs)) ++ close :: rest) = join [44] (map enc (y :: xs)) ++ close :: rest).
    { destruct (Hh y) as (c & t & E & Hcw); [set_solver|].
      assert (Ej : exists u, join [44] (map enc (y :: xs)) = c :: u) by (cbn [map]; rewrite E; destruct xs; by eexists).
      destruct Ej as [u ->]. cbn [app]. by apply skip_ws_id. }
    rewrite Hs, IH; [done|done|cbn in *; lia|set_solver|]. intros z r Hz. apply Hi. set_solver.
Qed.

Lemma member_back fuel kv rest :
  scalar_str kv.1 = true -> loadable kv.2 = true -> reads_back kv.2 -> (length (dumps esc kv.2) <= fuel)%nat -> stops rest ->
  scan_member (scan_once fuel) ((quoted esc kv.1 ++ [58] ++ dumps esc kv.2) ++ rest) = inr (kv, rest).
Proof.
  intros Hk Hl Hv Hf Hr. destruct kv as [k v]. cbn [fst snd] in *. unfold quoted. rewrite <-!app_assoc. cbn [app].
  unfold scan_member. cbn [closes negb Z.eqb Pos.eqb tail]. rewrite scan_quoted by done.
  rewrite skip_ws_id by done. cbn [closes negb Z.eqb Pos.eqb tail].
  destruct (dumps_head v Hl) as (c & t & E & Hc & _).
  assert (Es : skip_ws (dumps esc v ++ rest) = dumps esc v ++ rest) by (rewrite E; by apply skip_ws_id).
  rewrite Es, Hv by done. done.
Qed.

Lemma join_item_length {A} (enc : A -> list Z) (l : list A) :
  (forall x, x ∈ l -> enc x <> []) ->
  (length l <= length (join [44%Z] (map enc l)))%nat
  /\ forall x, x ∈ l -> (length (enc x) <= length (join [44%Z] (map enc l)))%nat.
Proof.
  induction l as [|x l IH]; intros Hne; [split; [done|intros y Hy; by apply not_elem_of_nil in Hy]|].
  destruct (IH (fun y Hy => Hne y (list_elem_of_further _ _ _ Hy))) as [H1 H2].
  rewrite join_cons, length_app. assert (Hx : (1 <= length (enc x))%nat).
  { specialize (Hne x (list_elem_of_here _ _)). destruct (enc x); [done|cbn; lia]. }
  destruct l as [|y l]; [split; [cbn in *; lia|intros z [->|Hz]%elem_of_cons; [cbn; lia|by apply not_elem_of_nil in Hz]]|].
  cbn [length] in *. split; [lia|]. intros z [->|Hz]%elem_of_cons; [lia|]. apply H2 in Hz. lia.
Qed.

Lemma dict_of_pairs_nodup d kvs : NoDup (map fst (d ++ kvs)) -> fold_left (fun d kv => dict_set d kv.1 kv.2) kvs d = d ++ kvs.
Proof.
  revert d. induction kvs as [|[k v] kvs IH]; intros d Hd; cbn [fold_left]; [by rewrite app_nil_r|].
  assert (E : dict_set d k v = d ++ [(k, v)]).
  { rewrite map_app in Hd. cbn in Hd. apply NoDup_app in Hd as (_ & Hd & _). clear IH.
    induction d as [|[k' v'] d IH]; [done|]. cbn. unfold str_eqb. rewrite bool_decide_false.
    - f_equal. apply IH. intros x Hx. apply Hd. by apply list_elem_of_further.
    - intros ->. apply (Hd k'); [cbn; apply list_elem_of_here|apply list_elem_of_here]. }
  cbn [fst snd]. rewrite E, IH, <-app_assoc; [done|]. by rewrite <-app_assoc.
Qed.

Lemma word_reads_back v : match v with PNone | PBool _ => True | _ => False end -> reads_back v.
Proof.
  intros Hv [|fuel] rest Hr Hf; destruct v as [|[]| | | | | | | | |]; try done; cbn in Hf; try lia; done.
Qed.

Lemma list_reads_back l : loadable (PList l) = true -> Forall reads_back l -> reads_back (PList l).
Proof.
  intros Hl IH [|fuel] rest Hr Hf; [cbn in Hf; lia|]. cbn [loadable] in Hl. rewrite forallb_forall in Hl. rewrite Forall_forall in IH.
  assert (Hne : forall x, x ∈ l -> exists c t, dumps esc x = c :: t /\ is_json_ws c = false /\ c <> 93 /\ c <> 125)
    by (intros x Hx; by apply dumps_head, Hl, list_elem_of_In).
  cbn [dumps app scan_once]. change (91 =? 34) with false. change (91 =? 91) with true. cbn iota. cbv zeta.
  rewrite <-app_assoc. cbn [app]. destruct l as [|x l]; [done|].
  destruct (Hne x (list_elem_of_here _ _)) as (c & t & E & Hc & H93 & _).
  assert (Ej : exists u, join [44] (map (dumps esc) (x :: l)) = c :: u) by (cbn [map]; rewrite E; destruct l; by eexists).
  destruct Ej as [u Eu]. assert (Es : skip_ws (join [44] (map (dumps esc) (x :: l)) ++ 93 :: rest)
    = join [44] (map (dumps esc) (x :: l)) ++ 93 :: rest) by (rewrite Eu; by apply skip_ws_id).
  rewrite Es, Eu. cbn [app closes]. replace (c =? 93) with false by lia.
  change (c :: u ++ 93 :: rest) with ((c :: u) ++ 93 :: rest). rewrite <-Eu.
  destruct (join_item_length (dumps esc) (x :: l)) as [Hlen Hitem].
  { intros y Hy. destruct (Hne y Hy) as (? & ? & -> & _). done. }
  cbn [dumps app length] in Hf. rewrite length_app in Hf. cbn [length] in Hf.
  rewrite scan_items_back; try done; [lia|by intros y Hy; destruct (Hne y Hy) as (? & ? & -> & ? & _); eauto|].
  intros y r Hy Hr'. apply IH; [done..|]. apply Hitem in Hy. lia.
Qed.

Lemma dict_reads_back kvs : loadable (PDict kvs) = true -> Forall (fun kv => reads_back kv.2) kvs -> reads_back (PDict kvs).
Proof.
  intros Hl IH [|fuel] rest Hr Hf; [cbn in Hf; lia|]. cbn [loadable] in Hl. apply andb_prop in Hl as [Hd%bool_decide_eq_true Hl].
  rewrite forallb_forall in Hl. rewrite Forall_forall in IH. set (enc := fun kv : list Z * pyval => quoted esc kv.1 ++ [58] ++ dumps esc kv.2).
  cbn [dumps app scan_once]. change (123 =? 34) with false. change (123 =? 91) with false. change (123 =? 123) with true. cbn iota. cbv zeta.
  rewrite <-app_assoc. cbn [app]. change (map _ kvs) with (map enc kvs). destruct kvs as [|x kvs]; [done|].
  assert (Ej : exists u, join [44] (map enc (x :: kvs)) = 34 :: u) by (cbn [map]; unfold enc at 1, quoted; destruct kvs; by eexists).
  destruct Ej as [u Eu]. assert (Es : skip_ws (join [44] (map enc (x :: kvs)) ++ 125 :: rest)
    = join [44] (map enc (x :: kvs)) ++ 125 :: rest) by (rewrite Eu; by apply skip_ws_id).
  rewrite Es, Eu. cbn [app closes]. change (34 =? 125) with false. cbn iota.
  change (34 :: u ++ 125 :: rest) with ((34 :: u) ++ 125 :: rest). rewrite <-Eu.
  destruct (join_item_length enc (x :: kvs)) as [Hlen Hitem]; [done|].
  change (dumps esc (PDict (x :: kvs))) with ([123] ++ join [44] (map enc (x :: kvs)) ++ [125]) in Hf.
  rewrite !length_app in Hf. cbn [length] in Hf.
  rewrite (scan_items_back _ enc); try done; [|lia|by intros y Hy; eexists _, _|].
  - cbn [mbind res_bind]. unfold dict_of_pairs. by rewrite dict_of_pairs_nodup.
  - intros y r Hy Hr'. pose proof (Hl y (proj1 (list_elem_of_In _ _) Hy)) as [H1 H2]%andb_prop.
    apply member_back; auto. apply Hitem in Hy.
    assert (Hn : (length (dumps esc y.2) <= length (enc y))%nat) by (unfold enc; rewrite !length_app; lia). lia.
Qed.

Lemma dumps_reads_back v : loadable v = true -> reads_back v.
Proof.
  induction v as [|b|n|r|s|u|o t|s|l IH|l IH|kvs IH] using pyval_ind'; intros Hl; try done.
  - by apply word_reads_back.
  - by apply word_reads_back.
  - by apply number_reads_back.
  - by apply number_reads_back.
  - intros [|fuel] rest Hr Hf; [cbn in Hf; lia|]. unfold dumps, quoted. cbn [app scan_once].
    change (34 =? 34) with true. cbn iota. rewrite <-app_assoc. cbn [app]. by rewrite scan_quoted.
  - apply list_reads_back; [done|]. cbn in Hl. rewrite forallb_forall in Hl. rewrite Forall_forall in *.
    intros x Hx. apply IH; [done|]. by apply Hl, list_elem_of_In.
  - apply dict_reads_back; [done|]. cbn in Hl. apply andb_prop in Hl as [_ Hl]. rewrite forallb_forall in Hl. rewrite Forall_forall in *.
    intros x Hx. apply IH; [done|]. specialize (Hl x (proj1 (list_elem_of_In _ _) Hx)). by apply andb_prop in Hl as [_ Hl].
Qed.

Lemma loads_dumps v : loadable v = true -> json_loads (dumps esc v) = inr v.
Proof.
  intros Hl. unfold json_loads. destruct (dumps_head v Hl) as (c & t & E & Hc & _).
  assert (Es : skip_ws (dumps esc v) = dumps esc v) by (rewrite E; by apply skip_ws_id). rewrite Es.
  pose proof (dumps_reads_back v Hl (S (length (dumps esc v))) [] I ltac:(lia)) as Hr. rewrite app_nil_r in Hr. by rewrite Hr.
Qed.
End Loads.

(** Literals that are their own [repr]. *)
Definition plain_floats : Floats := {| float_repr t := t |}.

Section Dumps.
Context `{Floats}.

Lemma dumps_compact v : loadable v = true -> json_dumps_compact v = dumps json_escape v.
Proof.
  induction v as [|b|n|r|s|u|o t|s|l IH|l IH|kvs IH] using pyval_ind'; intros Hl; try done; cbn [loadable] in Hl; cbn [json_dumps_compact dumps].
  - do 2 f_equal. f_equal. rewrite forallb_forall in Hl. rewrite Forall_forall in IH. apply map_ext_in. intros x Hx.
    apply IH; [by apply list_elem_of_In|by apply Hl].
  - do 2 f_equal. f_equal. apply andb_prop in Hl as [_ Hl]. rewrite forallb_forall in Hl. rewrite Forall_forall in IH.
    apply map_ext_in. intros x Hx. f_equal. f_equal. apply IH; [by apply list_elem_of_In|].
    specialize (Hl x Hx). by apply andb_prop in Hl as [_ ?].
Qed.

Lemma dumps_raw v : loadable v = true -> json_dumps_raw v = dumps json_escape_raw v.
Proof.
  induction v as [|b|n|r|s|u|o t|s|l IH|l IH|kvs IH] using pyval_ind'; intros Hl; try done; cbn [loadable] in Hl; cbn [json_dumps_raw dumps].
  - do 2 f_equal. f_equal. rewrite forallb_forall in Hl. rewrite Forall_forall in IH. apply map_ext_in. intros x Hx.
    apply IH; [by apply list_elem_of_In|by apply Hl].
  - do 2 f_equal. f_equal. apply andb_prop in Hl as [_ Hl]. rewrite forallb_forall in Hl. rewrite Forall_forall in IH.
    apply map_ext_in. intros x Hx. f_equal. f_equal. apply IH; [by apply list_elem_of_In|].
    specialize (Hl x Hx). by apply andb_prop in Hl as [_ ?].
Qed.

(** [json.loads] inverts both encoders. *)
Lemma loads_compact v : loadable v = true -> json_loads (json_dumps_compact v) = inr v.
Proof. intros Hl. rewrite dumps_compact by done. by apply loads_dumps; [apply escape_scans|]. Qed.

Lemma loads_raw v : loadable v = true -> json_loads (json_dumps_raw v) = inr v.
Proof. intros Hl. rewrite dumps_raw by done. by apply loads_dumps; [apply escape_raw_scans|]. Qed.

Example json_loads_example :
  json_loads ([9] ++ py "{ " ++ json_str (py "a") ++ py " : [1, -20, true ,null], " ++ json_str (py "a") ++ py ":{} }")
  = inr (PDict [(py "a", PDict [])])
  /\ json_loads ([34; 92] ++ py "ud83d" ++ [92] ++ py "ude00" ++ [34]) = inr (PStr [128512])
  /\ json_loads (py "01") = inl json_decode_error.
Proof. vm_compute. by split_and!. Qed.
End Dumps.
