(* ===== verification/Merkle.v ===== *)
(** * Merkle trees (backend/app/services/merkle_service.py)

    The builder, the proof generator and the verifier as the service writes
    them, on hexadecimal strings with their validation; below them the same
    tree on raw digests, the RFC 6962 style recursive tree it is compared
    with, and the preimages a security statement can point at. *)

From S2P Require Import Prelude PyStr Sha256 Json.
Local Open Scope Z_scope.

Definition MAX_PROOF_SIBLINGS : Z := 64.

(** A proof node is the dictionary [{"side": ..., "hash": ...}]. *)
Definition MerkleProofNode (side hash : pystr) : pyval :=
  PDict [(py "side", PStr side); (py "hash", PStr hash)].

Record MerkleProof := { leaf_index : Z; leaf_count : Z; siblings : list pyval }.

Definition _hash_bytes (value : pyval) (field : string) : res bytes :=
  match value with
  | PStr s =>
      if is_hash_hex s then
        match bytes_fromhex s with Some bs => mret bs | None => raise (ValueError field) end
      else raise (ValueError field)
  | _ => raise (ValueError field)
  end.

(** The two integers are returned because the callers go on computing with
    them as integers; [bool] is rejected although it is a subclass of [int]. *)
Definition _validate_leaf_position (leaf_index leaf_count : pyval) : res (Z * Z) :=
  match leaf_count with
  | PInt n =>
      if n <? 1 then raise (ValueError "leaf_count must be a positive integer") else
      match leaf_index with
      | PInt i =>
          if (0 <=? i) && (i <? n) then mret (i, n)
          else raise (ValueError "leaf_index is outside the Merkle batch")
      | _ => raise (ValueError "leaf_index is outside the Merkle batch")
      end
  | _ => raise (ValueError "leaf_count must be a positive integer")
  end.

Definition leaf_hash (event_hash : pyval) : res pystr :=
  b ← _hash_bytes event_hash "event_hash"; mret (sha256_hexdigest (0 :: b)).

Definition parent_hash (left_child right_child : pystr) : res pystr :=
  left ← _hash_bytes (PStr left_child) "left_child";
  right ← _hash_bytes (PStr right_child) "right_child";
  mret (sha256_hexdigest (1 :: left ++ right)).

(** [_hash_bytes(value).hex()] of every leaf. *)
Definition hash_level (leaves : list pystr) : res (list pystr) :=
  res_map (fun value => b ← _hash_bytes (PStr value) "leaf_hash"; mret (hex_of_bytes b)) leaves.

(** The body of the [while] loops: one pass over the level by pairs, the
    unpaired final node promoted unchanged. *)
Fixpoint next_level (level : list pystr) : res (list pystr) :=
  match level with
  | [] => mret []
  | [x] => mret [x]
  | a :: b :: rest => h ← parent_hash a b; t ← next_level rest; mret (h :: t)
  end.

Fixpoint merkle_loop (fuel : nat) (level : list pystr) : res (list pystr) :=
  match fuel with
  | O => mret level
  | S fuel =>
      if (1 <? length level)%nat then next ← next_level level; merkle_loop fuel next
      else mret level
  end.

(** Every pass at least shortens the level by one, so the number of leaves is
    enough fuel ([build_merkle_root_ref] shows that the loop finishes). *)
Definition build_merkle_root (leaves : list pystr) : res pystr :=
  match leaves with
  | [] => raise (ValueError "a Merkle tree requires at least one leaf")
  | _ =>
      level ← hash_level leaves;
      level ← merkle_loop (length leaves) level;
      match level with x :: _ => mret x | [] => raise (IndexError "list index out of range") end
  end.

(** The siblings collected while the level shrinks. *)
Definition proof_sibling (level : list pystr) (index : Z) : list pyval :=
  if index mod 2 =? 1 then
    [MerkleProofNode (py "left") (level !!! Z.to_nat (index - 1))]
  else if index + 1 <? Z.of_nat (length level) then
    [MerkleProofNode (py "right") (level !!! Z.to_nat (index + 1))]
  else [].

Fixpoint proof_loop (fuel : nat) (level : list pystr) (index : Z) : res (list pyval) :=
  match fuel with
  | O => mret []
  | S fuel =>
      if (1 <? length level)%nat then
        next ← next_level level;
        rest ← proof_loop fuel next (index / 2);
        mret (proof_sibling level index ++ rest)
      else mret []
  end.

Definition build_merkle_proof (leaves : list pystr) (index : Z) : res MerkleProof :=
  _ ← _validate_leaf_position (PInt index) (PInt (Z.of_nat (length leaves)));
  level ← hash_level leaves;
  sibs ← proof_loop (length leaves) level index;
  if MAX_PROOF_SIBLINGS <? Z.of_nat (length sibs)
  then raise (ValueError "Merkle proof exceeds the supported sibling bound")
  else mret {| leaf_index := index; leaf_count := Z.of_nat (length leaves); siblings := sibs |}.

(** ** Verification *)

Definition expected_side (index width : Z) : option pystr :=
  if index mod 2 =? 1 then Some (py "left")
  else if index + 1 <? width then Some (py "right")
  else None.

Definition is_str (v : option pyval) (s : pystr) : bool :=
  match v with Some (PStr t) => str_eqb t s | _ => false end.

(** One sibling of the untrusted proof: [None] is the [return False] of a
    malformed node. *)
Definition read_sibling (node : pyval) (side : pystr) : res (option pystr) :=
  match node with
  | PDict kvs =>
      if negb (keys_are [py "side"; py "hash"] kvs) then mret None
      else if negb (is_str (assoc (py "side") kvs) side) then mret None
      else b ← _hash_bytes (default (PStr []) (assoc (py "hash") kvs)) "sibling_hash";
           mret (Some (hex_of_bytes b))
  | _ => mret None
  end.

(** The loop state is the position, the width of the level, the running hash
    and the siblings from [proof_index] on; [None] is [return False]. *)
Fixpoint verify_loop (fuel : nat) (index width : Z) (current : pystr) (rest : list pyval)
  : res (option (pystr * list pyval)) :=
  match fuel with
  | O => mret (Some (current, rest))
  | S fuel =>
      if 1 <? width then
        match expected_side index width with
        | None => verify_loop fuel (index / 2) ((width + 1) / 2) current rest
        | Some side =>
            match rest with
            | [] => mret None
            | node :: rest =>
                sib ← read_sibling node side;
                match sib with
                | None => mret None
                | Some sibling =>
                    current ← (if str_eqb side (py "left") then parent_hash sibling current
                               else parent_hash current sibling);
                    verify_loop fuel (index / 2) ((width + 1) / 2) current rest
                end
            end
        end
      else mret (Some (current, rest))
  end.

(** Halvings needed to bring a width down to one. *)
Definition verify_fuel (width : Z) : nat := S (Z.to_nat (Z.log2_up width)).

(** The siblings argument of an untrusted bundle: a list or a tuple. *)
Definition as_sequence (v : pyval) : option (list pyval) :=
  match v with PList l => Some l | PTuple l => Some l | _ => None end.

Definition verify_merkle_proof_body
    (leaf_hash_value leaf_index leaf_count siblings merkle_root : pyval) : res bool :=
  '(i, n) ← _validate_leaf_position leaf_index leaf_count;
  current ← _hash_bytes leaf_hash_value "leaf_hash";
  expected ← _hash_bytes merkle_root "merkle_root";
  match as_sequence siblings with
  | None => mret false
  | Some sibs =>
      if MAX_PROOF_SIBLINGS <? Z.of_nat (length sibs) then mret false else
      r ← verify_loop (verify_fuel n) i n (hex_of_bytes current) sibs;
      match r with
      | None => mret false
      | Some (current, rest) =>
          mret ((length rest =? 0)%nat && str_eqb current (hex_of_bytes expected))
      end
  end.

(** [except (TypeError, ValueError): return False]. *)
Definition except_value_error (r : res bool) : res bool :=
  match r with
  | inl (TypeError _) | inl (ValueError _) => inr false
  | _ => r
  end.

Definition verify_merkle_proof
    (leaf_hash_value leaf_index leaf_count siblings merkle_root : pyval) : res bool :=
  except_value_error
    (verify_merkle_proof_body leaf_hash_value leaf_index leaf_count siblings merkle_root).

Definition build_event_merkle_root (event_hashes : list pyval) : res pystr :=
  leaves ← res_map leaf_hash event_hashes; build_merkle_root leaves.

Definition verify_event_merkle_proof
    (event_hash leaf_index leaf_count siblings merkle_root : pyval) : res bool :=
  match leaf_hash event_hash with
  | inr hashed_leaf => verify_merkle_proof (PStr hashed_leaf) leaf_index leaf_count siblings merkle_root
  | inl (TypeError _) | inl (ValueError _) => mret false
  | inl e => raise e
  end.

(** ** The tree on raw digests *)

Definition digest (d : bytes) : Prop := length d = 32%nat /\ Forall is_byte d.
Definition leaf_pre (d : bytes) : bytes := 0 :: d.
Definition node_pre (l r : bytes) : bytes := 1 :: l ++ r.
Definition node (l r : bytes) : bytes := sha256 (node_pre l r).

Fixpoint pairs (l : list bytes) : list bytes :=
  match l with
  | a :: b :: rest => node a b :: pairs rest
  | _ => l
  end.

Fixpoint pair_preimages (l : list bytes) : list bytes :=
  match l with
  | a :: b :: rest => node_pre a b :: pair_preimages rest
  | _ => []
  end.

(** Every preimage hashed while a level is folded to its root. *)
Fixpoint tree_preimages (fuel : nat) (l : list bytes) : list bytes :=
  match fuel with
  | O => []
  | S fuel =>
      if (1 <? length l)%nat then pair_preimages l ++ tree_preimages fuel (pairs l) else []
  end.

(** The Merkle tree hash of RFC 6962: split at the largest power of two that
    is smaller than the number of leaves. *)
Definition rfc_split (n : nat) : nat := (2 ^ Nat.log2 (n - 1))%nat.

Fixpoint rfc_root (fuel : nat) (l : list bytes) : bytes :=
  match fuel with
  | O => []
  | S fuel =>
      match l with
      | [] => []
      | [d] => d
      | _ =>
          let k := rfc_split (length l) in
          node (rfc_root fuel (take k l)) (rfc_root fuel (drop k l))
      end
  end.

(** Every preimage hashed while the verifier walks a proof up to the root. *)
Fixpoint proof_preimages (fuel : nat) (index width : Z) (current : bytes) (rest : list pyval)
  : list bytes :=
  match fuel with
  | O => []
  | S fuel =>
      if 1 <? width then
        match expected_side index width, rest with
        | None, _ => proof_preimages fuel (index / 2) ((width + 1) / 2) current rest
        | Some side, node :: rest =>
            match read_sibling node side with
            | inr (Some sibling) =>
                let sib := default [] (bytes_fromhex sibling) in
                let pre := if str_eqb side (py "left") then node_pre sib current
                           else node_pre current sib in
                pre :: proof_preimages fuel (index / 2) ((width + 1) / 2) (sha256 pre) rest
            | _ => []
            end
        | Some _, [] => []
        end
      else []
  end.

(** ** Lemmas on digests and levels *)

Lemma digest_sha256 bs : digest (sha256 bs).
Proof. split; auto with msg. Qed.

Lemma digest_node a b : digest (node a b).
Proof. apply digest_sha256. Qed.
#[export] Hint Resolve digest_sha256 digest_node : msg.

Lemma hash_bytes_hex d f : digest d -> _hash_bytes (PStr (hex_of_bytes d)) f = inr d.
Proof. intros [Hl Hb]. cbn. by rewrite is_hash_hex_of_bytes, fromhex_hex. Qed.

Lemma hash_bytes_ok v f d :
  _hash_bytes v f = inr d -> v = PStr (hex_of_bytes d) /\ digest d.
Proof.
  unfold _hash_bytes. destruct v; try done.
  destruct (is_hash_hex s) eqn:Eh; [|done]. unfold is_hash_hex in Eh.
  apply andb_prop in Eh as [Hl%Nat.eqb_eq Hh].
  destruct (hex_fromhex 32 s) as (bs & E & <- & Hn & Hb); [done..|].
  rewrite E. intros [= <-]. split; [done|]. by split.
Qed.

Lemma hash_bytes_value_error v f e : _hash_bytes v f = inl e -> exists w, e = ValueError w.
Proof. unfold _hash_bytes, raise, mret, res_ret. repeat case_match; intros [=]; subst; eauto. Qed.

Lemma parent_hash_hex a b :
  digest a -> digest b -> parent_hash (hex_of_bytes a) (hex_of_bytes b) = inr (hex_of_bytes (node a b)).
Proof. intros Ha Hb. unfold parent_hash. by rewrite !hash_bytes_hex by done. Qed.

Lemma list_pair_ind {A} (P : list A -> Prop) :
  P [] -> (forall x, P [x]) -> (forall a b l, P l -> P (a :: b :: l)) -> forall l, P l.
Proof.
  intros H0 H1 H2 l. cut (P l /\ forall x, P (x :: l)); [by intros []|].
  induction l as [|b l [IH1 IH2]]; split; auto.
Qed.

Lemma pairs_length l : length (pairs l) = ((length l + 1) / 2)%nat.
Proof.
  induction l as [| |a b l IH] using list_pair_ind; [done..|].
  cbn [pairs length]. rewrite IH.
  replace (S (S (length l)) + 1)%nat with (length l + 1 + 1 * 2)%nat by lia.
  rewrite Nat.div_add by done. lia.
Qed.

Lemma pairs_shrink l : (2 <= length l)%nat -> (0 < length (pairs l) < length l)%nat.
Proof.
  rewrite pairs_length. intros H. split; [apply Nat.div_str_pos; lia|].
  apply Nat.Div0.div_lt_upper_bound. lia.
Qed.

Lemma pairs_digest l : Forall digest l -> Forall digest (pairs l).
Proof.
  induction l as [| |a b l IH] using list_pair_ind; intros H; [done..|].
  apply Forall_cons in H as [_ [_ H]%Forall_cons]. cbn. constructor; auto with msg.
Qed.
#[export] Hint Resolve pairs_digest : msg.

(** The level loop works on the hexadecimal images of the raw level. *)
Lemma next_level_hex l :
  Forall digest l -> next_level (hex_of_bytes <$> l) = inr (hex_of_bytes <$> pairs l).
Proof.
  induction l as [| |a b l IH] using list_pair_ind; intros H; [done..|].
  apply Forall_cons in H as [Ha [Hb H]%Forall_cons].
  cbn [fmap list_fmap next_level pairs]. change (list_fmap ?A ?B ?f ?x) with (f <$> x).
  by rewrite parent_hash_hex, IH.
Qed.

Lemma hash_level_hex l : Forall digest l -> hash_level (hex_of_bytes <$> l) = inr (hex_of_bytes <$> l).
Proof.
  unfold hash_level. induction 1 as [|d l Hd _ IH]; [done|].
  cbn [fmap list_fmap res_map]. rewrite hash_bytes_hex by done. cbn. cbn in IH. by rewrite IH.
Qed.

Lemma hash_level_ok leaves level :
  hash_level leaves = inr level ->
  exists l, leaves = hex_of_bytes <$> l /\ level = leaves /\ Forall digest l.
Proof.
  unfold hash_level. rewrite res_map_ok. induction 1 as [|x y xs ys Hx _ (l & -> & -> & IH)].
  - by exists [].
  - apply res_bind_ok in Hx as (d & [[= ->] Hd]%hash_bytes_ok & [= <-]).
    exists (d :: l). auto.
Qed.

(** ** The level-by-level tree is the RFC 6962 tree *)

Lemma rfc_split_bound n : (2 <= n)%nat -> (0 < rfc_split n < n)%nat.
Proof.
  intros H. unfold rfc_split. pose proof (Nat.log2_spec (n - 1)) as Hs.
  assert (0 < 2 ^ Nat.log2 (n - 1))%nat by (apply Nat.neq_0_lt_0, Nat.pow_nonzero; done). lia.
Qed.

Lemma rfc_split_half n : (3 <= n)%nat -> rfc_split n = (2 * rfc_split ((n + 1) / 2))%nat.
Proof.
  intros H. unfold rfc_split.
  replace ((n + 1) / 2 - 1)%nat with ((n - 1) / 2)%nat.
  2: { replace (n + 1)%nat with (n - 1 + 1 * 2)%nat by lia. rewrite Nat.div_add by done. lia. }
  assert (1 <= Nat.log2 (n - 1))%nat by (apply (Nat.log2_le_mono 2 (n - 1)); lia).
  rewrite <-Nat.pow_succ_r'. f_equal.
  pose proof (Nat.log2_spec (n - 1)) as Hs. specialize (Hs ltac:(lia)).
  destruct (Nat.log2 (n - 1)) as [|k] eqn:Ek; [lia|]. f_equal. symmetry.
  apply Nat.log2_unique; [lia|]. rewrite !Nat.pow_succ_r' in *.
  split; [apply Nat.div_le_lower_bound; lia | apply Nat.Div0.div_lt_upper_bound; lia].
Qed.

Lemma rfc_root_fuel n m l :
  (length l <= n)%nat -> (length l <= m)%nat -> rfc_root n l = rfc_root m l.
Proof.
  revert m l. induction n as [|n IH]; intros m l Hn Hm.
  - destruct l; [|cbn in Hn; lia]. by destruct m.
  - destruct m as [|m]; [by destruct l; [|cbn in Hm; lia]|]. cbn [rfc_root].
    destruct l as [|a [|b l]]; [done..|].
    pose proof (rfc_split_bound (length (a :: b :: l))) as Hk. cbn [length] in *.
    specialize (Hk ltac:(lia)).
    f_equal; apply IH; rewrite ?length_take, ?length_drop; cbn [length]; lia.
Qed.

Lemma pairs_take k l : pairs (take (2 * k) l) = take k (pairs l).
Proof.
  revert l. induction k as [|k IH]; intros l; [done|].
  replace (2 * S k)%nat with (S (S (2 * k))) by lia.
  destruct l as [|a [|b l]]; [done| by destruct k |]. cbn [take pairs]. by rewrite IH.
Qed.

Lemma pairs_drop k l : pairs (drop (2 * k) l) = drop k (pairs l).
Proof.
  revert l. induction k as [|k IH]; intros l; [done|].
  replace (2 * S k)%nat with (S (S (2 * k))) by lia.
  destruct l as [|a [|b l]]; [done| by destruct k |]. cbn [drop pairs]. by rewrite IH.
Qed.

Lemma rfc_root_step n l : (2 <= length l)%nat ->
  rfc_root (S n) l = node (rfc_root n (take (rfc_split (length l)) l))
                          (rfc_root n (drop (rfc_split (length l)) l)).
Proof. by destruct l as [|a [|b l]]; cbn [length]; [lia..|]. Qed.

Lemma rfc_root_pairs n l :
  (length l <= n)%nat -> rfc_root n (pairs l) = rfc_root n l.
Proof.
  revert l. induction n as [|n IH]; intros l Hn; [by destruct l; cbn in Hn; [|lia]|].
  destruct l as [|a [|b [|c l]]]; [done..| |].
  { cbn in Hn. destruct n as [|n]; [lia|]. reflexivity. }
  set (L := a :: b :: c :: l) in *.
  assert (HL : (3 <= length L)%nat) by (subst L; cbn; lia).
  assert (HP : (2 <= length (pairs L))%nat) by (rewrite pairs_length; apply Nat.div_le_lower_bound; lia).
  pose proof (pairs_shrink L ltac:(lia)) as Hs.
  pose proof (rfc_split_bound (length L) ltac:(lia)) as Hb.
  rewrite !rfc_root_step by lia.
  assert (Ek : rfc_split (length L) = (2 * rfc_split (length (pairs L)))%nat).
  { rewrite pairs_length. by apply rfc_split_half. }
  rewrite Ek, <-pairs_take, <-pairs_drop.
  f_equal; apply IH; rewrite ?length_take, ?length_drop; lia.
Qed.

Lemma merkle_loop_root fuel l :
  Forall digest l -> l <> [] -> (length l <= fuel)%nat ->
  merkle_loop fuel (hex_of_bytes <$> l) = inr [hex_of_bytes (rfc_root (length l) l)].
Proof.
  revert l. induction fuel as [|fuel IH]; intros l Hd Hl Hf.
  { by destruct l; cbn in Hf; [|lia]. }
  cbn [merkle_loop]. rewrite length_fmap. case_match eqn:E.
  - apply Nat.ltb_lt in E. rewrite next_level_hex by done. cbn.
    pose proof (pairs_shrink l E) as Hs.
    rewrite IH; [| auto with msg | by intros Hn; rewrite Hn in Hs; cbn in Hs; lia | lia].
    do 3 f_equal. rewrite <-(rfc_root_pairs (length l) l) by done. apply rfc_root_fuel; lia.
  - apply Nat.ltb_ge in E. destruct l as [|d [|e l]]; [done|done|cbn in E; lia].
Qed.

Lemma build_merkle_root_digests l :
  Forall digest l -> l <> [] ->
  build_merkle_root (hex_of_bytes <$> l) = inr (hex_of_bytes (rfc_root (length l) l)).
Proof.
  intros Hd Hl. unfold build_merkle_root.
  destruct (hex_of_bytes <$> l) eqn:E; [by destruct l|]. rewrite <-E.
  rewrite hash_level_hex by done. cbn. by rewrite length_fmap, merkle_loop_root.
Qed.

Lemma build_merkle_root_ok leaves r :
  build_merkle_root leaves = inr r ->
  exists l, leaves = hex_of_bytes <$> l /\ Forall digest l /\ l <> []
            /\ r = hex_of_bytes (rfc_root (length l) l).
Proof.
  intros E. assert (Hl : leaves <> []) by (by intros ->).
  pose proof E as E'. unfold build_merkle_root in E'.
  destruct leaves as [|x xs] eqn:EL; [done|]. rewrite <-EL in *.
  apply res_bind_ok in E' as (level & Hlevel & _).
  apply hash_level_ok in Hlevel as (l & -> & _ & Hd).
  assert (l <> []) by (by intros ->).
  rewrite build_merkle_root_digests in E by done. injection E as <-. eauto 10.
Qed.

(** ** Paths *)

Abbreviation root_of l := (rfc_root (length l) l).

Lemma root_of_pairs l : root_of (pairs l) = root_of l.
Proof.
  destruct (Nat.le_gt_cases 2 (length l)) as [H|H].
  - rewrite <-(rfc_root_pairs (length l) l) by done.
    apply rfc_root_fuel; [done|]. pose proof (pairs_shrink l H). lia.
  - destruct l as [|a [|b l]]; [done|done|cbn in H; lia].
Qed.

Lemma pairs_lookup_node l j a b :
  l !! (2 * j)%nat = Some a -> l !! (2 * j + 1)%nat = Some b ->
  pairs l !! j = Some (node a b) /\ node_pre a b ∈ pair_preimages l.
Proof.
  revert l. induction j as [|j IH]; intros l Ha Hb.
  - destruct l as [|x [|y l]]; [done..|]. cbn in *. simplify_eq. split; [done|constructor].
  - destruct l as [|x [|y l]]; [done| by replace (2 * S j)%nat with (S (S (2 * j))) in Ha by lia |].
    replace (2 * S j)%nat with (S (S (2 * j))) in * by lia. cbn in Ha, Hb.
    destruct (IH l Ha Hb) as [H1 H2]. split; [done|]. by constructor.
Qed.

Lemma pairs_lookup_last l j a :
  l !! (2 * j)%nat = Some a -> length l = (2 * j + 1)%nat -> pairs l !! j = Some a.
Proof.
  revert l. induction j as [|j IH]; intros l Ha Hn.
  - by destruct l as [|x [|y l]].
  - destruct l as [|x [|y l]]; [done|cbn in Hn; lia|].
    replace (2 * S j)%nat with (S (S (2 * j))) in * by lia. cbn in *. apply IH; [done|lia].
Qed.

Lemma half_width l : (Z.of_nat (length l) + 1) / 2 = Z.of_nat (length (pairs l)).
Proof. rewrite pairs_length, Nat2Z.inj_div. f_equal. lia. Qed.

Lemma pairs_fuel l f : (length l <= 2 ^ S f)%nat -> (length (pairs l) <= 2 ^ f)%nat.
Proof.
  rewrite pairs_length. cbn [Nat.pow]. intros H.
  apply Nat.lt_succ_r, Nat.Div0.div_lt_upper_bound. lia.
Qed.

Lemma read_sibling_node side h :
  side = py "left" \/ side = py "right" -> digest h ->
  read_sibling (MerkleProofNode side (hex_of_bytes h)) side = inr (Some (hex_of_bytes h)).
Proof.
  intros Hs Hh. unfold read_sibling, MerkleProofNode.
  assert (E1 : keys_are [py "side"; py "hash"] [(py "side", PStr side); (py "hash", PStr (hex_of_bytes h))] = true)
    by done.
  rewrite E1. cbn [negb assoc].
  replace (str_eqb (py "side") (py "side")) with true by done.
  replace (str_eqb (py "hash") (py "side")) with false by done.
  replace (str_eqb (py "hash") (py "hash")) with true by done.
  cbn [is_str]. unfold str_eqb. rewrite bool_decide_true by done. cbn [negb from_option id].
  by rewrite hash_bytes_hex.
Qed.

Lemma read_sibling_ok nd side s :
  read_sibling nd side = inr (Some s) -> exists h, s = hex_of_bytes h /\ digest h.
Proof.
  unfold read_sibling. destruct nd; try done. repeat (case_match; [done|]).
  intros Hb. apply res_bind_ok in Hb as (d & [_ Hd]%hash_bytes_ok & [= <-]). eauto.
Qed.

Lemma verify_loop_one fuel i cur rest : verify_loop fuel i 1 cur rest = inr (Some (cur, rest)).
Proof. by destruct fuel. Qed.

(** The parent preimage of a node and its sibling on a given side. *)
Definition parent_pre (side : pystr) (sib cur : bytes) : bytes :=
  if str_eqb side (py "left") then node_pre sib cur else node_pre cur sib.

Lemma parent_hash_side side sib cur : digest sib -> digest cur ->
  (if str_eqb side (py "left") then parent_hash (hex_of_bytes sib) (hex_of_bytes cur)
   else parent_hash (hex_of_bytes cur) (hex_of_bytes sib))
  = inr (hex_of_bytes (sha256 (parent_pre side sib cur))).
Proof. intros Hs Hc. unfold parent_pre. case_match; by rewrite parent_hash_hex. Qed.

Lemma app_inj_digest (a b c d : bytes) :
  length a = 32%nat -> length c = 32%nat -> a ++ b = c ++ d -> a = c /\ b = d.
Proof. intros Ha Hc E. apply app_inj_1 in E; [done|congruence]. Qed.

Lemma parent_pre_inj side sib cur sib' cur' :
  digest sib -> digest cur -> digest sib' -> digest cur' ->
  parent_pre side sib cur = parent_pre side sib' cur' -> cur = cur'.
Proof.
  intros [H1 _] [H2 _] [H3 _] [H4 _]. unfold parent_pre, node_pre.
  case_match; intros [= E]; by apply app_inj_digest in E as [E1 E2].
Qed.

(** One level of a path: where a position goes in the next level, and the
    sibling that the proof records for it. *)
Definition path_step (l : list bytes) (k : nat) (d : bytes) : Prop :=
  match expected_side (Z.of_nat k) (Z.of_nat (length l)) with
  | Some side =>
      exists sib, digest sib /\ (side = py "left" \/ side = py "right")
        /\ proof_sibling (hex_of_bytes <$> l) (Z.of_nat k) = [MerkleProofNode side (hex_of_bytes sib)]
        /\ pairs l !! (k / 2)%nat = Some (sha256 (parent_pre side sib d))
        /\ parent_pre side sib d ∈ pair_preimages l
  | None =>
      pairs l !! (k / 2)%nat = Some d /\ proof_sibling (hex_of_bytes <$> l) (Z.of_nat k) = []
  end.

Lemma odd_half j : ((2 * j + 1) / 2 = j)%nat.
Proof. rewrite Nat.mul_comm, Nat.div_add_l by done. cbn. lia. Qed.

Lemma level_lookup (l : list bytes) (j : nat) a : l !! j = Some a -> (hex_of_bytes <$> l) !!! j = hex_of_bytes a.
Proof. intros H. apply list_lookup_total_correct. by rewrite list_lookup_fmap, H. Qed.

Lemma take_path_step l k d : Forall digest l -> l !! k = Some d -> path_step l k d.
Proof.
  intros Hl Hk. pose proof (lookup_lt_Some _ _ _ Hk) as Hlt.
  unfold path_step, proof_sibling, expected_side. rewrite length_fmap.
  destruct (Nat.Even_or_Odd k) as [[j ->]|[j ->]].
  - assert (Z.of_nat (2 * j) mod 2 = 0) as -> by (Z.to_euclidean_division_equations; lia).
    rewrite (Nat.mul_comm 2 j), Nat.div_mul, (Nat.mul_comm j 2) by done. cbn [Z.eqb].
    destruct (Z.ltb_spec (Z.of_nat (2 * j) + 1) (Z.of_nat (length l))).
    + destruct (lookup_lt_is_Some_2 l (2 * j + 1)) as [b Hb]; [lia|]. exists b.
      replace (Z.to_nat (Z.of_nat (2 * j) + 1)) with (2 * j + 1)%nat by lia.
      rewrite (level_lookup _ _ _ Hb).
      destruct (pairs_lookup_node l j d b Hk Hb) as [Hp1 Hp2].
      split_and!; [by eapply Forall_lookup_1 in Hb|by right|done|exact Hp1|exact Hp2].
    + split; [|done]. apply pairs_lookup_last; [done|lia].
  - assert (Z.of_nat (2 * j + 1) mod 2 = 1) as -> by (Z.to_euclidean_division_equations; lia).
    rewrite odd_half. cbn [Z.eqb Pos.eqb].
    destruct (lookup_lt_is_Some_2 l (2 * j)) as [a Ha]; [lia|]. exists a.
    replace (Z.to_nat (Z.of_nat (2 * j + 1) - 1)) with (2 * j)%nat by lia.
    rewrite (level_lookup _ _ _ Ha).
    destruct (pairs_lookup_node l j a d Ha Hk) as [Hp1 Hp2].
    split_and!; [by eapply Forall_lookup_1 in Ha|by left|done|exact Hp1|exact Hp2].
Qed.

Lemma half_index k : Z.of_nat k / 2 = Z.of_nat (k / 2).
Proof. by rewrite Nat2Z.inj_div. Qed.

Lemma singleton_level (l : list bytes) (k : nat) d : (length l <= 1)%nat -> l !! k = Some d -> l = [d] /\ k = 0%nat.
Proof. destruct l as [|x [|y l]]; [done| |cbn; lia]. destruct k; [|done]. by intros _ [= ->]. Qed.

(** A generated path, followed by any further siblings, leads the verifier
    from the leaf to the root and consumes exactly the path. *)
Lemma proof_path_complete f fp l k d rest :
  Forall digest l -> l !! k = Some d -> (length l <= fp)%nat -> (length l <= 2 ^ f)%nat ->
  exists sibs, proof_loop fp (hex_of_bytes <$> l) (Z.of_nat k) = inr sibs
    /\ (length sibs <= f)%nat
    /\ verify_loop f (Z.of_nat k) (Z.of_nat (length l)) (hex_of_bytes d) (sibs ++ rest)
       = inr (Some (hex_of_bytes (root_of l), rest)).
Proof.
  revert fp l k d. induction f as [|f IH]; intros fp l k d Hl Hk Hfp Hf.
  { apply singleton_level in Hk as [-> ->]; [|done]. exists []. by destruct fp. }
  destruct (Nat.le_gt_cases (length l) 1) as [H1|H1].
  { apply singleton_level in Hk as [-> ->]; [|done]. exists []. split; [by destruct fp|].
    split; [cbn; lia|done]. }
  destruct fp as [|fp]; [lia|].
  pose proof (pairs_shrink l H1) as Hs. pose proof (pairs_fuel l f Hf) as Hpf.
  pose proof (Forall_lookup_1 _ _ _ _ Hl Hk) as Hd.
  cbn [proof_loop verify_loop]. rewrite length_fmap.
  destruct (Nat.ltb_spec 1 (length l)); [|lia].
  destruct (Z.ltb_spec 1 (Z.of_nat (length l))); [|lia].
  rewrite next_level_hex by done. cbn [mbind res_bind]. rewrite half_width, half_index.
  pose proof (take_path_step l k d Hl Hk) as Hstep. unfold path_step in Hstep.
  destruct (expected_side _ _) as [side|].
  - destruct Hstep as (sib & Hsib & Hside & Esib & Hp & _).
    destruct (IH fp (pairs l) _ _ ltac:(auto with msg) Hp ltac:(lia) Hpf) as (sibs & -> & Hlen & Hv).
    rewrite Esib. eexists. split; [reflexivity|]. split; [cbn; lia|]. cbn [app].
    rewrite read_sibling_node by done. cbn [mbind res_bind].
    rewrite parent_hash_side by done. cbn [mbind res_bind]. by rewrite Hv, root_of_pairs.
  - destruct Hstep as [Hp Esib].
    destruct (IH fp (pairs l) _ _ ltac:(auto with msg) Hp ltac:(lia) Hpf) as (sibs & -> & Hlen & Hv).
    rewrite Esib. eexists. split; [reflexivity|]. split; [cbn; lia|]. cbn [app].
    by rewrite Hv, root_of_pairs.
Qed.

(** A verifier run that ends in the root of [l] started at the leaf of [l] at
    its position, or the run and the tree hashed two different preimages to
    the same digest. *)
Lemma proof_path_sound f ft l k cur rest :
  Forall digest l -> (k < length l)%nat -> digest cur ->
  (length l <= ft)%nat -> (length l <= 2 ^ f)%nat ->
  verify_loop f (Z.of_nat k) (Z.of_nat (length l)) (hex_of_bytes cur) rest
    = inr (Some (hex_of_bytes (root_of l), [])) ->
  l !! k = Some cur
  \/ exists x y, x ∈ proof_preimages f (Z.of_nat k) (Z.of_nat (length l)) cur rest
              /\ y ∈ tree_preimages ft l /\ sha_collision x y.
Proof.
  revert ft l k cur rest. induction f as [|f IH]; intros ft l k cur rest Hl Hlt Hcur Hft Hf Hv;
    destruct (lookup_lt_is_Some_2 l k Hlt) as [d Hk].
  { apply singleton_level in Hk as [-> ->]; [|done]. cbn in Hv. injection Hv as Hv ->.
    left. cbn. f_equal. symmetry. apply hex_of_bytes_inj; [apply Hcur | by inversion Hl as [|? ? []] | done]. }
  destruct (Nat.le_gt_cases (length l) 1) as [H1|H1].
  { apply singleton_level in Hk as [-> ->]; [|done]. cbn in Hv. injection Hv as Hv ->.
    left. cbn. f_equal. symmetry. apply hex_of_bytes_inj; [apply Hcur | by inversion Hl as [|? ? []] | done]. }
  destruct ft as [|ft]; [lia|].
  pose proof (pairs_shrink l H1) as Hs. pose proof (pairs_fuel l f Hf) as Hpf.
  pose proof (Forall_lookup_1 _ _ _ _ Hl Hk) as Hd.
  cbn [verify_loop proof_preimages tree_preimages] in *.
  destruct (Nat.ltb_spec 1 (length l)); [|lia].
  destruct (Z.ltb_spec 1 (Z.of_nat (length l))); [|lia].
  rewrite half_width, half_index in *. rewrite <-root_of_pairs in Hv.
  assert (Hk2 : (k / 2 < length (pairs l))%nat).
  { rewrite pairs_length. apply Nat.Div0.div_lt_upper_bound.
    pose proof (Nat.div_mod_eq (length l + 1) 2). pose proof (Nat.mod_upper_bound (length l + 1) 2). lia. }
  pose proof (take_path_step l k d Hl Hk) as Hstep. unfold path_step in Hstep.
  destruct (expected_side _ _) as [side|].
  - destruct Hstep as (sib & Hsib & _ & _ & Hp & Hin).
    destruct rest as [|nd rest]; [done|].
    apply res_bind_ok in Hv as ([s|] & Hread & Hv); [|done].
    destruct (read_sibling_ok _ _ _ Hread) as (h & -> & Hh). rewrite Hread, fromhex_hex by apply Hh.
    cbn [from_option id]. fold (parent_pre side h cur).
    rewrite parent_hash_side in Hv by done. cbn [mbind res_bind] in Hv.
    apply IH with (ft := ft) in Hv; [|auto with msg|done|auto with msg|lia|done].
    destruct Hv as [Hv|(x & y & Hx & Hy & Hc)].
    + rewrite Hp in Hv. apply (inj Some) in Hv as Hv'. symmetry in Hv'.
      destruct (decide (parent_pre side h cur = parent_pre side sib d)) as [E|E].
      * left. rewrite Hk. f_equal. symmetry. by eapply parent_pre_inj in E.
      * right. exists (parent_pre side h cur), (parent_pre side sib d).
        refine (conj _ (conj _ (conj E Hv'))); [constructor|apply elem_of_app; by left].
    + right. exists x, y. refine (conj _ (conj _ Hc)); [by constructor|apply elem_of_app; by right].
  - destruct Hstep as [Hp _].
    apply IH with (ft := ft) in Hv; [|auto with msg|done|done|lia|done].
    rewrite Hp, <-Hk in Hv. destruct Hv as [Hv|(x & y & Hx & Hy & Hc)]; [by left|].
    right. exists x, y. refine (conj Hx (conj _ Hc)). apply elem_of_app. by right.
Qed.

(** ** Results on the service's functions *)

(** The raw digest a hexadecimal leaf stands for. *)
Definition raw (s : pystr) : bytes := default [] (bytes_fromhex s).

Lemma raw_hex d : digest d -> raw (hex_of_bytes d) = d.
Proof. intros [_ H]. unfold raw. by rewrite fromhex_hex. Qed.

Lemma raw_hex_list l : Forall digest l -> raw <$> (hex_of_bytes <$> l) = l.
Proof.
  induction 1 as [|d l Hd _ IH]; [done|]. cbn. cbn in IH. rewrite IH. f_equal. by apply raw_hex.
Qed.

Lemma hash_hex_leaves leaves :
  forallb is_hash_hex leaves = true ->
  exists l, leaves = hex_of_bytes <$> l /\ Forall digest l.
Proof.
  induction leaves as [|s leaves IH]; cbn; [by exists []|].
  intros [Hs Hl]%andb_prop. destruct (IH Hl) as (l & -> & Hd).
  unfold is_hash_hex in Hs. apply andb_prop in Hs as [Hn%Nat.eqb_eq Hh].
  destruct (hex_fromhex 32 s) as (d & _ & <- & Hd1 & Hd2); [done..|].
  exists (d :: l). split; [done|]. constructor; [by split|done].
Qed.

Lemma is_hash_hex_digests l : Forall digest l -> forallb is_hash_hex (hex_of_bytes <$> l) = true.
Proof.
  induction 1 as [|d l [Hn Hb] _ IH]; [done|]. cbn [fmap list_fmap forallb]. by rewrite is_hash_hex_of_bytes.
Qed.

Lemma log2_up_fuel n : (n <= 2 ^ Z.to_nat (Z.log2_up (Z.of_nat n)))%nat.
Proof.
  apply Nat2Z.inj_le. rewrite Nat2Z.inj_pow, Z2Nat.id by apply Z.log2_up_nonneg.
  destruct (Z.le_gt_cases (Z.of_nat n) 1) as [H|H].
  - rewrite Z.log2_up_eqn0 by done. cbn. lia.
  - apply Z.log2_up_spec; lia.
Qed.

Lemma verify_fuel_enough n : (n <= 2 ^ verify_fuel (Z.of_nat n))%nat.
Proof.
  unfold verify_fuel. pose proof (log2_up_fuel n). cbn [Nat.pow]. lia.
Qed.

Lemma parent_hash_value_error a b e : parent_hash a b = inl e -> exists w, e = ValueError w.
Proof.
  unfold parent_hash, mbind, res_bind.
  destruct (_hash_bytes (PStr a) "left_child") eqn:E1;
    [|destruct (_hash_bytes (PStr b) "right_child") eqn:E2]; intros [=]; subst;
    by eapply hash_bytes_value_error.
Qed.

Lemma verify_loop_value_error f i n cur rest e :
  verify_loop f i n cur rest = inl e -> exists w, e = ValueError w.
Proof.
  revert i n cur rest. induction f as [|f IH]; intros i n cur rest; [done|]. cbn.
  destruct (1 <? n); [|done]. destruct (expected_side i n) as [side|]; [|apply IH].
  destruct rest as [|nd rest]; [done|].
  destruct (read_sibling nd side) as [e'|[sib|]] eqn:Er; cbn; [|clear Er|done].
  - intros [= <-]. unfold read_sibling in Er. destruct nd; try done. repeat (case_match; [done|]).
    destruct (_hash_bytes _ _) eqn:Eh; cbn in Er; [|done]. injection Er as ->. by eapply hash_bytes_value_error.
  - destruct (if str_eqb side (py "left") then _ else _) as [e'|c] eqn:Ec; cbn; [|apply IH].
    intros [= <-]. destruct (str_eqb side (py "left")); by eapply parent_hash_value_error.
Qed.

Lemma validate_ok li lc i n :
  _validate_leaf_position li lc = inr (i, n) <-> li = PInt i /\ lc = PInt n /\ 0 <= i < n.
Proof.
  unfold _validate_leaf_position. split.
  - destruct lc; try done. case_match; [done|]. destruct li; try done. case_match; [|done].
    intros [= -> ->]. split_and!; [done|done|lia..].
  - intros (-> & -> & H). destruct (Z.ltb_spec n 1); [lia|].
    destruct (Z.leb_spec 0 i); [|lia]. destruct (Z.ltb_spec i n); [done|lia].
Qed.

Lemma verify_body_true leaf li lc sibs root :
  verify_merkle_proof leaf li lc sibs root = inr true ->
  exists i n cur r l,
    li = PInt i /\ lc = PInt n /\ 0 <= i < n /\ leaf = PStr (hex_of_bytes cur) /\ digest cur
    /\ root = PStr (hex_of_bytes r) /\ digest r /\ as_sequence sibs = Some l
    /\ verify_loop (verify_fuel n) i n (hex_of_bytes cur) l = inr (Some (hex_of_bytes r, [])).
Proof.
  unfold verify_merkle_proof. intros H.
  assert (Hb : verify_merkle_proof_body leaf li lc sibs root = inr true).
  { destruct (verify_merkle_proof_body _ _ _ _ _) as [[]|]; simplify_eq/=; done. }
  clear H. unfold verify_merkle_proof_body in Hb.
  apply res_bind_ok in Hb as ([i n] & (-> & -> & Hi)%validate_ok & Hb).
  apply res_bind_ok in Hb as (cur & [-> Hcur]%hash_bytes_ok & Hb).
  apply res_bind_ok in Hb as (r & [-> Hr]%hash_bytes_ok & Hb).
  destruct (as_sequence sibs) as [l|] eqn:El; [|done]. case_match; [done|].
  apply res_bind_ok in Hb as ([[c rest]|] & Hv & Hb); [|done]. injection Hb as Hb.
  apply andb_prop in Hb as [Hrest%Nat.eqb_eq%nil_length_inv Hc%bool_decide_eq_true].
  subst. exists i, n, cur, r, l. done.
Qed.

Lemma hash_level_value_error leaves e : hash_level leaves = inl e -> exists w, e = ValueError w.
Proof.
  unfold hash_level. induction leaves as [|s leaves IH]; [done|]. cbn [res_map].
  destruct (_hash_bytes (PStr s) "leaf_hash") as [e'|b] eqn:E; cbn [mbind res_bind].
  - intros [= <-]. by eapply hash_bytes_value_error.
  - destruct (res_map _ leaves) as [e'|l]; cbn; [|done]. intros [= <-]. by apply IH.
Qed.

Lemma root_digest n l : Forall digest l -> (0 < length l <= n)%nat -> digest (rfc_root n l).
Proof.
  destruct n as [|n]; [lia|]. destruct l as [|a [|b l]]; cbn [rfc_root length]; [lia| |by auto with msg].
  intros H _. by inversion H.
Qed.

Lemma log2_up_64 n : n <= 2 ^ 64 -> Z.log2_up n <= 64.
Proof. intros H. rewrite (Z.log2_up_le_mono _ _ H). by rewrite Z.log2_up_pow2. Qed.

(** Everything hashed by [build_event_merkle_root] on these event hashes, and
    everything hashed by [verify_event_merkle_proof] on this proof. *)
Definition event_tree_preimages (event_hashes : list pystr) : list bytes :=
  (leaf_pre ∘ raw <$> event_hashes)
  ++ tree_preimages (length event_hashes) (sha256 ∘ leaf_pre ∘ raw <$> event_hashes).

Definition event_proof_preimages (event_hash : pystr) (i n : Z) (sibs : pyval) : list bytes :=
  leaf_pre (raw event_hash)
  :: proof_preimages (verify_fuel n) i n (sha256 (leaf_pre (raw event_hash)))
       (default [] (as_sequence sibs)).

Lemma leaf_hash_ok v s :
  leaf_hash v = inr s ->
  exists d, v = PStr (hex_of_bytes d) /\ digest d /\ s = hex_of_bytes (sha256 (leaf_pre d)).
Proof.
  unfold leaf_hash. intros (d & [-> Hd]%hash_bytes_ok & [= <-])%res_bind_ok. eauto.
Qed.

Lemma leaf_hash_level vs leaves :
  res_map leaf_hash vs = inr leaves ->
  exists l, vs = PStr ∘ hex_of_bytes <$> l /\ Forall digest l
            /\ leaves = hex_of_bytes <$> (sha256 ∘ leaf_pre <$> l).
Proof.
  rewrite res_map_ok. induction 1 as [|v s vs ss Hv _ (l & -> & Hl & ->)]; [by exists []|].
  apply leaf_hash_ok in Hv as (d & -> & Hd & ->). exists (d :: l).
  split; [done|]. split; [by constructor|done].
Qed.

Lemma verify_sound l leaf li sibs :
  Forall digest l ->
  verify_merkle_proof leaf li (PInt (Z.of_nat (length l))) sibs (PStr (hex_of_bytes (root_of l))) = inr true ->
  exists k cur d, li = PInt (Z.of_nat k) /\ leaf = PStr (hex_of_bytes cur) /\ digest cur
    /\ l !! k = Some d
    /\ (cur = d \/ exists x y,
          x ∈ proof_preimages (verify_fuel (Z.of_nat (length l))) (Z.of_nat k) (Z.of_nat (length l))
                cur (default [] (as_sequence sibs))
          /\ y ∈ tree_preimages (length l) l /\ sha_collision x y).
Proof.
  intros Hl (i & n & cur & r & ss & -> & [= <-] & Hi & -> & Hcur & [= Hr] & Hdr & -> & Hv)%verify_body_true.
  assert (Hpos : (0 < length l)%nat) by lia.
  exists (Z.to_nat i), cur. rewrite !Z2Nat.id by lia.
  destruct (lookup_lt_is_Some_2 l (Z.to_nat i)) as [d Hd]; [lia|]. exists d.
  split_and!; [done..|]. cbn [from_option id].
  rewrite <-(Z2Nat.id i) in Hv by lia. rewrite <-Hr in Hv.
  apply proof_path_sound with (ft := length l) in Hv; [|done|lia|done..|apply verify_fuel_enough].
  rewrite Z2Nat.id in Hv by lia. rewrite Hd in Hv.
  destruct Hv as [Hv|Hv]; [left; by apply (inj Some) in Hv | by right].
Qed.

Lemma fmap_PStr_inj (hs : list pystr) (l : list bytes) : PStr <$> hs = PStr ∘ hex_of_bytes <$> l -> hs = hex_of_bytes <$> l.
Proof.
  revert l. induction hs as [|h hs IH]; intros [|d l]; cbn; try done.
  intros [= -> E]. f_equal. by apply IH.
Qed.

Lemma leaf_digests_raw (l : list bytes) : Forall digest l ->
  sha256 ∘ leaf_pre ∘ raw <$> (hex_of_bytes <$> l) = sha256 ∘ leaf_pre <$> l.
Proof.
  intros Hl. rewrite (list_fmap_compose raw (sha256 ∘ leaf_pre)). by rewrite raw_hex_list.
Qed.

Lemma verify_body_value_error leaf li lc sibs root e :
  verify_merkle_proof_body leaf li lc sibs root = inl e -> exists w, e = ValueError w.
Proof.
  unfold verify_merkle_proof_body. intros H.
  destruct (_validate_leaf_position li lc) as [e'|[i n]] eqn:Ev.
  { cbn in H. injection H as ->. unfold _validate_leaf_position, raise, mret, res_ret in Ev.
    repeat (case_match; simplify_eq/=; eauto). }
  cbn [mbind res_bind] in H.
  destruct (_hash_bytes leaf "leaf_hash") as [e'|cur] eqn:El.
  { cbn in H. injection H as ->. by eapply hash_bytes_value_error. }
  cbn [mbind res_bind] in H.
  destruct (_hash_bytes root "merkle_root") as [e'|r] eqn:Er.
  { cbn in H. injection H as ->. by eapply hash_bytes_value_error. }
  cbn [mbind res_bind] in H.
  destruct (as_sequence sibs) as [l|]; [|done]. case_match; [done|].
  destruct (verify_loop _ _ _ _ _) as [e'|[[]|]] eqn:Ev'; [|done|done].
  cbn in H. injection H as ->. by eapply verify_loop_value_error.
Qed.

Lemma verify_loop_fuel f g i n cur rest :
  n <= 2 ^ Z.of_nat g -> (g <= f)%nat -> verify_loop f i n cur rest = verify_loop g i n cur rest.
Proof.
  revert f i n cur rest. induction g as [|g IH]; intros f i n cur rest Hn Hf.
  - destruct f as [|f]; [done|]. cbn [verify_loop]. cbn in Hn. by destruct (Z.ltb_spec 1 n); [lia|].
  - destruct f as [|f]; [lia|]. cbn [verify_loop].
    destruct (Z.ltb_spec 1 n); [|done].
    assert (Hh : (n + 1) / 2 <= 2 ^ Z.of_nat g).
    { rewrite Nat2Z.inj_succ, Z.pow_succ_r in Hn by lia. apply Z.lt_succ_r, Z.div_lt_upper_bound; lia. }
    destruct (expected_side i n) as [side|]; [|apply IH; [done|lia]].
    destruct rest as [|nd rest]; [done|].
    destruct (read_sibling nd side) as [e|[sib|]]; [done| |done]. cbn [mbind res_bind].
    destruct (if str_eqb side (py "left") then _ else _); [done|]. cbn [mbind res_bind]. apply IH; [done|lia].
Qed.

(** ** Properties *)

(** C2. The level-by-level loop of [build_merkle_root] terminates and computes
    the RFC 6962 Merkle tree hash of its leaves, for every non-empty list of
    well-formed leaf hashes; on any other input it raises [ValueError]. *)
Theorem build_merkle_root_ref leaves :
  (leaves <> [] /\ forallb is_hash_hex leaves = true ->
   build_merkle_root leaves = inr (hex_of_bytes (rfc_root (length leaves) (raw <$> leaves))))
  /\ (leaves = [] \/ forallb is_hash_hex leaves = false ->
      exists what, build_merkle_root leaves = inl (ValueError what)).
Proof.
  split.
  - intros [Hn (l & -> & Hd)%hash_hex_leaves]. rewrite raw_hex_list by done. rewrite length_fmap.
    apply build_merkle_root_digests; [done|by intros ->].
  - intros Hbad. destruct (build_merkle_root leaves) as [e|r] eqn:E.
    + unfold build_merkle_root in E. destruct leaves as [|s leaves]; [simplify_eq/=; eauto|].
      destruct (hash_level (s :: leaves)) as [e'|level] eqn:El.
      * cbn [mbind res_bind] in E. injection E as ->. destruct (hash_level_value_error _ _ El) as [w ->]. eauto.
      * destruct (hash_level_ok _ _ El) as (l & Hl & _ & Hd). exfalso.
        destruct Hbad as [?|Hbad]; [done|]. by rewrite Hl, is_hash_hex_digests in Hbad.
    + apply build_merkle_root_ok in E as (l & -> & Hd & Hn & _). exfalso.
      destruct Hbad as [Hbad|Hbad]; [by destruct l|]. by rewrite is_hash_hex_digests in Hbad.
Qed.

(** On raw digests, for any sequence that holds the siblings. *)
Lemma proof_complete l i d :
  Forall digest l -> Z.of_nat (length l) <= 2 ^ 64 -> l !! i = Some d ->
  exists sibs,
    build_merkle_proof (hex_of_bytes <$> l) (Z.of_nat i)
      = inr {| leaf_index := Z.of_nat i; leaf_count := Z.of_nat (length l); siblings := sibs |}
    /\ Z.of_nat (length sibs) <= Z.log2_up (Z.of_nat (length l))
    /\ forall v, as_sequence v = Some sibs ->
         verify_merkle_proof (PStr (hex_of_bytes d)) (PInt (Z.of_nat i)) (PInt (Z.of_nat (length l))) v
           (PStr (hex_of_bytes (root_of l))) = inr true.
Proof.
  intros Hd Hmax Hk.
  pose proof (lookup_lt_Some _ _ _ Hk) as Hlt. pose proof (Forall_lookup_1 _ _ _ _ Hd Hk) as Hdd.
  destruct (proof_path_complete (Z.to_nat (Z.log2_up (Z.of_nat (length l)))) (length l) l i d [])
    as (sibs & Hp & Hlen & _); [done..|apply log2_up_fuel|].
  destruct (proof_path_complete (verify_fuel (Z.of_nat (length l))) (length l) l i d [])
    as (sibs' & Hp' & _ & Hv); [done..|apply verify_fuel_enough|].
  rewrite Hp in Hp'. injection Hp' as <-. rewrite app_nil_r in Hv.
  assert (Hl2 : Z.of_nat (length sibs) <= Z.log2_up (Z.of_nat (length l))).
  { pose proof (Z.log2_up_nonneg (Z.of_nat (length l))). lia. }
  assert (H64 : Z.log2_up (Z.of_nat (length l)) <= 64) by by apply log2_up_64.
  assert (Hb : (MAX_PROOF_SIBLINGS <? Z.of_nat (length sibs)) = false)
    by (apply Z.ltb_ge; unfold MAX_PROOF_SIBLINGS; lia).
  assert (Hpos : _validate_leaf_position (PInt (Z.of_nat i)) (PInt (Z.of_nat (length l))) = inr (Z.of_nat i, Z.of_nat (length l)))
    by (apply validate_ok; split_and!; [done|done|lia..]).
  exists sibs. split_and!; [|done|].
  - unfold build_merkle_proof. rewrite length_fmap, Hpos, hash_level_hex by done.
    cbn [mbind res_bind]. rewrite Hp. cbn [mbind res_bind]. by rewrite Hb.
  - intros v Ev. unfold verify_merkle_proof, verify_merkle_proof_body.
    rewrite Hpos. cbn [mbind res_bind]. rewrite (hash_bytes_hex d) by done.
    cbn [mbind res_bind]. rewrite hash_bytes_hex by (apply root_digest; [done|lia]).
    cbn [mbind res_bind]. rewrite Ev, Hb, Hv. cbn [mbind res_bind length Nat.eqb andb except_value_error].
    unfold str_eqb. by rewrite bool_decide_true.
Qed.

(** Completeness: for every leaf of a tree of at most [2^64] leaves the
    generated proof exists, has at most [log2_up n] siblings and is accepted
    against the root that [build_merkle_root] gives. *)
Theorem build_merkle_proof_verifies leaves i s :
  forallb is_hash_hex leaves = true -> Z.of_nat (length leaves) <= 2 ^ 64 -> leaves !! i = Some s ->
  exists p root,
    build_merkle_proof leaves (Z.of_nat i) = inr p /\ build_merkle_root leaves = inr root
    /\ Z.of_nat (length (siblings p)) <= Z.log2_up (Z.of_nat (length leaves))
    /\ verify_merkle_proof (PStr s) (PInt (leaf_index p)) (PInt (leaf_count p))
         (PTuple (siblings p)) (PStr root) = inr true.
Proof.
  intros (l & -> & Hd)%hash_hex_leaves Hmax Hi.
  rewrite list_lookup_fmap in Hi. destruct (l !! i) as [d|] eqn:Hk; [|done]. injection Hi as <-.
  rewrite length_fmap in Hmax |- *. destruct (proof_complete l i d) as (sibs & Hp & Hlen & Hv); [done..|].
  exists {| leaf_index := Z.of_nat i; leaf_count := Z.of_nat (length l); siblings := sibs |}, (hex_of_bytes (root_of l)).
  split_and!; [done| |done|by apply Hv].
  apply build_merkle_root_digests; [done|]. intros ->. by rewrite lookup_nil in Hk.
Qed.

Definition demo_hashes : list pystr :=
  sha256_hexdigest <$> [py "a"; py "b"; py "c"; py "d"; py "e"].

Lemma build_merkle_proof_verifies_witness :
  exists p root, build_merkle_proof demo_hashes 4 = inr p /\ build_merkle_root demo_hashes = inr root
    /\ verify_merkle_proof (PStr (demo_hashes !!! 4%nat)) (PInt (leaf_index p)) (PInt (leaf_count p))
         (PTuple (siblings p)) (PStr root) = inr true.
Proof.
  destruct (build_merkle_proof_verifies demo_hashes 4 (demo_hashes !!! 4%nat)) as (p & r & H1 & H2 & _ & H3).
  - vm_compute. reflexivity.
  - cbn. lia.
  - vm_compute. reflexivity.
  - exact (ex_intro _ p (ex_intro _ r (conj H1 (conj H2 H3)))).
Defined.

(** On raw digests. *)
Lemma event_proof_sound l event_hash li sibs :
  Forall digest l -> l <> [] ->
  verify_event_merkle_proof event_hash li (PInt (Z.of_nat (length l))) sibs
    (PStr (hex_of_bytes (root_of (sha256 ∘ leaf_pre <$> l)))) = inr true ->
  exists k c d, li = PInt (Z.of_nat k) /\ event_hash = PStr (hex_of_bytes c) /\ l !! k = Some d
    /\ (c = d \/ exists x y,
          x ∈ event_proof_preimages (hex_of_bytes c) (Z.of_nat k) (Z.of_nat (length l)) sibs
          /\ y ∈ event_tree_preimages (hex_of_bytes <$> l) /\ sha_collision x y).
Proof.
  intros Hl Hne Hv. set (L := sha256 ∘ leaf_pre <$> l) in *.
  assert (HL : Forall digest L) by (apply Forall_fmap, Forall_true; intros; apply digest_sha256).
  pose proof (leaf_digests_raw l Hl : _ = L) as Eraw. unfold verify_event_merkle_proof in Hv.
  destruct (leaf_hash event_hash) as [[]|h] eqn:Eh; try done.
  apply leaf_hash_ok in Eh as (c & -> & Hc & ->).
  assert (Elen : length l = length L) by (unfold L; by rewrite length_fmap). rewrite Elen in *.
  destruct (verify_sound L _ li sibs HL Hv) as (k & cur & d & -> & [= Ecur] & Hcur & Hd & Hor).
  apply hex_of_bytes_inj in Ecur; [|apply digest_sha256|apply Hcur].
  unfold L in Hd. rewrite list_lookup_fmap in Hd. destruct (l !! k) as [d0|] eqn:Hk; [|done].
  apply (inj Some) in Hd. exists k, c, d0. split_and!; [done..|].
  unfold event_proof_preimages, event_tree_preimages. rewrite raw_hex, Eraw by done.
  rewrite length_fmap, Elen. pose proof (Forall_lookup_1 _ _ _ _ Hl Hk) as Hd0.
  destruct Hor as [E|(x & y & Hx & Hy & Hxy)].
  - destruct (decide (c = d0)) as [->|Hcd]; [by left|]. right.
    exists (leaf_pre c), (leaf_pre d0). refine (conj _ (conj _ (conj _ _))).
    + constructor.
    + apply elem_of_app. left. rewrite <-list_fmap_compose. apply list_elem_of_fmap.
      exists d0. split; [cbn; by rewrite raw_hex|by eapply list_elem_of_lookup_2].
    + by intros [= ?].
    + by rewrite Ecur, E, <-Hd.
  - right. exists x, y. rewrite <-Ecur in Hx. refine (conj _ (conj _ Hxy)).
    + by constructor.
    + apply elem_of_app. by right.
Qed.

(** C1. Soundness: an event hash that [verify_event_merkle_proof] accepts, at
    any claimed index and with any untrusted siblings, against the root that
    [build_event_merkle_root] computes for a batch of that size, is the hash at
    that index of the batch; otherwise the proof and the tree together exhibit
    two different SHA-256 preimages with the same digest. *)
Theorem verify_event_merkle_proof_sound event_hashes root event_hash li sibs :
  build_event_merkle_root (PStr <$> event_hashes) = inr root ->
  verify_event_merkle_proof event_hash li (PInt (Z.of_nat (length event_hashes))) sibs (PStr root)
    = inr true ->
  exists k h s, li = PInt (Z.of_nat k) /\ event_hash = PStr h /\ event_hashes !! k = Some s
    /\ (h = s \/ exists x y,
          x ∈ event_proof_preimages h (Z.of_nat k) (Z.of_nat (length event_hashes)) sibs
          /\ y ∈ event_tree_preimages event_hashes /\ sha_collision x y).
Proof.
  intros Hroot Hv. unfold build_event_merkle_root in Hroot.
  apply res_bind_ok in Hroot as (leaves & (l & El & Hl & ->)%leaf_hash_level & Hroot).
  apply fmap_PStr_inj in El as ->.
  assert (Hne : l <> []) by (intros ->; done).
  rewrite build_merkle_root_digests in Hroot;
    [|apply Forall_fmap, Forall_true; intros; apply digest_sha256|intros E%(f_equal length); rewrite length_fmap in E; by destruct l].
  apply (inj inr) in Hroot as <-. rewrite length_fmap in *.
  destruct (event_proof_sound l event_hash li sibs Hl Hne Hv) as (k & c & d & -> & -> & Hk & Hor).
  exists k, (hex_of_bytes c), (hex_of_bytes d). split_and!; [done|done|by rewrite list_lookup_fmap, Hk|].
  destruct Hor as [->|?]; [by left|by right].
Qed.

Definition demo_leaves : list pystr := (fun h => sha256_hexdigest (leaf_pre (raw h))) <$> demo_hashes.
Definition demo_root : pystr := match build_merkle_root demo_leaves with inr r => r | inl _ => [] end.
Definition demo_sibs : pyval :=
  match build_merkle_proof demo_leaves 2 with inr p => PList (siblings p) | inl _ => PNone end.

Lemma verify_event_merkle_proof_sound_witness :
  exists k h s, PInt 2 = PInt (Z.of_nat k) /\ PStr (demo_hashes !!! 2%nat) = PStr h
    /\ demo_hashes !! k = Some s
    /\ (h = s \/ exists x y,
          x ∈ event_proof_preimages h (Z.of_nat k) (Z.of_nat (length demo_hashes)) demo_sibs
          /\ y ∈ event_tree_preimages demo_hashes /\ sha_collision x y).
Proof.
  apply (verify_event_merkle_proof_sound demo_hashes demo_root).
  - vm_compute. reflexivity.
  - vm_compute. reflexivity.
Defined.

(** The verifier is total on untrusted input: whatever values a bundle
    supplies for the five arguments, it answers [True] or [False] and never
    raises. *)
Theorem verify_event_merkle_proof_total event_hash li lc sibs root :
  exists b, verify_event_merkle_proof event_hash li lc sibs root = inr b.
Proof.
  unfold verify_event_merkle_proof.
  destruct (leaf_hash event_hash) as [e|h] eqn:Eh.
  - unfold leaf_hash in Eh. destruct (_hash_bytes event_hash "event_hash") eqn:E; [|done].
    injection Eh as ->. destruct (hash_bytes_value_error _ _ _ E) as [w ->]. by eexists.
  - unfold verify_merkle_proof. destruct (verify_merkle_proof_body _ _ _ _ _) as [e|b] eqn:Eb; [|by eexists].
    destruct (verify_body_value_error _ _ _ _ _ _ Eb) as [w ->]. by eexists.
Qed.

(** The fuel of the verifier's loop is enough: running it longer than the
    [log2_up] of the claimed width never changes its result, so the [while]
    loop of the code terminates on every claimed leaf count, however large. *)
Theorem verify_loop_terminates f i n cur rest :
  (verify_fuel n <= f)%nat -> verify_loop f i n cur rest = verify_loop (verify_fuel n) i n cur rest.
Proof.
  intros Hf. destruct (Z.le_gt_cases n 1) as [H1|H1].
  - destruct f as [|f]; cbn [verify_fuel verify_loop]; [unfold verify_fuel in Hf; lia|].
    by destruct (Z.ltb_spec 1 n); [lia|].
  - unfold verify_fuel in *. apply verify_loop_fuel; [|lia].
    rewrite Nat2Z.inj_succ, Z2Nat.id by apply Z.log2_up_nonneg.
    rewrite Z.pow_succ_r by apply Z.log2_up_nonneg. pose proof (Z.log2_up_spec n H1). lia.
Qed.

Lemma verify_loop_terminates_witness :
  verify_loop 300 5 (2 ^ 200) [] [] = verify_loop (verify_fuel (2 ^ 200)) 5 (2 ^ 200) [] [].
Proof. apply verify_loop_terminates. vm_compute. lia. Defined.

Lemma build_merkle_root_ref_witness :
  build_merkle_root demo_hashes = inr (hex_of_bytes (rfc_root 5 (raw <$> demo_hashes))).
Proof.
  apply (proj1 (build_merkle_root_ref demo_hashes)). split; [done|]. vm_compute. reflexivity.
Defined.
