(* ===== verification/Models.v ===== *)
(** * The database model (backend/app/db/models.py) and the session monad

    One record per mapped table, with the table's columns as fields, except
    [updated_at] where no modelled operation reads it.  [Store] is the database:
    a finite map per table, keyed by the table's primary key.  [Session] is an
    SQLAlchemy session over it: [durable] is the committed database, [work] the
    state the open transaction sees.  Row and advisory locks are not modelled:
    operations run one after the other, as the locks make them do. *)

From S2P Require Import Prelude PyStr Json.
Local Open Scope Z_scope.

(** ** Enumerations *)

Inductive ChannelVisibility := public | private.
Global Instance ChannelVisibility_eq_dec : EqDecision ChannelVisibility.
Proof. solve_decision. Defined.

Inductive ChannelJoinMode := open_ | invite_only | approval_required.
Global Instance ChannelJoinMode_eq_dec : EqDecision ChannelJoinMode.
Proof. solve_decision. Defined.

Inductive MembershipRole := owner | admin | member | pending_role.
Global Instance MembershipRole_eq_dec : EqDecision MembershipRole.
Proof. solve_decision. Defined.

Inductive ContentType := text_ | json_.
Global Instance ContentType_eq_dec : EqDecision ContentType.
Proof. solve_decision. Defined.

Inductive OutboxStatus := pending | publishing | published | retry_scheduled | failed | dead_lettered.
Global Instance OutboxStatus_eq_dec : EqDecision OutboxStatus.
Proof. solve_decision. Defined.

(** The string values of the enumerations. *)
Definition visibility_value (v : ChannelVisibility) : pystr :=
  match v with public => py "public" | private => py "private" end.
Definition join_mode_value (m : ChannelJoinMode) : pystr :=
  match m with
  | open_ => py "open" | invite_only => py "invite_only" | approval_required => py "approval_required"
  end.
Definition role_value (r : MembershipRole) : pystr :=
  match r with
  | owner => py "owner" | admin => py "admin" | member => py "member" | pending_role => py "pending"
  end.
Definition content_type_value (c : ContentType) : pystr :=
  match c with text_ => py "text" | json_ => py "json" end.

(** ** Tables *)

Module User.
Record t := Row {
  id : uuid;
  username : pystr;
  email : option (list Z);
  email_verified_at : option Z;
  password_hash : pystr;
  display_name : option (list Z);
  avatar_url : option (list Z);
  wallpaper_url : option (list Z);
  bio : option (list Z);
  is_superadmin : bool;
  is_active : bool;
  deactivated_at : option Z;
  deactivated_by_user_id : option N;
  created_at : instant
}.
Global Instance eta_t : Eta t := fun r =>
  Row (id r) (username r) (email r) (email_verified_at r) (password_hash r) (display_name r)
      (avatar_url r) (wallpaper_url r) (bio r) (is_superadmin r) (is_active r) (deactivated_at r)
      (deactivated_by_user_id r) (created_at r).
End User.

Module UserSession.
Record t := Row {
  id : uuid;
  user_id : uuid;
  refresh_token_hash : pystr;
  user_agent : option (list Z);
  ip : option (list Z);
  created_at : instant;
  last_used_at : option Z;
  expires_at : instant;
  absolute_expires_at : instant;
  revoked_at : option Z;
  replay_detected_at : option Z
}.
Global Instance eta_t : Eta t := fun r =>
  Row (id r) (user_id r) (refresh_token_hash r) (user_agent r) (ip r) (created_at r) (last_used_at
      r) (expires_at r) (absolute_expires_at r) (revoked_at r) (replay_detected_at r).
End UserSession.

Module EmailVerificationChallenge.
Record t := Row {
  id : uuid;
  user_id : uuid;
  email : pystr;
  token_hash : pystr;
  created_at : instant;
  expires_at : instant;
  consumed_at : option Z;
  revoked_at : option Z
}.
Global Instance eta_t : Eta t := fun r =>
  Row (id r) (user_id r) (email r) (token_hash r) (created_at r) (expires_at r) (consumed_at r) (revoked_at r).
End EmailVerificationChallenge.

Module Channel.
Record t := Row {
  id : uuid;
  owner_user_id : uuid;
  name : pystr;
  channel_slug : pystr;
  description : option (list Z);
  avatar_url : option (list Z);
  visibility : ChannelVisibility;
  join_mode : ChannelJoinMode;
  created_at : instant;
  deleted_at : option Z;
  last_seq_id : Z;
  membership_generation : Z
}.
Global Instance eta_t : Eta t := fun r =>
  Row (id r) (owner_user_id r) (name r) (channel_slug r) (description r) (avatar_url r)
      (visibility r) (join_mode r) (created_at r) (deleted_at r) (last_seq_id r)
      (membership_generation r).
End Channel.

Module ChannelCounter.
Record t := Row {
  channel_id : uuid;
  next_seq : Z
}.
Global Instance eta_t : Eta t := fun r =>
  Row (channel_id r) (next_seq r).
End ChannelCounter.

Module ChannelMembership.
Record t := Row {
  channel_id : uuid;
  user_id : uuid;
  role : MembershipRole;
  admin_permissions : pyval;
  created_at : instant;
  approved_at : option Z;
  created_by_user_id : option N;
  invited_by_user_id : option N
}.
Global Instance eta_t : Eta t := fun r =>
  Row (channel_id r) (user_id r) (role r) (admin_permissions r) (created_at r) (approved_at r)
      (created_by_user_id r) (invited_by_user_id r).
End ChannelMembership.

Module BrokerBindingState.
Record t := Row {
  channel_id : uuid;
  user_id : uuid;
  generation : Z;
  desired_bound : bool;
  desired_routing_key : pystr;
  routing_keys : list pystr;
  reconciled_generation : Z
}.
Global Instance eta_t : Eta t := fun r =>
  Row (channel_id r) (user_id r) (generation r) (desired_bound r) (desired_routing_key r)
      (routing_keys r) (reconciled_generation r).
End BrokerBindingState.

Module ChannelInvite.
Record t := Row {
  id : uuid;
  channel_id : uuid;
  invited_user_id : option N;
  invited_email : option (list Z);
  token_hash : pystr;
  token_mask_prefix : pystr;
  token_mask_suffix : pystr;
  created_by_user_id : uuid;
  created_at : instant;
  expires_at : instant;
  accepted_at : option Z;
  revoked_at : option Z
}.
Global Instance eta_t : Eta t := fun r =>
  Row (id r) (channel_id r) (invited_user_id r) (invited_email r) (token_hash r)
      (token_mask_prefix r) (token_mask_suffix r) (created_by_user_id r) (created_at r) (expires_at r)
      (accepted_at r) (revoked_at r).
End ChannelInvite.

Module Message.
Record t := Row {
  id : uuid;
  channel_id : uuid;
  sender_user_id : uuid;
  seq_id : Z;
  content_type : ContentType;
  content_text : option (list Z);
  content_json : pyval;
  reply_to_message_id : option N;
  reply_to_seq_id : option Z;
  attachments : pyval;
  is_pinned : bool;
  client_msg_id : option N;
  created_at : instant;
  updated_at : instant;
  edited_at : option Z;
  deleted_at : option Z
}.
Global Instance eta_t : Eta t := fun r =>
  Row (id r) (channel_id r) (sender_user_id r) (seq_id r) (content_type r) (content_text r)
      (content_json r) (reply_to_message_id r) (reply_to_seq_id r) (attachments r) (is_pinned r)
      (client_msg_id r) (created_at r) (updated_at r) (edited_at r) (deleted_at r).
End Message.

Module MessageAttachment.
Record t := Row {
  message_id : uuid;
  upload_id : uuid;
  channel_id : uuid;
  created_at : instant
}.
Global Instance eta_t : Eta t := fun r =>
  Row (message_id r) (upload_id r) (channel_id r) (created_at r).
End MessageAttachment.

Module MessageReaction.
Record t := Row {
  id : uuid;
  channel_id : uuid;
  message_id : uuid;
  user_id : uuid;
  emoji : pystr;
  created_at : instant
}.
Global Instance eta_t : Eta t := fun r =>
  Row (id r) (channel_id r) (message_id r) (user_id r) (emoji r) (created_at r).
End MessageReaction.

Module PinnedMessage.
Record t := Row {
  channel_id : uuid;
  message_id : uuid;
  pinned_by_user_id : uuid;
  created_at : instant
}.
Global Instance eta_t : Eta t := fun r =>
  Row (channel_id r) (message_id r) (pinned_by_user_id r) (created_at r).
End PinnedMessage.

Module Upload.
Record t := Row {
  id : uuid;
  owner_user_id : uuid;
  filename : pystr;
  content_type : pystr;
  size_bytes : Z;
  checksum : option (list Z);
  storage_path : pystr;
  public_url : option (list Z);
  storage_encryption_version : Z;
  storage_key_id : option (list Z);
  created_at : instant
}.
Global Instance eta_t : Eta t := fun r =>
  Row (id r) (owner_user_id r) (filename r) (content_type r) (size_bytes r) (checksum r)
      (storage_path r) (public_url r) (storage_encryption_version r) (storage_key_id r) (created_at
      r).
End Upload.

Module UserChannelState.
Record t := Row {
  channel_id : uuid;
  user_id : uuid;
  last_seen_message_id : option N;
  last_seen_seq_id : option Z;
  last_seen_at : option Z;
  unread_count : Z
}.
Global Instance eta_t : Eta t := fun r =>
  Row (channel_id r) (user_id r) (last_seen_message_id r) (last_seen_seq_id r) (last_seen_at r)
      (unread_count r).
End UserChannelState.

Module Event.
Record t := Row {
  id : uuid;
  channel_id : option N;
  actor_user_id : option N;
  event_type : pystr;
  payload : pyval;
  created_at : instant;
  previous_hash : option (list Z);
  event_hash : option (list Z);
  hash_algorithm : option (list Z);
  integrity_version : option Z;
  integrity_scope : option (list Z)
}.
Global Instance eta_t : Eta t := fun r =>
  Row (id r) (channel_id r) (actor_user_id r) (event_type r) (payload r) (created_at r)
      (previous_hash r) (event_hash r) (hash_algorithm r) (integrity_version r) (integrity_scope r).
End Event.

Module AuditMerkleBatch.
Record t := Row {
  id : uuid;
  sequence_no : Z;
  merkle_version : Z;
  hash_algorithm : pystr;
  leaf_count : Z;
  first_event_id : uuid;
  last_event_id : uuid;
  first_event_hash : pystr;
  last_event_hash : pystr;
  merkle_root : pystr;
  previous_checkpoint_hash : option (list Z);
  checkpoint_hash : pystr;
  signing_key_id : pystr;
  signature : pystr;
  created_at : instant
}.
Global Instance eta_t : Eta t := fun r =>
  Row (id r) (sequence_no r) (merkle_version r) (hash_algorithm r) (leaf_count r) (first_event_id
      r) (last_event_id r) (first_event_hash r) (last_event_hash r) (merkle_root r)
      (previous_checkpoint_hash r) (checkpoint_hash r) (signing_key_id r) (signature r) (created_at
      r).
End AuditMerkleBatch.

Module AuditMerkleLeaf.
Record t := Row {
  batch_id : uuid;
  event_id : uuid;
  leaf_index : Z;
  event_hash : pystr;
  leaf_hash : pystr
}.
Global Instance eta_t : Eta t := fun r =>
  Row (batch_id r) (event_id r) (leaf_index r) (event_hash r) (leaf_hash r).
End AuditMerkleLeaf.

Module Outbox.
Record t := Row {
  id : uuid;
  aggregate_type : pystr;
  aggregate_id : uuid;
  channel_id : uuid;
  payload : pyval;
  type : option (list Z);
  routing_key : pystr;
  status : OutboxStatus;
  attempts : Z;
  max_attempts : Z;
  last_error : option (list Z);
  created_at : instant;
  updated_at : instant;
  sent_at : option Z;
  published_at : option Z;
  next_retry_at : option Z;
  dead_lettered_at : option Z
}.
Global Instance eta_t : Eta t := fun r =>
  Row (id r) (aggregate_type r) (aggregate_id r) (channel_id r) (payload r) (type r) (routing_key
      r) (status r) (attempts r) (max_attempts r) (last_error r) (created_at r) (updated_at r) (sent_at r)
      (published_at r) (next_retry_at r) (dead_lettered_at r).
End Outbox.

