(* ===== verification/Session.v ===== *)
(** * The database session as a state and exception monad

    [Store] is the database, [Session] an open SQLAlchemy session with the
    sources of nondeterminism it reads: the clock, [uuid4], [secrets] and the
    faults of the database server are streams of the [World], consumed one
    element per call.  An exception keeps the session state reached so far, as
    it does in Python; the caller that abandons the session rolls it back. *)

From S2P Require Import Prelude PyStr Json Models.
Local Open Scope Z_scope.

(** ** The store *)

Record Store := MkStore {
  users : gmap N User.t;
  user_sessions : gmap N UserSession.t;
  channels : gmap N Channel.t;
  channel_counters : gmap N ChannelCounter.t;
  channel_memberships : gmap (N * N) ChannelMembership.t;
  broker_binding_states : gmap (N * N) BrokerBindingState.t;
  channel_invites : gmap N ChannelInvite.t;
  messages : gmap N Message.t;
  message_attachments : gmap (N * N) MessageAttachment.t;
  message_reactions : gmap N MessageReaction.t;
  pinned_messages : gmap (N * N) PinnedMessage.t;
  uploads : gmap N Upload.t;
  user_channel_state : gmap (N * N) UserChannelState.t;
  events : gmap N Event.t;
  audit_merkle_batches : gmap N AuditMerkleBatch.t;
  audit_merkle_leaves : gmap (N * Z) AuditMerkleLeaf.t;
  outbox : gmap N Outbox.t;
  email_verification_challenges : gmap N EmailVerificationChallenge.t
}.
Global Instance eta_Store : Eta Store := fun r =>
  MkStore (users r) (user_sessions r) (channels r) (channel_counters r) (channel_memberships r)
    (broker_binding_states r) (channel_invites r) (messages r) (message_attachments r)
    (message_reactions r) (pinned_messages r) (uploads r) (user_channel_state r) (events r)
    (audit_merkle_batches r) (audit_merkle_leaves r) (outbox r) (email_verification_challenges r).

Definition empty_store : Store :=
  MkStore ∅ ∅ ∅ ∅ ∅ ∅ ∅ ∅ ∅ ∅ ∅ ∅ ∅ ∅ ∅ ∅ ∅ ∅.

(** The rows of a table, in no order a query may rely on. *)
Definition rows {K} `{Countable K} {A} (t : gmap K A) : list A := (map_to_list t).*2.

Lemma elem_of_rows {K} `{Countable K} {A} (t : gmap K A) x : x ∈ rows t <-> exists k, t !! k = Some x.
Proof.
  unfold rows. rewrite list_elem_of_fmap. split.
  - intros ([k y] & -> & Hk%elem_of_map_to_list). eauto.
  - intros [k Hk]. exists (k, x). by rewrite elem_of_map_to_list.
Qed.

Lemma rows_insert {K} `{Countable K} {A} (t : gmap K A) k x :
  t !! k = None -> rows (<[k:=x]> t) ≡ₚ x :: rows t.
Proof. intros Hk. unfold rows. by rewrite map_to_list_insert. Qed.

(** Rows that carry their key are distinct. *)
Lemma rows_keyed_nodup {K} `{Countable K} {A} (key : A -> K) (t : gmap K A) :
  (forall k x, t !! k = Some x -> key x = k) -> NoDup (key <$> rows t).
Proof.
  intros Hk. unfold rows. rewrite <-list_fmap_compose.
  replace (key ∘ snd <$> map_to_list t) with (map_to_list t).*1; [apply NoDup_fst_map_to_list|].
  apply list_fmap_ext. intros i [k x] Hx. symmetry. apply Hk. apply elem_of_map_to_list.
  by apply list_elem_of_lookup_2 in Hx.
Qed.

Lemma sublist_filter_bool {A} (p : A -> bool) l : List.filter p l `sublist_of` l.
Proof. induction l as [|x l IH]; cbn; [constructor|]. destruct (p x); by constructor. Qed.

(** ** The world *)

Class World := {
  (** Successive readings of [utcnow()] and of SQL [now()]. *)
  clock : nat -> Z;
  (** Successive results of [uuid4()] and of [secrets.token_urlsafe]. *)
  fresh_uuid : nat -> N;
  fresh_token : nat -> list Z;
  (** The SQLSTATE of a statement or commit that the server aborts. *)
  db_fault : nat -> option string;
  (** The state of the services outside the database. *)
  ext : Type;
}.

Section Session.
Context `{World}.

Record Session := MkSession {
  durable : Store;
  work : Store;
  clock_at : nat;
  uuid_at : nat;
  token_at : nat;
  fault_at : nat;
  outside : ext
}.
Global Instance eta_Session : Eta Session := fun s =>
  MkSession (durable s) (work s) (clock_at s) (uuid_at s) (token_at s) (fault_at s) (outside s).

Lemma session_work_eta s w : work s = w -> s <| work := w |> = s.
Proof. intros <-. by destruct s. Qed.

Lemma session_work_upd s f : s <| work ::= f |> = s <| work := f (work s) |>.
Proof. done. Qed.

(** A session opened on a database. *)
Definition open_session (db : Store) (x : ext) : Session := MkSession db db 0 0 0 0 x.

Definition M (A : Type) : Type := Session -> res A * Session.

Global Instance M_ret : MRet M := fun A x s => (inr x, s).
Global Instance M_bind : MBind M := fun A B f m s =>
  match m s with
  | (inl e, s') => (inl e, s')
  | (inr x, s') => f x s'
  end.

Definition throw {A} (e : exc) : M A := fun s => (inl e, s).
(** [try: m except ...: h]; the handler re-raises what it does not catch. *)
Definition try_except {A} (m : M A) (h : exc -> M A) : M A := fun s =>
  match m s with
  | (inl e, s') => h e s'
  | ok => ok
  end.
Definition of_res {A} (r : res A) : M A := fun s => (r, s).
Definition of_option {A} (e : exc) (o : option A) : M A :=
  match o with Some x => mret x | None => throw e end.

(** Reading and writing through the open transaction. *)
Definition gets {A} (f : Store -> A) : M A := fun s => (inr (f (work s)), s).
Definition modify (f : Store -> Store) : M unit := fun s => (inr tt, s <| work ::= f |>).

Definition utcnow : M Z := fun s => (inr (clock (clock_at s)), s <| clock_at ::= S |>).
Definition uuid4 : M N := fun s => (inr (fresh_uuid (uuid_at s)), s <| uuid_at ::= S |>).
Definition token_urlsafe : M (list Z) := fun s => (inr (fresh_token (token_at s)), s <| token_at ::= S |>).

(** The server may abort a statement; the fault stream decides. *)
Definition may_fault : M unit := fun s =>
  let s' := s <| fault_at ::= S |> in
  match db_fault (fault_at s) with
  | Some sqlstate => (inl (DbError sqlstate), s')
  | None => (inr tt, s')
  end.

Definition persist : M unit := fun s => (inr tt, s <| durable := work s |>).
Definition commit : M unit := may_fault ;; persist.
Definition rollback : M unit := fun s => (inr tt, s <| work := durable s |>).

(** [db.add(row); await db.flush()] of a row with a new primary key. *)
Definition insert_row {K} `{Countable K} {A} (name : string) (table : Store -> gmap K A)
    (set : (gmap K A -> gmap K A) -> Store -> Store) (k : K) (row : A) : M unit :=
  t ← gets table;
  match t !! k with
  | Some _ => throw (IntegrityError name)
  | None => modify (set (insert k row))
  end.

(** Iteration: [for x in l: f(x)] and a comprehension over awaits. *)
Fixpoint for_each {A} (l : list A) (f : A -> M unit) : M unit :=
  match l with
  | [] => mret tt
  | x :: l => f x ;; for_each l f
  end.
Fixpoint map_each {A B} (l : list A) (f : A -> M B) : M (list B) :=
  match l with
  | [] => mret []
  | x :: l => y ← f x; ys ← map_each l f; mret (y :: ys)
  end.
Definition guard (b : bool) (e : exc) : M unit := if b then mret tt else throw e.

(** ** Successful runs *)

Lemma bind_run {A B} (m : M A) (f : A -> M B) s r s' :
  (m ≫= f) s = (r, s') ->
  (exists e, r = inl e /\ m s = (inl e, s'))
  \/ exists a s1, m s = (inr a, s1) /\ f a s1 = (r, s').
Proof.
  unfold mbind, M_bind. destruct (m s) as [[e|a] s1]; [|by eauto].
  intros [= <- <-]. eauto.
Qed.

Lemma bind_ok {A B} (m : M A) (f : A -> M B) s b s' :
  (m ≫= f) s = (inr b, s') -> exists a s1, m s = (inr a, s1) /\ f a s1 = (inr b, s').
Proof. intros [(e & [=] & _)|?]%bind_run. done. Qed.

Lemma bind_step {A B} (m : M A) (f : A -> M B) s a s1 : m s = (inr a, s1) -> (m ≫= f) s = f a s1.
Proof. intros E. unfold mbind, M_bind. by rewrite E. Qed.
Lemma bind_fail {A B} (m : M A) (f : A -> M B) s e s1 : m s = (inl e, s1) -> (m ≫= f) s = (inl e, s1).
Proof. intros E. unfold mbind, M_bind. by rewrite E. Qed.

Lemma try_step {A} (m : M A) h s a s1 : m s = (inr a, s1) -> try_except m h s = (inr a, s1).
Proof. intros E. unfold try_except. by rewrite E. Qed.
Lemma try_fail {A} (m : M A) h s e s1 : m s = (inl e, s1) -> try_except m h s = h e s1.
Proof. intros E. unfold try_except. by rewrite E. Qed.

Lemma gets_run {A} (f : Store -> A) s : gets f s = (inr (f (work s)), s).
Proof. done. Qed.
Lemma utcnow_run s : exists now s', utcnow s = (inr now, s') /\ work s' = work s /\ durable s' = durable s.
Proof. by eexists _, _. Qed.
Lemma rollback_run s : exists s', rollback s = (inr tt, s') /\ work s' = durable s /\ durable s' = durable s.
Proof. by eexists _. Qed.

(** ** Relations preserved by a computation *)

Definition preserves {A} (R : Session -> Session -> Prop) (m : M A) : Prop :=
  forall s, R s (m s).2.

Section Preserves.
Context (R : Session -> Session -> Prop) `{!Reflexive R} `{!Transitive R}.

Lemma pres_ret {A} (x : A) : preserves R (mret x).
Proof. by intros s. Qed.
Lemma pres_throw {A} e : preserves R (throw (A:=A) e).
Proof. by intros s. Qed.
Lemma pres_gets {A} (f : Store -> A) : preserves R (gets f).
Proof. by intros s. Qed.
Lemma pres_of_res {A} (r : res A) : preserves R (of_res r).
Proof. by intros s. Qed.
Lemma pres_of_option {A} e (o : option A) : preserves R (of_option e o).
Proof. destruct o; [apply pres_ret|apply pres_throw]. Qed.
Lemma pres_guard b e : preserves R (guard b e).
Proof. destruct b; [apply pres_ret|apply pres_throw]. Qed.
Lemma pres_bind {A B} (m : M A) (f : A -> M B) :
  preserves R m -> (forall a, preserves R (f a)) -> preserves R (m ≫= f).
Proof.
  intros Hm Hf s. unfold mbind, M_bind. specialize (Hm s). destruct (m s) as [[e|a] s1]; [done|].
  etrans; [exact Hm|apply Hf].
Qed.
Lemma pres_try {A} (m : M A) h :
  preserves R m -> (forall e, preserves R (h e)) -> preserves R (try_except m h).
Proof.
  intros Hm Hh s. unfold try_except. specialize (Hm s). destruct (m s) as [[e|a] s1]; [|done].
  etrans; [exact Hm|apply Hh].
Qed.
Lemma pres_for_each {A} (l : list A) f :
  (forall x, preserves R (f x)) -> preserves R (for_each l f).
Proof. intros Hf. induction l as [|x l IH]; [apply pres_ret|]. by apply pres_bind. Qed.
Lemma pres_map_each {A B} (l : list A) (f : A -> M B) :
  (forall x, preserves R (f x)) -> preserves R (map_each l f).
Proof.
  intros Hf. induction l as [|x l IH]; [apply pres_ret|].
  apply pres_bind; [done|]. intros y. apply pres_bind; [done|]. intros ys. apply pres_ret.
Qed.
End Preserves.

(** An invariant of the committed database and of the open transaction that
    only depends on their contents. *)
Definition keeps (I : Store -> Prop) (s s' : Session) : Prop :=
  I (durable s) -> I (work s) -> I (durable s') /\ I (work s').

Global Instance keeps_refl I : Reflexive (keeps I).
Proof. by intros s. Qed.
Global Instance keeps_trans I : Transitive (keeps I).
Proof. intros s1 s2 s3 H1 H2 Hd Hw. destruct (H1 Hd Hw). by apply H2. Qed.

Lemma keeps_utcnow I : preserves (keeps I) utcnow.
Proof. by intros s. Qed.
Lemma keeps_uuid4 I : preserves (keeps I) uuid4.
Proof. by intros s. Qed.
Lemma keeps_token I : preserves (keeps I) token_urlsafe.
Proof. by intros s. Qed.
Lemma keeps_may_fault I : preserves (keeps I) may_fault.
Proof. intros s. unfold may_fault. destruct (db_fault (fault_at s)); by intros. Qed.
Lemma keeps_commit I : preserves (keeps I) commit.
Proof. apply pres_bind; [apply _|apply keeps_may_fault|]. by intros _ s. Qed.
Lemma keeps_rollback I : preserves (keeps I) rollback.
Proof. by intros s. Qed.
Lemma keeps_modify I f : (forall st, I st -> I (f st)) -> preserves (keeps I) (modify f).
Proof. intros Hf s Hd Hw. split; [done|by apply Hf]. Qed.
(** A part of the open transaction that a computation leaves alone; such a
    computation neither commits nor rolls back. *)
Definition same {X} (f : Store -> X) (s s' : Session) : Prop :=
  f (work s') = f (work s) /\ durable s' = durable s.

Global Instance same_refl {X} (f : Store -> X) : Reflexive (same f).
Proof. by intros s. Qed.
Global Instance same_trans {X} (f : Store -> X) : Transitive (same f).
Proof. intros s1 s2 s3 [H1 H2] [H3 H4]. split; congruence. Qed.

Lemma same_utcnow {X} (f : Store -> X) : preserves (same f) utcnow.
Proof. by intros s. Qed.
Lemma same_uuid4 {X} (f : Store -> X) : preserves (same f) uuid4.
Proof. by intros s. Qed.
Lemma same_token {X} (f : Store -> X) : preserves (same f) token_urlsafe.
Proof. by intros s. Qed.
Lemma same_may_fault {X} (f : Store -> X) : preserves (same f) may_fault.
Proof. intros s. unfold may_fault. by destruct (db_fault (fault_at s)). Qed.
Lemma same_modify {X} (f : Store -> X) g : (forall st, f (g st) = f st) -> preserves (same f) (modify g).
Proof. intros Hg s. split; [apply Hg|done]. Qed.

(** A successful run of a computation that leaves a part alone. *)
Lemma same_run {X A} (f : Store -> X) (m : M A) s r s' :
  preserves (same f) m -> m s = (r, s') -> f (work s') = f (work s) /\ durable s' = durable s.
Proof. intros Hm E. specialize (Hm s). by rewrite E in Hm. Qed.

(** ** Atomicity *)

(** A computation that fails has committed nothing. *)
Definition atomic {A} (m : M A) : Prop := forall s e s', m s = (inl e, s') -> durable s' = durable s.

Definition unit_part (st : Store) : unit := tt.

Lemma atomic_same {A} (m : M A) : preserves (same unit_part) m -> atomic m.
Proof. intros Hm s e s' E. specialize (Hm s). rewrite E in Hm. apply Hm. Qed.
Lemma atomic_bind {A B} (m : M A) (f : A -> M B) :
  preserves (same unit_part) m -> (forall a, atomic (f a)) -> atomic (m ≫= f).
Proof.
  intros Hm Hf s e s' E. specialize (Hm s).
  apply bind_run in E as [(e' & _ & E)|(a & s1 & E1 & E2)]; [rewrite E in Hm; apply Hm|].
  rewrite E1 in Hm. rewrite (Hf a s1 e s' E2). apply Hm.
Qed.
Lemma atomic_then_ret {A B} (m : M A) (f : A -> B) : atomic m -> atomic (m ≫= fun a => mret (f a)).
Proof.
  intros Hm s e s' E. apply bind_run in E as [(e' & _ & E)|(a & s1 & _ & E)]; [by eapply Hm|done].
Qed.
Lemma atomic_commit {A} (x : A) : atomic (commit ;; mret x).
Proof.
  intros s e s' E. unfold commit, may_fault, mbind, M_bind in E.
  destruct (db_fault (fault_at s)); [|done]. by injection E as _ <-.
Qed.
Lemma atomic_commit_unit : atomic commit.
Proof.
  intros s e s' E. unfold commit, may_fault, mbind, M_bind in E.
  destruct (db_fault (fault_at s)); [|done]. by injection E as _ <-.
Qed.
Lemma atomic_try {A} (m : M A) h : atomic m -> (forall e, atomic (h e)) -> atomic (try_except m h).
Proof.
  intros Hm Hh s e s' E. unfold try_except in E. destruct (m s) as [[e1|a] s1] eqn:E1; [|done].
  rewrite (Hh e1 s1 e s' E). by eapply Hm.
Qed.
Lemma atomic_rollback {A} (m : M A) : preserves (same unit_part) m -> atomic (rollback ;; m).
Proof.
  intros Hm s e s' E. rewrite (bind_step _ _ s tt (s <| work := durable s |>)) in E by done.
  by apply atomic_same in E.
Qed.

(** Computations that only read. *)
Definition reads {A} (m : M A) : Prop := preserves (fun s s' => s' = s) m.

Global Instance unchanged_refl : Reflexive (fun s s' : Session => s' = s).
Proof. by intros s. Qed.
Global Instance unchanged_trans : Transitive (fun s s' : Session => s' = s).
Proof. by intros s1 s2 s3 -> ->. Qed.

Lemma reads_run {A} (m : M A) s r s' : reads m -> m s = (r, s') -> s' = s.
Proof. intros Hm E. specialize (Hm s). by rewrite E in Hm. Qed.

Lemma reads_bind {A B} (m : M A) (f : A -> M B) s r s' :
  reads m -> (m ≫= f) s = (r, s') ->
  (exists e, r = inl e /\ s' = s) \/ exists a, m s = (inr a, s) /\ f a s = (r, s').
Proof.
  intros Hm [(e & -> & E)|(a & s1 & E & Hf)]%bind_run; pose proof (reads_run _ _ _ _ Hm E) as ->; eauto.
Qed.

(** ** Inversion of successful primitive steps *)

Lemma ret_ok {A} (x a : A) s s' : mret (M := M) x s = (inr a, s') -> a = x /\ s' = s.
Proof. by intros [= <- <-]. Qed.
Lemma gets_ok {A} (f : Store -> A) s a s' : gets f s = (inr a, s') -> a = f (work s) /\ s' = s.
Proof. by intros [= <- <-]. Qed.
Lemma modify_ok f s a s' : modify f s = (inr a, s') -> s' = s <| work := f (work s) |>.
Proof. by intros [= <- <-]. Qed.
Lemma of_res_ok {A} (r : res A) s a s' : of_res r s = (inr a, s') -> r = inr a /\ s' = s.
Proof. by intros [= -> ->]. Qed.
Lemma of_option_ok {A} e (o : option A) s a s' : of_option e o s = (inr a, s') -> o = Some a /\ s' = s.
Proof. destruct o; [|done]. by intros [= -> ->]. Qed.
Lemma guard_ok b e s a s' : guard b e s = (inr a, s') -> b = true /\ s' = s.
Proof. destruct b; [|done]. by intros [= _ ->]. Qed.
Lemma throw_ok {A} e s (a : A) s' : throw e s = (inr a, s') -> False.
Proof. done. Qed.
Lemma utcnow_ok s a s' : utcnow s = (inr a, s') -> work s' = work s /\ durable s' = durable s /\ outside s' = outside s.
Proof. by intros [= <- <-]. Qed.
Lemma uuid4_ok s a s' : uuid4 s = (inr a, s') -> work s' = work s /\ durable s' = durable s /\ outside s' = outside s.
Proof. by intros [= <- <-]. Qed.
Lemma token_ok s a s' : token_urlsafe s = (inr a, s') -> work s' = work s /\ durable s' = durable s /\ outside s' = outside s.
Proof. by intros [= <- <-]. Qed.
Lemma may_fault_ok s a s' : may_fault s = (inr a, s') -> work s' = work s /\ durable s' = durable s /\ outside s' = outside s.
Proof. unfold may_fault. destruct (db_fault (fault_at s)); [done|]. by intros [= _ <-]. Qed.
Lemma commit_ok s a s' : commit s = (inr a, s') -> work s' = work s /\ durable s' = work s /\ outside s' = outside s.
Proof.
  unfold commit. intros (x & s1 & (Hw & Hd & Ho)%may_fault_ok & Hp)%bind_ok.
  unfold persist in Hp. injection Hp as _ <-. by cbn.
Qed.
Lemma rollback_ok s a s' : rollback s = (inr a, s') -> work s' = durable s /\ durable s' = durable s /\ outside s' = outside s.
Proof. by intros [= _ <-]. Qed.
Lemma insert_row_ok {K} `{Countable K} {A} name (table : Store -> gmap K A) set k (row : A) s a s' :
  insert_row name table set k row s = (inr a, s') ->
  table (work s) !! k = None /\ s' = s <| work := set (insert k row) (work s) |>.
Proof.
  unfold insert_row. intros (t & s1 & [-> ->]%gets_ok & Hi)%bind_ok.
  destruct (table (work s) !! k); [done|]. by apply modify_ok in Hi.
Qed.
(** What every iteration of a successful loop establishes, and no iteration
    destroys, holds for all of them at the end. *)
Lemma for_each_inv {A} (P : Session -> Prop) (l : list A) f s a s' :
  (forall x s a s', x ∈ l -> P s -> f x s = (inr a, s') -> P s') ->
  P s -> for_each l f s = (inr a, s') -> P s'.
Proof.
  revert s. induction l as [|x l IH]; intros s Hf Hs Hr; cbn in Hr.
  - by apply ret_ok in Hr as [-> ->].
  - apply bind_ok in Hr as (b & s1 & H1 & H2). eapply IH; [|eapply Hf; [constructor|done|done]|done].
    intros y t c t' Hy. apply Hf. by constructor.
Qed.

Lemma for_each_all {A} (Q : A -> Session -> Prop) (l : list A) f s a s' :
  (forall x s a s', x ∈ l -> f x s = (inr a, s') -> Q x s') ->
  (forall x y s a s', y ∈ l -> Q x s -> f y s = (inr a, s') -> Q x s') ->
  for_each l f s = (inr a, s') -> forall x, x ∈ l -> Q x s'.
Proof.
  revert s. induction l as [|y l IH]; intros s Hf Hq Hr x Hx; cbn in Hr; [by apply elem_of_nil in Hx|].
  apply bind_ok in Hr as (b & s1 & H1 & H2).
  assert (Hl : forall z, z ∈ l -> Q z s').
  { eapply IH; [| |exact H2]; [intros z t c t' Hz; apply Hf; by constructor|].
    intros z w t c t' Hw. apply Hq. by constructor. }
  apply elem_of_cons in Hx as [->|Hx]; [|by apply Hl].
  eapply (for_each_inv (Q y)); [|eapply Hf; [constructor|exact H1]|exact H2].
  intros z t c t' Hz. apply Hq. by constructor.
Qed.
End Session.

Global Arguments M {_} _.

(** Peel the structure of a computation off a [preserves] goal; the remaining
    goals are the primitive writes and the calls without a registered lemma. *)
Create HintDb pres discriminated.
#[export] Hint Resolve same_utcnow same_uuid4 same_token same_may_fault : pres.
#[export] Hint Extern 3 (preserves (same _) (modify _)) => apply same_modify; intros; reflexivity : pres.
#[export] Hint Resolve keeps_utcnow keeps_uuid4 keeps_token keeps_may_fault keeps_commit
  keeps_rollback : pres.
(** A write to tables the invariant does not mention. *)
#[export] Hint Extern 3 (preserves (keeps _) (modify _)) =>
  apply keeps_modify; intros ? Hkept; exact Hkept : pres.
#[export] Hint Resolve pres_ret pres_throw pres_gets pres_of_res pres_of_option pres_guard : pres.
#[export] Hint Constants Opaque : pres.
#[export] Hint Variables Opaque : pres.

Ltac pres_step :=
  lazymatch goal with
  | |- forall _, _ => intros ?
  | |- preserves _ (_ ≫= _) => apply (pres_bind _)
  | |- preserves _ (try_except _ _) => apply (pres_try _)
  | |- preserves _ (for_each _ _) => apply (pres_for_each _)
  | |- preserves _ (map_each _ _) => apply (pres_map_each _)
  | |- preserves _ (match ?x with _ => _ end) => destruct x
  | |- preserves _ (let '_ := ?x in _) => destruct x
  | |- preserves _ _ => solve [auto 2 with pres typeclass_instances]
  end.
Ltac pres := repeat pres_step.

(** Prove that everything before the final commit writes the open transaction
    only. *)
Ltac atomic_step :=
  lazymatch goal with
  | |- forall _, _ => intros ?
  | |- atomic (match ?x with _ => _ end) => destruct x
  | |- atomic (let '_ := ?x in _) => destruct x
  | |- atomic commit => apply atomic_commit_unit
  | |- atomic (commit ≫= _) => apply atomic_commit
  | |- atomic (try_except _ _) => apply atomic_try
  | |- atomic (rollback ≫= _) => apply atomic_rollback; pres
  | |- atomic (_ ≫= _) => first [apply atomic_bind; [solve [pres]|] | apply atomic_then_ret]
  | |- atomic _ => apply atomic_same; solve [pres]
  end.
Ltac atomic := repeat atomic_step.

(** Step through a successful run. *)
Ltac run_step :=
  match goal with
  | H : (_ ≫= _) ?s = (inr _, _) |- _ => apply bind_ok in H as (? & ? & ? & ?)
  | H : mret _ ?s = (inr _, _) |- _ => apply ret_ok in H as [-> ->]
  | H : gets _ ?s = (inr _, _) |- _ => apply gets_ok in H as [-> ->]
  | H : modify _ ?s = (inr _, _) |- _ => apply modify_ok in H as ->
  | H : of_res _ ?s = (inr _, _) |- _ => apply of_res_ok in H as [? ->]
  | H : of_option _ _ ?s = (inr _, _) |- _ => apply of_option_ok in H as [? ->]
  | H : guard _ _ ?s = (inr _, _) |- _ => apply guard_ok in H as [? ->]
  | H : throw _ ?s = (inr _, _) |- _ => destruct (throw_ok _ _ _ _ H)
  | H : utcnow ?s = (inr _, _) |- _ => apply utcnow_ok in H as (? & ? & ?)
  | H : uuid4 ?s = (inr _, _) |- _ => apply uuid4_ok in H as (? & ? & ?)
  | H : token_urlsafe ?s = (inr _, _) |- _ => apply token_ok in H as (? & ? & ?)
  | H : may_fault ?s = (inr _, _) |- _ => apply may_fault_ok in H as (? & ? & ?)
  | H : commit ?s = (inr _, _) |- _ => apply commit_ok in H as (? & ? & ?)
  | H : rollback ?s = (inr _, _) |- _ => apply rollback_ok in H as (? & ? & ?)
  | H : insert_row _ _ _ _ _ ?s = (inr _, _) |- _ => apply insert_row_ok in H as [? ->]
  end.
Ltac run_inv := repeat run_step.

(** Normalise the session components after stepping. *)
Ltac session_simpl :=
  cbn [work durable outside clock_at uuid_at token_at fault_at upd] in *;
  repeat match goal with
  | H : work _ = _ |- _ => rewrite H in *
  | H : durable _ = _ |- _ => rewrite H in *
  | H : outside _ = _ |- _ => rewrite H in *
  end.
