(* ===== verification/EventIntegrity.v ===== *)
(** * The audit event hash chain

    backend/app/services/event_integrity_service.py and event_service.py, and
    the worker's own copy of the same logic in
    worker/worker_app/outbox_runner.py ([_compute_event_hash],
    [_insert_delivery_event]). *)

From S2P Require Import Prelude PyStr Sha256 Json Models Session.
Local Open Scope Z_scope.

Definition HASH_ALGORITHM : pystr := py "sha256".
Definition INTEGRITY_VERSION : Z := 1.

Definition integrity_scope_for_event (channel_id : option N) : pystr :=
  match channel_id with
  | None => py "system"
  | Some c => py "channel:" ++ uuid_str c
  end.

(** A naive datetime is taken as UTC; an aware one is converted to it. *)
Definition _as_utc_datetime (offset : option Z) (local : Z) : instant :=
  match offset with None => local | Some o => local - o end.

Fixpoint _canonical_value (value : pyval) : pyval :=
  match value with
  | PDatetime o t => PStr (iso_us (_as_utc_datetime o t) ++ py "Z")
  | PUuid u => PStr (uuid_str u)
  | PEnum s => PStr s
  | PDict kvs => PDict (order_by fst (map (fun kv => (kv.1, _canonical_value kv.2)) kvs))
  | PList l => PList (map _canonical_value l)
  | PTuple l => PList (map _canonical_value l)
  | _ => value
  end.

Definition opt_str (o : option (list Z)) : pyval := match o with Some s => PStr s | None => PNone end.
Definition opt_int (o : option Z) : pyval := match o with Some n => PInt n | None => PNone end.
Definition opt_uuid_str (o : option N) : pyval :=
  match o with Some u => PStr (uuid_str u) | None => PNone end.
Definition or_empty_dict (v : pyval) : pyval := if truthy v then v else PDict [].

Definition canonical_event_payload (event : Event.t) : pyval :=
  PDict [
    (py "id", PStr (uuid_str (Event.id event)));
    (py "channel_id", opt_uuid_str (Event.channel_id event));
    (py "actor_user_id", opt_uuid_str (Event.actor_user_id event));
    (py "event_type", PStr (Event.event_type event));
    (py "created_at", _canonical_value (PDatetime (Some 0) (Event.created_at event)));
    (py "payload", _canonical_value (or_empty_dict (Event.payload event)));
    (py "previous_hash", opt_str (Event.previous_hash event));
    (py "integrity_version", opt_int (Event.integrity_version event));
    (py "integrity_scope", opt_str (Event.integrity_scope event))
  ].

Definition canonical_event_json (event : Event.t) : pystr := json_dumps (canonical_event_payload event).

(** The JSON text is ASCII ([ensure_ascii]), so encoding it changes nothing. *)
Definition compute_event_hash (event : Event.t) : pystr :=
  sha256_hexdigest (canonical_event_json event).

(** ** The worker's copy *)

Module Worker.
(** Without the UUID and Enum cases: those reach [json.dumps(default=str)]. *)
Fixpoint _canonical_value (value : pyval) : pyval :=
  match value with
  | PDatetime o t => PStr (iso_us (_as_utc_datetime o t) ++ py "Z")
  | PDict kvs => PDict (order_by fst (map (fun kv => (kv.1, _canonical_value kv.2)) kvs))
  | PList l => PList (map _canonical_value l)
  | PTuple l => PList (map _canonical_value l)
  | _ => value
  end.

Definition _event_integrity_scope (channel_id : option N) : pystr :=
  match channel_id with
  | None => py "system"
  | Some c => py "channel:" ++ uuid_str c
  end.

Definition _compute_event_hash (event_id : pystr) (channel_id actor_user_id : option N)
    (event_type : pystr) (payload : pyval) (created_at : instant)
    (previous_hash : option (list Z)) (integrity_scope : pystr) : pystr :=
  sha256_hexdigest (json_dumps (PDict [
    (py "id", PStr event_id);
    (py "channel_id", opt_uuid_str channel_id);
    (py "actor_user_id", opt_uuid_str actor_user_id);
    (py "event_type", PStr event_type);
    (py "created_at", _canonical_value (PDatetime (Some 0) created_at));
    (py "payload", _canonical_value (or_empty_dict payload));
    (py "previous_hash", opt_str previous_hash);
    (py "integrity_version", PInt INTEGRITY_VERSION);
    (py "integrity_scope", PStr integrity_scope)
  ])).
End Worker.

(** ** JSON columns *)

(** What a JSON column gives back for a value written to it: tuples come back
    as lists and string enumerations as strings; [json.dumps] without
    [default] refuses UUIDs and datetimes. *)
Fixpoint json_column (v : pyval) : option pyval :=
  match v with
  | PUuid _ | PDatetime _ _ => None
  | PEnum s => Some (PStr s)
  | PList l => PList <$> mapM json_column l
  | PTuple l => PList <$> mapM json_column l
  | PDict kvs => PDict <$> mapM (fun kv => y ← json_column kv.2; Some (kv.1, y)) kvs
  | _ => Some v
  end.

(** [json.dumps(payload, default=str)], read back. *)
Fixpoint json_column_default_str (v : pyval) : pyval :=
  match v with
  | PUuid u => PStr (uuid_str u)
  | PDatetime o t => PStr (str_of_datetime o t)
  | PEnum s => PStr s
  | PList l => PList (map json_column_default_str l)
  | PTuple l => PList (map json_column_default_str l)
  | PDict kvs => PDict (map (fun kv => (kv.1, json_column_default_str kv.2)) kvs)
  | _ => v
  end.

(** ** Verification *)

Record VerifyResult := {
  vr_scope : pystr;
  vr_valid : bool;
  vr_checked_events : Z;
  vr_broken_event_id : option (list Z);
  vr_reason : option (list Z);
  vr_expected_hash : option (list Z);
  vr_actual_hash : option (list Z);
  vr_previous_event_id : option (list Z);
  vr_last_valid_hash : option (list Z);
  vr_first_event_id : option (list Z);
  vr_last_event_id : option (list Z)
}.

Definition _invalid_result (scope : pystr) (checked_events : Z) (event : Event.t) (reason : pystr)
    (previous_event_id last_valid_hash first_event_id last_event_id : option (list Z))
    (expected_hash actual_hash : option (list Z)) : VerifyResult :=
  {| vr_scope := scope; vr_valid := false; vr_checked_events := checked_events;
     vr_broken_event_id := Some (uuid_str (Event.id event)); vr_reason := Some reason;
     vr_expected_hash := expected_hash; vr_actual_hash := actual_hash;
     vr_previous_event_id := previous_event_id; vr_last_valid_hash := last_valid_hash;
     vr_first_event_id := first_event_id; vr_last_event_id := last_event_id |}.

(** The [for event in events] loop with its accumulators. *)
Fixpoint verify_events_loop (scope : pystr) (first_event_id last_event_id : option (list Z))
    (checked_events : Z) (previous_hash previous_event_id : option (list Z)) (es : list Event.t)
  : VerifyResult :=
  match es with
  | [] =>
      {| vr_scope := scope; vr_valid := true; vr_checked_events := checked_events;
         vr_broken_event_id := None; vr_reason := None; vr_expected_hash := None;
         vr_actual_hash := None; vr_previous_event_id := previous_event_id;
         vr_last_valid_hash := previous_hash; vr_first_event_id := first_event_id;
         vr_last_event_id := last_event_id |}
  | event :: es =>
      let checked_events := checked_events + 1 in
      let invalid reason expected actual :=
        _invalid_result scope checked_events event reason previous_event_id previous_hash
          first_event_id last_event_id expected actual in
      match Event.event_hash event, Event.integrity_scope event,
            Event.hash_algorithm event, Event.integrity_version event with
      | Some event_hash, Some integrity_scope, Some hash_algorithm, Some integrity_version =>
          if negb (str_eqb integrity_scope scope) then
            invalid (py "integrity_scope_mismatch") (Some scope) (Some integrity_scope)
          else if negb (str_eqb hash_algorithm HASH_ALGORITHM) then
            invalid (py "unsupported_algorithm") (Some HASH_ALGORITHM) (Some hash_algorithm)
          else if negb (integrity_version =? INTEGRITY_VERSION) then
            invalid (py "unsupported_integrity_version")
              (Some (str_of_Z INTEGRITY_VERSION)) (Some (str_of_Z integrity_version))
          else if negb (bool_decide (Event.previous_hash event = previous_hash)) then
            invalid (py "previous_hash_mismatch") previous_hash (Event.previous_hash event)
          else
            let expected_hash := compute_event_hash event in
            if negb (str_eqb event_hash expected_hash) then
              invalid (py "hash_mismatch") (Some expected_hash) (Some event_hash)
            else
              verify_events_loop scope first_event_id last_event_id checked_events
                (Some event_hash) (Some (uuid_str (Event.id event))) es
      | _, _, _, _ => invalid (py "missing_hash") None None
      end
  end.

Definition verify_events (scope : pystr) (es : list Event.t) : VerifyResult :=
  let first_event_id := (fun e => uuid_str (Event.id e)) <$> head es in
  let last_event_id := (fun e => uuid_str (Event.id e)) <$> last es in
  verify_events_loop scope first_event_id last_event_id 0 None None es.

(** ** Operations on the database *)

(** ORDER BY created_at ASC, id ASC; a UUID compares as its 128-bit number. *)
Definition event_key (e : Event.t) : list Z := [Event.created_at e; Z.of_N (Event.id e)].
Definition event_key_desc (e : Event.t) : list Z := Z.opp <$> event_key e.

Definition in_scope (scope : pystr) (e : Event.t) : bool :=
  bool_decide (Event.integrity_scope e = Some scope).
Definition has_hash (e : Event.t) : bool := bool_decide (is_Some (Event.event_hash e)).

Section Operations.
Context `{World}.

(** The advisory lock: the statement itself may be aborted by the server. *)
Definition lock_scope (scope : pystr) : M unit := may_fault.

Definition select_latest_integrity_event (scope : pystr) (st : Store) : option Event.t :=
  head (order_by event_key_desc
          (List.filter (fun e => in_scope scope e && has_hash e) (rows (events st)))).

Definition _latest_integrity_event (scope : pystr) : M (option Event.t) :=
  gets (select_latest_integrity_event scope).

(** [db.flush()] of a dirty event: its row with the payload as the JSON
    column stores it. *)
Definition flush_event (event : Event.t) : M unit :=
  stored ← of_option (TypeError "Object is not JSON serializable") (json_column (Event.payload event));
  modify (fun st => st <| events ::= <[Event.id event := event <| Event.payload := stored |>]> |>).

Definition attach_integrity (event : Event.t) (scope : option pystr) : M Event.t :=
  let resolved_scope :=
    match scope with
    | Some ((_ :: _) as s) => s
    | _ => integrity_scope_for_event (Event.channel_id event)
    end in
  latest ← _latest_integrity_event resolved_scope;
  let previous_hash := latest ≫= Event.event_hash in
  event ← (match latest with
           | Some l =>
               if Event.created_at event <=? Event.created_at l then
                 let event := event <| Event.created_at := Event.created_at l + 1 |> in
                 flush_event event ;; mret event
               else mret event
           | None => mret event
           end);
  let event := event <| Event.previous_hash := previous_hash |>
                     <| Event.hash_algorithm := Some HASH_ALGORITHM |>
                     <| Event.integrity_version := Some INTEGRITY_VERSION |>
                     <| Event.integrity_scope := Some resolved_scope |> in
  mret (event <| Event.event_hash := Some (compute_event_hash event) |>).

Definition log_event (event_type : pystr) (payload : pyval) (channel_id actor_user_id : option N)
  : M Event.t :=
  let scope := integrity_scope_for_event channel_id in
  lock_scope scope ;;
  created_at ← utcnow;
  id ← uuid4;
  let event := Event.Row id channel_id actor_user_id event_type payload created_at
                 None None None None None in
  taken ← gets (fun st => events st !! id);
  match taken with
  | Some _ => throw (IntegrityError "events_pkey")
  | None =>
      flush_event event ;;
      event ← attach_integrity event (Some scope);
      flush_event event ;;
      mret event
  end.

Definition select_channel_scope (channel_id : N) (st : Store) : list Event.t :=
  let scope := integrity_scope_for_event (Some channel_id) in
  order_by event_key
    (List.filter (fun e => in_scope scope e
                      || (bool_decide (Event.channel_id e = Some channel_id)
                          && bool_decide (Event.integrity_scope e = None)))
       (rows (events st))).

Definition verify_channel_scope (channel_id : N) : M VerifyResult :=
  es ← gets (select_channel_scope channel_id);
  mret (verify_events (integrity_scope_for_event (Some channel_id)) es).

(** The worker's INSERT of a broker event. *)
Definition _insert_delivery_event (event_type : pystr) (channel_id : option N) (payload : pyval)
  : M unit :=
  event_id ← uuid4;
  created_at ← utcnow;
  let integrity_scope := Worker._event_integrity_scope channel_id in
  lock_scope integrity_scope ;;
  latest ← _latest_integrity_event integrity_scope;
  let previous_hash := latest ≫= Event.event_hash in
  let created_at :=
    match latest with
    | Some l => if created_at <=? Event.created_at l then Event.created_at l + 1 else created_at
    | None => created_at
    end in
  let event_hash :=
    Worker._compute_event_hash (uuid_str event_id) channel_id None event_type payload created_at
      previous_hash integrity_scope in
  insert_row "events_pkey" events (upd events) event_id
    (Event.Row event_id channel_id None event_type (json_column_default_str payload) created_at
       previous_hash (Some event_hash) (Some HASH_ALGORITHM) (Some INTEGRITY_VERSION)
       (Some integrity_scope)).
End Operations.

(** ** The two hash computations agree, before and after the JSON column *)

Lemma json_dumps_sorted_dict (F : pyval -> pyval) kvs :
  json_dumps (PDict (order_by fst (map (fun kv => (kv.1, F kv.2)) kvs)))
  = [123] ++ join [44] (map json_item
      (order_by fst (order_by fst (map (fun kv => (kv.1, json_dumps (F kv.2))) kvs)))) ++ [125].
Proof.
  cbn [json_dumps].
  pose proof (order_by_map (A := list Z * pyval) fst fst (fun kv => (kv.1, json_dumps kv.2)) (fun _ => eq_refl)
                (map (fun kv => (kv.1, F kv.2)) kvs)) as E.
  change (?f <$> ?l) with (map f l) in E. rewrite <-E, map_map. done.
Qed.

Lemma json_dumps_dict_ext (F G : pyval -> pyval) kvs kvs' :
  Forall2 (fun a b => a.1 = b.1 /\ json_dumps (F a.2) = json_dumps (G b.2)) kvs kvs' ->
  json_dumps (PDict (order_by fst (map (fun kv => (kv.1, F kv.2)) kvs)))
  = json_dumps (PDict (order_by fst (map (fun kv => (kv.1, G kv.2)) kvs'))).
Proof.
  intros HF. rewrite !json_dumps_sorted_dict. do 6 f_equal.
  induction HF as [|a b kvs kvs' [H1 H2] _ IH]; cbn; [done|]. by rewrite H1, H2, IH.
Qed.

Lemma json_dumps_list_ext (F G : pyval -> pyval) l l' :
  Forall2 (fun v w => json_dumps (F v) = json_dumps (G w)) l l' ->
  json_dumps (PList (map F l)) = json_dumps (PList (map G l')).
Proof.
  intros HF. cbn [json_dumps]. rewrite !map_map.
  replace (map (fun x => json_dumps (G x)) l') with (map (fun x => json_dumps (F x)) l); [done|].
  induction HF as [|v w l l' Hv _ IH]; cbn; [done|]. by rewrite Hv, IH.
Qed.

Lemma worker_canonical_dumps v :
  json_dumps (Worker._canonical_value v) = json_dumps (_canonical_value v).
Proof.
  induction v as [| | | | | | | |l IH|l IH|kvs IH] using pyval_ind'; try done.
  - apply json_dumps_list_ext. apply Forall_Forall2_diag. eapply Forall_impl; [exact IH|done].
  - apply json_dumps_list_ext. apply Forall_Forall2_diag. eapply Forall_impl; [exact IH|done].
  - apply json_dumps_dict_ext. apply Forall_Forall2_diag. eapply Forall_impl; [exact IH|done].
Qed.

Lemma json_column_list l l' : mapM json_column l = Some l' -> Forall2 (fun v w => json_column v = Some w) l l'.
Proof. apply mapM_Some_1. Qed.

Lemma json_column_items kvs kvs' :
  mapM (fun kv : list Z * pyval => y ← json_column kv.2; Some (kv.1, y)) kvs = Some kvs' ->
  Forall2 (fun a b => a.1 = b.1 /\ json_column a.2 = Some b.2) kvs kvs'.
Proof.
  intros Hm%mapM_Some_1. eapply Forall2_impl; [exact Hm|]. intros [k v] [k' v'] E. cbn in E.
  destruct (json_column v) eqn:Ev; [|done]. injection E as <- <-. split; [done|exact Ev].
Qed.

(** The value read back from a JSON column hashes like the value written. *)
Lemma json_column_canonical v w :
  json_column v = Some w -> json_dumps (_canonical_value w) = json_dumps (_canonical_value v).
Proof.
  revert w. induction v as [| | | | | | | |l IH|l IH|kvs IH] using pyval_ind'; intros w; cbn [json_column];
    try (by intros [= <-]); try done.
  - intros (l' & Hl'%json_column_list & ->)%fmap_Some. symmetry. apply json_dumps_list_ext.
    induction Hl' as [|x y l l' Hxy _ IHl]; constructor; inversion IH; subst; auto. symmetry. auto.
  - intros (l' & Hl'%json_column_list & ->)%fmap_Some. symmetry. apply json_dumps_list_ext.
    induction Hl' as [|x y l l' Hxy _ IHl]; constructor; inversion IH; subst; auto. symmetry. auto.
  - intros (kvs' & Hk%json_column_items & ->)%fmap_Some. symmetry. apply json_dumps_dict_ext.
    induction Hk as [|x y l l' [Hk Hv] _ IHl]; constructor; inversion IH; subst; auto.
    split; [done|]. symmetry. auto.
Qed.

Lemma json_column_truthy v w : json_column v = Some w -> truthy w = truthy v.
Proof.
  destruct v as [| | | | | | | |l|l|kvs]; cbn [json_column]; try (by intros [= <-]); try done.
  - intros (l' & Hl'%json_column_list & ->)%fmap_Some. by inversion Hl'.
  - intros (l' & Hl'%json_column_list & ->)%fmap_Some. by inversion Hl'.
  - intros (kvs' & Hk%json_column_items & ->)%fmap_Some. by inversion Hk.
Qed.

Lemma json_column_payload v w :
  json_column v = Some w ->
  json_dumps (_canonical_value (or_empty_dict w)) = json_dumps (_canonical_value (or_empty_dict v)).
Proof.
  intros E. unfold or_empty_dict. rewrite (json_column_truthy v w E).
  destruct (truthy v); [by apply json_column_canonical|done].
Qed.

(** What the worker stores is what a JSON column would give back. *)
Lemma json_column_default v w : json_column v = Some w -> json_column_default_str v = w.
Proof.
  revert w. induction v as [| | | | | | | |l IH|l IH|kvs IH] using pyval_ind'; intros w; cbn [json_column];
    try (by intros [= <-]); try done.
  - intros (l' & Hl'%json_column_list & ->)%fmap_Some. cbn. f_equal.
    induction Hl' as [|x y l l' Hxy _ IHl]; [done|]. inversion IH; subst. cbn. f_equal; auto.
  - intros (l' & Hl'%json_column_list & ->)%fmap_Some. cbn. f_equal.
    induction Hl' as [|x y l l' Hxy _ IHl]; [done|]. inversion IH; subst. cbn. f_equal; auto.
  - intros (kvs' & Hk%json_column_items & ->)%fmap_Some. cbn. f_equal.
    induction Hk as [|x [k y] l l' [Hk Hv] _ IHl]; [done|]. inversion IH; subst. cbn in *.
    f_equal; [|auto]. f_equal; auto.
Qed.

Lemma json_dumps_dict_items (kvs kvs' : list (list Z * pyval)) :
  map (fun kv => (kv.1, json_dumps kv.2)) kvs = map (fun kv => (kv.1, json_dumps kv.2)) kvs' ->
  json_dumps (PDict kvs) = json_dumps (PDict kvs').
Proof. intros E. cbn [json_dumps]. by rewrite E. Qed.

Lemma compute_event_hash_stored e w :
  json_column (Event.payload e) = Some w ->
  compute_event_hash (e <| Event.payload := w |>) = compute_event_hash e.
Proof.
  intros Ew. unfold compute_event_hash, canonical_event_json. f_equal.
  apply json_dumps_dict_items. cbn [map fst snd canonical_event_payload Event.payload upd].
  by rewrite (json_column_payload _ _ Ew).
Qed.

Lemma worker_event_hash id ch ty payload created prev h scope :
  Worker._compute_event_hash (uuid_str id) ch None ty payload created prev scope
  = compute_event_hash (Event.Row id ch None ty payload created prev h (Some HASH_ALGORITHM)
                          (Some INTEGRITY_VERSION) (Some scope)).
Proof.
  unfold compute_event_hash, canonical_event_json, Worker._compute_event_hash. f_equal.
  apply json_dumps_dict_items. cbn [map fst snd canonical_event_payload Event.payload
    Event.id Event.channel_id Event.actor_user_id Event.event_type Event.created_at
    Event.previous_hash Event.integrity_version Event.integrity_scope opt_str opt_int].
  by rewrite !worker_canonical_dumps.
Qed.

(** ** The chain as a specification *)

(** Every event carries the current algorithm, version and scope. *)
Definition sealed (scope : pystr) (e : Event.t) : Prop :=
  Event.integrity_scope e = Some scope /\ Event.hash_algorithm e = Some HASH_ALGORITHM
  /\ Event.integrity_version e = Some INTEGRITY_VERSION.

(** Every event names the hash of its predecessor and carries its own. *)
Fixpoint linked (previous : option (list Z)) (es : list Event.t) : Prop :=
  match es with
  | [] => True
  | e :: es =>
      Event.previous_hash e = previous /\ Event.event_hash e = Some (compute_event_hash e)
      /\ linked (Event.event_hash e) es
  end.

Definition chain_spec (scope : pystr) (es : list Event.t) : Prop :=
  Forall (sealed scope) es /\ linked None es.

(** The hash that the next event of a chain has to name. *)
Definition tip (previous : option (list Z)) (es : list Event.t) : option (list Z) :=
  match last es with Some e => Event.event_hash e | None => previous end.

Lemma tip_cons prev e es : tip prev (e :: es) = tip (Event.event_hash e) es.
Proof. unfold tip. rewrite last_cons. by destruct (last es). Qed.

Lemma linked_app prev es es' :
  linked prev (es ++ es') <-> linked prev es /\ linked (tip prev es) es'.
Proof.
  revert prev. induction es as [|e es IH]; intros prev; cbn [app linked]; [by unfold tip; cbn; tauto|].
  rewrite IH, tip_cons. tauto.
Qed.

(** One event extends a chain. *)
Definition extends (scope : pystr) (prev : option (list Z)) (e : Event.t) : Prop :=
  sealed scope e /\ linked prev [e].

Lemma verify_step scope f l n prev pid e es :
  (extends scope prev e ->
   verify_events_loop scope f l n prev pid (e :: es)
   = verify_events_loop scope f l (n + 1) (Event.event_hash e) (Some (uuid_str (Event.id e))) es)
  /\ (~ extends scope prev e -> exists reason expected actual,
       verify_events_loop scope f l n prev pid (e :: es)
       = _invalid_result scope (n + 1) e reason pid prev f l expected actual).
Proof.
  unfold extends, sealed. cbn [verify_events_loop linked]. split.
  - intros ((Hs & Ha & Hv) & Hp & Hh & _). rewrite Hh, Hs, Ha, Hv, Hp. unfold str_eqb.
    by rewrite !bool_decide_true, Z.eqb_refl by done.
  - intros Hne.
    destruct (Event.event_hash e) as [h|] eqn:Eh; [|by eauto].
    destruct (Event.integrity_scope e) as [sc|] eqn:Es; [|by eauto].
    destruct (Event.hash_algorithm e) as [al|] eqn:Ea; [|by eauto].
    destruct (Event.integrity_version e) as [ve|] eqn:Ev; [|by eauto].
    unfold str_eqb.
    destruct (bool_decide_reflect (sc = scope)) as [->|]; cbn [negb]; [|by eauto].
    destruct (bool_decide_reflect (al = HASH_ALGORITHM)) as [->|]; cbn [negb]; [|by eauto].
    destruct (Z.eqb_spec ve INTEGRITY_VERSION) as [->|]; cbn [negb]; [|by eauto].
    destruct (bool_decide_reflect (Event.previous_hash e = prev)) as [Hp|]; cbn [negb]; [|by eauto].
    destruct (bool_decide_reflect (h = compute_event_hash e)) as [->|]; cbn [negb]; [|by eauto].
    destruct Hne. done.
Qed.

Global Instance sealed_dec scope e : Decision (sealed scope e).
Proof. unfold sealed. apply _. Defined.
Global Instance linked_dec prev es : Decision (linked prev es).
Proof. revert prev. induction es as [|e es IH]; intros prev; cbn; apply _. Defined.
Global Instance extends_dec scope prev e : Decision (extends scope prev e).
Proof. unfold extends. apply _. Defined.

(** The loop accepts exactly the chains, and otherwise stops at the event
    after the longest prefix that is a chain. *)
Lemma verify_events_loop_spec scope f l n prev pid es :
  let r := verify_events_loop scope f l n prev pid es in
  (Forall (sealed scope) es /\ linked prev es
   /\ vr_valid r = true /\ vr_checked_events r = n + Z.of_nat (length es)
   /\ vr_last_valid_hash r = tip prev es)
  \/ (exists pre e post, es = pre ++ e :: post
      /\ Forall (sealed scope) pre /\ linked prev pre /\ ~ extends scope (tip prev pre) e
      /\ vr_valid r = false /\ vr_checked_events r = n + Z.of_nat (length pre) + 1
      /\ vr_broken_event_id r = Some (uuid_str (Event.id e))
      /\ vr_last_valid_hash r = tip prev pre).
Proof.
  revert n prev pid. induction es as [|e es IH]; intros n prev pid.
  - left. cbn. split_and!; [constructor|done|done|lia|done].
  - destruct (verify_step scope f l n prev pid e es) as [Hok Hbad].
    destruct (decide (extends scope prev e)) as [He|He].
    + rewrite (Hok He). destruct He as [Hs (Hp & Hh & _)].
      destruct (IH (n + 1) (Event.event_hash e) (Some (uuid_str (Event.id e))))
        as [(H1 & H2 & H3 & H4 & H5)|(pre & x & post & -> & H1 & H2 & H3 & H4 & H5 & H6 & H7)].
      * left. rewrite tip_cons. split; [by constructor|]. split; [exact (conj Hp (conj Hh H2))|].
        split_and!; [done|cbn [length]; rewrite H4; lia|done].
      * right. exists (e :: pre), x, post. rewrite !tip_cons. cbn [length].
        split; [done|]. split; [by constructor|]. split; [exact (conj Hp (conj Hh H2))|].
        split_and!; [done|done|rewrite H5; lia|done|done].
    + right. exists [], e, es. destruct (Hbad He) as (reason & x & y & ->). cbn.
      split_and!; [done|constructor|done|done|done|lia|done|done].
Qed.

(** ** The database invariant *)

(** The events of one scope in the order verification reads them. *)
Definition chain_of (scope : pystr) (st : Store) : list Event.t :=
  order_by event_key (List.filter (in_scope scope) (rows (events st))).

Definition ids_ok (t : gmap N Event.t) : Prop := forall id e, t !! id = Some e -> Event.id e = id.

(** Every event row is sealed in the scope of its channel, and the rows of
    each scope form a hash chain with strictly increasing timestamps. *)
Record chain_ok (st : Store) : Prop := {
  chain_ids : ids_ok (events st);
  chain_sealed : forall id e, events st !! id = Some e ->
    sealed (integrity_scope_for_event (Event.channel_id e)) e;
  chain_linked : forall scope, linked None (chain_of scope st);
  chain_increasing : forall scope,
    StronglySorted (fun a b => Event.created_at a < Event.created_at b) (chain_of scope st)
}.

(** The invariant only depends on the events table. *)
Lemma chain_ok_events st st' : events st' = events st -> chain_ok st -> chain_ok st'.
Proof.
  intros E [H1 H2 H3 H4].
  assert (Hc : forall scope, chain_of scope st' = chain_of scope st) by (intros; unfold chain_of; by rewrite E).
  split; [by rewrite E|by rewrite E|intros; by rewrite Hc|intros; by rewrite Hc].
Qed.

Lemma chain_ok_empty : chain_ok empty_store.
Proof. split; try done; intros; constructor. Qed.

Lemma event_key_inj t x y : ids_ok t ->
  x ∈ rows t -> y ∈ rows t -> event_key x = event_key y -> x = y.
Proof.
  intros Hids (i & Hi)%elem_of_rows (j & Hj)%elem_of_rows [= _ E].
  apply Hids in Hi as Ei. apply Hids in Hj as Ej. assert (i = j) as <- by lia. congruence.
Qed.

Lemma event_key_inj_filter (p : Event.t -> bool) t x y : ids_ok t ->
  x ∈ List.filter p (rows t) -> y ∈ List.filter p (rows t) -> event_key x = event_key y -> x = y.
Proof. intros Hids [Hx _]%elem_of_filter_bool [Hy _]%elem_of_filter_bool. by apply (event_key_inj t). Qed.

Lemma ids_ok_insert t e : ids_ok t -> ids_ok (<[Event.id e := e]> t).
Proof. intros Hids id x. rewrite lookup_insert_Some. intros [[<- <-]|[_ Hx]]; [done|by apply Hids]. Qed.

Lemma linked_has_hash prev es : linked prev es -> Forall (fun e => has_hash e = true) es.
Proof.
  revert prev. induction es as [|e es IH]; intros prev; constructor.
  - destruct H as (_ & Hh & _). unfold has_hash. rewrite Hh. by apply bool_decide_true.
  - destruct H as (_ & _ & H). by eapply IH.
Qed.

Lemma elem_of_chain scope st e : e ∈ chain_of scope st <-> e ∈ rows (events st) /\ in_scope scope e = true.
Proof. unfold chain_of. by rewrite elem_of_order_by, elem_of_filter_bool. Qed.

(** The query for the latest event reads the end of the chain. *)
Lemma latest_is_last scope st :
  chain_ok st -> select_latest_integrity_event scope st = last (chain_of scope st).
Proof.
  intros [Hids _ Hlink _]. unfold select_latest_integrity_event.
  rewrite (filter_bool_ext_in _ (in_scope scope)).
  2: { intros e He. destruct (in_scope scope e) eqn:Es; [|done]. cbn.
       specialize (Hlink scope). apply linked_has_hash in Hlink. rewrite Forall_forall in Hlink.
       apply Hlink, elem_of_chain. done. }
  rewrite (order_by_desc event_key 2).
  - unfold chain_of. rewrite <-(reverse_involutive (order_by _ _)) at 2. by rewrite last_reverse.
  - done.
  - intros x y. by apply event_key_inj_filter.
Qed.

(** A row that is outside every scope does not change the query. *)
Lemma latest_skip scope st e :
  ids_ok (events st) -> events st !! Event.id e = None -> Event.integrity_scope e = None ->
  select_latest_integrity_event scope (st <| events ::= <[Event.id e := e]> |>)
  = select_latest_integrity_event scope st.
Proof.
  intros Hids Hnone Hsc. unfold select_latest_integrity_event. cbn [events upd].
  f_equal. symmetry. apply order_by_perm_eq.
  - intros x y Hx Hy E. eapply event_key_inj_filter; [exact Hids|done..|]. by apply fmap_opp_inj.
  - rewrite rows_insert by done. cbn [List.filter].
    assert (in_scope scope e = false) as -> by (apply bool_decide_false; congruence). done.
Qed.

Lemma chain_insert_same scope st e :
  ids_ok (events st) -> events st !! Event.id e = None -> in_scope scope e = true ->
  Forall (fun x => Event.created_at x < Event.created_at e) (chain_of scope st) ->
  chain_of scope (st <| events ::= <[Event.id e := e]> |>) = chain_of scope st ++ [e].
Proof.
  intros Hids Hnone Hsc Hlt. unfold chain_of at 1. cbn [events upd]. apply order_by_unique.
  - intros x y. apply event_key_inj_filter. by apply ids_ok_insert.
  - apply StronglySorted_snoc; [apply order_by_sorted|]. eapply Forall_impl; [exact Hlt|].
    intros x Hx. unfold key_le, lex_le, event_key. apply lex_leb_cons. by left.
  - rewrite rows_insert by done. cbn [List.filter]. rewrite Hsc.
    rewrite Permutation_app_comm. cbn. constructor. apply order_by_perm.
Qed.

Lemma chain_insert_other scope st e :
  ids_ok (events st) -> events st !! Event.id e = None -> in_scope scope e = false ->
  chain_of scope (st <| events ::= <[Event.id e := e]> |>) = chain_of scope st.
Proof.
  intros Hids Hnone Hsc. unfold chain_of. cbn [events upd]. symmetry. apply order_by_perm_eq.
  - intros x y. by apply event_key_inj_filter.
  - rewrite rows_insert by done. cbn [List.filter]. by rewrite Hsc.
Qed.

(** The timestamp the code gives an event: after the end of the chain. *)
Definition after (latest : option Event.t) (created : instant) : instant :=
  match latest with
  | Some l => if created <=? Event.created_at l then Event.created_at l + 1 else created
  | None => created
  end.

Lemma after_chain scope st created :
  chain_ok st ->
  Forall (fun x => Event.created_at x < after (last (chain_of scope st)) created) (chain_of scope st).
Proof.
  intros Hok. pose proof (chain_increasing st Hok scope) as Hinc.
  apply Forall_forall. intros x Hx.
  destruct (last (chain_of scope st)) as [l|] eqn:El.
  - cbn. assert (Event.created_at l < after (Some l) created).
    { cbn. destruct (Z.leb_spec created (Event.created_at l)); lia. }
    destruct (StronglySorted_head_all _ _ _ Hinc El x Hx) as [->|Hlt]; cbn in *; lia.
  - apply last_None in El. rewrite El in Hx. by apply elem_of_nil in Hx.
Qed.

(** Appending a sealed event at the end of its chain keeps the invariant. *)
Lemma chain_ok_append st e scope created :
  chain_ok st -> events st !! Event.id e = None ->
  scope = integrity_scope_for_event (Event.channel_id e) ->
  sealed scope e -> Event.event_hash e = Some (compute_event_hash e) ->
  Event.previous_hash e = last (chain_of scope st) ≫= Event.event_hash ->
  Event.created_at e = after (last (chain_of scope st)) created ->
  chain_ok (st <| events ::= <[Event.id e := e]> |>).
Proof.
  intros Hok Hnone -> Hsealed Hhash Hprev Hcreated. destruct Hok as [Hids Hse Hli Hin] eqn:EH. clear EH.
  set (scope := integrity_scope_for_event (Event.channel_id e)) in *.
  assert (Hsc : forall sc, in_scope sc e = true -> sc = scope).
  { intros sc Hsc%bool_decide_eq_true. destruct Hsealed as [Hs _]. congruence. }
  assert (Hlt : Forall (fun x => Event.created_at x < Event.created_at e) (chain_of scope st)).
  { rewrite Hcreated. by apply after_chain. }
  split.
  - by apply ids_ok_insert.
  - intros id x. cbn [events upd]. rewrite lookup_insert_Some. intros [[<- <-]|[_ Hx]]; [done|by eapply Hse].
  - intros sc. destruct (in_scope sc e) eqn:Es.
    + apply Hsc in Es as Esc. subst sc. rewrite chain_insert_same by done.
      apply linked_app. split; [apply Hli|]. cbn. split_and!; [|done|done].
      rewrite Hprev. unfold tip. by destruct (last (chain_of scope st)).
    + rewrite chain_insert_other by done. apply Hli.
  - intros sc. destruct (in_scope sc e) eqn:Es.
    + apply Hsc in Es as Esc. subst sc. rewrite chain_insert_same by done.
      apply StronglySorted_snoc; [apply Hin|done].
    + rewrite chain_insert_other by done. apply Hin.
Qed.

Section Runs.
Context `{World}.

(** The row that [log_event] and the worker append. *)
Definition appended_row (st : Store) (id : N) (channel_id actor : option N) (event_type : pystr)
    (payload : pyval) (created : instant) : Event.t :=
  let scope := integrity_scope_for_event channel_id in
  let latest := last (chain_of scope st) in
  let e := Event.Row id channel_id actor event_type payload (after latest created)
             (latest ≫= Event.event_hash) None (Some HASH_ALGORITHM) (Some INTEGRITY_VERSION)
             (Some scope) in
  e <| Event.event_hash := Some (compute_event_hash e) |>.

Lemma compute_event_hash_ignores_hash e h :
  compute_event_hash (e <| Event.event_hash := h |>) = compute_event_hash e.
Proof. done. Qed.

Lemma appended_row_ok st id ch actor ty p created :
  chain_ok st -> events st !! id = None ->
  let e := appended_row st id ch actor ty p created in
  chain_ok (st <| events ::= <[id := e]> |>)
  /\ chain_of (integrity_scope_for_event ch) (st <| events ::= <[id := e]> |>)
     = chain_of (integrity_scope_for_event ch) st ++ [e].
Proof.
  intros Hok Hnone e. split.
  - change id with (Event.id e). eapply chain_ok_append; try done.
  - change id with (Event.id e). apply chain_insert_same.
    + by apply chain_ids.
    + done.
    + by apply bool_decide_true.
    + by apply after_chain.
Qed.

Lemma store_insert_event_twice (st : Store) id e e' :
  st <| events ::= <[id := e]> |> <| events ::= <[id := e']> |> = st <| events ::= <[id := e']> |>.
Proof. cbn. by rewrite insert_insert_eq. Qed.

Lemma attach_scope ch :
  match Some (integrity_scope_for_event ch) with
  | Some ((_ :: _) as s) => s
  | _ => integrity_scope_for_event ch
  end = integrity_scope_for_event ch.
Proof. by destruct (integrity_scope_for_event ch). Qed.

Lemma attach_integrity_run id ch actor ty p stored created st s :
  chain_ok st -> events st !! id = None -> json_column p = Some stored ->
  let event := Event.Row id ch actor ty p created None None None None None in
  work s = st <| events ::= <[id := event <| Event.payload := stored |>]> |> ->
  exists row,
    attach_integrity event (Some (integrity_scope_for_event ch)) s
    = (inr (appended_row st id ch actor ty p created),
       s <| work := st <| events ::= <[id := row]> |> |>).
Proof.
  intros Hok Hnone Hp event Hw. unfold attach_integrity.
  change (Event.channel_id event) with ch. rewrite attach_scope.
  unfold _latest_integrity_event, gets, mbind, M_bind.
  set (row0 := event <| Event.payload := stored |>) in *.
  assert (Hl : select_latest_integrity_event (integrity_scope_for_event ch) (work s)
               = last (chain_of (integrity_scope_for_event ch) st)).
  { rewrite Hw. change id with (Event.id row0).
    rewrite latest_skip; [by apply latest_is_last|by apply chain_ids|done|done]. }
  rewrite Hl. unfold appended_row.
  pose proof (session_work_eta s _ Hw) as Hs.
  destruct (last (chain_of (integrity_scope_for_event ch) st)) as [l|]; [|by exists row0; rewrite Hs].
  change (Event.created_at event) with created. unfold after.
  destruct (created <=? Event.created_at l); [|by exists row0; rewrite Hs].
  unfold flush_event, of_option. set (event' := event <| Event.created_at := _ |>).
  change (Event.payload event') with p. change (Event.id event') with id.
  rewrite Hp. exists (event' <| Event.payload := stored |>).
  unfold mbind, M_bind, mret, M_ret, modify. rewrite session_work_upd, Hw, store_insert_event_twice. done.
Qed.

(** The exact effect of [log_event]: it fails without touching the
    transaction, or it appends one sealed row to the chain of its scope. *)
Lemma log_event_run ty p ch actor s :
  chain_ok (work s) ->
  let '(r, s') := log_event ty p ch actor s in
  durable s' = durable s /\ outside s' = outside s
  /\ match r with
     | inl _ => work s' = work s
     | inr ev =>
         exists id stored created,
           json_column p = Some stored /\ events (work s) !! id = None
           /\ ev = appended_row (work s) id ch actor ty p created
           /\ work s' = work s <| events ::= <[id := ev <| Event.payload := stored |>]> |>
     end.
Proof.
  intros Hok. unfold log_event, lock_scope, may_fault, mbind, M_bind, utcnow, uuid4, gets.
  destruct (db_fault (fault_at s)); [done|].
  cbn [clock_at uuid_at work upd].
  destruct (events (work s) !! fresh_uuid (uuid_at s)) eqn:Hid; [done|].
  set (event := Event.Row _ _ _ _ _ _ _ _ _ _ _).
  unfold flush_event at 1, of_option, mbind, M_bind.
  change (Event.payload event) with p.
  destruct (json_column p) as [stored|] eqn:Ep; [|done].
  unfold modify at 1, mret at 1, M_ret at 1.
  set (s1 := _ <| work ::= _ |>).
  destruct (attach_integrity_run (fresh_uuid (uuid_at s)) ch actor ty p stored (clock (clock_at s)) (work s) s1)
    as [row Hatt]; [done|done|done|done|].
  fold event in Hatt. rewrite Hatt. set (ev := appended_row _ _ _ _ _ _ _).
  unfold flush_event, of_option, mbind, M_bind, mret, M_ret, modify.
  change (Event.payload ev) with p. rewrite Ep.
  split; [done|]. split; [done|]. exists (fresh_uuid (uuid_at s)), stored, (clock (clock_at s)).
  split_and!; [done|done|done|]. cbn [work upd s1].
  change (Event.id ev) with (fresh_uuid (uuid_at s)). apply store_insert_event_twice.
Qed.

Lemma appended_row_stored st id ch actor ty p stored created :
  json_column p = Some stored ->
  appended_row st id ch actor ty p created <| Event.payload := stored |>
  = appended_row st id ch actor ty stored created.
Proof.
  intros Ep. unfold appended_row. set (e := Event.Row _ _ _ _ p _ _ _ _ _ _).
  pose proof (compute_event_hash_stored e stored Ep) as Eh. cbn in Eh |- *. unfold e in Eh. cbn in Eh.
  f_equal. f_equal. symmetry. exact Eh.
Qed.

Lemma log_event_keeps ty p ch actor : preserves (keeps chain_ok) (log_event ty p ch actor).
Proof.
  intros s Hd Hw. pose proof (log_event_run ty p ch actor s Hw) as Hrun.
  destruct (log_event ty p ch actor s) as [[e|ev] s']; cbn [snd]; destruct Hrun as (-> & _ & Hr).
  - by rewrite Hr.
  - destruct Hr as (id & stored & created & Ep & Hid & -> & ->). split; [done|].
    rewrite appended_row_stored by done. by apply appended_row_ok.
Qed.

(** The worker appends the same row for the same arguments. *)
Lemma insert_delivery_event_run ty ch p stored s :
  chain_ok (work s) -> json_column p = Some stored ->
  let '(r, s') := _insert_delivery_event ty ch p s in
  durable s' = durable s /\ outside s' = outside s
  /\ match r with
     | inl _ => work s' = work s
     | inr _ =>
         exists id created, events (work s) !! id = None
           /\ work s' = work s <| events ::= <[id := appended_row (work s) id ch None ty stored created]> |>
     end.
Proof.
  intros Hok Ep. unfold _insert_delivery_event, lock_scope, may_fault, mbind, M_bind, uuid4, utcnow, gets.
  destruct (db_fault _); [done|]. unfold _latest_integrity_event, insert_row, gets, mbind, M_bind.
  cbn [work uuid_at clock_at fault_at upd].
  change (Worker._event_integrity_scope ch) with (integrity_scope_for_event ch).
  rewrite latest_is_last by done. destruct (events (work s) !! fresh_uuid (uuid_at s)) eqn:Hid; [done|].
  split; [done|]. split; [done|]. exists (fresh_uuid (uuid_at s)), (clock (clock_at s)).
  split; [done|]. unfold modify. cbn [work upd].
  rewrite (worker_event_hash _ _ _ _ _ _ None).
  rewrite <-(appended_row_stored _ _ _ _ _ p) by done.
  by rewrite (json_column_default _ _ Ep).
Qed.

Lemma insert_delivery_event_keeps ty ch p stored :
  json_column p = Some stored -> preserves (keeps chain_ok) (_insert_delivery_event ty ch p).
Proof.
  intros Ep s Hd Hw. pose proof (insert_delivery_event_run ty ch p stored s Hw Ep) as Hrun.
  destruct (_insert_delivery_event ty ch p s) as [[e|ev] s']; cbn [snd]; destruct Hrun as (-> & _ & Hr).
  - by rewrite Hr.
  - destruct Hr as (id & created & Hid & ->). split; [done|]. by apply appended_row_ok.
Qed.

(** Under the invariant every scope verifies. *)
Lemma chain_ok_select c st :
  chain_ok st -> select_channel_scope c st = chain_of (integrity_scope_for_event (Some c)) st.
Proof.
  intros Hok. unfold select_channel_scope, chain_of. f_equal. apply filter_bool_ext_in.
  intros e [id He]%elem_of_rows. apply (chain_sealed st Hok) in He as [Hs _].
  rewrite Hs. rewrite (bool_decide_false (Some _ = None)) by done. by rewrite andb_false_r, orb_false_r.
Qed.

Lemma chain_ok_spec scope st : chain_ok st -> chain_spec scope (chain_of scope st).
Proof.
  intros Hok. split; [|by apply chain_linked]. apply Forall_forall.
  intros e [[id He]%elem_of_rows Hs%bool_decide_eq_true]%elem_of_chain.
  apply (chain_sealed st Hok) in He as (Hs' & Ha & Hv). split_and!; congruence.
Qed.

(** [log_event] writes the event table only. *)
Lemma same_log_event {X} (f : Store -> X) ty p ch actor :
  (forall st g, f (st <| events ::= g |>) = f st) -> preserves (same f) (log_event ty p ch actor).
Proof.
  intros Hf. assert (Hm : forall g, preserves (same f) (modify (upd events g))).
  { intros g. by apply same_modify. }
  unfold log_event, lock_scope, attach_integrity, flush_event, _latest_integrity_event. pres; apply Hm.
Qed.

(** The audit log does not reach outside the database. *)
Global Instance outside_refl : Reflexive (fun s s' : Session => outside s' = outside s).
Proof. by intros s. Qed.
Global Instance outside_trans : Transitive (fun s s' : Session => outside s' = outside s).
Proof. by intros s1 s2 s3 -> ->. Qed.

Lemma log_event_outside ty p ch actor s r s' : log_event ty p ch actor s = (r, s') -> outside s' = outside s.
Proof.
  intros E. assert (Hk : preserves (fun s s' => outside s' = outside s) (log_event ty p ch actor)).
  { unfold log_event, lock_scope, attach_integrity, flush_event, _latest_integrity_event, may_fault. pres; try done.
    intros s0. cbn. by destruct (db_fault _). }
  specialize (Hk s). by rewrite E in Hk.
Qed.

Lemma keeps_log_event (I : Store -> Prop) ty p ch actor :
  (forall st g, I st -> I (st <| events ::= g |>)) -> preserves (keeps I) (log_event ty p ch actor).
Proof.
  intros Hf. assert (Hm : forall g, preserves (keeps I) (modify (upd events g))).
  { intros g. apply keeps_modify. intros st. apply Hf. }
  unfold log_event, lock_scope, attach_integrity, flush_event, _latest_integrity_event. pres; apply Hm.
Qed.
End Runs.

#[export] Hint Resolve log_event_keeps : pres.
#[export] Hint Extern 3 (preserves (same _) (log_event _ _ _ _)) =>
  apply same_log_event; intros; reflexivity : pres.
#[export] Hint Extern 4 (preserves (keeps _) (log_event _ _ _ _)) =>
  apply keeps_log_event; intros ? ? Hkept; exact Hkept : pres.

(** ** What a hash determines *)

(** Values of the column types: 128-bit identifiers, timestamps a datetime can
    hold, UTF-8 text and a payload that JSON can carry. *)
Definition opt_all {A} (p : A -> Prop) (o : option A) : Prop := match o with Some x => p x | None => True end.

Definition event_wf (e : Event.t) : Prop :=
  uuid_ok (Event.id e) /\ opt_all uuid_ok (Event.channel_id e) /\ opt_all uuid_ok (Event.actor_user_id e)
  /\ scalar_str (Event.event_type e) = true /\ instant_ok (Event.created_at e)
  /\ opt_all (fun s => scalar_str s = true) (Event.previous_hash e)
  /\ opt_all (fun s => scalar_str s = true) (Event.integrity_scope e)
  /\ json_ok (_canonical_value (or_empty_dict (Event.payload e))) = true.

(** Two events with the same audited content; dictionaries of the payloads may
    list their entries in different orders. *)
Definition same_record (a b : Event.t) : Prop :=
  Event.id a = Event.id b /\ Event.channel_id a = Event.channel_id b
  /\ Event.actor_user_id a = Event.actor_user_id b /\ Event.event_type a = Event.event_type b
  /\ Event.created_at a = Event.created_at b
  /\ json_norm (_canonical_value (or_empty_dict (Event.payload a)))
     = json_norm (_canonical_value (or_empty_dict (Event.payload b)))
  /\ Event.previous_hash a = Event.previous_hash b
  /\ Event.integrity_version a = Event.integrity_version b
  /\ Event.integrity_scope a = Event.integrity_scope b.

Definition payload_keys : list pystr :=
  [py "id"; py "channel_id"; py "actor_user_id"; py "event_type"; py "created_at"; py "payload";
   py "previous_hash"; py "integrity_version"; py "integrity_scope"].

Lemma payload_keys_nodup : NoDup payload_keys.
Proof. apply (bool_decide_unpack _). vm_compute. exact I. Qed.

Lemma opt_str_ok o : opt_all (fun s => scalar_str s = true) o -> json_ok (opt_str o) = true.
Proof. by destruct o. Qed.
Lemma opt_uuid_ok o : json_ok (opt_uuid_str o) = true.
Proof. destruct o; [apply uuid_str_scalar|done]. Qed.

Lemma canonical_payload_ok e : event_wf e -> json_ok (canonical_event_payload e) = true.
Proof.
  intros (_ & _ & _ & Hty & Hc & Hp & Hs & Hpl). apply json_ok_dict. split; [apply payload_keys_nodup|].
  repeat first [apply Forall_nil_2 | apply Forall_cons_2; [split; [vm_compute; reflexivity|]|]]; cbn [snd].
  - apply uuid_str_scalar.
  - apply opt_uuid_ok.
  - apply opt_uuid_ok.
  - exact Hty.
  - cbn [_canonical_value json_ok _as_utc_datetime]. rewrite Z.sub_0_r, scalar_str_app.
    by rewrite iso_us_scalar.
  - exact Hpl.
  - by apply opt_str_ok.
  - by destruct (Event.integrity_version e).
  - by apply opt_str_ok.
Qed.

Lemma opt_uuid_str_inj a b : opt_all uuid_ok a -> opt_all uuid_ok b ->
  json_norm (opt_uuid_str a) = json_norm (opt_uuid_str b) -> a = b.
Proof.
  destruct a, b; cbn; try done. intros Ha Hb E%PStr_inj. f_equal. by apply uuid_str_inj.
Qed.
Lemma opt_str_inj a b : json_norm (opt_str a) = json_norm (opt_str b) -> a = b.
Proof. destruct a, b; cbn; congruence. Qed.
Lemma opt_int_inj a b : json_norm (opt_int a) = json_norm (opt_int b) -> a = b.
Proof. destruct a, b; cbn; congruence. Qed.

(** The canonical JSON text determines the audited content. *)
Lemma canonical_event_json_inj a b :
  event_wf a -> event_wf b -> canonical_event_json a = canonical_event_json b -> same_record a b.
Proof.
  intros Ha Hb E. apply json_dumps_inj in E; [|by apply canonical_payload_ok..].
  assert (Hk : forall k v w, (k, v) ∈ match canonical_event_payload a with PDict l => l | _ => [] end ->
    (k, w) ∈ match canonical_event_payload b with PDict l => l | _ => [] end -> json_norm v = json_norm w).
  { intros k v w. eapply json_norm_dict_lookup; [exact E|apply payload_keys_nodup]. }
  clear E. destruct Ha as (A1 & A2 & A3 & A4 & A5 & A6 & A7 & A8), Hb as (B1 & B2 & B3 & B4 & B5 & B6 & B7 & B8).
  unfold canonical_event_payload in Hk. unfold same_record.
  assert (Hf : forall i v w,
    (match canonical_event_payload a with PDict l => l | _ => [] end) !! i = Some v ->
    (match canonical_event_payload b with PDict l => l | _ => [] end) !! i = Some w ->
    v.1 = w.1 -> json_norm v.2 = json_norm w.2).
  { intros i [k v] [k' w] Hv Hw Ek. cbn in Ek. subst k'.
    eapply Hk; eapply list_elem_of_lookup_2; [exact Hv|exact Hw]. }
  clear Hk.
  pose proof (Hf 0%nat _ _ eq_refl eq_refl eq_refl) as E0. pose proof (Hf 1%nat _ _ eq_refl eq_refl eq_refl) as E1.
  pose proof (Hf 2%nat _ _ eq_refl eq_refl eq_refl) as E2. pose proof (Hf 3%nat _ _ eq_refl eq_refl eq_refl) as E3.
  pose proof (Hf 4%nat _ _ eq_refl eq_refl eq_refl) as E4. pose proof (Hf 5%nat _ _ eq_refl eq_refl eq_refl) as E5.
  pose proof (Hf 6%nat _ _ eq_refl eq_refl eq_refl) as E6. pose proof (Hf 7%nat _ _ eq_refl eq_refl eq_refl) as E7.
  pose proof (Hf 8%nat _ _ eq_refl eq_refl eq_refl) as E8. clear Hf. cbn [snd] in *.
  split_and!; [|by apply opt_uuid_str_inj|by apply opt_uuid_str_inj| | |done|by apply opt_str_inj
    |by apply opt_int_inj|by apply opt_str_inj].
  - apply uuid_str_inj; [done..|]. by apply PStr_inj in E0.
  - by apply PStr_inj in E3.
  - apply iso_us_inj; [done..|]. cbn [_canonical_value json_norm _as_utc_datetime] in E4.
    apply PStr_inj in E4. rewrite !Z.sub_0_r in E4. by apply app_inv_tail in E4.
Qed.

(** ** Tamper evidence *)

(** Two chains with the same tip record the same events, or two of their
    events have different canonical texts with the same digest. *)
Definition chain_collision (xs ys : list Event.t) : Prop :=
  exists a b, a ∈ xs /\ b ∈ ys /\ sha_collision (canonical_event_json a) (canonical_event_json b).

Lemma chain_tip_determines xs ys :
  linked None xs -> linked None ys -> Forall event_wf xs -> Forall event_wf ys ->
  tip None xs = tip None ys ->
  Forall2 same_record xs ys \/ chain_collision xs ys.
Proof.
  revert ys. induction xs as [|a xs IH] using rev_ind; intros ys Lx Ly Wx Wy E.
  - destruct ys as [|b ys _] using rev_ind; [by left|]. exfalso.
    apply linked_app in Ly as [_ (_ & Hb & _)]. unfold tip in E. rewrite last_snoc, Hb in E. done.
  - destruct ys as [|b ys _] using rev_ind.
    { exfalso. apply linked_app in Lx as [_ (_ & Ha & _)]. unfold tip in E. rewrite last_snoc, Ha in E. done. }
    apply linked_app in Lx as [Lx (Pa & Ha & _)]. apply linked_app in Ly as [Ly (Pb & Hb & _)].
    apply Forall_app in Wx as [Wx [Wa _]%Forall_cons]. apply Forall_app in Wy as [Wy [Wb _]%Forall_cons].
    unfold tip in E. rewrite !last_snoc, Ha, Hb in E. apply (inj Some) in E.
    destruct (sha_equal_or_collision (canonical_event_json a) (canonical_event_json b) E) as [E'|E']; clear E.
    + pose proof (canonical_event_json_inj a b Wa Wb E') as Hr.
      assert (Et : tip None xs = tip None ys) by (rewrite <-Pa, <-Pb; apply Hr).
      destruct (IH ys Lx Ly Wx Wy Et) as [IHr|(x & y & Hx & Hy & Hc)].
      * left. apply Forall2_app; [done|]. by constructor.
      * right. exists x, y. rewrite !elem_of_app. auto.
    + right. exists a, b. rewrite !elem_of_app, !list_elem_of_singleton. auto.
Qed.

(** A chain is accepted, counted and summarised. *)
Lemma verify_events_chain scope es :
  chain_spec scope es ->
  vr_valid (verify_events scope es) = true
  /\ vr_checked_events (verify_events scope es) = Z.of_nat (length es)
  /\ vr_last_valid_hash (verify_events scope es) = tip None es.
Proof.
  intros [Hse Hli]. unfold verify_events.
  destruct (verify_events_loop_spec scope
    ((fun e => uuid_str (Event.id e)) <$> head es) ((fun e => uuid_str (Event.id e)) <$> last es) 0 None None es)
    as [(_ & _ & H3 & H4 & H5)|(pre & x & post & -> & _ & _ & H3 & _)].
  - by rewrite H3, H4, H5.
  - exfalso. apply H3. apply Forall_app in Hse as [_ [Hx _]%Forall_cons].
    apply linked_app in Hli as [_ (? & ? & _)]. done.
Qed.

Lemma verify_events_valid scope es : vr_valid (verify_events scope es) = true -> chain_spec scope es.
Proof.
  unfold verify_events. intros Hv.
  destruct (verify_events_loop_spec scope
    ((fun e => uuid_str (Event.id e)) <$> head es) ((fun e => uuid_str (Event.id e)) <$> last es) 0 None None es)
    as [(H1 & H2 & _)|(pre & e & post & _ & _ & _ & _ & H4 & _)]; [done|congruence].
Qed.

(** ** Properties *)

(** C5. [verify_events] reports a list of events as valid exactly when it is a
    hash chain of the scope: every event sealed, linked to its predecessor's
    hash and carrying the hash of its own canonical content; the result then
    counts every event and names the last hash. *)
Theorem verify_events_iff_chain scope es :
  (vr_valid (verify_events scope es) = true <-> chain_spec scope es)
  /\ (chain_spec scope es ->
      vr_checked_events (verify_events scope es) = Z.of_nat (length es)
      /\ vr_last_valid_hash (verify_events scope es) = tip None es).
Proof.
  split; [|by apply verify_events_chain]. split; [|by apply verify_events_chain].
  apply verify_events_valid.
Qed.

Lemma verify_events_iff_chain_witness :
  vr_valid (verify_events (py "system") []) = true
  /\ vr_checked_events (verify_events (py "system") []) = 0.
Proof.
  destruct (verify_events_iff_chain (py "system") []) as [Hiff Hcount].
  assert (Hc : chain_spec (py "system") []) by (split; constructor).
  split; [by apply Hiff|]. destruct (Hcount Hc) as [Hn _]. exact Hn.
Defined.

(** When verification fails it points at the first broken record: the
    events before it are a chain of the scope, it does not extend that chain,
    and the result gives its id, its position and the last good hash. *)
Theorem verify_events_first_break scope es :
  vr_valid (verify_events scope es) = false ->
  exists pre e post, es = pre ++ e :: post /\ chain_spec scope pre
    /\ ~ extends scope (tip None pre) e
    /\ vr_broken_event_id (verify_events scope es) = Some (uuid_str (Event.id e))
    /\ vr_checked_events (verify_events scope es) = Z.of_nat (length pre) + 1
    /\ vr_last_valid_hash (verify_events scope es) = tip None pre.
Proof.
  unfold verify_events. intros Hf.
  destruct (verify_events_loop_spec scope
    ((fun e => uuid_str (Event.id e)) <$> head es) ((fun e => uuid_str (Event.id e)) <$> last es) 0 None None es)
    as [(_ & _ & H3 & _)|(pre & e & post & E & H1 & H2 & H3 & H4 & H5 & H6 & H7)]; [congruence|].
  exists pre, e, post. split; [done|]. split; [done|]. split_and!; [done|done|rewrite H5; lia|done].
Qed.

Definition demo_event : Event.t :=
  Event.Row 1 (Some 2%N) (Some 3%N) (py "channel.created") (PDict [(py "name", PStr (py "news"))])
    1735689600000000 None None None None None.

Lemma verify_events_first_break_witness :
  exists pre e post, [demo_event] = pre ++ e :: post /\ chain_spec (py "system") pre
    /\ ~ extends (py "system") (tip None pre) e
    /\ vr_broken_event_id (verify_events (py "system") [demo_event]) = Some (uuid_str (Event.id e))
    /\ vr_checked_events (verify_events (py "system") [demo_event]) = Z.of_nat (length pre) + 1
    /\ vr_last_valid_hash (verify_events (py "system") [demo_event]) = tip None pre.
Proof. apply (verify_events_first_break (py "system") [demo_event]). reflexivity. Defined.

(** A world for concrete runs: a clock that stands still, so that the
    timestamp bump of the chain is exercised, and consecutive identifiers. *)
Definition still_world : World := {|
  clock _ := 1735689600000000; fresh_uuid n := N.of_nat (n + 100); fresh_token n := str_of_Z (Z.of_nat n);
  db_fault _ := None; ext := unit |}.

Section LoggedProperties.
Context `{World}.

(** Whatever the audit log contains, as long as its scopes verify: a
    successful [log_event] makes the channel's verification succeed with one
    more event, ending in the hash of the event it returned; a failed one
    leaves the transaction as it was. *)
Theorem log_event_extends_verified_chain ty p c actor s :
  chain_ok (work s) ->
  let scope := integrity_scope_for_event (Some c) in
  let '(r, s') := log_event ty p (Some c) actor s in
  match r with
  | inl _ => work s' = work s
  | inr ev =>
      exists v, fst (verify_channel_scope c s') = inr v /\ vr_valid v = true
        /\ vr_checked_events v = Z.of_nat (length (chain_of scope (work s))) + 1
        /\ vr_last_valid_hash v = Event.event_hash ev /\ chain_ok (work s')
  end.
Proof.
  intros Hok scope. pose proof (log_event_run ty p (Some c) actor s Hok) as Hrun.
  destruct (log_event ty p (Some c) actor s) as [[e|ev] s']; destruct Hrun as (_ & _ & Hr); [done|].
  destruct Hr as (id & stored & created & Ep & Hid & -> & Hw).
  rewrite appended_row_stored in Hw by done.
  destruct (appended_row_ok (work s) id (Some c) actor ty stored created Hok Hid) as [Hok' Hch].
  rewrite <-Hw in Hok', Hch. fold scope in Hch.
  eexists. split; [reflexivity|]. rewrite chain_ok_select by done. fold scope.
  destruct (verify_events_chain scope (chain_of scope (work s'))) as (H3 & H4 & H5);
    [by apply chain_ok_spec|].
  rewrite H3, H4, H5, Hch, length_app. unfold tip. rewrite last_snoc.
  split_and!; [done|cbn; lia| |done].
  by rewrite <-(appended_row_stored _ _ _ _ _ p).
Qed.

(** The worker's copy of the hash function and the backend's agree: a
    delivery event inserted by the worker is accepted by the backend's
    [compute_event_hash] on the row as it is stored, for every payload that
    JSON can store. *)
Theorem worker_hash_agrees event_id ch ty p stored created prev :
  json_column p = Some stored ->
  let scope := Worker._event_integrity_scope ch in
  let h := Worker._compute_event_hash (uuid_str event_id) ch None ty p created prev scope in
  compute_event_hash
    (Event.Row event_id ch None ty (json_column_default_str p) created prev (Some h)
       (Some HASH_ALGORITHM) (Some INTEGRITY_VERSION) (Some scope)) = h.
Proof.
  intros Ep scope h. unfold h. rewrite (worker_event_hash _ _ _ _ _ _ None).
  rewrite (json_column_default _ _ Ep).
  exact (compute_event_hash_stored
    (Event.Row event_id ch None ty p created prev None (Some HASH_ALGORITHM)
       (Some INTEGRITY_VERSION) (Some scope)) stored Ep).
Qed.

(** The writers of the audit log and the transaction boundaries. *)
Inductive audit_op :=
| OpLogEvent (ty : pystr) (p : pyval) (ch actor : option N)
| OpDeliveryEvent (ty : pystr) (ch : option N) (p : pyval)
| OpCommit
| OpRollback.

Definition run_audit_op (o : audit_op) : Session -> Session :=
  match o with
  | OpLogEvent ty p ch actor => fun s => (log_event ty p ch actor s).2
  | OpDeliveryEvent ty ch p => fun s => (_insert_delivery_event ty ch p s).2
  | OpCommit => fun s => (commit s).2
  | OpRollback => fun s => (rollback s).2
  end.

(** The worker only records payloads of strings and integers. *)
Definition audit_op_ok (o : audit_op) : Prop :=
  match o with OpDeliveryEvent _ _ p => is_Some (json_column p) | _ => True end.

(** C3. The audit invariant: starting from a database whose scopes verify,
    any interleaving of backend events, worker events, commits, aborted
    statements and rollbacks leaves a database in which the events of every
    scope verify, both as committed and as the open transaction sees them. *)
Theorem audit_log_always_verifies ops s scope :
  chain_ok (durable s) -> chain_ok (work s) -> Forall audit_op_ok ops ->
  let s' := fold_left (fun s o => run_audit_op o s) ops s in
  vr_valid (verify_events scope (chain_of scope (durable s'))) = true
  /\ vr_valid (verify_events scope (chain_of scope (work s'))) = true.
Proof.
  intros Hd Hw Hops s'.
  assert (Hinv : chain_ok (durable s') /\ chain_ok (work s')).
  { unfold s'. clear s'. revert s Hd Hw. induction Hops as [|o ops Ho _ IH]; intros s Hd Hw; [done|].
    cbn [fold_left]. assert (Hk : keeps chain_ok s (run_audit_op o s)).
    { destruct o as [ty p ch actor|ty ch p| |]; cbn [run_audit_op].
      - apply log_event_keeps.
      - destruct Ho as [stored Ep]. by eapply insert_delivery_event_keeps.
      - apply keeps_commit.
      - apply keeps_rollback. }
    destruct (Hk Hd Hw). by apply IH. }
  destruct Hinv as [Hid Hiw].
  split; apply verify_events_chain; by apply chain_ok_spec.
Qed.
End LoggedProperties.

Lemma log_event_extends_verified_chain_witness :
  let s := open_session (H := still_world) empty_store tt in
  let '(r, s') := log_event (H := still_world) (py "channel.created") (PDict []) (Some 7%N) (Some 3%N) s in
  match r with
  | inl _ => work s' = work s
  | inr ev =>
      exists v, fst (verify_channel_scope (H := still_world) 7 s') = inr v /\ vr_valid v = true
        /\ vr_checked_events v
           = Z.of_nat (length (chain_of (integrity_scope_for_event (Some 7%N)) (work s))) + 1
        /\ vr_last_valid_hash v = Event.event_hash ev /\ chain_ok (work s')
  end.
Proof.
  intros s. apply (log_event_extends_verified_chain (H := still_world)). apply chain_ok_empty.
Defined.

Definition demo_delivery_payload : pyval :=
  PDict [(py "outbox_id", PStr (uuid_str 9)); (py "attempt_count", PInt 2)].

Lemma worker_hash_agrees_witness :
  let h := Worker._compute_event_hash (uuid_str 5) (Some 7%N) None (py "broker.published")
             demo_delivery_payload 1735689600000000 None (Worker._event_integrity_scope (Some 7%N)) in
  compute_event_hash
    (Event.Row 5 (Some 7%N) None (py "broker.published") (json_column_default_str demo_delivery_payload)
       1735689600000000 None (Some h) (Some HASH_ALGORITHM) (Some INTEGRITY_VERSION)
       (Some (Worker._event_integrity_scope (Some 7%N)))) = h.
Proof.
  apply (worker_hash_agrees 5 (Some 7%N) (py "broker.published")
           demo_delivery_payload demo_delivery_payload). reflexivity.
Defined.

Definition demo_audit_ops : list (audit_op) :=
  [OpLogEvent (py "channel.created") (PDict []) (Some 7%N) (Some 3%N);
   OpDeliveryEvent (py "broker.published") (Some 7%N) demo_delivery_payload; OpCommit;
   OpLogEvent (py "user.registered") (PDict []) None (Some 3%N); OpRollback].

Lemma audit_log_always_verifies_witness :
  let s' := fold_left (fun s o => run_audit_op (H := still_world) o s) demo_audit_ops
              (open_session (H := still_world) empty_store tt) in
  vr_valid (verify_events (py "system") (chain_of (py "system") (durable s'))) = true
  /\ vr_valid (verify_events (py "system") (chain_of (py "system") (work s'))) = true.
Proof.
  apply (audit_log_always_verifies (H := still_world) demo_audit_ops).
  - apply chain_ok_empty.
  - apply chain_ok_empty.
  - repeat constructor. by eexists.
Defined.

(** C4. Tamper evidence: two lists of well-typed events that both verify in a
    scope and end in the same hash contain the same records in the same order,
    so editing, dropping, inserting or reordering history changes the last
    hash; otherwise two of the compared events have different canonical texts
    with the same SHA-256 digest. *)
Theorem verified_history_is_determined scope xs ys :
  vr_valid (verify_events scope xs) = true -> vr_valid (verify_events scope ys) = true ->
  vr_last_valid_hash (verify_events scope xs) = vr_last_valid_hash (verify_events scope ys) ->
  Forall event_wf xs -> Forall event_wf ys ->
  Forall2 same_record xs ys \/ chain_collision xs ys.
Proof.
  intros Vx%verify_events_valid Vy%verify_events_valid E Wx Wy.
  destruct (verify_events_chain scope xs Vx) as (_ & _ & Ex).
  destruct (verify_events_chain scope ys Vy) as (_ & _ & Ey).
  rewrite Ex, Ey in E. apply chain_tip_determines; [apply Vx|apply Vy|done..].
Qed.

Definition demo_chain : list Event.t :=
  chain_of (py "system")
    (work (log_event (H := still_world) (py "user.registered") (PDict [(py "n", PInt 1)]) None None
             (log_event (H := still_world) (py "user.registered") (PDict []) None None
                (open_session (H := still_world) empty_store tt)).2).2).

Lemma verified_history_is_determined_witness :
  Forall2 same_record demo_chain demo_chain \/ chain_collision demo_chain demo_chain.
Proof.
  assert (Hwf : Forall event_wf demo_chain).
  { assert (Hb : forallb (fun e => bool_decide (Event.id e < 2 ^ 128)%N
        && bool_decide (Event.channel_id e = None) && bool_decide (Event.actor_user_id e = None)
        && scalar_str (Event.event_type e) && (-719468 * us_per_day <=? Event.created_at e)
        && match Event.previous_hash e with Some s => scalar_str s | None => true end
        && match Event.integrity_scope e with Some s => scalar_str s | None => true end
        && json_ok (_canonical_value (or_empty_dict (Event.payload e)))) demo_chain = true)
      by (vm_compute; reflexivity).
    rewrite forallb_forall in Hb. apply Forall_forall. intros e He%list_elem_of_In.
    specialize (Hb e He). rewrite !andb_true_iff, !bool_decide_eq_true, Z.leb_le in Hb.
    destruct Hb as [[[[[[[H1 H2] H3] H4] H5] H6] H7] H8].
    split_and!; [exact H1|by rewrite H2|by rewrite H3|exact H4|exact H5| | |exact H8].
    - destruct (Event.previous_hash e); [exact H6|exact I].
    - destruct (Event.integrity_scope e); [exact H7|exact I]. }
  apply (verified_history_is_determined (py "system")).
  - vm_compute. reflexivity.
  - vm_compute. reflexivity.
  - reflexivity.
  - exact Hwf.
  - exact Hwf.
Defined.
