(* ===== verification/Identifiers.v ===== *)
(** * Identifiers (backend/app/core/identifiers.py)

    Normalisation of user names, channel slugs and upload file names: the
    checks that keep routing keys, Redis channels and storage paths free of
    separators and wildcards, and the upload identifiers named by URLs. *)

From S2P Require Import Prelude PyStr Json.
Local Open Scope Z_scope.

Definition is_alnum (c : Z) : bool :=
  ((48 <=? c) && (c <=? 57)) || ((65 <=? c) && (c <=? 90)) || ((97 <=? c) && (c <=? 122)).
Definition safe_char (c : Z) : bool := is_alnum c || (c =? 95) || (c =? 45).

(** [SAFE_IDENTIFIER_RE.fullmatch]. *)
Definition safe_identifier (s : pystr) : bool :=
  (3 <=? length s)%nat && (length s <=? 50)%nat && forallb safe_char s.

Definition SAFE_IDENTIFIER_MAX_LENGTH : nat := 50.
Definition SAFE_UPLOAD_FILENAME_MAX_LENGTH : nat := 100.

Section Identifiers.
Context `{UnicodeData}.

Definition _normalize_identifier (value : pystr) (lowercase : bool) : res pystr :=
  let normalized := strip value in
  let normalized := if lowercase then lower normalized else normalized in
  if safe_identifier normalized then mret normalized
  else raise (AppError 400 "VALIDATION_ERROR").

Definition validate_username (value : pystr) : res pystr :=
  let normalized := strip value in
  if safe_identifier normalized then mret normalized else raise (ValueError "username").

Definition validate_channel_slug (value : pystr) : res pystr :=
  let normalized := lower (strip value) in
  if safe_identifier normalized then mret normalized else raise (ValueError "channel_slug").

Definition normalize_username (value : pystr) : res pystr := _normalize_identifier value false.
Definition normalize_channel_slug (value : pystr) : res pystr := _normalize_identifier value true.

End Identifiers.

(** ** Upload file names *)

(** [s.split("/")]. *)
Fixpoint split_slash (s : pystr) : list pystr :=
  match s with
  | [] => [[]]
  | c :: s =>
      match split_slash s with
      | [] => [[c]]
      | p :: ps => if c =? 47 then [] :: p :: ps else (c :: p) :: ps
      end
  end.

(** [pathlib.Path(value).name]: the last component that is neither empty nor
    a single dot. *)
Definition path_name (value : pystr) : pystr :=
  default [] (last (List.filter (fun p => negb (str_eqb p [] || str_eqb p [46])) (split_slash value))).

Definition filename_char (c : Z) : bool := safe_char c || (c =? 46).

(** [re.sub(r"[^A-Za-z0-9._-]+", "_", s)]: one underscore per run. *)
Fixpoint sub_unsafe (in_run : bool) (s : pystr) : pystr :=
  match s with
  | [] => []
  | c :: s =>
      if filename_char c then c :: sub_unsafe false s
      else if in_run then sub_unsafe true s
      else 95 :: sub_unsafe true s
  end.

Definition normalize_upload_filename (value : pystr) : pystr :=
  let basename := strip (path_name value) in
  let cleaned := sub_unsafe false basename in
  let cleaned := strip_when (fun c => (c =? 46) || (c =? 95)) cleaned in
  let cleaned := match cleaned with [] => py "upload" | _ => cleaned end in
  take SAFE_UPLOAD_FILENAME_MAX_LENGTH cleaned.

Example normalize_upload_filename_example :
  normalize_upload_filename (py "../../etc/ pass wd..") = py "pass_wd".
Proof. vm_compute. reflexivity. Qed.

(** ** Identifiers in text *)

Fixpoint hex_digits (acc : Z) (s : pystr) : option Z :=
  match s with
  | [] => Some acc
  | c :: s => d ← hex_val c; hex_digits (16 * acc + d) s
  end.

(** [UUID(text)] for the spelling [str(uuid)] produces, in either case. *)
Definition uuid_of_str (s : pystr) : option N :=
  let digits := List.filter (fun c => negb (c =? 45)) s in
  if (length digits =? 32)%nat then Z.to_N <$> hex_digits 0 digits else None.

Example uuid_of_str_example : uuid_of_str (uuid_str 0x0123456789abcdef0123456789abcdef)
  = Some 0x0123456789abcdef0123456789abcdef%N.
Proof. vm_compute. reflexivity. Qed.

Definition is_hex (c : Z) : bool := bool_decide (is_Some (hex_val c)).

(** The canonical 8-4-4-4-12 spelling of [UPLOAD_CONTENT_PATH_RE]. *)
Fixpoint hyphenated (groups : list nat) (s : pystr) : bool :=
  match groups with
  | [] => str_eqb s []
  | [n] => (length s =? n)%nat && forallb is_hex s
  | n :: groups =>
      (length (take n s) =? n)%nat && forallb is_hex (take n s)
      && match drop n s with 45 :: s' => hyphenated groups s' | _ => false end
  end.

(** ** Protected upload URLs *)

Definition scheme_char (c : Z) : bool := is_alnum c || (c =? 43) || (c =? 45) || (c =? 46).
Definition is_alpha (c : Z) : bool := ((65 <=? c) && (c <=? 90)) || ((97 <=? c) && (c <=? 122)).

(** The text before the first character of a class, and the rest from it on. *)
Fixpoint break_at (stop : Z -> bool) (s : pystr) : pystr * pystr :=
  match s with
  | [] => ([], [])
  | c :: s' => if stop c then ([], s) else let '(a, b) := break_at stop s' in (c :: a, b)
  end.

(** [urlsplit(value).path] of a URL with a well-formed host. *)
Definition urlsplit_path (value : pystr) : pystr :=
  let url := lstrip_when (fun c => c <=? 32) value in
  let url := List.filter (fun c => negb ((c =? 9) || (c =? 10) || (c =? 13))) url in
  let url :=
    match break_at (Z.eqb 58) url with
    | ((c :: _) as scheme, 58 :: rest) => if is_alpha c && forallb scheme_char scheme then rest else url
    | _ => url
    end in
  let url :=
    match url with
    | 47 :: 47 :: rest => snd (break_at (fun c => (c =? 47) || (c =? 63) || (c =? 35)) rest)
    | _ => url
    end in
  let url := fst (break_at (Z.eqb 35) url) in
  fst (break_at (Z.eqb 63) url).

(** [UPLOAD_CONTENT_PATH_RE.fullmatch], with the group it captures. *)
Definition upload_content_path (path : pystr) : option pystr :=
  let rest := if startswith (py "/v1/uploads/") path then Some (drop 12 path)
              else if startswith (py "/uploads/") path then Some (drop 9 path) else None in
  rest ← rest;
  let id := take 36 rest in
  if hyphenated [8; 4; 4; 4; 12]%nat id && str_eqb (drop 36 rest) (py "/content") then Some id else None.

Definition extract_upload_id_from_url (value : option pystr) : option N :=
  match value with
  | None | Some [] => None
  | Some value => id ← upload_content_path (urlsplit_path (strip value)); uuid_of_str id
  end.

Example extract_upload_id_example :
  extract_upload_id_from_url (Some (py " https://x.example/v1/uploads/00000000-0000-0000-0000-00000000002a/content?a#b"))
  = Some 42%N
  /\ extract_upload_id_from_url (Some (py "/uploads/00000000-0000-0000-0000-00000000002a/content")) = Some 42%N
  /\ extract_upload_id_from_url (Some (py "/uploads/00000000-0000-0000-0000-00000000002a/content/x")) = None.
Proof. vm_compute. split_and!; reflexivity. Qed.

(** ** Lemmas *)

Lemma hex_digits_app acc bs : Forall is_byte bs ->
  hex_digits acc (hex_of_bytes bs) = Some (fold_left (fun acc b => 256 * acc + b) bs acc).
Proof.
  intros Hb. revert acc. induction Hb as [|b bs Hb _ IH]; intros acc; [done|].
  rewrite hex_of_bytes_cons. cbn [hex_digits]. destruct (byte_nibbles b Hb).
  rewrite !hex_val_digit by done. cbn [mbind option_bind].
  rewrite IH. cbn [fold_left]. do 2 f_equal. pose proof (Z_div_mod_eq_full b 16). lia.
Qed.

Lemma hex_digits_be bs : Forall is_byte bs -> hex_digits 0 (hex_of_bytes bs) = Some (be_val bs).
Proof. apply hex_digits_app. Qed.

Lemma filter_no_dash s : forallb is_lower_hex s = true -> List.filter (fun c => negb (c =? 45)) s = s.
Proof.
  induction s as [|c s IH]; [done|]. cbn. intros [Hc Hs]%andb_prop.
  assert ((c =? 45) = false) as -> by (unfold is_lower_hex in Hc; lia). cbn. by rewrite IH.
Qed.

(** The groups of [str(u)] are lower-case hexadecimal. *)
Lemma uuid_hex_lower u : forallb is_lower_hex (uuid_hex u) = true.
Proof. apply hex_of_bytes_lower, be_bytes_byte. Qed.
Lemma uuid_groups_lower u n m : forallb is_lower_hex (take n (drop m (uuid_hex u))) = true.
Proof.
  pose proof (uuid_hex_lower u) as Hh. rewrite <-(take_drop m (uuid_hex u)), forallb_app in Hh. apply andb_prop in Hh as [_ Hh].
  rewrite <-(take_drop n (drop m (uuid_hex u))), forallb_app in Hh. by apply andb_prop in Hh as [? _].
Qed.
Lemma uuid_tail_lower u n : forallb is_lower_hex (drop n (uuid_hex u)) = true.
Proof.
  pose proof (uuid_hex_lower u) as Hh. rewrite <-(take_drop n (uuid_hex u)), forallb_app in Hh. by apply andb_prop in Hh as [_ ?].
Qed.

Lemma uuid_str_digits u : List.filter (fun c => negb (c =? 45)) (uuid_str u) = uuid_hex u.
Proof.
  unfold uuid_str. rewrite !List.filter_app. cbn [List.filter Z.eqb negb Pos.eqb app].
  pose proof (uuid_groups_lower u 8 0) as H8. rewrite drop_0 in H8.
  rewrite !filter_no_dash by first [done|apply uuid_groups_lower|apply uuid_tail_lower].
  by rewrite <-(drop_drop (uuid_hex u) 4 16 : _ = drop 20 _), take_drop.
Qed.
Lemma uuid_hex_length u : length (uuid_hex u) = 32%nat.
Proof. unfold uuid_hex. by rewrite length_hex_of_bytes, length_be_bytes. Qed.
Lemma hex_digits_uuid u : uuid_ok u -> hex_digits 0 (uuid_hex u) = Some (Z.of_N u).
Proof.
  intros Hu. unfold uuid_hex. rewrite hex_digits_be by apply be_bytes_byte. rewrite be_val_bytes by lia.
  unfold uuid_ok in Hu. change (256 ^ Z.of_nat 16) with (2 ^ 128). by rewrite Z.mod_small by lia.
Qed.

(** [UUID(str(u)) == u]. *)
Lemma uuid_of_str_str u : uuid_ok u -> uuid_of_str (uuid_str u) = Some u.
Proof.
  intros Hu. unfold uuid_of_str. rewrite uuid_str_digits, uuid_hex_length, hex_digits_uuid by done.
  cbn [Nat.eqb fmap option_fmap option_map]. f_equal. lia.
Qed.

Lemma lstrip_when_head p s : match lstrip_when p s with c :: _ => p c = false | [] => True end.
Proof. induction s as [|c s IH]; cbn; [done|]. by destruct (p c) eqn:E. Qed.

Lemma lstrip_when_none p s : forallb (fun c => negb (p c)) s = true -> lstrip_when p s = s.
Proof. destruct s as [|c s]; cbn; [done|]. by destruct (p c). Qed.

Lemma forallb_rev {A} (p : A -> bool) l : forallb p (rev l) = forallb p l.
Proof.
  induction l as [|x l IH]; [done|]. cbn. rewrite forallb_app, IH. cbn. by rewrite andb_true_r, andb_comm.
Qed.

Lemma strip_when_none p s : forallb (fun c => negb (p c)) s = true -> strip_when p s = s.
Proof.
  intros Hs. unfold strip_when, rstrip_when. rewrite (lstrip_when_none p s) by done.
  rewrite lstrip_when_none by (by rewrite forallb_rev). apply rev_involutive.
Qed.

Lemma lstrip_when_forall (q : Z -> bool) p s : forallb q s = true -> forallb q (lstrip_when p s) = true.
Proof.
  induction s as [|c s IH]; cbn; [done|]. intros [Hc Hs]%andb_prop. destruct (p c); [auto|]. cbn. by rewrite Hc.
Qed.

Lemma strip_when_forall (q : Z -> bool) p s : forallb q s = true -> forallb q (strip_when p s) = true.
Proof.
  intros Hs. unfold strip_when, rstrip_when. rewrite forallb_rev. apply lstrip_when_forall.
  rewrite forallb_rev. by apply lstrip_when_forall.
Qed.

(** What is left of a stripped string does not start with a stripped character. *)
Lemma strip_when_head p s c t : strip_when p s = c :: t -> p c = false.
Proof.
  unfold strip_when, rstrip_when. pose proof (lstrip_when_head p s) as Hh.
  set (u := lstrip_when p s) in *. clearbody u. intros E.
  assert (Hsuf : exists w, rev u = w ++ lstrip_when p (rev u)).
  { clear. generalize (rev u). intros l. induction l as [|x l [w IH]]; cbn; [by exists []|].
    destruct (p x); [|by exists []]. exists (x :: w). cbn. by rewrite <-IH. }
  destruct Hsuf as [w Hw]. apply (f_equal (@rev Z)) in Hw.
  rewrite rev_involutive, rev_app_distr, E in Hw. cbn in Hw. rewrite Hw in Hh. done.
Qed.

Lemma safe_char_not_space c : safe_char c = true -> isspace c = false.
Proof. unfold safe_char, is_alnum, isspace. lia. Qed.

Lemma safe_strip s : forallb safe_char s = true -> strip s = s.
Proof.
  intros Hs. apply strip_when_none. rewrite forallb_forall in *. intros c Hc.
  by rewrite safe_char_not_space by auto.
Qed.

(** A routing key built from a safe identifier has no white space to strip. *)
Lemma safe_strip_key s : forallb safe_char s = true -> strip (py "channel." ++ s) = py "channel." ++ s.
Proof.
  intros Hs. apply strip_when_none. rewrite forallb_app. apply andb_true_iff. split; [done|].
  rewrite forallb_forall in *. intros c Hc. by rewrite safe_char_not_space by auto.
Qed.

Lemma sub_unsafe_forall b s : forallb filename_char (sub_unsafe b s) = true.
Proof.
  revert b. induction s as [|c s IH]; intros b; cbn; [done|].
  destruct (filename_char c) eqn:E; cbn; [by rewrite E, IH|]. destruct b; cbn; auto.
Qed.

Lemma normalize_upload_filename_spec value :
  let name := normalize_upload_filename value in
  name <> [] /\ (length name <= 100)%nat /\ forallb filename_char name = true
  /\ head name <> Some 46.
Proof.
  cbv zeta. unfold normalize_upload_filename.
  set (cleaned := strip_when _ _).
  assert (Hs : forallb filename_char cleaned = true) by (apply strip_when_forall, sub_unsafe_forall).
  assert (Hh : forall c t, cleaned = c :: t -> (c =? 46) || (c =? 95) = false) by (intros c t; apply strip_when_head).
  clearbody cleaned.
  destruct cleaned as [|c t]; [by vm_compute; split_and!; try done; lia|].
  specialize (Hh c t eq_refl). change SAFE_UPLOAD_FILENAME_MAX_LENGTH with (S 99).
  rewrite firstn_cons. split_and!.
  - done.
  - cbn [length]. rewrite length_take. lia.
  - cbn [forallb] in Hs |- *. apply andb_prop in Hs as [-> Hs]. cbn.
    rewrite <-(take_drop 99 t), forallb_app in Hs. by apply andb_prop in Hs as [? _].
  - cbn. intros [= ->]. done.
Qed.

(** ** Properties *)

(** A stored upload path component is always safe: it is non-empty, at
    most 100 characters, made of letters, digits, dot, underscore and hyphen
    only (so it has no path separator), and does not start with a dot (so it
    is neither [.] nor [..] nor hidden), whatever name the client sent. *)
Theorem normalize_upload_filename_safe value :
  let name := normalize_upload_filename value in
  name <> [] /\ (length name <= 100)%nat /\ forallb filename_char name = true
  /\ head name <> Some 46.
Proof. apply normalize_upload_filename_spec. Qed.

Section Laws.
Context `{UnicodeData}.
(** Lower-casing a character gives no ASCII capital letter (Unicode data). *)
Context (lower_no_capital : forall c, 128 <= c -> forallb (fun d => negb ((65 <=? d) && (d <=? 90))) (ucd_lower c) = true).

Lemma lower_no_capitals s : forallb (fun d => negb ((65 <=? d) && (d <=? 90))) (lower s) = true.
Proof.
  induction s as [|c s IH]; [done|]. unfold lower in *. cbn. rewrite forallb_app, IH, andb_true_r.
  unfold lower_char. destruct ((65 <=? c) && (c <=? 90)) eqn:E; [cbn; lia|].
  destruct (Z.ltb_spec c 128); [cbn; by rewrite E|by apply lower_no_capital].
Qed.

Lemma lower_safe_id s :
  forallb safe_char s = true -> forallb (fun d => negb ((65 <=? d) && (d <=? 90))) s = true -> lower s = s.
Proof.
  induction s as [|c s IH]; [done|]. cbn. intros [Hc Hs]%andb_prop [Hu Hn]%andb_prop.
  unfold lower in *. cbn. rewrite IH by done. unfold lower_char.
  apply negb_true_iff in Hu. rewrite Hu.
  assert ((c <? 128) = true) as -> by (unfold safe_char, is_alnum in Hc; lia). done.
Qed.

(** Normalisation is idempotent: an accepted user name or channel slug is
    a safe identifier (3 to 50 letters, digits, [_] or [-], so it contains no
    AMQP wildcard or separator), and normalising it again gives it back, so
    every component derives the same routing key from it. *)
Theorem normalize_channel_slug_idempotent value slug :
  normalize_channel_slug value = inr slug ->
  safe_identifier slug = true /\ normalize_channel_slug slug = inr slug
  /\ validate_channel_slug slug = inr slug /\ normalize_username slug = inr slug.
Proof.
  unfold normalize_channel_slug, normalize_username, validate_channel_slug, _normalize_identifier.
  set (n := lower (strip value)). destruct (safe_identifier n) eqn:Es; [|done].
  pose proof (lower_no_capitals (strip value) : forallb _ n = true) as Hu. intros [= <-].
  assert (Hc : forallb safe_char n = true) by (unfold safe_identifier in Es; by apply andb_prop in Es as [_ ?]).
  by rewrite safe_strip, lower_safe_id, Es by done.
Qed.
End Laws.

(** The ASCII fragment of the Unicode database. *)
Definition ascii_ucd : UnicodeData := {| ucd_lower c := [c]; ucd_is_control c := c <? 32 |}.

Lemma normalize_channel_slug_idempotent_witness :
  safe_identifier (py "team-news") = true
  /\ normalize_channel_slug (H := ascii_ucd) (py "team-news") = inr (py "team-news")
  /\ validate_channel_slug (H := ascii_ucd) (py "team-news") = inr (py "team-news")
  /\ normalize_username (H := ascii_ucd) (py "team-news") = inr (py "team-news").
Proof.
  apply (normalize_channel_slug_idempotent (H := ascii_ucd)) with (value := py "  Team-News ").
  - intros c Hc. cbn. lia.
  - vm_compute. reflexivity.
Defined.
