(* ===== verification/Rbac.v ===== *)
(** * Role-based access control (backend/app/services/rbac.py) *)

From S2P Require Import Prelude PyStr Json Models.
Local Open Scope Z_scope.

Definition APPROVED_ROLES : list MembershipRole := [owner; admin; member].
Definition approved (r : MembershipRole) : bool := bool_decide (r ∈ APPROVED_ROLES).

(** The permission dictionaries have fixed keys, so they are records. *)
Record AdminPermissions := {
  ap_publish : bool; ap_invite : bool; ap_approve : bool; ap_manage_members : bool; ap_edit_channel : bool
}.

Record Permissions := {
  p_publish : bool; p_invite : bool; p_approve : bool; p_manage_members : bool; p_edit_channel : bool;
  p_delete_channel : bool
}.

Definition DEFAULT_ADMIN_PERMISSIONS : AdminPermissions :=
  {| ap_publish := true; ap_invite := true; ap_approve := true; ap_manage_members := true;
     ap_edit_channel := false |}.

Definition normalize_admin_permissions (raw : pyval) : AdminPermissions :=
  match raw with
  | PDict kvs =>
      let pick key dflt := match assoc (py key) kvs with Some v => truthy v | None => dflt end in
      {| ap_publish := pick "can_publish" (ap_publish DEFAULT_ADMIN_PERMISSIONS);
         ap_invite := pick "can_invite" (ap_invite DEFAULT_ADMIN_PERMISSIONS);
         ap_approve := pick "can_approve" (ap_approve DEFAULT_ADMIN_PERMISSIONS);
         ap_manage_members := pick "can_manage_members" (ap_manage_members DEFAULT_ADMIN_PERMISSIONS);
         ap_edit_channel := pick "can_edit_channel" (ap_edit_channel DEFAULT_ADMIN_PERMISSIONS) |}
  | _ => DEFAULT_ADMIN_PERMISSIONS
  end.

(** The normalised permissions as the dictionary stored in the membership. *)
Definition permissions_dict (p : AdminPermissions) : pyval :=
  PDict [(py "can_publish", PBool (ap_publish p)); (py "can_invite", PBool (ap_invite p));
         (py "can_approve", PBool (ap_approve p)); (py "can_manage_members", PBool (ap_manage_members p));
         (py "can_edit_channel", PBool (ap_edit_channel p))].

Definition build_permissions (role : option MembershipRole) (admin_permissions : pyval) : Permissions :=
  match role with
  | Some owner =>
      {| p_publish := true; p_invite := true; p_approve := true; p_manage_members := true;
         p_edit_channel := true; p_delete_channel := true |}
  | Some admin =>
      let a := normalize_admin_permissions admin_permissions in
      {| p_publish := ap_publish a; p_invite := ap_invite a; p_approve := ap_approve a;
         p_manage_members := ap_manage_members a; p_edit_channel := ap_edit_channel a;
         p_delete_channel := false |}
  | _ =>
      {| p_publish := false; p_invite := false; p_approve := false; p_manage_members := false;
         p_edit_channel := false; p_delete_channel := false |}
  end.

Definition can_publish role perms : bool := p_publish (build_permissions role perms).
Definition can_invite role perms : bool := p_invite (build_permissions role perms).
Definition can_approve role perms : bool := p_approve (build_permissions role perms).

Definition can_remove (actor_role target_role : option MembershipRole) : bool :=
  match actor_role with
  | Some owner => bool_decide (target_role <> Some owner)
  | Some admin => bool_decide (target_role = Some member) || bool_decide (target_role = Some pending_role)
  | _ => false
  end.

Definition can_promote (actor_role target_role : option MembershipRole) : bool :=
  bool_decide (actor_role = Some owner) && bool_decide (target_role = Some member).
Definition can_demote (actor_role target_role : option MembershipRole) : bool :=
  bool_decide (actor_role = Some owner) && bool_decide (target_role = Some admin).
Definition can_read (role : option MembershipRole) : bool :=
  match role with Some r => approved r | None => false end.

(** ** Lemmas *)

(** Storing normalised permissions and normalising them again is the identity. *)
Lemma normalize_permissions_dict p : normalize_admin_permissions (permissions_dict p) = p.
Proof. by destruct p as [[] [] [] [] []]. Qed.

(** ** Properties *)

(** The order of authority of the roles. *)
Definition rank (r : option MembershipRole) : Z :=
  match r with Some owner => 3 | Some admin => 2 | Some member => 1 | _ => 0 end.

(** The role checks only ever act downwards: whoever may be removed,
    promoted or demoted ranks strictly below the actor, nobody can remove or
    demote an owner, and only approved readers hold any permission at all. *)
Theorem rbac_acts_downwards a t perms :
  (can_remove a t = true -> rank t < rank a)
  /\ (can_promote a t = true -> rank t < rank a) /\ (can_demote a t = true -> rank t < rank a)
  /\ can_remove a (Some owner) = false /\ can_demote a (Some owner) = false
  /\ (can_read a = false -> build_permissions a perms = build_permissions None PNone).
Proof.
  unfold can_remove, can_promote, can_demote, can_read, approved.
  split_and!; destruct a as [[]|], t as [[]|]; done.
Qed.

Lemma rbac_acts_downwards_witness : rank (Some member) < rank (Some admin).
Proof. apply (proj1 (rbac_acts_downwards (Some admin) (Some member) PNone)). reflexivity. Defined.
