(* ===== verification/Outbox.v ===== *)
(** * The transactional outbox (backend/app/services/outbox_service.py)

    Rows of the [outbox] table are written in the caller's transaction; the
    worker publishes them after the commit.  For every (channel, user) pair a
    [BrokerBindingState] row holds the desired RabbitMQ binding, derived from
    the authorization state of the database and versioned by a generation. *)

From S2P Require Import Prelude PyStr Json Models Session EventIntegrity Identifiers Rbac.
Local Open Scope Z_scope.

(** The settings of the backend that the services read. *)
Class BackendSettings := {
  outbox_max_attempts : Z;
  max_channels_owned_per_user : Z;
  max_active_invites_per_user : Z;
  max_distinct_reactions_per_message : Z;
  upload_max_size_bytes : Z;
  max_uploads_per_user_per_day : Z;
  max_pending_uploads_per_user : Z;
  max_stored_upload_bytes_per_user : Z;
  is_production_like : bool;
  email_verification_enabled : bool
}.

(** [str(v)] of the scalar values that are formatted. *)
Definition py_str (v : pyval) : pystr :=
  match v with
  | PStr s | PEnum s | PFloat s => s
  | PInt n => str_of_Z n
  | PBool b => if b then py "True" else py "False"
  | PUuid u => uuid_str u
  | PDatetime o t => str_of_datetime o t
  | PNone => py "None"
  | PList _ | PTuple _ | PDict _ => json_dumps v
  end.

Definition _payload_with_membership_generation (payload : list (list Z * pyval)) (generation : Z) : pyval :=
  PDict (dict_set payload (py "membership_generation") (PInt generation)).

Definition routing_key_of_slug (slug : pystr) : pystr := py "channel." ++ slug.

Section Outbox.
Context `{World} `{UnicodeData} `{BackendSettings}.

Definition get_channel (channel_id : N) : M (option Channel.t) := gets (fun st => channels st !! channel_id).
Definition get_membership (channel_id user_id : N) : M (option ChannelMembership.t) :=
  gets (fun st => channel_memberships st !! (channel_id, user_id)).
Definition get_user (user_id : N) : M (option User.t) := gets (fun st => users st !! user_id).

Definition _get_channel_delivery_state (channel_id : N) : M (pystr * Z) :=
  c ← get_channel channel_id;
  c ← of_option (ValueError "channel not found for outbox routing") c;
  slug ← of_res (normalize_channel_slug (Channel.channel_slug c));
  mret (slug, Channel.membership_generation c).

Definition _get_username (user_id : N) : M pystr :=
  u ← get_user user_id;
  u ← of_option (ValueError "user not found for outbox routing") u;
  of_res (normalize_username (User.username u)).

(** [db.add(Outbox(...)); await db.flush()]: server defaults for the
    timestamps, JSON serialisation of the payload. *)
Definition add_outbox (aggregate_type : pystr) (aggregate_id channel_id : N) (payload : pyval)
    (type : pystr) (routing_key : pystr) : M Outbox.t :=
  id ← uuid4;
  now ← utcnow;
  stored ← of_option (TypeError "Object is not JSON serializable") (json_column payload);
  let row := Outbox.Row id aggregate_type aggregate_id channel_id stored (Some type) routing_key pending
               0 outbox_max_attempts None now now None None None None in
  insert_row "outbox_pkey" outbox (upd outbox) id row ;;
  mret row.

Definition enqueue_message_outbox (message_id channel_id : N) (payload : list (list Z * pyval)) : M Outbox.t :=
  '(channel_slug, membership_generation) ← _get_channel_delivery_state channel_id;
  add_outbox (py "message") message_id channel_id
    (_payload_with_membership_generation payload membership_generation)
    (py_str (default (PStr (py "message")) (assoc (py "type") payload)))
    (routing_key_of_slug channel_slug).

Definition enqueue_channel_event_outbox (aggregate_id channel_id : N) (event_type : pystr)
    (payload : list (list Z * pyval)) : M Outbox.t :=
  '(channel_slug, membership_generation) ← _get_channel_delivery_state channel_id;
  add_outbox event_type aggregate_id channel_id
    (_payload_with_membership_generation payload membership_generation)
    event_type (routing_key_of_slug channel_slug).

Definition enqueue_user_event_outbox (aggregate_id channel_id user_id : N) (event_type : pystr)
    (payload : list (list Z * pyval)) : M Outbox.t :=
  username ← _get_username user_id;
  '(_, membership_generation) ← _get_channel_delivery_state channel_id;
  add_outbox event_type aggregate_id channel_id
    (_payload_with_membership_generation payload membership_generation)
    event_type (py "user." ++ username).

(** ** Desired broker bindings *)

Definition snapshot_payload (state : BrokerBindingState.t) : pyval :=
  PDict [(py "type", PStr (py "broker_binding")); (py "schema_version", PInt 1);
         (py "generation", PInt (BrokerBindingState.generation state));
         (py "user_id", PStr (uuid_str (BrokerBindingState.user_id state)));
         (py "channel_id", PStr (uuid_str (BrokerBindingState.channel_id state)))].

Definition _enqueue_broker_binding_snapshot (state : BrokerBindingState.t) : M Outbox.t :=
  add_outbox (py "broker_binding") (BrokerBindingState.user_id state) (BrokerBindingState.channel_id state)
    (snapshot_payload state) (py "broker_binding.reconcile") (py "broker.binding").

(** A membership authorizes a binding when its role is approved and the
    channel is not deleted. *)
Definition authorized (channel : Channel.t) (membership : option ChannelMembership.t) : bool :=
  bool_decide (Channel.deleted_at channel = None)
  && match membership with Some m => approved (ChannelMembership.role m) | None => false end.

Definition add_key (keys : list pystr) (k : pystr) : list pystr :=
  if bool_decide (k ∈ keys) then keys else keys ++ [k].

(** The new desired state, from the previous one and the authorization. *)
Definition next_binding_state (channel_id user_id : N) (previous : option BrokerBindingState.t)
    (desired_bound : bool) (routing_key : pystr) : BrokerBindingState.t :=
  match previous with
  | None => BrokerBindingState.Row channel_id user_id 1 desired_bound routing_key [routing_key] 0
  | Some state =>
      let known_keys := List.filter (fun k => negb (str_eqb k [])) (BrokerBindingState.routing_keys state) in
      let known_keys :=
        match BrokerBindingState.desired_routing_key state with
        | [] => known_keys
        | k => add_key known_keys k
        end in
      let known_keys := add_key known_keys routing_key in
      state <| BrokerBindingState.generation ::= fun g => g + 1 |>
            <| BrokerBindingState.desired_bound := desired_bound |>
            <| BrokerBindingState.desired_routing_key := routing_key |>
            <| BrokerBindingState.routing_keys := known_keys |>
  end.

Definition enqueue_broker_binding_outbox (channel_id user_id : N) (action : pystr) : M Outbox.t :=
  guard (bool_decide (action ∈ [py "bind"; py "unbind"]))
    (ValueError "broker binding action must be bind or unbind") ;;
  channel ← get_channel channel_id;
  channel ← of_option (ValueError "channel not found for broker binding state") channel;
  membership ← get_membership channel_id user_id;
  let desired_bound := authorized channel membership in
  slug ← of_res (normalize_channel_slug (Channel.channel_slug channel));
  state ← gets (fun st => broker_binding_states st !! (channel_id, user_id));
  let state := next_binding_state channel_id user_id state desired_bound (routing_key_of_slug slug) in
  modify (fun st => st <| broker_binding_states ::= <[(channel_id, user_id) := state]> |>) ;;
  _enqueue_broker_binding_snapshot state.

Definition bump_channel_membership_generation (channel_id : N) : M Z :=
  channel ← get_channel channel_id;
  channel ← of_option (ValueError "channel not found for membership generation") channel;
  let channel := channel <| Channel.membership_generation ::= fun g => g + 1 |> in
  modify (fun st => st <| channels ::= <[channel_id := channel]> |>) ;;
  mret (Channel.membership_generation channel).

(** ** Reconciliation *)

Definition binding_action (membership : option ChannelMembership.t) : pystr :=
  match membership with
  | Some m => if approved (ChannelMembership.role m) then py "bind" else py "unbind"
  | None => py "unbind"
  end.

Definition missing_channels (user_id : N) (st : Store) : list N :=
  order_by (fun c => [Z.of_N c])
    (List.filter (fun c => negb (bool_decide (is_Some (broker_binding_states st !! (c, user_id)))))
       (ChannelMembership.channel_id <$>
          List.filter (fun m => bool_decide (ChannelMembership.user_id m = user_id))
            (rows (channel_memberships st)))).

Definition states_of_user (user_id : N) (st : Store) : list BrokerBindingState.t :=
  order_by (fun b => [Z.of_N (BrokerBindingState.channel_id b)])
    (List.filter (fun b => bool_decide (BrokerBindingState.user_id b = user_id))
       (rows (broker_binding_states st))).

Definition enqueue_user_broker_binding_reconciliation (user_id : N) : M Z :=
  missing ← gets (missing_channels user_id);
  for_each missing (fun channel_id =>
    membership ← get_membership channel_id user_id;
    _ ← enqueue_broker_binding_outbox channel_id user_id (binding_action membership);
    mret tt) ;;
  states ← gets (states_of_user user_id);
  let others := List.filter (fun b => negb (bool_decide (BrokerBindingState.channel_id b ∈ missing))) states in
  for_each others (fun state => _ ← _enqueue_broker_binding_snapshot state; mret tt) ;;
  mret (Z.of_nat (length missing) + Z.of_nat (length others)).

Definition missing_pairs (st : Store) : list (N * N) :=
  order_by (fun p => [Z.of_N p.1; Z.of_N p.2])
    (List.filter (fun p => negb (bool_decide (is_Some (broker_binding_states st !! p))))
       ((fun m => (ChannelMembership.channel_id m, ChannelMembership.user_id m))
          <$> rows (channel_memberships st))).

Definition all_states (st : Store) : list BrokerBindingState.t :=
  order_by (fun b => [Z.of_N (BrokerBindingState.channel_id b); Z.of_N (BrokerBindingState.user_id b)])
    (rows (broker_binding_states st)).

Definition enqueue_all_broker_binding_reconciliation : M Z :=
  missing ← gets missing_pairs;
  for_each missing (fun p =>
    membership ← get_membership p.1 p.2;
    _ ← enqueue_broker_binding_outbox p.1 p.2 (binding_action membership);
    mret tt) ;;
  states ← gets all_states;
  let others := List.filter (fun b =>
    negb (bool_decide ((BrokerBindingState.channel_id b, BrokerBindingState.user_id b) ∈ missing))) states in
  for_each others (fun state => _ ← _enqueue_broker_binding_snapshot state; mret tt) ;;
  mret (Z.of_nat (length missing) + Z.of_nat (length others)).

End Outbox.

(** ** Effects *)

(** A freshly enqueued row. *)
Definition fresh_outbox (row : Outbox.t) (aggregate_type : pystr) (aggregate_id channel_id : N)
    (payload : pyval) (routing_key : pystr) (max_attempts : Z) : Prop :=
  Outbox.aggregate_type row = aggregate_type /\ Outbox.aggregate_id row = aggregate_id
  /\ Outbox.channel_id row = channel_id /\ json_column payload = Some (Outbox.payload row)
  /\ Outbox.routing_key row = routing_key /\ Outbox.status row = pending /\ Outbox.attempts row = 0
  /\ Outbox.max_attempts row = max_attempts.

Section Effects.
Context `{World} `{UnicodeData} `{BackendSettings}.

Lemma add_outbox_ok agg aid ch p ty rk s row s' :
  add_outbox agg aid ch p ty rk s = (inr row, s') ->
  outbox (work s) !! Outbox.id row = None
  /\ work s' = work s <| outbox ::= <[Outbox.id row := row]> |>
  /\ durable s' = durable s /\ outside s' = outside s
  /\ fresh_outbox row agg aid ch p rk outbox_max_attempts.
Proof.
  unfold add_outbox. intros Hr. run_inv.
  session_simpl. by split_and!.
Qed.

Lemma same_add_outbox {X} (f : Store -> X) agg aid ch p ty rk :
  (forall st g, f (st <| outbox ::= g |>) = f st) ->
  preserves (same f) (add_outbox agg aid ch p ty rk).
Proof.
  intros Hf. unfold add_outbox, insert_row. pres. apply same_modify. intros st. apply Hf.
Qed.
Lemma keeps_add_outbox (I : Store -> Prop) agg aid ch p ty rk :
  (forall st g, I st -> I (st <| outbox ::= g |>)) -> preserves (keeps I) (add_outbox agg aid ch p ty rk).
Proof.
  intros Hf. unfold add_outbox, insert_row. pres. apply keeps_modify. intros st. apply Hf.
Qed.
Lemma enqueue_snapshot_ok b s row s' :
  _enqueue_broker_binding_snapshot b s = (inr row, s') ->
  outbox (work s) !! Outbox.id row = None
  /\ work s' = work s <| outbox ::= <[Outbox.id row := row]> |>
  /\ durable s' = durable s /\ outside s' = outside s
  /\ fresh_outbox row (py "broker_binding") (BrokerBindingState.user_id b) (BrokerBindingState.channel_id b)
       (snapshot_payload b) (py "broker.binding") outbox_max_attempts.
Proof. apply add_outbox_ok. Qed.

(** The whole effect of recording a desired binding. *)
Lemma enqueue_binding_ok c u action s row s' :
  enqueue_broker_binding_outbox c u action s = (inr row, s') ->
  exists channel slug,
    channels (work s) !! c = Some channel
    /\ normalize_channel_slug (Channel.channel_slug channel) = inr slug
    /\ let b := next_binding_state c u (broker_binding_states (work s) !! (c, u))
                 (authorized channel (channel_memberships (work s) !! (c, u))) (routing_key_of_slug slug) in
       work s' = work s <| broker_binding_states ::= <[(c, u) := b]> |>
                        <| outbox ::= <[Outbox.id row := row]> |>
       /\ outbox (work s) !! Outbox.id row = None
       /\ durable s' = durable s /\ outside s' = outside s
       /\ fresh_outbox row (py "broker_binding") (BrokerBindingState.user_id b) (BrokerBindingState.channel_id b)
            (snapshot_payload b) (py "broker.binding") outbox_max_attempts.
Proof.
  unfold enqueue_broker_binding_outbox, get_channel, get_membership. intros Hr. run_inv.
  match goal with H : _enqueue_broker_binding_snapshot _ _ = _ |- _ =>
    apply enqueue_snapshot_ok in H as (Hnone & Hw & Hd & Ho & Hf) end.
  eexists _, _. split; [eassumption|]. split; [eassumption|]. cbv zeta.
  rewrite Hw, Hd, Ho. split_and!; [done|exact Hnone|done|done|exact Hf..].
Qed.
End Effects.

#[export] Hint Extern 3 (preserves (same _) (add_outbox _ _ _ _ _ _)) =>
  apply same_add_outbox; intros; reflexivity : pres.
#[export] Hint Extern 3 (preserves (keeps _) (add_outbox _ _ _ _ _ _)) =>
  apply keeps_add_outbox; intros ? ? Hkept; exact Hkept : pres.

(** ** Properties *)

(** Every key the worker may still have to unbind stays listed. *)
Definition keys_kept (previous : option BrokerBindingState.t) (b : BrokerBindingState.t) : Prop :=
  match previous with
  | Some p =>
      (forall k, k ∈ BrokerBindingState.routing_keys p -> k <> [] -> k ∈ BrokerBindingState.routing_keys b)
      /\ (BrokerBindingState.desired_routing_key p <> [] ->
          BrokerBindingState.desired_routing_key p ∈ BrokerBindingState.routing_keys b)
  | None => True
  end.

Lemma elem_of_add_key keys k x : x ∈ add_key keys k <-> x ∈ keys \/ x = k.
Proof.
  unfold add_key. case_bool_decide as Hin; [|by rewrite elem_of_app, list_elem_of_singleton].
  split; [by left|]. by intros [?| ->].
Qed.

Lemma next_binding_state_keys c u prev d rk :
  keys_kept prev (next_binding_state c u prev d rk)
  /\ rk ∈ BrokerBindingState.routing_keys (next_binding_state c u prev d rk).
Proof.
  destruct prev as [p|]; cbn; [|split; [done|constructor]].
  assert (Hf : forall k, k ∈ BrokerBindingState.routing_keys p -> k <> [] ->
    k ∈ List.filter (fun k => negb (str_eqb k [])) (BrokerBindingState.routing_keys p)).
  { intros k Hk Hne. apply elem_of_filter_bool. split; [done|]. unfold str_eqb. by rewrite bool_decide_false. }
  split; [split|].
  - intros k Hk Hne. apply elem_of_add_key. left.
    destruct (BrokerBindingState.desired_routing_key p); [auto|]. apply elem_of_add_key. auto.
  - intros Hne. apply elem_of_add_key. left. destruct (BrokerBindingState.desired_routing_key p); [done|].
    apply elem_of_add_key. by right.
  - apply elem_of_add_key. by right.
Qed.

Section Properties.
Context `{World} `{UnicodeData} `{BackendSettings}.

(** Recording a desired broker binding never trusts the caller's action:
    on success the stored desired state is the authorization that the
    database grants at that moment (channel not deleted, approved role), for
    the channel's current routing key, under a generation one above the
    previous one (1 for a new pair), with every key that may still be bound
    remembered, and one pending outbox row carries that generation. *)
Theorem desired_binding_tracks_authorization c u action s row s' :
  enqueue_broker_binding_outbox c u action s = (inr row, s') ->
  exists channel slug b,
    channels (work s) !! c = Some channel
    /\ normalize_channel_slug (Channel.channel_slug channel) = inr slug
    /\ broker_binding_states (work s') !! (c, u) = Some b
    /\ BrokerBindingState.desired_bound b
       = authorized channel (channel_memberships (work s) !! (c, u))
    /\ BrokerBindingState.desired_routing_key b = py "channel." ++ slug
    /\ BrokerBindingState.generation b
       = match broker_binding_states (work s) !! (c, u) with
         | Some p => BrokerBindingState.generation p + 1
         | None => 1
         end
    /\ keys_kept (broker_binding_states (work s) !! (c, u)) b
    /\ BrokerBindingState.desired_routing_key b ∈ BrokerBindingState.routing_keys b
    /\ outbox (work s') !! Outbox.id row = Some row /\ Outbox.status row = pending
    /\ json_column (snapshot_payload b) = Some (Outbox.payload row).
Proof.
  intros (channel & slug & Hc & Hslug & Hw & Hnone & _ & _ & Hf)%enqueue_binding_ok.
  set (b := next_binding_state _ _ _ _ _) in *.
  destruct (next_binding_state_keys c u (broker_binding_states (work s) !! (c, u))
    (authorized channel (channel_memberships (work s) !! (c, u))) (routing_key_of_slug slug)) as [Hk1 Hk2].
  fold b in Hk1, Hk2. destruct Hf as (_ & _ & _ & Hp & _ & Hst & _).
  exists channel, slug, b. rewrite Hw. cbn [broker_binding_states outbox upd].
  rewrite !lookup_insert_eq.
  assert (Hb : BrokerBindingState.desired_bound b = authorized channel (channel_memberships (work s) !! (c, u))
    /\ BrokerBindingState.desired_routing_key b = py "channel." ++ slug
    /\ BrokerBindingState.generation b = match broker_binding_states (work s) !! (c, u) with
         | Some p => BrokerBindingState.generation p + 1 | None => 1 end).
  { subst b. by destruct (broker_binding_states (work s) !! (c, u)). }
  destruct Hb as (Hb1 & Hb2 & Hb3). split_and!; try done.
  rewrite Hb2. exact Hk2.
Qed.

Definition memberships_keyed (st : Store) : Prop :=
  forall k m, channel_memberships st !! k = Some m ->
    k = (ChannelMembership.channel_id m, ChannelMembership.user_id m).

Lemma elem_of_missing u st c :
  memberships_keyed st ->
  c ∈ missing_channels u st
  <-> is_Some (channel_memberships st !! (c, u)) /\ broker_binding_states st !! (c, u) = None.
Proof.
  intros Hkey. unfold missing_channels. rewrite elem_of_order_by, elem_of_filter_bool, list_elem_of_fmap.
  rewrite negb_true_iff, bool_decide_eq_false, <-eq_None_not_Some. split.
  - intros [(m & -> & [(k & Hk)%elem_of_rows Hu%bool_decide_eq_true]%elem_of_filter_bool) Hn].
    split; [|done]. exists m. rewrite <-Hu. by rewrite <-(Hkey k m Hk).
  - intros [[m Hm] Hn]. split; [|done]. exists m. pose proof (Hkey _ _ Hm) as [= E1 E2].
    split; [done|]. apply elem_of_filter_bool. split; [apply elem_of_rows; eauto|by apply bool_decide_true].
Qed.

(** One iteration of the first loop keeps memberships and rows and writes its
    own row; one of the second loop changes neither table. *)
Lemma reconcile_step u c s x s' :
  (membership ← get_membership c u;
   _ ← enqueue_broker_binding_outbox c u (binding_action membership); mret tt) s = (inr x, s') ->
  channel_memberships (work s') = channel_memberships (work s)
  /\ is_Some (broker_binding_states (work s') !! (c, u))
  /\ forall k, is_Some (broker_binding_states (work s) !! k) -> is_Some (broker_binding_states (work s') !! k).
Proof.
  unfold get_membership. intros Ht. run_inv.
  match goal with H : enqueue_broker_binding_outbox _ _ _ _ = _ |- _ =>
    apply enqueue_binding_ok in H as (? & ? & _ & _ & Hw & _) end.
  rewrite Hw. cbn. split; [done|]. split; [by rewrite lookup_insert_eq; eexists|].
  intros k Hk. destruct (decide (k = (c, u))) as [->|Hne]; [by rewrite lookup_insert_eq; eexists|].
  by rewrite lookup_insert_ne.
Qed.

Lemma snapshot_step b s x s' :
  (_ ← _enqueue_broker_binding_snapshot b; mret tt) s = (inr x, s') ->
  channel_memberships (work s') = channel_memberships (work s)
  /\ broker_binding_states (work s') = broker_binding_states (work s).
Proof.
  intros Ht. run_inv. match goal with H : _enqueue_broker_binding_snapshot _ _ = _ |- _ =>
    apply enqueue_snapshot_ok in H as (_ & Hw & _) end. by rewrite Hw.
Qed.

(** Reconciling a user repairs every pair: afterwards each channel the
    user has a membership row in has a desired-state row, no existing row was
    dropped, and memberships are untouched. *)
Theorem user_reconciliation_is_complete u s n s' :
  memberships_keyed (work s) ->
  enqueue_user_broker_binding_reconciliation u s = (inr n, s') ->
  channel_memberships (work s') = channel_memberships (work s)
  /\ (forall c, is_Some (channel_memberships (work s) !! (c, u)) ->
        is_Some (broker_binding_states (work s') !! (c, u)))
  /\ (forall k, is_Some (broker_binding_states (work s) !! k) ->
        is_Some (broker_binding_states (work s') !! k)).
Proof.
  intros Hkey Hrun. unfold enqueue_user_broker_binding_reconciliation in Hrun.
  apply bind_ok in Hrun as (missing & s0 & [-> ->]%gets_ok & Hrun).
  apply bind_ok in Hrun as (a & s1 & Hloop & Hrun).
  apply bind_ok in Hrun as (states & s2 & [-> ->]%gets_ok & Hrun).
  apply bind_ok in Hrun as (a2 & s3 & Hloop2 & [_ ->]%ret_ok).
  assert (Hsnap : channel_memberships (work s3) = channel_memberships (work s1)
               /\ broker_binding_states (work s3) = broker_binding_states (work s1)).
  { eapply (for_each_inv (fun t => channel_memberships (work t) = channel_memberships (work s1)
      /\ broker_binding_states (work t) = broker_binding_states (work s1))); [|done|exact Hloop2].
    intros b t x t' _ [E1 E2] Ht. destruct (snapshot_step b t x t' Ht). split; congruence. }
  destruct Hsnap as [-> ->].
  assert (Hold : channel_memberships (work s1) = channel_memberships (work s)
    /\ forall k, is_Some (broker_binding_states (work s) !! k) -> is_Some (broker_binding_states (work s1) !! k)).
  { eapply (for_each_inv (fun t => channel_memberships (work t) = channel_memberships (work s)
      /\ forall k, is_Some (broker_binding_states (work s) !! k) -> is_Some (broker_binding_states (work t) !! k)));
      [|done|exact Hloop].
    intros c t x t' _ [E1 E2] (E3 & _ & E4)%reconcile_step. split; [congruence|auto]. }
  destruct Hold as [Hm1 Hk1]. split; [done|]. split; [|done]. intros c Hm.
  destruct (broker_binding_states (work s) !! (c, u)) as [b|] eqn:Hb; [apply Hk1; by eexists|].
  eapply (for_each_all (fun c t => is_Some (broker_binding_states (work t) !! (c, u)))); [| |exact Hloop|].
  - intros x t y t' _ Ht. cbv beta in Ht. destruct (reconcile_step u x t y t' Ht) as (_ & Hx & _). exact Hx.
  - intros x y t z t' _ Hx Ht. cbv beta in Ht. destruct (reconcile_step u y t z t' Ht) as (_ & _ & Hk). exact (Hk _ Hx).
  - by apply elem_of_missing.
Qed.
End Properties.

(** ** A small database for concrete runs *)

Definition demo_settings : BackendSettings := {|
  outbox_max_attempts := 5; max_channels_owned_per_user := 50; max_active_invites_per_user := 100;
  max_distinct_reactions_per_message := 20; upload_max_size_bytes := 26214400;
  max_uploads_per_user_per_day := 100; max_pending_uploads_per_user := 10;
  max_stored_upload_bytes_per_user := 1073741824; is_production_like := false;
  email_verification_enabled := false |}.

Definition demo_user (id : N) (name : string) : User.t :=
  User.Row id (py name) None None [] None None None None false true None None 0.
Definition demo_channel : Channel.t :=
  Channel.Row 7 3 (py "News") (py "team-news") None None public open_ 0 None 0 1.
Definition demo_membership (u : N) (r : MembershipRole) : ChannelMembership.t :=
  ChannelMembership.Row 7 u r PNone 0 None None None.

(** Channel 7 is owned by user 3 (alice); user 4 (bob) is a member, user 5
    (carol) has no membership and user 6 (dave) is an admin. *)
Definition demo_store : Store :=
  empty_store
    <| users := {[3%N := demo_user 3 "alice"; 4%N := demo_user 4 "bob"; 5%N := demo_user 5 "carol";
                  6%N := demo_user 6 "dave"]} |>
    <| channels := {[7%N := demo_channel]} |>
    <| channel_counters := {[7%N := ChannelCounter.Row 7 0]} |>
    <| channel_memberships :=
         {[(7%N, 3%N) := demo_membership 3 owner; (7%N, 4%N) := demo_membership 4 member;
           (7%N, 6%N) := demo_membership 6 admin]} |>.

Definition demo_session : Session (H := still_world) := open_session (H := still_world) demo_store tt.

Lemma desired_binding_tracks_authorization_witness :
  exists row s' b,
    enqueue_broker_binding_outbox (H := still_world) (H0 := ascii_ucd) (H1 := demo_settings) 7 4
      (py "unbind") demo_session = (inr row, s')
    /\ broker_binding_states (work s') !! (7%N, 4%N) = Some b
    /\ BrokerBindingState.desired_bound b = true.
Proof.
  set (r := enqueue_broker_binding_outbox (H := still_world) (H0 := ascii_ucd) (H1 := demo_settings) 7 4
      (py "unbind") demo_session).
  assert (Hok : is_ok (fst r) = true) by (vm_compute; reflexivity).
  destruct r as [[e|row] s'] eqn:E; [discriminate Hok|]. subst r.
  destruct (desired_binding_tracks_authorization (H := still_world) (H0 := ascii_ucd) (H1 := demo_settings)
              _ _ _ _ _ _ E) as (ch & slug & b & Hc & _ & Hb & Hd & _).
  exists row, s', b. split; [reflexivity|]. split; [exact Hb|]. rewrite Hd.
  assert (Hc' : channels (work demo_session) !! 7%N = Some demo_channel) by (vm_compute; reflexivity).
  rewrite Hc' in Hc. apply (inj Some) in Hc as <-. vm_compute. reflexivity.
Defined.

Lemma memberships_keyed_demo : memberships_keyed demo_store.
Proof.
  intros k m. cbn. rewrite !lookup_insert_Some, lookup_singleton_Some.
  intros [[<- <-]|[_ [[<- <-]|[_ [<- <-]]]]]; reflexivity.
Qed.

Lemma user_reconciliation_is_complete_witness :
  exists n s',
    enqueue_user_broker_binding_reconciliation (H := still_world) (H0 := ascii_ucd) (H1 := demo_settings) 4
      demo_session = (inr n, s')
    /\ is_Some (broker_binding_states (work s') !! (7%N, 4%N)).
Proof.
  set (r := enqueue_user_broker_binding_reconciliation (H := still_world) (H0 := ascii_ucd)
              (H1 := demo_settings) 4 demo_session).
  assert (Hok : is_ok (fst r) = true) by (vm_compute; reflexivity).
  destruct r as [[e|n] s'] eqn:E; [discriminate Hok|]. subst r.
  destruct (user_reconciliation_is_complete (H := still_world) (H0 := ascii_ucd) (H1 := demo_settings)
              4 demo_session n s' memberships_keyed_demo E) as (_ & Hc & _).
  exists n, s'. split; [reflexivity|]. apply Hc. vm_compute. eexists. reflexivity.
Defined.
