(* ===== verification/Encryption.v ===== *)
(** * Message encryption (backend/app/core/encryption.py)

    Versioned envelopes around Fernet tokens, with a ring of data keys.
    Fernet and HKDF come from the [cryptography] package and are the [Crypto]
    class; [CryptoLaws] states what the Fernet specification promises. *)

From S2P Require Import Prelude PyStr Json JsonLoads Models Session Identifiers.
Local Open Scope Z_scope.

(** ** Base 64 *)

(** The URL-safe alphabet. *)
Definition b64_char (d : Z) : Z :=
  if d <? 26 then 65 + d else if d <? 52 then 71 + d else if d <? 62 then d - 4
  else if d =? 62 then 45 else 95.

(** [altchars] are translated to the standard alphabet first, so both
    spellings of the last two digits decode. *)
Definition b64_val (c : Z) : option Z :=
  if (65 <=? c) && (c <=? 90) then Some (c - 65)
  else if (97 <=? c) && (c <=? 122) then Some (c - 71)
  else if is_digit c then Some (c + 4)
  else if (c =? 45) || (c =? 43) then Some 62
  else if (c =? 95) || (c =? 47) then Some 63
  else None.

Fixpoint b64encode (bs : bytes) : pystr :=
  match bs with
  | [] => []
  | [a] => [b64_char (a / 4); b64_char (a mod 4 * 16); 61; 61]
  | [a; b] => [b64_char (a / 4); b64_char (a mod 4 * 16 + b / 16); b64_char (b mod 16 * 4); 61]
  | a :: b :: c :: rest =>
      [b64_char (a / 4); b64_char (a mod 4 * 16 + b / 16); b64_char (b mod 16 * 4 + c / 64); b64_char (c mod 64)]
      ++ b64encode rest
  end.

(** [base64.b64decode(s, altchars=b"-_", validate=True)]. *)
Fixpoint b64decode (s : pystr) : option bytes :=
  match s with
  | [] => Some []
  | a :: b :: c :: d :: rest =>
      x ← b64_val a; y ← b64_val b;
      match rest with
      | [] =>
          if (c =? 61) && (d =? 61) then Some [x * 4 + y / 16]
          else
            z ← b64_val c;
            if d =? 61 then Some [x * 4 + y / 16; y mod 16 * 16 + z / 4]
            else w ← b64_val d; Some [x * 4 + y / 16; y mod 16 * 16 + z / 4; z mod 4 * 64 + w]
      | _ :: _ =>
          z ← b64_val c; w ← b64_val d; tail ← b64decode rest;
          Some (x * 4 + y / 16 :: y mod 16 * 16 + z / 4 :: z mod 4 * 64 + w :: tail)
      end
  | _ => None
  end.

Example b64_example :
  b64encode (py "any carnal pleas") = py "YW55IGNhcm5hbCBwbGVhcw=="
  /\ b64decode (py "YW55IGNhcm5hbCBwbGVhcw==") = Some (py "any carnal pleas")
  /\ b64decode (py "YW55IGNhcm5hbCBwbGVhcw=") = None.
Proof. vm_compute. split_and!; reflexivity. Qed.

(** ** UTF-8 decoding *)

Definition continuation (c : Z) : option Z := if (128 <=? c) && (c <=? 191) then Some (c - 128) else None.

(** The first code point of a byte string and the rest; overlong forms,
    surrogates and values above 0x10FFFF are refused. *)
Definition utf8_step (bs : bytes) : option (Z * bytes) :=
  match bs with
  | [] => None
  | a :: bs =>
      if a <? 128 then Some (a, bs)
      else if (194 <=? a) && (a <=? 223) then
        match bs with
        | b :: bs => x ← continuation b; Some ((a - 192) * 64 + x, bs)
        | _ => None
        end
      else if (224 <=? a) && (a <=? 239) then
        match bs with
        | b :: c :: bs =>
            x ← continuation b; y ← continuation c;
            let v := (a - 224) * 4096 + x * 64 + y in
            if (v <? 2048) || ((55296 <=? v) && (v <=? 57343)) then None else Some (v, bs)
        | _ => None
        end
      else if (240 <=? a) && (a <=? 244) then
        match bs with
        | b :: c :: d :: bs =>
            x ← continuation b; y ← continuation c; z ← continuation d;
            let v := (a - 240) * 262144 + x * 4096 + y * 64 + z in
            if (v <? 65536) || (1114111 <? v) then None else Some (v, bs)
        | _ => None
        end
      else None
  end.

(** Every step consumes a byte, so the length of the input is enough fuel. *)
Fixpoint utf8_decode_loop (fuel : nat) (bs : bytes) : option pystr :=
  match bs, fuel with
  | [], _ => Some []
  | _, O => None
  | _, S fuel => '(c, rest) ← utf8_step bs; s ← utf8_decode_loop fuel rest; Some (c :: s)
  end.
Definition utf8_decode (bs : bytes) : option pystr := utf8_decode_loop (length bs) bs.

(** ** Keys *)

Class Crypto := {
  (** [Fernet(key).encrypt(data)], with the randomness it draws. *)
  fernet_encrypt : bytes -> list Z -> bytes -> bytes;
  (** [Fernet(key).decrypt(token)]; [None] is [InvalidToken]. *)
  fernet_decrypt : bytes -> bytes -> option bytes;
  (** [HKDF(SHA256, 32, salt, info).derive(master)]. *)
  hkdf : bytes -> bytes -> bytes -> bytes
}.

(** Decryption inverts encryption; a token is URL-safe base 64 text of the
    version byte, time, IV, padded ciphertext and HMAC. *)
Class CryptoLaws `{Crypto} := {
  fernet_roundtrip : forall k r p, Forall is_byte p -> fernet_decrypt k (fernet_encrypt k r p) = Some p;
  fernet_ascii : forall k r p, Forall is_byte p -> Forall is_ascii (fernet_encrypt k r p);
  fernet_length : forall k r p, Forall is_byte p ->
    length (fernet_encrypt k r p) = (4 * ((57 + 16 * (length p / 16 + 1) + 2) / 3))%nat
}.

Class EncryptionSettings := {
  data_encryption_keys : list (list Z * list Z);
  data_encryption_active_key_id : list Z;
  message_encryption_key : list Z;
  allow_legacy_plaintext_messages : bool
}.

Definition MESSAGE_V2_PREFIX : pystr := py "enc:v2:".
Definition MESSAGE_V2_HKDF_INFO : bytes := py "MessagingSystem/message/v2".
Definition LEGACY_JSON_FIELD : pystr := py "_enc_v1".
Definition V2_JSON_FIELD : pystr := py "_enc_v2".
Definition MAX_MESSAGE_TOKEN_LENGTH : Z := 512 * 1024.

Definition decryption_failed : exc := AppError 500 "DECRYPTION_FAILED".
Definition encryption_failed : exc := AppError 500 "ENCRYPTION_FAILED".
Definition config_error : exc := AppError 500 "CONFIG_ERROR".

(** [DATA_ENCRYPTION_KEY_ID_RE.fullmatch]. *)
Definition key_id_ok (s : pystr) : bool :=
  (1 <=? length s)%nat && (length s <=? 64)%nat && forallb safe_char s.

Record DataEncryptionKeyRing := { active_key_id : list Z; ring_keys : list (list Z * list Z) }.

Definition master_key (ring : DataEncryptionKeyRing) (key_id : pystr) (for_encryption : bool) : res bytes :=
  match assoc key_id (ring_keys ring) with
  | Some key => mret key
  | None => raise (if for_encryption then encryption_failed else decryption_failed)
  end.

(** [value.encode("ascii")]. *)
Definition encode_ascii (s : pystr) : option bytes :=
  if forallb (fun c => (0 <=? c) && (c <? 128)) s then Some s else None.

Definition _decode_configured_master_key (value : pystr) : res bytes :=
  match encode_ascii value ≫= b64decode with
  | Some decoded => if (length decoded =? 32)%nat then mret decoded else raise config_error
  | None => raise config_error
  end.

(** ** Envelopes *)

(** [ciphertext.split(":", 3)]. *)
Fixpoint split_colon (n : nat) (s : pystr) : list pystr :=
  match n with
  | O => [s]
  | S n =>
      match break_at (Z.eqb 58) s with
      | (a, _ :: rest) => a :: split_colon n rest
      | (a, []) => [a]
      end
  end.

Definition _parse_v2_text_envelope (ciphertext : pystr) : res (option (pystr * pystr)) :=
  if negb (startswith MESSAGE_V2_PREFIX ciphertext) then mret None
  else
    match split_colon 3 ciphertext with
    | [p0; p1; key_id; token] =>
        if negb (str_eqb p0 (py "enc")) || negb (str_eqb p1 (py "v2")) then raise decryption_failed
        else if negb (key_id_ok key_id) || str_eqb token []
                || (MAX_MESSAGE_TOKEN_LENGTH <? Z.of_nat (length token)) then raise decryption_failed
        else mret (Some (key_id, token))
    | _ => raise decryption_failed
    end.

(** [_FERNET_TOKEN_RE.fullmatch]: the alphabet, then at most two pads. *)
Definition fernet_token_text (s : pystr) : bool :=
  let body := rstrip_when (Z.eqb 61) s in
  negb (str_eqb body []) && forallb safe_char body && (length s - length body <=? 2)%nat.

Definition _looks_like_legacy_fernet_token (value : pystr) : bool :=
  negb (str_eqb value []) && (Z.of_nat (length value) <=? MAX_MESSAGE_TOKEN_LENGTH) && fernet_token_text value
  && match b64decode value with
     | Some decoded => (73 <=? length decoded)%nat && bool_decide (head decoded = Some 128)
     | None => false
     end.

Inductive MessageStorageFormat := FormatV2 (key_id : list Z) | FormatLegacyV1 | FormatPlaintext | FormatUnknown.

Definition inspect_text_message_format (value : option pystr) : MessageStorageFormat :=
  match value with
  | None => FormatUnknown
  | Some value =>
      if startswith MESSAGE_V2_PREFIX value then
        match _parse_v2_text_envelope value with
        | inr (Some (key_id, _)) => FormatV2 key_id
        | _ => FormatUnknown
        end
      else if startswith (py "enc:") value then FormatUnknown
      else if _looks_like_legacy_fernet_token value then FormatLegacyV1
      else FormatPlaintext
  end.

Definition _strict_v2_json_envelope (payload : list (list Z * pyval)) : res (option (pystr * pystr)) :=
  match assoc V2_JSON_FIELD payload with
  | None => mret None
  | Some envelope =>
      if negb (keys_are [V2_JSON_FIELD] payload) then raise decryption_failed
      else
        match envelope with
        | PDict kvs =>
            if negb (keys_are [py "kid"; py "token"] kvs) then raise decryption_failed
            else
              match assoc (py "kid") kvs, assoc (py "token") kvs with
              | Some (PStr key_id), Some (PStr token) =>
                  if negb (key_id_ok key_id) || str_eqb token []
                     || (MAX_MESSAGE_TOKEN_LENGTH <? Z.of_nat (length token)) then raise decryption_failed
                  else mret (Some (key_id, token))
              | _, _ => raise decryption_failed
              end
        | _ => raise decryption_failed
        end
  end.

Section Encryption.
Context `{World} `{Crypto} `{EncryptionSettings}.

Fixpoint decode_keys (raw : list (list Z * list Z)) : res (list (list Z * list Z)) :=
  match raw with
  | [] => mret []
  | (key_id, value) :: raw =>
      key ← _decode_configured_master_key value; rest ← decode_keys raw; mret ((key_id, key) :: rest)
  end.

Definition _build_key_ring : res DataEncryptionKeyRing :=
  match data_encryption_keys with
  | [] => raise config_error
  | raw =>
      decoded ← decode_keys raw;
      match assoc data_encryption_active_key_id decoded with
      | None => raise config_error
      | Some _ => mret {| active_key_id := data_encryption_active_key_id; ring_keys := decoded |}
      end
  end.

Definition derive_message_key (ring : DataEncryptionKeyRing) (key_id : pystr) : res bytes :=
  key ← master_key ring key_id false; mret (hkdf key [] MESSAGE_V2_HKDF_INFO).

(** The key of the Fernet instance for a key identifier. *)
Definition _build_fernet (key_id : pystr) : res bytes :=
  ring ← _build_key_ring;
  let selected := match key_id with [] => active_key_id ring | _ => key_id end in
  derive_message_key ring selected.

(** Errors other than [AppError] become [ENCRYPTION_FAILED]. *)
Definition encrypt_text (key_id plaintext : pystr) : M pystr :=
  ring ← of_res _build_key_ring;
  _ ← of_res (master_key ring key_id true);
  key ← of_res (_build_fernet key_id);
  data ← of_option encryption_failed (utf8_encode plaintext);
  seed ← token_urlsafe;
  mret (fernet_encrypt key seed data).

Definition encrypt_message_with_key (plaintext key_id : pystr) : M pystr :=
  token ← encrypt_text key_id plaintext;
  mret (MESSAGE_V2_PREFIX ++ key_id ++ [58] ++ token).

Definition encrypt_message (plaintext : pystr) : M pystr :=
  ring ← of_res _build_key_ring;
  encrypt_message_with_key plaintext (active_key_id ring).

Definition encrypt_json_payload_with_key (payload : pyval) (key_id : pystr) : M pyval :=
  token ← encrypt_text key_id (json_dumps_raw payload);
  mret (PDict [(V2_JSON_FIELD, PDict [(py "kid", PStr key_id); (py "token", PStr token)])]).

Definition encrypt_json_payload (payload : pyval) : M pyval :=
  ring ← of_res _build_key_ring;
  encrypt_json_payload_with_key payload (active_key_id ring).

Definition decrypt_token (key : bytes) (token : pystr) : res pystr :=
  match data ← encode_ascii token; plain ← fernet_decrypt key data; utf8_decode plain with
  | Some s => mret s
  | None => raise decryption_failed
  end.

Definition _decrypt_v2_token (key_id token : pystr) : res pystr :=
  ring ← _build_key_ring;
  _ ← master_key ring key_id false;
  key ← _build_fernet key_id;
  decrypt_token key token.

(** A Fernet key is 32 bytes of URL-safe base 64. *)
Definition _decrypt_legacy_token (token : pystr) : res pystr :=
  match strip message_encryption_key with
  | [] => raise decryption_failed
  | key =>
      match encode_ascii key ≫= b64decode with
      | Some k => if (length k =? 32)%nat then decrypt_token k token else raise decryption_failed
      | None => raise decryption_failed
      end
  end.

Definition decrypt_message (ciphertext : option pystr) : res pystr :=
  match ciphertext with
  | None => raise decryption_failed
  | Some value =>
      parsed ← _parse_v2_text_envelope value;
      match parsed with
      | Some (key_id, token) => _decrypt_v2_token key_id token
      | None =>
          if startswith (py "enc:") value then raise decryption_failed
          else if _looks_like_legacy_fernet_token value then _decrypt_legacy_token value
          else if allow_legacy_plaintext_messages then mret value
          else raise decryption_failed
      end
  end.

(** The value of a stored JSON body. *)
Definition load_decrypted `{Floats} (raw : pystr) : res pyval :=
  match json_loads raw with
  | inr (PDict kvs) => mret (PDict kvs)
  | inr _ => raise decryption_failed
  | inl e => if is_decode_error e then raise decryption_failed else raise e
  end.

Definition decrypt_json_payload `{Floats} (payload : pyval) : res pyval :=
  match payload with
  | PNone => mret PNone
  | PDict kvs =>
      parsed ← _strict_v2_json_envelope kvs;
      match parsed with
      | Some (key_id, token) => raw ← _decrypt_v2_token key_id token; load_decrypted raw
      | None =>
          match assoc LEGACY_JSON_FIELD kvs with
          | Some v =>
              match keys_are [LEGACY_JSON_FIELD] kvs, v with
              | true, PStr token =>
                  if _looks_like_legacy_fernet_token token
                  then raw ← _decrypt_legacy_token token; load_decrypted raw
                  else raise decryption_failed
              | _, _ => raise decryption_failed
              end
          | None =>
              if existsb (fun kv => startswith (py "_enc_") kv.1) kvs then raise decryption_failed
              else if allow_legacy_plaintext_messages then mret payload
              else raise decryption_failed
          end
      end
  | _ => raise decryption_failed
  end.

End Encryption.

(** ** Lemmas *)

Lemma break_at_app stop a c r :
  forallb (fun x => negb (stop x)) a = true -> stop c = true -> break_at stop (a ++ c :: r) = (a, c :: r).
Proof.
  intros Ha Hc. induction a as [|x a IH]; cbn in *; [by rewrite Hc|].
  apply andb_prop in Ha as [Hx Ha]. apply negb_true_iff in Hx. by rewrite Hx, IH.
Qed.

Lemma key_id_no_colon k : key_id_ok k = true -> forallb (fun x => negb (58 =? x)) k = true.
Proof.
  unfold key_id_ok. intros [_ Hk]%andb_prop. rewrite forallb_forall in *. intros c Hc%Hk.
  unfold safe_char, is_alnum in Hc. lia.
Qed.

(** Printing and parsing the text envelope. *)
Lemma parse_v2_envelope k token :
  key_id_ok k = true -> token <> [] -> Z.of_nat (length token) <= MAX_MESSAGE_TOKEN_LENGTH ->
  _parse_v2_text_envelope (MESSAGE_V2_PREFIX ++ k ++ [58] ++ token) = inr (Some (k, token)).
Proof.
  intros Hk Ht Hl. unfold _parse_v2_text_envelope. rewrite startswith_app. cbn [negb].
  assert (E : split_colon 3 (MESSAGE_V2_PREFIX ++ k ++ [58] ++ token) = [py "enc"; py "v2"; k; token]).
  { change (MESSAGE_V2_PREFIX ++ k ++ [58] ++ token) with (py "enc" ++ 58 :: (py "v2" ++ 58 :: (k ++ 58 :: token))).
    unfold split_colon. rewrite (break_at_app (Z.eqb 58) (py "enc")) by done.
    rewrite (break_at_app (Z.eqb 58) (py "v2")) by done.
    by rewrite (break_at_app (Z.eqb 58) k) by (by apply key_id_no_colon || done). }
  rewrite E. change (str_eqb (py "enc") (py "enc")) with true. change (str_eqb (py "v2") (py "v2")) with true.
  cbn [negb orb]. rewrite Hk. unfold str_eqb. rewrite (bool_decide_false (token = [])) by done. cbn [negb orb].
  destruct (Z.ltb_spec MAX_MESSAGE_TOKEN_LENGTH (Z.of_nat (length token))); [lia|done].
Qed.

Lemma continuation_mod x : continuation (128 + x mod 64) = Some (x mod 64).
Proof.
  unfold continuation. pose proof (Z.mod_pos_bound x 64 eq_refl).
  destruct (Z.leb_spec 128 (128 + x mod 64)); [|lia]. destruct (Z.leb_spec (128 + x mod 64) 191); [|lia].
  cbn. f_equal. lia.
Qed.

Lemma leb_and_true a b c : a <= b <= c -> (a <=? b) && (b <=? c) = true.
Proof. lia. Qed.
Lemma leb_and_false a b c : c < b -> (a <=? b) && (b <=? c) = false.
Proof. lia. Qed.

Lemma utf8_step_char c b rest : utf8_char c = Some b -> utf8_step (b ++ rest) = Some (c, rest) /\ b <> [].
Proof.
  unfold utf8_char. destruct (Z.ltb_spec c 0); [done|]. destruct (Z.ltb_spec c 128).
  { intros [= <-]. cbn. destruct (Z.ltb_spec c 128); [done|lia]. }
  destruct (Z.ltb_spec c 2048).
  { intros [= <-]. split; [|done]. cbn [app utf8_step].
    assert (2 <= c / 64 < 32) by (split; [apply Z.div_le_lower_bound|apply Z.div_lt_upper_bound]; lia).
    destruct (Z.ltb_spec (192 + c / 64) 128); [lia|]. rewrite leb_and_true by lia.
    rewrite continuation_mod. cbn. do 2 f_equal. pose proof (Z_div_mod_eq_full c 64). lia. }
  destruct ((55296 <=? c) && (c <=? 57343)) eqn:Esur; [done|]. destruct (Z.ltb_spec c 65536).
  { intros [= <-]. split; [|done]. cbn [app utf8_step].
    assert (0 <= c / 4096 < 16) by (split; [apply Z.div_le_lower_bound|apply Z.div_lt_upper_bound]; lia).
    destruct (Z.ltb_spec (224 + c / 4096) 128); [lia|]. rewrite leb_and_false by lia. rewrite leb_and_true by lia.
    rewrite !continuation_mod. cbn [mbind option_bind].
    assert (E : (224 + c / 4096 - 224) * 4096 + (c / 64) mod 64 * 64 + c mod 64 = c).
    { pose proof (Z_div_mod_eq_full c 64). pose proof (Z_div_mod_eq_full (c / 64) 64).
      rewrite Z.div_div in * by lia. change (64 * 64) with 4096 in *. lia. }
    rewrite E. destruct (Z.ltb_spec c 2048); [lia|]. by rewrite Esur. }
  destruct (Z.ltb_spec c 1114112); [|done]. intros [= <-]. split; [|done]. cbn [app utf8_step].
  assert (0 <= c / 262144 < 5) by (split; [apply Z.div_le_lower_bound|apply Z.div_lt_upper_bound]; lia).
  destruct (Z.ltb_spec (240 + c / 262144) 128); [lia|]. rewrite !leb_and_false by lia. rewrite leb_and_true by lia.
  rewrite !continuation_mod. cbn [mbind option_bind].
  assert (E : (240 + c / 262144 - 240) * 262144 + (c / 4096) mod 64 * 4096 + (c / 64) mod 64 * 64 + c mod 64 = c).
  { pose proof (Z_div_mod_eq_full c 64). pose proof (Z_div_mod_eq_full (c / 64) 64).
    pose proof (Z_div_mod_eq_full (c / 4096) 64).
    rewrite !Z.div_div in * by lia. change (64 * 64) with 4096 in *. change (4096 * 64) with 262144 in *. lia. }
  rewrite E. destruct (Z.ltb_spec c 65536); [lia|]. destruct (Z.ltb_spec 1114111 c); [lia|]. done.
Qed.

(** [s.encode("utf-8").decode("utf-8") == s]. *)
Lemma utf8_decode_encode s bs : utf8_encode s = Some bs -> utf8_decode bs = Some s.
Proof.
  unfold utf8_decode. assert (G : forall fuel bs, (length bs <= fuel)%nat -> utf8_encode s = Some bs ->
    utf8_decode_loop fuel bs = Some s); [|by apply G].
  induction s as [|c s IH]; intros fuel bs' Hf Hs; cbn in Hs.
  { injection Hs as <-. by destruct fuel. }
  destruct (utf8_char c) as [b|] eqn:Ec; [|done]. cbn in Hs.
  destruct (utf8_encode s) as [rest|] eqn:Er; [|done]. injection Hs as <-.
  destruct (utf8_step_char c b rest Ec) as [Hstep Hne].
  assert (Hnn : b ++ rest <> []) by (by destruct b). rewrite length_app in Hf.
  assert (0 < length b)%nat by (destruct b; [done|cbn; lia]).
  destruct fuel as [|fuel]; [lia|]. cbn [utf8_decode_loop]. destruct (b ++ rest) as [|x l]; [done|].
  rewrite Hstep. cbn [mbind option_bind]. rewrite (IH fuel rest); [done|lia|done].
Qed.

Lemma utf8_encode_byte s bs : utf8_encode s = Some bs -> Forall is_byte bs.
Proof.
  revert bs. induction s as [|c s IH]; intros bs Hs; cbn in Hs; [by injection Hs as <-|].
  destruct (utf8_char c) as [b|] eqn:Ec; [|done]. destruct (utf8_encode s) as [r|]; [|done]. injection Hs as <-.
  apply Forall_app. split; [|by apply IH]. unfold utf8_char in Ec.
  pose proof (Z.mod_pos_bound c 64 eq_refl). pose proof (Z.mod_pos_bound (c / 64) 64 eq_refl).
  pose proof (Z.mod_pos_bound (c / 4096) 64 eq_refl).
  destruct (Z.ltb_spec c 0); [done|]. destruct (Z.ltb_spec c 128); [injection Ec as <-; repeat constructor; unfold is_byte; lia|].
  destruct (Z.ltb_spec c 2048).
  { injection Ec as <-. assert (c / 64 < 32) by (apply Z.div_lt_upper_bound; lia).
    assert (0 <= c / 64) by (apply Z.div_pos; lia). repeat constructor; unfold is_byte; lia. }
  destruct (_ && _); [done|]. destruct (Z.ltb_spec c 65536).
  { injection Ec as <-. assert (c / 4096 < 16) by (apply Z.div_lt_upper_bound; lia).
    assert (0 <= c / 4096) by (apply Z.div_pos; lia). repeat constructor; unfold is_byte; lia. }
  destruct (Z.ltb_spec c 1114112); [|done].
  injection Ec as <-. assert (c / 262144 < 5) by (apply Z.div_lt_upper_bound; lia).
  assert (0 <= c / 262144) by (apply Z.div_pos; lia). repeat constructor; unfold is_byte; lia.
Qed.

Lemma b64_val_char d : 0 <= d < 64 -> b64_val (b64_char d) = Some d /\ b64_char d <> 61 /\ is_ascii (b64_char d).
Proof.
  intros Hd. assert (Hall : forallb (fun d => bool_decide (b64_val (b64_char d) = Some d)
    && negb (b64_char d =? 61) && (0 <=? b64_char d) && (b64_char d <? 128)) (seqZ 0 64) = true) by (vm_compute; reflexivity).
  rewrite forallb_forall in Hall. specialize (Hall d). rewrite <-list_elem_of_In, elem_of_seqZ in Hall.
  specialize (Hall ltac:(lia)). unfold is_ascii.
  apply andb_prop in Hall as [[[H1%bool_decide_eq_true_1 H2]%andb_prop H3]%andb_prop H4]. split; [done|]. lia.
Qed.

(** Each group of four characters gives its three bytes back. *)
Lemma b64_group a b c : is_byte a -> is_byte b -> is_byte c ->
  let x := a / 4 in let y := a mod 4 * 16 + b / 16 in let z := b mod 16 * 4 + c / 64 in let w := c mod 64 in
  (0 <= x < 64 /\ 0 <= y < 64 /\ 0 <= z < 64 /\ 0 <= w < 64)
  /\ x * 4 + y / 16 = a /\ y mod 16 * 16 + z / 4 = b /\ z mod 4 * 64 + w = c.
Proof. unfold is_byte. intros Ha Hb Hc. cbv zeta. repeat split; Z.div_mod_to_equations; lia. Qed.

Lemma b64decode_cons a b c d rest tail :
  rest <> [] -> b64decode rest = Some tail ->
  b64decode (a :: b :: c :: d :: rest)
  = (x ← b64_val a; y ← b64_val b; z ← b64_val c; w ← b64_val d;
     Some (x * 4 + y / 16 :: y mod 16 * 16 + z / 4 :: z mod 4 * 64 + w :: tail)).
Proof.
  intros Hne Ht. cbn [b64decode]. destruct rest; [done|]. rewrite Ht.
  destruct (b64_val a); [|done]. destruct (b64_val b); [|done]. destruct (b64_val c); [|done]. by destruct (b64_val d).
Qed.

Lemma b64decode_encode bs : Forall is_byte bs ->
  b64decode (b64encode bs) = Some bs /\ Forall is_ascii (b64encode bs)
  /\ length (b64encode bs) = (4 * ((length bs + 2) / 3))%nat.
Proof.
  induction bs as [bs IH] using (induction_ltof1 _ (@length Z)). unfold ltof in IH. intros Hb.
  destruct bs as [|a [|b [|c rest]]]; [done| | |].
  - apply Forall_cons in Hb as [Ha _].
    destruct (b64_group a 0 0 Ha) as ((Hx & Hy & _) & Ea & _); [unfold is_byte; lia..|].
    rewrite Z.add_0_r in *. destruct (b64_val_char _ Hx) as (Vx & _ & Ax), (b64_val_char _ Hy) as (Vy & _ & Ay).
    cbn [b64encode b64decode]. rewrite Vx, Vy. cbn. rewrite Ea. split; [done|]. split; [|done].
    repeat apply Forall_cons_2; try done; unfold is_ascii; lia.
  - apply Forall_cons in Hb as [Ha [Hb _]%Forall_cons].
    destruct (b64_group a b 0 Ha Hb) as ((Hx & Hy & Hz & _) & Ea & Eb & _); [unfold is_byte; lia|].
    change (0 / 64) with 0 in *. rewrite (Z.add_0_r (b mod 16 * 4)) in *.
    destruct (b64_val_char _ Hx) as (Vx & _ & Ax), (b64_val_char _ Hy) as (Vy & _ & Ay), (b64_val_char _ Hz) as (Vz & Nz & Az).
    cbn [b64encode b64decode]. rewrite Vx, Vy, Vz. apply Z.eqb_neq in Nz. cbn. rewrite Nz. cbn.
    rewrite Ea, Eb. split; [done|]. split; [|done]. repeat apply Forall_cons_2; try done; unfold is_ascii; lia.
  - apply Forall_cons in Hb as [Ha [Hb [Hc Hr]%Forall_cons]%Forall_cons].
    destruct (b64_group a b c Ha Hb Hc) as ((Hx & Hy & Hz & Hw) & Ea & Eb & Ec).
    destruct (b64_val_char _ Hx) as (Vx & _ & Ax), (b64_val_char _ Hy) as (Vy & _ & Ay), (b64_val_char _ Hz) as (Vz & Nz & Az),
      (b64_val_char _ Hw) as (Vw & Nw & Aw).
    destruct (IH rest) as (Hd & Has & Hl); [cbn; lia|done|].
    assert (Hlen : (length rest + 3 + 2 = 1 * 3 + (length rest + 2))%nat) by lia.
    change (b64encode (a :: b :: c :: rest)) with ([b64_char (a / 4); b64_char (a mod 4 * 16 + b / 16);
      b64_char (b mod 16 * 4 + c / 64); b64_char (c mod 64)] ++ b64encode rest).
    split; [|split; [by repeat apply Forall_cons_2|]].
    + destruct rest as [|r rest].
      * cbn [b64encode app b64decode]. rewrite Vx, Vy, Vz, Vw. apply Z.eqb_neq in Nz, Nw. cbn. rewrite Nz, Nw. cbn.
        by rewrite Ea, Eb, Ec.
      * assert (Hne : b64encode (r :: rest) <> []) by (clear; by destruct rest as [|? [|]]).
        cbn [app]. rewrite (b64decode_cons _ _ _ _ _ _ Hne Hd), Vx, Vy, Vz, Vw.
        cbn. by rewrite Ea, Eb, Ec.
    + cbn [app length]. rewrite Hl. replace (S (S (S (length rest))) + 2)%nat with (1 * 3 + (length rest + 2))%nat by lia.
      rewrite Nat.div_add_l by lia. lia.
Qed.

Lemma key_id_nonempty k : key_id_ok k = true -> k <> [].
Proof. by intros Hk ->. Qed.

Lemma master_key_ok ring k b key : master_key ring k b = inr key -> assoc k (ring_keys ring) = Some key.
Proof. unfold master_key. destruct (assoc k (ring_keys ring)); [by intros [= ->]|by destruct b]. Qed.

Section EncryptionLemmas.
Context `{World} `{Crypto} `{EncryptionSettings}.

Lemma build_fernet_eq k ring key :
  k <> [] -> _build_key_ring = inr ring -> assoc k (ring_keys ring) = Some key ->
  _build_fernet k = inr (hkdf key [] MESSAGE_V2_HKDF_INFO).
Proof.
  intros Hk Hr Ha. unfold _build_fernet, derive_message_key, master_key. rewrite Hr. cbn.
  destruct k; [done|]. by rewrite Ha.
Qed.

Lemma encrypt_text_ok k p s token s' :
  k <> [] -> encrypt_text k p s = (inr token, s') ->
  exists ring key data seed, _build_key_ring = inr ring /\ assoc k (ring_keys ring) = Some key
    /\ utf8_encode p = Some data /\ token = fernet_encrypt (hkdf key [] MESSAGE_V2_HKDF_INFO) seed data.
Proof.
  intros Hk Hr. unfold encrypt_text in Hr.
  apply bind_ok in Hr as (ring & s0 & [Hring ->]%of_res_ok & Hr).
  apply bind_ok in Hr as (key & s0 & [Hkey%master_key_ok ->]%of_res_ok & Hr).
  rewrite (build_fernet_eq k ring key Hk Hring Hkey) in Hr.
  apply bind_ok in Hr as (fk & s0 & [[= <-] ->]%of_res_ok & Hr).
  apply bind_ok in Hr as (data & s0 & [Hdata ->]%of_option_ok & Hr).
  apply bind_ok in Hr as (seed & s1 & _ & [-> ->]%ret_ok). by exists ring, key, data, seed.
Qed.

Lemma decrypt_v2_eq k ring key token :
  k <> [] -> _build_key_ring = inr ring -> assoc k (ring_keys ring) = Some key ->
  _decrypt_v2_token k token = decrypt_token (hkdf key [] MESSAGE_V2_HKDF_INFO) token.
Proof.
  intros Hk Hr Ha. unfold _decrypt_v2_token. rewrite Hr. cbn. unfold master_key. rewrite Ha. cbn.
  by rewrite (build_fernet_eq k ring key Hk Hr Ha).
Qed.
End EncryptionLemmas.

Lemma encode_ascii_ok s : Forall is_ascii s -> encode_ascii s = Some s.
Proof.
  intros Hs. unfold encode_ascii. assert (forallb (fun c => (0 <=? c) && (c <? 128)) s = true) as ->; [|done].
  apply forallb_forall. intros c Hc. rewrite Forall_forall in Hs. apply list_elem_of_In, Hs in Hc. unfold is_ascii in Hc. lia.
Qed.

(** ** Properties *)

Section EncryptionProperties.
Context `{World} `{Crypto} `{!CryptoLaws}.

(** A token is in bounds and decrypts under any configuration whose ring still
    holds its key. *)
Lemma encrypted_token_decrypts (E1 E2 : EncryptionSettings) key_id plaintext s token s' ring1 ring2 :
  encrypt_text (H1 := E1) key_id plaintext s = (inr token, s') ->
  _build_key_ring (H1 := E1) = inr ring1 -> _build_key_ring (H1 := E2) = inr ring2 ->
  key_id_ok key_id = true -> assoc key_id (ring_keys ring2) = assoc key_id (ring_keys ring1) ->
  (forall data, utf8_encode plaintext = Some data -> Z.of_nat (length data) <= 393000) ->
  token <> [] /\ Z.of_nat (length token) <= MAX_MESSAGE_TOKEN_LENGTH
  /\ _decrypt_v2_token (H1 := E2) key_id token = inr plaintext.
Proof.
  intros Ht Hr1 Hr2 Hid Hsame Hlen. pose proof (key_id_nonempty key_id Hid) as Hk.
  apply encrypt_text_ok in Ht as (ring' & key & data & seed & Hring & Ha & Hdata & ->); [|done].
  rewrite Hr1 in Hring. injection Hring as <-. specialize (Hlen data Hdata).
  set (fk := hkdf key [] MESSAGE_V2_HKDF_INFO). pose proof (utf8_encode_byte _ _ Hdata) as Hb.
  pose proof (fernet_length fk seed data Hb) as Hfl.
  assert (Htl : (0 < length (fernet_encrypt fk seed data))%nat
                /\ Z.of_nat (length (fernet_encrypt fk seed data)) <= MAX_MESSAGE_TOKEN_LENGTH).
  { rewrite Hfl. unfold MAX_MESSAGE_TOKEN_LENGTH.
    pose proof (Nat.Div0.mul_div_le (length data) 16) as Hq. set (q := (length data / 16)%nat) in *. clearbody q.
    pose proof (Nat.Div0.mul_div_le (57 + 16 * (q + 1) + 2) 3) as Hd.
    pose proof (Nat.div_le_lower_bound (57 + 16 * (q + 1) + 2) 3 20 ltac:(lia) ltac:(lia)) as Hp.
    set (d := ((57 + 16 * (q + 1) + 2) / 3)%nat) in *. clearbody d. lia. }
  split; [|split; [apply Htl|]].
  { intros E. rewrite E in Htl. cbn in Htl. lia. }
  rewrite (decrypt_v2_eq (H1 := E2) key_id ring2 key) by (done || congruence).
  unfold decrypt_token. rewrite (encode_ascii_ok _ (fernet_ascii fk seed data Hb)). cbn [mbind option_bind].
  fold fk. rewrite fernet_roundtrip by done. cbn [mbind option_bind]. by rewrite (utf8_decode_encode plaintext data Hdata).
Qed.

(** What [encrypt_message] writes, [decrypt_message] reads. *)
Lemma encrypted_text_decrypts (E1 E2 : EncryptionSettings) plaintext s c s' ring1 ring2 :
  encrypt_message (H1 := E1) plaintext s = (inr c, s') ->
  _build_key_ring (H1 := E1) = inr ring1 -> _build_key_ring (H1 := E2) = inr ring2 ->
  key_id_ok (active_key_id ring1) = true ->
  assoc (active_key_id ring1) (ring_keys ring2) = assoc (active_key_id ring1) (ring_keys ring1) ->
  (forall data, utf8_encode plaintext = Some data -> Z.of_nat (length data) <= 393000) ->
  decrypt_message (H1 := E2) (Some c) = inr plaintext.
Proof.
  intros Hr Hr1 Hr2 Hid Hsame Hlen. unfold encrypt_message in Hr. rewrite Hr1 in Hr.
  apply bind_ok in Hr as (ring & s0 & [[= <-] ->]%of_res_ok & Hr). unfold encrypt_message_with_key in Hr.
  apply bind_ok in Hr as (token & s1 & Ht & [-> ->]%ret_ok).
  destruct (encrypted_token_decrypts E1 E2 _ _ _ _ _ _ _ Ht Hr1 Hr2 Hid Hsame Hlen) as (Hne & Hmax & Hdec).
  unfold decrypt_message. rewrite parse_v2_envelope by done. cbn [mbind res_bind]. exact Hdec.
Qed.

(** A JSON body encrypted under the active key of one configuration is
    decrypted to itself, under any later configuration that still holds the
    key: encryption, the envelope, UTF-8 and the JSON text are all inverted. *)
Theorem json_body_survives_key_rotation `{Floats} (E1 E2 : EncryptionSettings) kvs s c s' ring1 ring2 :
  loadable (PDict kvs) = true ->
  encrypt_json_payload (H1 := E1) (PDict kvs) s = (inr c, s') ->
  _build_key_ring (H1 := E1) = inr ring1 -> _build_key_ring (H1 := E2) = inr ring2 ->
  key_id_ok (active_key_id ring1) = true ->
  assoc (active_key_id ring1) (ring_keys ring2) = assoc (active_key_id ring1) (ring_keys ring1) ->
  (forall data, utf8_encode (json_dumps_raw (PDict kvs)) = Some data -> Z.of_nat (length data) <= 393000) ->
  decrypt_json_payload (H1 := E2) c = inr (PDict kvs).
Proof.
  intros Hl Hr Hr1 Hr2 Hid Hsame Hlen. unfold encrypt_json_payload in Hr. rewrite Hr1 in Hr.
  apply bind_ok in Hr as (ring & s0 & [[= <-] ->]%of_res_ok & Hr). unfold encrypt_json_payload_with_key in Hr.
  apply bind_ok in Hr as (token & s1 & Ht & [-> ->]%ret_ok).
  destruct (encrypted_token_decrypts E1 E2 _ _ _ _ _ _ _ Ht Hr1 Hr2 Hid Hsame Hlen) as (Hne & Hmax & Hdec).
  unfold decrypt_json_payload, _strict_v2_json_envelope.
  change (assoc V2_JSON_FIELD [(V2_JSON_FIELD, ?v)]) with (Some v). cbn iota.
  change (keys_are [V2_JSON_FIELD] [(V2_JSON_FIELD, ?v)]) with true.
  change (keys_are [py "kid"; py "token"] [(py "kid", ?a); (py "token", ?b)]) with true.
  change (assoc (py "kid") [(py "kid", ?a); ?b]) with (Some a).
  change (assoc (py "token") [?b; (py "token", ?a)]) with (Some a). cbn [negb].
  rewrite Hid. unfold str_eqb. rewrite bool_decide_false by done.
  rewrite (proj2 (Z.ltb_ge _ _) Hmax). cbn [negb orb mbind res_bind mret res_ret]. rewrite Hdec. cbn [mbind res_bind].
  unfold load_decrypted. by rewrite loads_raw.
Qed.

(** Stored messages survive key rotation: a text encrypted under the active
    key of one configuration is decrypted to itself under any later
    configuration whose ring still holds that key identifier with the same
    key, whatever key is active then; the bound on the text (far above the
    64 KiB the API accepts) is the one that keeps the token within
    [MAX_MESSAGE_TOKEN_LENGTH]. *)
Theorem message_survives_key_rotation (E1 E2 : EncryptionSettings) plaintext s c s' ring1 ring2 :
  encrypt_message (H1 := E1) plaintext s = (inr c, s') ->
  _build_key_ring (H1 := E1) = inr ring1 -> _build_key_ring (H1 := E2) = inr ring2 ->
  key_id_ok (active_key_id ring1) = true ->
  assoc (active_key_id ring1) (ring_keys ring2) = assoc (active_key_id ring1) (ring_keys ring1) ->
  (forall data, utf8_encode plaintext = Some data -> Z.of_nat (length data) <= 393000) ->
  decrypt_message (H1 := E2) (Some c) = inr plaintext.
Proof. apply encrypted_text_decrypts. Qed.

(** Unencrypted storage is never read by accident: unless the plaintext
    migration switch is on, a stored text that decrypts is in the current
    envelope, under the key it names, or a legacy token; any other value,
    including damaged envelopes, is refused with [DECRYPTION_FAILED]. *)
Theorem decryption_requires_known_format (E : EncryptionSettings) v p :
  allow_legacy_plaintext_messages = false -> decrypt_message (Some v) = inr p ->
  (exists k token, inspect_text_message_format (Some v) = FormatV2 k
     /\ _parse_v2_text_envelope v = inr (Some (k, token)) /\ _decrypt_v2_token k token = inr p)
  \/ (inspect_text_message_format (Some v) = FormatLegacyV1 /\ _decrypt_legacy_token v = inr p).
Proof.
  intros Hoff Hd. unfold decrypt_message in Hd. apply res_bind_ok in Hd as (parsed & Hp & Hd).
  unfold inspect_text_message_format. destruct parsed as [[k token]|].
  - left. exists k, token. rewrite Hp. split; [|done].
    unfold _parse_v2_text_envelope in Hp. by destruct (startswith MESSAGE_V2_PREFIX v).
  - right. destruct (startswith MESSAGE_V2_PREFIX v) eqn:Ev.
    { exfalso. unfold _parse_v2_text_envelope in Hp. rewrite Ev in Hp. cbn [negb] in Hp.
      destruct (split_colon 3 v) as [|? [|? [|? [|? [|]]]]]; try done. by repeat case_in Hp. }
    destruct (startswith (py "enc:") v); [done|].
    destruct (_looks_like_legacy_fernet_token v); [done|]. by rewrite Hoff in Hd.
Qed.
End EncryptionProperties.

(** ** A concrete instance *)

(** Tokens in the layout of the Fernet format, without the secrecy: version,
    time and IV, padded data, HMAC field. *)
Definition toy_pad (p : bytes) : bytes :=
  let n := (16 - length p mod 16)%nat in p ++ replicate n (Z.of_nat n).
Definition toy_crypto : Crypto := {|
  fernet_encrypt _ _ p := b64encode (128 :: replicate 24 0 ++ toy_pad p ++ replicate 32 0);
  fernet_decrypt _ t :=
    bs ← b64decode t;
    let body := take (length bs - 57) (drop 25 bs) in
    n ← last body; Some (take (length body - Z.to_nat n) body);
  hkdf k _ _ := k |}.

Lemma toy_pad_length p : length (toy_pad p) = (16 * (length p / 16 + 1))%nat.
Proof.
  unfold toy_pad. rewrite length_app, length_replicate.
  pose proof (Nat.div_mod_eq (length p) 16). pose proof (Nat.mod_upper_bound (length p) 16). lia.
Qed.

Lemma toy_frame_byte p : Forall is_byte p -> Forall is_byte (128 :: replicate 24 0 ++ toy_pad p ++ replicate 32 0).
Proof.
  intros Hp. apply Forall_cons_2; [unfold is_byte; lia|]. rewrite !Forall_app. unfold toy_pad. rewrite Forall_app.
  pose proof (Nat.mod_upper_bound (length p) 16).
  split_and!; try done; apply Forall_replicate; unfold is_byte; lia.
Qed.

Lemma toy_crypto_laws : @CryptoLaws toy_crypto.
Proof.
  split; cbn [fernet_encrypt fernet_decrypt toy_crypto]; intros k r p Hp;
    destruct (b64decode_encode _ (toy_frame_byte p Hp)) as (Hd & Ha & Hl); [|done|].
  - rewrite Hd. cbn [mbind option_bind]. set (q := toy_pad p).
    assert (Hbody : take (length (128 :: replicate 24 0 ++ q ++ replicate 32 0) - 57)
      (drop 25 (128 :: replicate 24 0 ++ q ++ replicate 32 0)) = q).
    { cbn [length]. rewrite !length_app, !length_replicate. change (128 :: replicate 24 0 ++ q ++ replicate 32 0)
        with ((128 :: replicate 24 0) ++ q ++ replicate 32 0).
      rewrite drop_app_length' by done. apply take_app_length'. lia. }
    rewrite Hbody. subst q. unfold toy_pad. set (n := (16 - length p mod 16)%nat).
    assert (Hn : exists m, n = S m) by (exists (pred n); pose proof (Nat.mod_upper_bound (length p) 16); lia).
    destruct Hn as [m Hm].
    assert (Hlast : last (p ++ replicate n (Z.of_nat n)) = Some (Z.of_nat n)).
    { rewrite Hm at 1. rewrite replicate_S_end, app_assoc. apply last_snoc. }
    rewrite Hlast. cbn [mbind option_bind]. rewrite length_app, length_replicate, Nat2Z.id.
    rewrite take_app_length' by lia. done.
  - rewrite Hl. cbn [length]. rewrite !length_app, !length_replicate, toy_pad_length. do 2 f_equal. lia.
Qed.

Definition demo_encryption : EncryptionSettings := {|
  data_encryption_keys := [(py "k1", b64encode (replicate 32 7))]; data_encryption_active_key_id := py "k1";
  message_encryption_key := []; allow_legacy_plaintext_messages := false |}.
(** The same after a rotation. *)
Definition rotated_encryption : EncryptionSettings := {|
  data_encryption_keys := [(py "k2", b64encode (replicate 32 9)); (py "k1", b64encode (replicate 32 7))];
  data_encryption_active_key_id := py "k2";
  message_encryption_key := []; allow_legacy_plaintext_messages := false |}.

Definition plain_world : World := {|
  clock _ := 0; fresh_uuid n := N.of_nat n; fresh_token n := [Z.of_nat n]; db_fault _ := None; ext := unit |}.

Lemma message_survives_key_rotation_witness :
  exists c s', encrypt_message (H := plain_world) (H0 := toy_crypto) (H1 := demo_encryption) [72; 233; 8364; 128512]
      (open_session (H := plain_world) empty_store tt) = (inr c, s')
    /\ decrypt_message (H0 := toy_crypto) (H1 := rotated_encryption) (Some c) = inr [72; 233; 8364; 128512].
Proof.
  destruct (encrypt_message (H := plain_world) (H0 := toy_crypto) (H1 := demo_encryption) [72; 233; 8364; 128512]
    (open_session (H := plain_world) empty_store tt)) as [[e|c] s'] eqn:E.
  { exfalso. assert (X : is_ok (encrypt_message (H := plain_world) (H0 := toy_crypto) (H1 := demo_encryption)
      [72; 233; 8364; 128512] (open_session (H := plain_world) empty_store tt)).1 = true) by (vm_compute; reflexivity).
    rewrite E in X. discriminate X. }
  exists c, s'. split; [reflexivity|].
  eapply (@message_survives_key_rotation plain_world toy_crypto toy_crypto_laws demo_encryption rotated_encryption).
  - exact E.
  - vm_compute. reflexivity.
  - vm_compute. reflexivity.
  - vm_compute. reflexivity.
  - vm_compute. reflexivity.
  - intros data Hd. vm_compute in Hd. injection Hd as <-. cbn. lia.
Defined.

Lemma decryption_requires_known_format_witness :
  let c := MESSAGE_V2_PREFIX ++ py "k1" ++ [58] ++ fernet_encrypt (Crypto := toy_crypto) [] [] (py "hi") in
  exists k token, inspect_text_message_format (Some c) = FormatV2 k
    /\ _decrypt_v2_token (H0 := toy_crypto) (H1 := demo_encryption) k token = inr (py "hi").
Proof.
  intros c.
  destruct (@decryption_requires_known_format toy_crypto demo_encryption c (py "hi")) as [(k & token & Hf & _ & Hd)|[Hf _]].
  - reflexivity.
  - vm_compute. reflexivity.
  - exists k, token. split; [exact Hf|exact Hd].
  - exfalso. vm_compute in Hf. discriminate Hf.
Defined.

Definition demo_body : list (list Z * pyval) :=
  [(py "z", PList [PInt (-7); PNone; PFloat (py "1.5")]); (py "a", PStr [72; 233; 8364; 128512])].

Lemma json_body_survives_key_rotation_witness :
  exists c s', encrypt_json_payload (H := plain_world) (H0 := toy_crypto) (H1 := demo_encryption) (PDict demo_body)
      (open_session (H := plain_world) empty_store tt) = (inr c, s')
    /\ decrypt_json_payload (H0 := toy_crypto) (H1 := rotated_encryption) (H2 := plain_floats) c = inr (PDict demo_body).
Proof.
  destruct (encrypt_json_payload (H := plain_world) (H0 := toy_crypto) (H1 := demo_encryption) (PDict demo_body)
    (open_session (H := plain_world) empty_store tt)) as [[e|c] s'] eqn:E.
  { exfalso. assert (X : is_ok (encrypt_json_payload (H := plain_world) (H0 := toy_crypto) (H1 := demo_encryption)
      (PDict demo_body) (open_session (H := plain_world) empty_store tt)).1 = true) by (vm_compute; reflexivity).
    rewrite E in X. discriminate X. }
  exists c, s'. split; [reflexivity|].
  eapply (@json_body_survives_key_rotation plain_world toy_crypto toy_crypto_laws plain_floats demo_encryption rotated_encryption).
  - vm_compute. reflexivity.
  - exact E.
  - vm_compute. reflexivity.
  - vm_compute. reflexivity.
  - vm_compute. reflexivity.
  - vm_compute. reflexivity.
  - intros data Hd. vm_compute in Hd. injection Hd as <-. cbn. lia.
Defined.
