(* ===== verification/Uploads.v ===== *)
(** * Uploads (the upload part of backend/app/services/message_service.py)

    Registration of uploads under quotas, the checks on attachments and
    profile images, and the authorization of downloads.  Receiving the bytes
    into an encrypted file ([store_upload_content]) is in [UploadStore]. *)

From S2P Require Import Prelude PyStr Json Models Session EventIntegrity Identifiers Rbac Outbox.
Local Open Scope Z_scope.

(** [needle in s]. *)
Fixpoint contains (needle s : pystr) : bool :=
  startswith needle s || match s with [] => false | _ :: s => contains needle s end.

Record UploadCreateRequest := {
  ur_filename : pystr; ur_content_type : pystr; ur_size_bytes : Z; ur_checksum : option pystr
}.

Definition allowed_prefixes : list pystr := [py "image/"; py "video/"; py "audio/"; py "text/"].
Definition allowed_exact : list pystr := [py "application/json"; py "application/pdf"].

Definition owned_uploads (user_id : N) (st : Store) : list Upload.t :=
  List.filter (fun u => bool_decide (Upload.owner_user_id u = user_id)) (rows (uploads st)).
Definition count_where {A} (p : A -> bool) (l : list A) : Z := Z.of_nat (length (List.filter p l)).
Definition sum_sizes (l : list Upload.t) : Z := foldr (fun u acc => Upload.size_bytes u + acc) 0 l.

(** An approved membership row of the pair. *)
Definition is_reader (channel_id user_id : N) (st : Store) : bool :=
  match channel_memberships st !! (channel_id, user_id) with
  | Some m => approved (ChannelMembership.role m)
  | None => false
  end.

Definition upload_content_url (file_id : N) : pystr := py "/v1/uploads/" ++ uuid_str file_id ++ py "/content".

(** The dictionary stored in the message for one attachment. *)
Definition attachment_dict (file_id : N) (u : Upload.t) : pyval :=
  PDict [(py "file_id", PStr (uuid_str file_id)); (py "content_type", PStr (Upload.content_type u));
         (py "filename", PStr (Upload.filename u)); (py "size_bytes", PInt (Upload.size_bytes u));
         (py "url", PStr (upload_content_url file_id))].

(** [bool(url)] of an optional string column. *)
Definition nonempty (s : option pystr) : bool := match s with Some (_ :: _) => true | _ => false end.

Definition has_attachment_access (actor_user_id file_id : N) (st : Store) : bool :=
  existsb (fun a =>
    bool_decide (MessageAttachment.upload_id a = file_id)
    && is_reader (MessageAttachment.channel_id a) actor_user_id st
    && match messages st !! MessageAttachment.message_id a with
       | Some m => bool_decide (Message.deleted_at m = None)
       | None => false
       end
    && match channels st !! MessageAttachment.channel_id a with
       | Some c => bool_decide (Channel.deleted_at c = None)
       | None => false
       end) (rows (message_attachments st)).

Definition avatar_names (file_id : N) (avatar_url : option pystr) : bool :=
  match avatar_url with
  | Some url =>
      contains (uuid_str file_id) url && bool_decide (extract_upload_id_from_url avatar_url = Some file_id)
  | None => false
  end.

Section Uploads.
Context `{World} `{UnicodeData} `{BackendSettings}.

Definition media_type_of (content_type : pystr) : pystr :=
  strip (fst (break_at (Z.eqb 59) (lower (strip content_type)))).

Definition media_type_allowed (media_type : pystr) : bool :=
  existsb (fun p => startswith p media_type) allowed_prefixes || bool_decide (media_type ∈ allowed_exact).

Definition create_upload (actor_user_id : N) (req : UploadCreateRequest) : M Upload.t :=
  let invalid := AppError 400 "VALIDATION_ERROR" in
  let quota := AppError 429 "RESOURCE_QUOTA_EXCEEDED" in
  guard (ur_size_bytes req <=? upload_max_size_bytes) invalid ;;
  let media_type := media_type_of (ur_content_type req) in
  guard (contains (py "/") media_type) invalid ;;
  guard (media_type_allowed media_type) invalid ;;
  guard (negb (str_eqb media_type (py "image/svg+xml"))) invalid ;;
  day_start ← (now ← utcnow; mret (now - 86400000000));
  owned ← gets (owned_uploads actor_user_id);
  guard (count_where (fun u => day_start <=? Upload.created_at u) owned <? max_uploads_per_user_per_day) quota ;;
  guard (count_where (fun u => bool_decide (Upload.public_url u = None)) owned <? max_pending_uploads_per_user) quota ;;
  guard (sum_sizes owned + ur_size_bytes req <=? max_stored_upload_bytes_per_user) quota ;;
  let safe_filename := normalize_upload_filename (ur_filename req) in
  path_id ← uuid4;
  id ← uuid4;
  now ← utcnow;
  let upload := Upload.Row id actor_user_id (ur_filename req) media_type (ur_size_bytes req) (ur_checksum req)
                  (uuid_str actor_user_id ++ py "/" ++ uuid_str path_id ++ py "-" ++ safe_filename)
                  None 0 None now in
  insert_row "uploads_pkey" uploads (upd uploads) id upload ;;
  _ ← log_event (py "upload.created")
        (PDict [(py "upload_id", PStr (uuid_str id)); (py "filename", PStr (ur_filename req));
                (py "content_type", PStr media_type); (py "size_bytes", PInt (ur_size_bytes req));
                (py "has_checksum", PBool (nonempty (ur_checksum req)))])
        None (Some actor_user_id);
  commit ;;
  mret upload.

Definition validate_profile_image_upload_reference (actor_user_id : N) (image_url : option pystr) : M unit :=
  match extract_upload_id_from_url image_url with
  | None => mret tt
  | Some upload_id =>
      upload ← gets (fun st => uploads st !! upload_id);
      match upload with
      | Some u =>
          guard (bool_decide (Upload.owner_user_id u = actor_user_id)) (AppError 404 "NOT_FOUND") ;;
          let content_type := lower (Upload.content_type u) in
          guard (startswith (py "image/") content_type && negb (str_eqb content_type (py "image/svg+xml")))
            (AppError 400 "VALIDATION_ERROR") ;;
          guard (nonempty (Upload.public_url u)) (AppError 400 "VALIDATION_ERROR")
      | None => throw (AppError 404 "NOT_FOUND")
      end
  end.

Definition validate_avatar_upload_reference (actor_user_id : N) (avatar_url : option pystr) : M unit :=
  validate_profile_image_upload_reference actor_user_id avatar_url.

Definition _can_access_avatar_upload (actor_user_id file_id : N) : M bool :=
  gets (fun st =>
    existsb (fun u => avatar_names file_id (User.avatar_url u)) (rows (users st))
    || existsb (fun c =>
         bool_decide (Channel.deleted_at c = None) && avatar_names file_id (Channel.avatar_url c)
         && (bool_decide (Channel.visibility c = public) || is_reader (Channel.id c) actor_user_id st))
         (rows (channels st))).

Definition can_access_upload (actor_user_id file_id : N) : M bool :=
  upload ← gets (fun st => uploads st !! file_id);
  match upload with
  | None => mret false
  | Some u =>
      if bool_decide (Upload.owner_user_id u = actor_user_id) then mret true
      else
        avatar ← _can_access_avatar_upload actor_user_id file_id;
        if (avatar : bool) then mret true
        else gets (has_attachment_access actor_user_id file_id)
  end.

(** The loop over the references; [seen] are the identifiers so far. *)
Fixpoint normalize_attachment_loop (actor_user_id : N) (seen : list N) (ids : list N) : M (list pyval) :=
  match ids with
  | [] => mret []
  | file_id :: ids =>
      guard (negb (bool_decide (file_id ∈ seen))) (AppError 400 "VALIDATION_ERROR") ;;
      upload ← gets (fun st => uploads st !! file_id);
      upload ← of_option (AppError 404 "NOT_FOUND") upload;
      guard (bool_decide (Upload.owner_user_id upload = actor_user_id)) (AppError 403 "FORBIDDEN") ;;
      guard (nonempty (Upload.public_url upload)) (AppError 400 "VALIDATION_ERROR") ;;
      rest ← normalize_attachment_loop actor_user_id (file_id :: seen) ids;
      mret (attachment_dict file_id upload :: rest)
  end.

(** [AttachmentReference] objects carry the identifier only. *)
Definition _normalize_attachments (actor_user_id : N) (attachments : option (list N)) : M (option (list pyval)) :=
  match attachments with
  | None => mret None
  | Some [] => mret (Some [])
  | Some ids =>
      guard (length ids <=? 10)%nat (AppError 400 "VALIDATION_ERROR") ;;
      normalized ← normalize_attachment_loop actor_user_id [] ids;
      mret (Some normalized)
  end.

End Uploads.

(** ** Lemmas *)

Lemma sum_sizes_perm l l' : l ≡ₚ l' -> sum_sizes l = sum_sizes l'.
Proof. unfold sum_sizes. induction 1; cbn in *; lia. Qed.

Definition within_quota (limit : Z) (st : Store) : Prop :=
  forall user_id, sum_sizes (owned_uploads user_id st) <= limit.

(** One more row counts for its owner only. *)
Lemma owned_uploads_insert st u user :
  uploads st !! Upload.id u = None ->
  sum_sizes (owned_uploads user (st <| uploads ::= <[Upload.id u := u]> |>))
  = (if bool_decide (Upload.owner_user_id u = user) then Upload.size_bytes u else 0)
    + sum_sizes (owned_uploads user st).
Proof.
  intros Hn. unfold owned_uploads. cbn [uploads upd].
  rewrite (sum_sizes_perm _ _ (list_filter_bool_perm _ _ _ (rows_insert _ _ u Hn))).
  cbn [List.filter]. by case_bool_decide.
Qed.

(** ** Properties *)

Definition upload_visible (actor_user_id file_id : N) (st : Store) : Prop :=
  exists u, uploads st !! file_id = Some u
    /\ (Upload.owner_user_id u = actor_user_id
        \/ (exists k v, users st !! k = Some v /\ avatar_names file_id (User.avatar_url v) = true)
        \/ (exists k c, channels st !! k = Some c /\ Channel.deleted_at c = None
              /\ avatar_names file_id (Channel.avatar_url c) = true
              /\ (Channel.visibility c = public \/ is_reader (Channel.id c) actor_user_id st = true))
        \/ (exists k a m c, message_attachments st !! k = Some a /\ MessageAttachment.upload_id a = file_id
              /\ is_reader (MessageAttachment.channel_id a) actor_user_id st = true
              /\ messages st !! MessageAttachment.message_id a = Some m /\ Message.deleted_at m = None
              /\ channels st !! MessageAttachment.channel_id a = Some c /\ Channel.deleted_at c = None)).

Lemma existsb_rows {K} `{Countable K} {A} (p : A -> bool) (t : gmap K A) :
  existsb p (rows t) = true <-> exists k x, t !! k = Some x /\ p x = true.
Proof.
  rewrite existsb_exists. split.
  - intros (x & [k Hk]%list_elem_of_In%elem_of_rows & Hp). eauto.
  - intros (k & x & Hk & Hp). exists x. split; [|done]. apply list_elem_of_In, elem_of_rows. eauto.
Qed.

Lemma attachment_access_iff a f st :
  has_attachment_access a f st = true <->
  exists k x m c, message_attachments st !! k = Some x /\ MessageAttachment.upload_id x = f
    /\ is_reader (MessageAttachment.channel_id x) a st = true
    /\ messages st !! MessageAttachment.message_id x = Some m /\ Message.deleted_at m = None
    /\ channels st !! MessageAttachment.channel_id x = Some c /\ Channel.deleted_at c = None.
Proof.
  unfold has_attachment_access. rewrite existsb_rows. split.
  - intros (k & x & Hk & [[[Hf%bool_decide_eq_true Hr]%andb_prop Hm]%andb_prop Hc]%andb_prop).
    destruct (messages st !! MessageAttachment.message_id x) as [m|] eqn:Em; [|done].
    destruct (channels st !! MessageAttachment.channel_id x) as [c|] eqn:Ec; [|done].
    apply bool_decide_eq_true in Hm, Hc. eauto 15.
  - intros (k & x & m & c & Hk & Hf & Hr & Hm & Hmd & Hc & Hcd). exists k, x. split; [done|].
    rewrite Hm, Hc, Hr. by rewrite !bool_decide_true.
Qed.

Section UploadProperties.
Context `{World} `{UnicodeData} `{BackendSettings}.

Lemma attachment_loop_ok a seen ids s l s' :
  normalize_attachment_loop a seen ids s = (inr l, s') ->
  s' = s /\ NoDup ids /\ (forall i, i ∈ ids -> i ∉ seen)
  /\ exists ups, l = zip_with attachment_dict ids ups
       /\ Forall2 (fun id u => uploads (work s) !! id = Some u /\ Upload.owner_user_id u = a
                              /\ nonempty (Upload.public_url u) = true) ids ups.
Proof.
  revert seen l. induction ids as [|i ids IH]; intros seen l Hr; cbn [normalize_attachment_loop] in Hr.
  { apply ret_ok in Hr as [-> ->]. split; [done|]. split; [constructor|].
    split; [by intros i ?%elem_of_nil|]. by exists []. }
  run_inv. repeat match goal with H : bool_decide _ = true |- _ => apply bool_decide_eq_true in H
    | H : negb (bool_decide _) = true |- _ => apply negb_true_iff, bool_decide_eq_false in H end.
  match goal with H : normalize_attachment_loop _ _ _ _ = _ |- _ => apply IH in H as (-> & Hnd & Hs & ups & -> & Hf) end.
  split; [done|]. split; [constructor; [|done]; intros Hi; apply (Hs i Hi); constructor|].
  split; [intros j [->|Hj]%elem_of_cons; [done|]; intros Hj2; apply (Hs j Hj); by constructor|].
  eexists (_ :: ups). split; [reflexivity|]. constructor; [|done]. eauto.
Qed.

(** C19. Downloads are authorized by exactly one policy, without side effects:
    the upload exists and the caller owns it, or it is the avatar of a user,
    or of a live channel that is public or that the caller reads, or it is
    attached to an undeleted message of a live channel the caller is an
    approved member of. *)
Theorem upload_access_policy a f s :
  (can_access_upload a f s).2 = s
  /\ ((can_access_upload a f s).1 = inr true <-> upload_visible a f (work s)).
Proof.
  unfold can_access_upload, _can_access_avatar_upload, upload_visible.
  rewrite (bind_step _ _ s _ s (gets_run _ s)).
  destruct (uploads (work s) !! f) as [u|] eqn:Eu.
  2: { split; [done|]. split; [done|]. by intros (u & ? & _). }
  case_bool_decide as Ho; [split; [done|]; split; [|done]; intros _; exists u; by eauto|].
  rewrite (bind_step _ _ s _ s (gets_run _ s)). set (av := _ || _).
  assert (Hav : av = true <->
    (exists k v, users (work s) !! k = Some v /\ avatar_names f (User.avatar_url v) = true)
    \/ (exists k c, channels (work s) !! k = Some c /\ Channel.deleted_at c = None
          /\ avatar_names f (Channel.avatar_url c) = true
          /\ (Channel.visibility c = public \/ is_reader (Channel.id c) a (work s) = true))).
  { subst av. rewrite orb_true_iff, !existsb_rows. apply or_iff_compat_l. split.
    - intros (k & c & Hk & [[Hd%bool_decide_eq_true Hn]%andb_prop [Hv%bool_decide_eq_true|Hr]%orb_prop]%andb_prop); eauto 10.
    - intros (k & c & Hk & Hd & Hn & Hv). exists k, c. split; [done|]. rewrite Hn, bool_decide_true by done.
      destruct Hv as [Hv|Hr]; [by rewrite bool_decide_true|]. by rewrite Hr, orb_true_r. }
  destruct av.
  - split; [done|]. split; [|done]. intros _. exists u. split; [done|].
    destruct (proj1 Hav eq_refl) as [?|?]; auto.
  - split; [done|]. cbn [gets fst]. split.
    + intros [= E%attachment_access_iff]. exists u. split; [done|]. right. right. right. exact E.
    + intros (u' & [= <-] & [?|[?|[?|E]]]); [done|exfalso; apply diff_false_true, Hav; auto..|].
      f_equal. by apply attachment_access_iff.
Qed.

Lemma create_upload_atomic a req : atomic (create_upload a req).
Proof. unfold create_upload, insert_row. atomic. Qed.

Lemma create_upload_ok a req s u s' :
  create_upload a req s = (inr u, s') ->
  uploads (work s) !! Upload.id u = None
  /\ uploads (durable s') = <[Upload.id u := u]> (uploads (work s))
  /\ Upload.owner_user_id u = a
  /\ sum_sizes (owned_uploads a (work s)) + Upload.size_bytes u <= max_stored_upload_bytes_per_user
  /\ Upload.public_url u = None /\ media_type_allowed (Upload.content_type u) = true
  /\ exists path_id, Upload.storage_path u
       = uuid_str a ++ py "/" ++ uuid_str path_id ++ py "-" ++ normalize_upload_filename (ur_filename req).
Proof.
  unfold create_upload. intros Hr. run_inv.
  match goal with H : log_event _ _ _ _ _ = _ |- _ => apply (same_run uploads) in H as [Hu _]; [|by apply same_log_event] end.
  repeat match goal with H : work ?x = work ?y |- _ => is_var x; rewrite H in *; clear H end.
  cbn [uploads work upd] in *. split; [done|]. split; [cbn [Upload.id]; congruence|]. split; [done|].
  match goal with H : (_ <=? max_stored_upload_bytes_per_user) = true |- _ => apply Z.leb_le in H; rename H into Hq end.
  split; [exact Hq|]. split; [done|]. split; [done|]. by eexists.
Qed.

(** The storage quota is an invariant: on every path of [create_upload],
    failed statements and commits included, no user's registered bytes exceed
    the configured limit; and a registered upload belongs to the caller, is
    not yet stored, has an allowed media type and a storage path of the form
    [<user>/<uuid>-<name>] whose last component is a safe file name. *)
Theorem create_upload_respects_quota a req s :
  within_quota max_stored_upload_bytes_per_user (durable s) ->
  within_quota max_stored_upload_bytes_per_user (work s) ->
  within_quota max_stored_upload_bytes_per_user (durable (create_upload a req s).2)
  /\ forall u s', create_upload a req s = (inr u, s') ->
       uploads (durable s') !! Upload.id u = Some u /\ Upload.owner_user_id u = a
       /\ Upload.public_url u = None /\ media_type_allowed (Upload.content_type u) = true
       /\ exists path_id name, Upload.storage_path u = uuid_str a ++ py "/" ++ uuid_str path_id ++ py "-" ++ name
            /\ forallb filename_char name = true /\ name <> [].
Proof.
  intros Hd Hw. destruct (create_upload a req s) as [[e|u] s'] eqn:E; cbn [snd].
  { rewrite (create_upload_atomic _ _ _ _ _ E). split; [done|]. by intros u s2 [=]. }
  destruct (create_upload_ok _ _ _ _ _ E) as (Hn & Hu & Ho & Hq & Hp & Ht & path_id & Hs). split.
  - intros user.
    assert (Hsum : sum_sizes (owned_uploads user (durable s'))
      = sum_sizes (owned_uploads user (work s <| uploads ::= <[Upload.id u := u]> |>))).
    { unfold owned_uploads. by rewrite Hu. }
    rewrite Hsum, owned_uploads_insert by done. case_bool_decide as Hc; [|apply Hw].
    rewrite <-Hc, Ho. lia.
  - intros u' s2 [= <- <-]. rewrite Hu, lookup_insert_eq. split_and!; try done.
    exists path_id, (normalize_upload_filename (ur_filename req)).
    destruct (normalize_upload_filename_spec (ur_filename req)) as (? & _ & ? & _). done.
Qed.

(** Attachments are the sender's own: when the references of a message are
    accepted, there are at most ten, no upload occurs twice, and each is an
    existing, completely stored upload of the sender, described from the
    upload row and not from the request. *)
Theorem attachments_are_owned a ids s l s' :
  _normalize_attachments a (Some ids) s = (inr l, s') ->
  s' = s /\ NoDup ids /\ (length ids <= 10)%nat
  /\ exists ups, l = Some (zip_with attachment_dict ids ups)
       /\ Forall2 (fun id u => uploads (work s) !! id = Some u /\ Upload.owner_user_id u = a
                              /\ nonempty (Upload.public_url u) = true) ids ups.
Proof.
  intros Hr. destruct ids as [|i ids].
  { cbn in Hr. injection Hr as <- <-. split; [done|]. split; [constructor|]. split; [cbn; lia|]. by exists []. }
  cbn [_normalize_attachments] in Hr.
  apply bind_ok in Hr as (x & s1 & [Hlen%Nat.leb_le ->]%guard_ok & Hr).
  apply bind_ok in Hr as (n & s1 & Hl & [-> ->]%ret_ok).
  apply attachment_loop_ok in Hl as (-> & Hnd & _ & ups & -> & Hf). split_and!; try done. eauto.
Qed.
End UploadProperties.

(** ** Concrete runs *)

Definition demo_upload : Upload.t :=
  Upload.Row 42 3 (py "a.png") (py "image/png") 10 None (py "x") (Some (py "/v1/uploads/x/content")) 1 (Some (py "k")) 0.
Definition upload_session : Session (H := still_world) :=
  open_session (H := still_world) (demo_store <| uploads := {[42%N := demo_upload]} |>) tt.
Definition demo_upload_request : UploadCreateRequest :=
  {| ur_filename := py "../secret.txt"; ur_content_type := py " Text/Plain; charset=utf-8";
     ur_size_bytes := 100; ur_checksum := None |}.

Lemma create_upload_respects_quota_witness :
  exists u s', create_upload (H := still_world) (H0 := ascii_ucd) (H1 := demo_settings) 3 demo_upload_request
      upload_session = (inr u, s')
    /\ within_quota 1073741824 (durable s') /\ Upload.owner_user_id u = 3%N.
Proof.
  assert (Hq : within_quota 1073741824 (demo_store <| uploads := {[42%N := demo_upload]} |>)).
  { intros user. unfold owned_uploads. cbn [uploads upd]. unfold rows. rewrite map_to_list_singleton. cbn.
    case_bool_decide; cbn; lia. }
  destruct (create_upload_respects_quota (H := still_world) (H0 := ascii_ucd) (H1 := demo_settings)
    3 demo_upload_request upload_session Hq Hq) as [H1 H2].
  destruct (create_upload (H := still_world) (H0 := ascii_ucd) (H1 := demo_settings) 3 demo_upload_request
      upload_session) as [[e|u] s'] eqn:E.
  - exfalso. assert (X : is_ok (create_upload (H := still_world) (H0 := ascii_ucd) (H1 := demo_settings) 3
      demo_upload_request upload_session).1 = true) by (vm_compute; reflexivity). rewrite E in X. discriminate X.
  - exists u, s'. split; [reflexivity|]. split; [exact H1|]. apply (H2 u s' eq_refl).
Defined.

Lemma attachments_are_owned_witness :
  exists l, _normalize_attachments (H := still_world) 3 (Some [42%N]) upload_session = (inr l, upload_session)
    /\ NoDup [42%N].
Proof.
  eexists. split; [vm_compute; reflexivity|].
  eapply (attachments_are_owned (H := still_world) 3 [42%N] upload_session). vm_compute. reflexivity.
Defined.
