(* ===== verification/Channels.v ===== *)
(** * Channels, memberships and invites (backend/app/services/channel_service.py)

    Every operation of the service that changes state, as one session program:
    the guards in the order of the code, the row changes, the outbox rows, the
    audit event and the final commit.  Listing and previewing channels only
    read and are not modelled. *)

From S2P Require Import Prelude PyStr Sha256 Json Models Session EventIntegrity Identifiers Rbac Outbox Uploads.
Local Open Scope Z_scope.

(** ** Requests *)

Record ChannelCreateRequest := {
  cr_name : pystr; cr_channel_slug : option pystr; cr_description : option pystr; cr_avatar_url : option pystr;
  cr_visibility : ChannelVisibility; cr_join_mode : ChannelJoinMode
}.

(** [cp_description] and [cp_avatar_url] are [None] when the field is not in
    [model_fields_set]. *)
Record ChannelPatchRequest := {
  cp_name : option pystr; cp_channel_slug : option pystr; cp_description : option (option pystr);
  cp_avatar_url : option (option pystr); cp_visibility : option ChannelVisibility;
  cp_join_mode : option ChannelJoinMode
}.

Record InviteRequest := { ir_invited_user_id : option N; ir_invited_email : option pystr; ir_expires_in_hours : Z }.

Record AdminPermissionsUpdateRequest := {
  ar_publish : option bool; ar_invite : option bool; ar_approve : option bool; ar_manage_members : option bool;
  ar_edit_channel : option bool
}.

(** ** Slugs *)

Definition slug_char (c : Z) : bool := ((97 <=? c) && (c <=? 122)) || is_digit c.

(** [re.sub(r"[^a-z0-9]+", "-", s)]. *)
Fixpoint sub_dash (in_run : bool) (s : pystr) : pystr :=
  match s with
  | [] => []
  | c :: s =>
      if slug_char c then c :: sub_dash false s
      else if in_run then sub_dash true s else 45 :: sub_dash true s
  end.

(** [re.sub(r"-{2,}", "-", s)]. *)
Fixpoint collapse_dashes (after_dash : bool) (s : pystr) : pystr :=
  match s with
  | [] => []
  | c :: s =>
      if c =? 45 then (if after_dash then collapse_dashes true s else 45 :: collapse_dashes true s)
      else c :: collapse_dashes false s
  end.

Definition strip_dash (s : pystr) : pystr := strip_when (Z.eqb 45) s.

(** [s or default]. *)
Definition or_else (s dflt : pystr) : pystr := match s with [] => dflt | _ => s end.

Definition _slugify `{UnicodeData} (raw : pystr) : pystr :=
  let normalized := strip_dash (sub_dash false (lower (strip raw))) in
  let normalized := collapse_dashes false normalized in
  match normalized with
  | [] => py "channel"
  | _ =>
      let normalized := if (length normalized <? 3)%nat then normalized ++ py "-channel" else normalized in
      or_else (strip_dash (take SAFE_IDENTIFIER_MAX_LENGTH normalized)) (py "channel")
  end.

Definition slug_taken (st : Store) (slug : pystr) : bool :=
  existsb (fun c => str_eqb (Channel.channel_slug c) slug) (rows (channels st)).

Definition suffix_token (suffix : Z) : pystr := py "-" ++ str_of_Z suffix.
Definition suffixed (base : pystr) (suffix : Z) : pystr :=
  take (Nat.max 1 (SAFE_IDENTIFIER_MAX_LENGTH - length (suffix_token suffix))) base ++ suffix_token suffix.

(** The [while True] loop; [None] when the fuel runs out. *)
Fixpoint slug_loop (fuel : nat) (taken : pystr -> bool) (base candidate : pystr) (suffix : Z) : option pystr :=
  match fuel with
  | O => None
  | S fuel =>
      if negb (taken candidate) then Some candidate
      else slug_loop fuel taken base (suffixed base suffix) (suffix + 1)
  end.

(** One more iteration than there are channels, plus one: two candidates with
    different suffixes are different. *)
Definition next_slug (st : Store) (base_slug : pystr) : option pystr :=
  let base := or_else (take SAFE_IDENTIFIER_MAX_LENGTH base_slug) (py "channel") in
  slug_loop (size (channels st) + 2) (slug_taken st) base base 2.

(** ** Helpers *)

Definition _is_generic_invite (i : ChannelInvite.t) : bool :=
  bool_decide (ChannelInvite.invited_user_id i = None) && bool_decide (ChannelInvite.invited_email i = None).

(** An invite that counts against its creator's quota. *)
Definition active_invite (now : instant) (i : ChannelInvite.t) : bool :=
  bool_decide (ChannelInvite.revoked_at i = None) && (now <? ChannelInvite.expires_at i)
  && (_is_generic_invite i || bool_decide (ChannelInvite.accepted_at i = None)).

Definition opt_str (s : option pystr) : pyval := match s with Some s => PStr s | None => PNone end.
Definition str_id (id : N) : pyval := PStr (uuid_str id).
Definition opt_id (id : option N) : pyval := match id with Some id => str_id id | None => PNone end.

Definition membership_permissions (m : option ChannelMembership.t) : Permissions :=
  match m with
  | None => build_permissions None PNone
  | Some m => build_permissions (Some (ChannelMembership.role m)) (ChannelMembership.admin_permissions m)
  end.

Definition _effective_role (c : Channel.t) (user_id : N) (role : option MembershipRole) : option MembershipRole :=
  if bool_decide (Channel.owner_user_id c = user_id) then Some owner else role.

(** [value.encode("utf-8")] refuses lone surrogates. *)
Definition sha256_hex (value : pystr) : res pystr :=
  match utf8_encode value with
  | Some bs => mret (sha256_hexdigest bs)
  | None => raise (ValueError "surrogates not allowed")
  end.

Definition normalize_email `{UnicodeData} (value : pystr) : pystr := lower (strip value).

Definition mask_token (prefix suffix : pystr) : pystr :=
  let lastn n s := drop (length s - n) s in
  take 4 (or_else prefix (py "****")) ++ py "..." ++ lastn 4%nat (or_else suffix (py "****")).

(** The approved members of a channel, in the order of [str(user_id)]. *)
Definition approved_members (channel_id : N) (st : Store) : list N :=
  order_by (fun u => [Z.of_N u])
    (ChannelMembership.user_id <$>
       List.filter (fun m => bool_decide (ChannelMembership.channel_id m = channel_id)
                             && approved (ChannelMembership.role m)) (rows (channel_memberships st))).

Section Channels.
Context `{World} `{UnicodeData} `{BackendSettings}.

Definition not_found : exc := AppError 404 "CHANNEL_NOT_FOUND".
Definition forbidden : exc := AppError 403 "FORBIDDEN".

Definition _get_channel_for_update (channel_id : N) : M Channel.t :=
  c ← get_channel channel_id;
  c ← of_option not_found c;
  guard (bool_decide (Channel.deleted_at c = None)) not_found ;;
  mret c.

Definition get_channel_or_404 (channel_id : N) : M Channel.t := _get_channel_for_update channel_id.

(** The locked membership rows by user. *)
Definition _get_memberships_for_update (channel_id : N) (user_ids : list N)
  : M (gmap N ChannelMembership.t) :=
  gets (fun st => list_to_map (omap (fun u => m ← channel_memberships st !! (channel_id, u); Some (u, m)) user_ids)).

(** [db.add(row)] of a membership; the server fills [created_at]. *)
Definition add_membership (channel_id user_id : N) (role : MembershipRole) (approved_at : option Z)
    (created_by invited_by : option N) : M ChannelMembership.t :=
  now ← utcnow;
  let row := ChannelMembership.Row channel_id user_id role PNone now approved_at created_by invited_by in
  insert_row "channel_memberships_pkey" channel_memberships (upd channel_memberships) (channel_id, user_id) row ;;
  mret row.

(** The UPDATE or DELETE that the flush of a changed row issues. *)
Definition put_membership (channel_id user_id : N) (m : ChannelMembership.t) : M unit :=
  modify (fun st => st <| channel_memberships ::= <[(channel_id, user_id) := m]> |>).
Definition delete_membership (channel_id user_id : N) : M unit :=
  modify (fun st => st <| channel_memberships ::= delete (channel_id, user_id) |>).
Definition put_channel (channel_id : N) (c : Channel.t) : M unit :=
  modify (fun st => st <| channels ::= <[channel_id := c]> |>).
Definition put_invite (invite_id : N) (i : ChannelInvite.t) : M unit :=
  modify (fun st => st <| channel_invites ::= <[invite_id := i]> |>).

Definition membership_payload (channel_id user_id : N) (role : option MembershipRole) (reason : string)
  : list (list Z * pyval) :=
  [(py "type", PStr (py "membership_update")); (py "channel_id", str_id channel_id);
   (py "user_id", str_id user_id);
   (py "new_role", PStr match role with Some r => role_value r | None => py "none" end);
   (py "reason", PStr (py reason))].

Definition _enqueue_membership_update (channel_id user_id : N) (role : option MembershipRole) (reason : string)
  : M unit :=
  _ ← bump_channel_membership_generation channel_id;
  let target_payload := membership_payload channel_id user_id role reason in
  id1 ← uuid4;
  _ ← enqueue_channel_event_outbox id1 channel_id (py "membership_update") target_payload;
  id2 ← uuid4;
  _ ← enqueue_user_event_outbox id2 channel_id user_id (py "membership_update_target") target_payload;
  _ ← enqueue_broker_binding_outbox channel_id user_id
        (if can_read role then py "bind" else py "unbind");
  mret tt.

(** The audit event that ends most operations, and the commit. *)
Definition log_and_commit (event_type : string) (payload : list (list Z * pyval)) (channel_id actor : N) : M unit :=
  _ ← log_event (py event_type) (PDict payload) (Some channel_id) (Some actor);
  commit.

Definition target_payload (channel_id target_id : N) : list (list Z * pyval) :=
  [(py "channel_id", str_id channel_id); (py "target_user_id", str_id target_id)].

(** ** Channels *)

(** The unique and check constraints on the slug of a written channel row. *)
Definition check_slug (channel_id : N) (slug : pystr) : M unit :=
  st ← gets id;
  guard (negb (existsb (fun kc => negb (kc.1 =? channel_id)%N && str_eqb (Channel.channel_slug kc.2) slug)
                 (map_to_list (channels st))))
    (IntegrityError "channels_channel_slug_key") ;;
  guard (safe_identifier slug) (IntegrityError "ck_channels_slug_safe_identifier").

Definition _next_available_slug (base_slug : pystr) : M pystr :=
  slug ← gets (fun st => next_slug st base_slug);
  of_option (ValueError "slug search did not end") slug.

Definition owned_channels (user_id : N) (st : Store) : Z :=
  count_where (fun c => bool_decide (Channel.owner_user_id c = user_id) && bool_decide (Channel.deleted_at c = None))
    (rows (channels st)).

Definition create_channel (owner_user_id : N) (req : ChannelCreateRequest) : M Channel.t :=
  owned_count ← gets (owned_channels owner_user_id);
  guard (owned_count <? max_channels_owned_per_user) (AppError 429 "RESOURCE_QUOTA_EXCEEDED") ;;
  (match cr_avatar_url req with
   | Some _ => validate_avatar_upload_reference owner_user_id (cr_avatar_url req)
   | None => mret tt
   end) ;;
  provided_slug ← (match cr_channel_slug req with
                   | Some ((_ :: _) as s) => of_res (normalize_channel_slug s)
                   | _ => mret []
                   end);
  let slug_base := or_else provided_slug (_slugify (cr_name req)) in
  slug ← _next_available_slug slug_base;
  channel_id ← uuid4;
  now ← utcnow;
  let channel := Channel.Row channel_id owner_user_id (cr_name req) slug (cr_description req) (cr_avatar_url req)
                   (cr_visibility req) (cr_join_mode req) now None 0 1 in
  check_slug channel_id slug ;;
  insert_row "channels_pkey" channels (upd channels) channel_id channel ;;
  approved_at ← utcnow;
  insert_row "channel_counters_pkey" channel_counters (upd channel_counters) channel_id
    (ChannelCounter.Row channel_id 0) ;;
  _ ← add_membership channel_id owner_user_id owner (Some approved_at) (Some owner_user_id) None;
  _ ← enqueue_broker_binding_outbox channel_id owner_user_id (py "bind");
  _ ← log_event (py "channel.created")
        (PDict [(py "channel_id", str_id channel_id); (py "name", PStr (cr_name req))])
        (Some channel_id) (Some owner_user_id);
  (if str_eqb slug slug_base then mret tt
   else
     _ ← log_event (py "channel.slug_collision_resolved")
           (PDict [(py "requested_slug", PStr slug_base); (py "resolved_slug", PStr slug)])
           (Some channel_id) (Some owner_user_id);
     mret tt) ;;
  commit ;;
  mret channel.

Definition patched (req : ChannelPatchRequest) (c : Channel.t) : Channel.t :=
  c <| Channel.name ::= fun x => default x (cp_name req) |>
    <| Channel.channel_slug ::= fun x => default x (cp_channel_slug req) |>
    <| Channel.description ::= fun x => default x (cp_description req) |>
    <| Channel.avatar_url ::= fun x => default x (cp_avatar_url req) |>
    <| Channel.visibility ::= fun x => default x (cp_visibility req) |>
    <| Channel.join_mode ::= fun x => default x (cp_join_mode req) |>.

Definition channel_fields (c : Channel.t) : list (list Z * pyval) :=
  [(py "name", PStr (Channel.name c)); (py "channel_slug", PStr (Channel.channel_slug c));
   (py "description", opt_str (Channel.description c)); (py "avatar_url", opt_str (Channel.avatar_url c));
   (py "visibility", PStr (visibility_value (Channel.visibility c)));
   (py "join_mode", PStr (join_mode_value (Channel.join_mode c)))].

Definition rebind_members (channel_id : N) (action : pystr) : M unit :=
  members ← gets (approved_members channel_id);
  for_each members (fun u => _ ← enqueue_broker_binding_outbox channel_id u action; mret tt).

Definition update_channel (channel_id actor_user_id : N) (req : ChannelPatchRequest) : M Channel.t :=
  channel ← _get_channel_for_update channel_id;
  membership ← get_membership channel_id actor_user_id;
  guard (p_edit_channel (membership_permissions membership)) forbidden ;;
  (match cp_avatar_url req with
   | Some ((Some _) as url) => validate_avatar_upload_reference actor_user_id url
   | _ => mret tt
   end) ;;
  let channel' := patched req channel in
  event_id ← uuid4;
  (if str_eqb (Channel.channel_slug channel') (Channel.channel_slug channel) then mret tt
   else check_slug channel_id (Channel.channel_slug channel')) ;;
  put_channel channel_id channel' ;;
  _ ← enqueue_channel_event_outbox event_id channel_id (py "channel_updated")
        [(py "type", PStr (py "channel_updated")); (py "channel_id", str_id channel_id);
         (py "patch", PDict (channel_fields channel'))];
  (if str_eqb (Channel.channel_slug channel') (Channel.channel_slug channel) then mret tt
   else rebind_members channel_id (py "bind")) ;;
  log_and_commit "channel.updated" ((py "channel_id", str_id channel_id) :: channel_fields channel')
    channel_id actor_user_id ;;
  mret channel'.

Definition delete_channel (channel_id actor_user_id : N) : M unit :=
  channel ← _get_channel_for_update channel_id;
  membership ← get_membership channel_id actor_user_id;
  actor ← get_user actor_user_id;
  let is_superadmin_override := match actor with Some u => User.is_superadmin u | None => false end in
  let is_owner := match membership with
                  | Some m => bool_decide (ChannelMembership.role m = owner) | None => false end in
  guard (is_owner || is_superadmin_override) forbidden ;;
  now ← utcnow;
  put_channel channel_id (channel <| Channel.deleted_at := Some now |>) ;;
  event_id ← uuid4;
  _ ← enqueue_channel_event_outbox event_id channel_id (py "channel_deleted")
        [(py "type", PStr (py "channel_deleted")); (py "channel_id", str_id channel_id)];
  _ ← bump_channel_membership_generation channel_id;
  rebind_members channel_id (py "unbind") ;;
  log_and_commit "channel.deleted"
    [(py "channel_id", str_id channel_id); (py "superadmin_override", PBool is_superadmin_override)]
    channel_id actor_user_id.

(** ** Invites *)

Definition find_invite (p : ChannelInvite.t -> bool) (st : Store) : option (N * ChannelInvite.t) :=
  head (List.filter (fun ki => p ki.2) (map_to_list (channel_invites st))).

Definition has_token (token_hash : pystr) (i : ChannelInvite.t) : bool :=
  str_eqb (ChannelInvite.token_hash i) token_hash.

(** [str(invite.id)] before the row has been flushed: the column default is
    applied by the flush. *)
Definition unflushed_id : pyval := PStr (py "None").

Definition create_invite (channel_id actor_user_id : N) (req : InviteRequest) : M (ChannelInvite.t * list Z) :=
  _ ← get_channel_or_404 channel_id;
  membership ← get_membership channel_id actor_user_id;
  guard (match membership with
         | Some m => can_invite (Some (ChannelMembership.role m)) (ChannelMembership.admin_permissions m)
         | None => false
         end) forbidden ;;
  now ← utcnow;
  active_invites ← gets (fun st => count_where
    (fun i => bool_decide (ChannelInvite.created_by_user_id i = actor_user_id) && active_invite now i)
    (rows (channel_invites st)));
  guard (active_invites <? max_active_invites_per_user) (AppError 429 "RESOURCE_QUOTA_EXCEEDED") ;;
  let invited_email := normalize_email <$> ir_invited_email req in
  invited_user_id ← (match invited_email with
    | None => mret (ir_invited_user_id req)
    | Some email =>
        found ← gets (fun st => User.id <$> head (List.filter (fun u =>
          match User.email u with Some e => str_eqb (lower (strip_when (Z.eqb 32) e)) email | None => false end)
          (rows (users st))));
        guard (negb (bool_decide (found = None) && is_production_like && negb email_verification_enabled))
          (AppError 503 "EMAIL_VERIFICATION_UNAVAILABLE") ;;
        mret found
    end);
  token ← token_urlsafe;
  token_hash ← of_res (sha256_hex token);
  expires_from ← utcnow;
  created_at ← utcnow;
  id ← uuid4;
  let invite := ChannelInvite.Row id channel_id invited_user_id invited_email token_hash
                  (take 4 token) (drop (length token - 4) token) actor_user_id created_at
                  (expires_from + ir_expires_in_hours req * 3600000000) None None in
  taken ← gets (find_invite (has_token token_hash));
  guard (bool_decide (taken = None)) (IntegrityError "channel_invites_token_hash_key") ;;
  insert_row "channel_invites_pkey" channel_invites (upd channel_invites) id invite ;;
  log_and_commit "invite.created" [(py "channel_id", str_id channel_id); (py "invite_id", unflushed_id)]
    channel_id actor_user_id ;;
  mret (invite, token).

Definition revoke_invite (channel_id invite_id actor_user_id : N) : M ChannelInvite.t :=
  _ ← _get_channel_for_update channel_id;
  membership ← get_membership channel_id actor_user_id;
  guard (match membership with
         | Some m => can_invite (Some (ChannelMembership.role m)) (ChannelMembership.admin_permissions m)
         | None => false
         end) forbidden ;;
  invite ← gets (fun st => channel_invites st !! invite_id);
  invite ← of_option (AppError 404 "INVITE_INVALID") invite;
  guard (bool_decide (ChannelInvite.channel_id invite = channel_id)) (AppError 404 "INVITE_INVALID") ;;
  guard (negb (negb (_is_generic_invite invite) && negb (bool_decide (ChannelInvite.accepted_at invite = None))
               && bool_decide (ChannelInvite.revoked_at invite = None)))
    (AppError 409 "INVITE_ALREADY_ACCEPTED") ;;
  if bool_decide (ChannelInvite.revoked_at invite = None) then
    now ← utcnow;
    let invite := invite <| ChannelInvite.revoked_at := Some now |> in
    put_invite invite_id invite ;;
    log_and_commit "invite.revoked" [(py "channel_id", str_id channel_id); (py "invite_id", str_id invite_id)]
      channel_id actor_user_id ;;
    mret invite
  else mret invite.

(** The checks on an invite and the account that presents it. *)
Definition check_invite (now : instant) (invite : ChannelInvite.t) (user_id : N) (user : User.t) : res unit :=
  if bool_decide (is_Some (ChannelInvite.revoked_at invite)) then raise (AppError 400 "INVITE_REVOKED")
  else if negb (_is_generic_invite invite) && bool_decide (is_Some (ChannelInvite.accepted_at invite)) then
    raise (AppError 409 "INVITE_ALREADY_ACCEPTED")
  else if ChannelInvite.expires_at invite <=? now then raise (AppError 400 "INVITE_EXPIRED")
  else
    match ChannelInvite.invited_user_id invite, ChannelInvite.invited_email invite with
    | Some target, _ => if bool_decide (target = user_id) then mret tt else raise forbidden
    | None, Some email =>
        if bool_decide (normalize_email <$> User.email user = Some (normalize_email email))
           && bool_decide (is_Some (User.email_verified_at user))
        then mret tt else raise (AppError 403 "EMAIL_VERIFICATION_REQUIRED")
    | None, None => mret tt
    end.

(** The clock is read once, at the expiry check. *)
Definition _validate_invite (channel_id : N) (token : pystr) (user_id : N) : M (N * ChannelInvite.t) :=
  token_hash ← of_res (sha256_hex token);
  user ← get_user user_id;
  user ← of_option (AppError 404 "INVITE_INVALID") user;
  invite ← gets (find_invite (fun i =>
    bool_decide (ChannelInvite.channel_id i = channel_id) && has_token token_hash i));
  invite ← of_option (AppError 400 "INVITE_INVALID") invite;
  now ← utcnow;
  of_res (check_invite now invite.2 user_id user) ;;
  mret invite.

Inductive InvitePreview :=
| PreviewInvalid (reason : string)
| PreviewValid (channel : Channel.t) (invite : ChannelInvite.t).

Definition get_invite_preview (token : pystr) : M InvitePreview :=
  token_hash ← of_res (sha256_hex token);
  data ← gets (fun st => ki ← find_invite (has_token token_hash) st;
                         c ← channels st !! ChannelInvite.channel_id ki.2; Some (ki.2, c));
  match data with
  | None => mret (PreviewInvalid "not_found")
  | Some (invite, channel) =>
      if bool_decide (is_Some (Channel.deleted_at channel)) then mret (PreviewInvalid "channel_deleted")
      else
        now ← utcnow;
        if bool_decide (is_Some (ChannelInvite.revoked_at invite)) then mret (PreviewInvalid "revoked")
        else if negb (_is_generic_invite invite) && bool_decide (is_Some (ChannelInvite.accepted_at invite)) then
          mret (PreviewInvalid "accepted")
        else if ChannelInvite.expires_at invite <=? now then mret (PreviewInvalid "expired")
        else mret (PreviewValid channel invite)
  end.

(** A targeted invite is consumed by its use. *)
Definition consume_invite (ki : N * ChannelInvite.t) : M unit :=
  if _is_generic_invite ki.2 then mret tt
  else now ← utcnow; put_invite ki.1 (ki.2 <| ChannelInvite.accepted_at := Some now |>).

(** ** Memberships *)

(** [membership.role = member] with the other attributes every path sets. *)
Definition as_member (now : instant) (m : ChannelMembership.t) : ChannelMembership.t :=
  m <| ChannelMembership.role := member |> <| ChannelMembership.admin_permissions := PNone |>
    <| ChannelMembership.approved_at := Some now |>.

Definition join_channel (channel_id user_id : N) (invite_token : option pystr)
  : M (pystr * option ChannelMembership.t * pystr) :=
  channel ← _get_channel_for_update channel_id;
  membership ← get_membership channel_id user_id;
  match membership with
  | Some m => mret (py "already_member", Some m, py "user already has membership")
  | None =>
      let finish (status : pystr) (m : ChannelMembership.t) (message : pystr) :=
        _enqueue_membership_update channel_id user_id (Some (ChannelMembership.role m)) "join" ;;
        log_and_commit "membership.joined"
          [(py "channel_id", str_id channel_id); (py "user_id", str_id user_id);
           (py "role", PStr (role_value (ChannelMembership.role m)))] channel_id user_id ;;
        mret (status, Some m, message) in
      match Channel.join_mode channel with
      | invite_only =>
          match invite_token with
          | None | Some [] =>
              mret (py "requires_invite", None, py "invite token required for invite_only channels")
          | Some token =>
              invite ← _validate_invite channel_id token user_id;
              consume_invite invite ;;
              now ← utcnow;
              let creator := ChannelInvite.created_by_user_id invite.2 in
              m ← add_membership channel_id user_id member (Some now) (Some creator) (Some creator);
              finish (py "joined") m (py "joined via invite token")
          end
      | approval_required =>
          m ← add_membership channel_id user_id pending_role None (Some user_id) None;
          finish (py "pending") m (py "join request pending approval")
      | open_ =>
          now ← utcnow;
          m ← add_membership channel_id user_id member (Some now) (Some user_id) None;
          finish (py "joined") m (py "joined channel")
      end
  end.

Definition accept_invite (token : pystr) (user_id : N) : M ChannelMembership.t :=
  token_hash ← of_res (sha256_hex token);
  user ← get_user user_id;
  _ ← of_option (AppError 404 "NOT_FOUND") user;
  found ← gets (find_invite (has_token token_hash));
  found ← of_option (AppError 404 "INVITE_INVALID") found;
  let channel_id := ChannelInvite.channel_id found.2 in
  _ ← _get_channel_for_update channel_id;
  invite ← _validate_invite channel_id token user_id;
  let channel_id := ChannelInvite.channel_id invite.2 in
  membership ← get_membership channel_id user_id;
  let finish (m : ChannelMembership.t) :=
    consume_invite invite ;;
    _enqueue_membership_update channel_id user_id (Some member) "invite_accepted" ;;
    log_and_commit "invite.accepted" [(py "channel_id", str_id channel_id); (py "user_id", str_id user_id)]
      channel_id user_id ;;
    mret m in
  match membership with
  | Some m =>
      if _is_generic_invite invite.2 && approved (ChannelMembership.role m) then mret m
      else
        now ← utcnow;
        put_membership channel_id user_id (as_member now m) ;;
        finish (as_member now m)
  | None =>
      now ← utcnow;
      let creator := ChannelInvite.created_by_user_id invite.2 in
      m ← add_membership channel_id user_id member (Some now) (Some creator) (Some creator);
      finish m
  end.

Definition membership_not_found : exc := AppError 404 "MEMBERSHIP_NOT_FOUND".

(** Both rows of an operation on a member, or 404. *)
Definition actor_and_target (channel_id actor_id target_id : N) : M (ChannelMembership.t * ChannelMembership.t) :=
  memberships ← _get_memberships_for_update channel_id [actor_id; target_id];
  match memberships !! actor_id, memberships !! target_id with
  | Some actor, Some target => mret (actor, target)
  | _, _ => throw membership_not_found
  end.

Definition role_of (m : ChannelMembership.t) : option MembershipRole := Some (ChannelMembership.role m).

Definition approve_member (channel_id actor_id target_id : N) : M ChannelMembership.t :=
  _ ← _get_channel_for_update channel_id;
  '(actor, target) ← actor_and_target channel_id actor_id target_id;
  guard (can_approve (role_of actor) (ChannelMembership.admin_permissions actor)) forbidden ;;
  guard (bool_decide (ChannelMembership.role target = pending_role)) (AppError 400 "VALIDATION_ERROR") ;;
  now ← utcnow;
  put_membership channel_id target_id (as_member now target) ;;
  _enqueue_membership_update channel_id target_id (Some member) "approved" ;;
  log_and_commit "membership.approved" (target_payload channel_id target_id) channel_id actor_id ;;
  mret (as_member now target).

Definition add_member_direct (channel_id actor_id target_id : N) : M ChannelMembership.t :=
  _ ← _get_channel_for_update channel_id;
  memberships ← _get_memberships_for_update channel_id [actor_id; target_id];
  guard (p_manage_members (membership_permissions (memberships !! actor_id))) forbidden ;;
  now ← utcnow;
  target ← (match memberships !! target_id with
            | Some target =>
                put_membership channel_id target_id (as_member now target) ;; mret (as_member now target)
            | None =>
                add_membership channel_id target_id member (Some now) (Some actor_id) (Some actor_id)
            end);
  _enqueue_membership_update channel_id target_id (Some member) "added" ;;
  log_and_commit "membership.added" (target_payload channel_id target_id) channel_id actor_id ;;
  mret target.

Definition promote_member (channel_id actor_id target_id : N) : M ChannelMembership.t :=
  _ ← _get_channel_for_update channel_id;
  '(actor, target) ← actor_and_target channel_id actor_id target_id;
  guard (can_promote (role_of actor) (role_of target)) forbidden ;;
  let target := target <| ChannelMembership.role := admin |>
                       <| ChannelMembership.admin_permissions ::=
                            fun p => permissions_dict (normalize_admin_permissions p) |> in
  put_membership channel_id target_id target ;;
  _enqueue_membership_update channel_id target_id (Some admin) "promoted" ;;
  log_and_commit "member.promoted" (target_payload channel_id target_id) channel_id actor_id ;;
  mret target.

Definition demote_member (channel_id actor_id target_id : N) : M ChannelMembership.t :=
  _ ← _get_channel_for_update channel_id;
  '(actor, target) ← actor_and_target channel_id actor_id target_id;
  guard (can_demote (role_of actor) (role_of target)) forbidden ;;
  let target := target <| ChannelMembership.role := member |> <| ChannelMembership.admin_permissions := PNone |> in
  put_membership channel_id target_id target ;;
  _enqueue_membership_update channel_id target_id (Some member) "demoted" ;;
  log_and_commit "member.demoted" (target_payload channel_id target_id) channel_id actor_id ;;
  mret target.

Definition apply_permissions (req : AdminPermissionsUpdateRequest) (p : AdminPermissions) : AdminPermissions :=
  {| ap_publish := default (ap_publish p) (ar_publish req); ap_invite := default (ap_invite p) (ar_invite req);
     ap_approve := default (ap_approve p) (ar_approve req);
     ap_manage_members := default (ap_manage_members p) (ar_manage_members req);
     ap_edit_channel := default (ap_edit_channel p) (ar_edit_channel req) |}.

Definition update_admin_permissions (channel_id actor_id target_id : N) (req : AdminPermissionsUpdateRequest)
  : M ChannelMembership.t :=
  _ ← _get_channel_for_update channel_id;
  '(actor, target) ← actor_and_target channel_id actor_id target_id;
  guard (bool_decide (ChannelMembership.role actor = owner)) forbidden ;;
  guard (bool_decide (ChannelMembership.role target = admin)) (AppError 400 "VALIDATION_ERROR") ;;
  let current := permissions_dict (apply_permissions req
                   (normalize_admin_permissions (ChannelMembership.admin_permissions target))) in
  let target := target <| ChannelMembership.admin_permissions := current |> in
  put_membership channel_id target_id target ;;
  _enqueue_membership_update channel_id target_id (Some admin) "admin_permissions_updated" ;;
  log_and_commit "member.permissions.updated"
    (target_payload channel_id target_id ++ [(py "admin_permissions", current)]) channel_id actor_id ;;
  mret target.

Definition remove_member (channel_id actor_id target_id : N) : M unit :=
  _ ← _get_channel_for_update channel_id;
  '(actor, target) ← actor_and_target channel_id actor_id target_id;
  guard (p_manage_members (membership_permissions (Some actor))) forbidden ;;
  guard (can_remove (role_of actor) (role_of target)) forbidden ;;
  delete_membership channel_id target_id ;;
  _enqueue_membership_update channel_id target_id None "removed" ;;
  log_and_commit "member.removed" (target_payload channel_id target_id) channel_id actor_id.

Definition leave_channel (channel_id user_id : N) : M unit :=
  _ ← _get_channel_for_update channel_id;
  memberships ← _get_memberships_for_update channel_id [user_id];
  membership ← of_option membership_not_found (memberships !! user_id);
  guard (negb (bool_decide (ChannelMembership.role membership = owner))) (AppError 409 "OWNER_CANNOT_LEAVE") ;;
  delete_membership channel_id user_id ;;
  _enqueue_membership_update channel_id user_id None "left" ;;
  log_and_commit "membership.left" [(py "channel_id", str_id channel_id); (py "user_id", str_id user_id)]
    channel_id user_id.

End Channels.
