(* ===== verification/ChannelProps.v ===== *)
(** * Properties of channels, memberships and invites

    The effect of every operation of Channels.v on the committed database, the
    authorization policy it refines, and the invariants of the tables. *)

From S2P Require Import Prelude PyStr Sha256 Json Models Session EventIntegrity Identifiers.
From S2P Require Import Rbac Outbox Uploads Channels.
Local Open Scope Z_scope.

(** ** The tail of a membership operation *)

(** What a membership operation on the pair [(c, u)] with the new row [new]
    does to the store. *)
Record change (c u : N) (new : option ChannelMembership.t) (st st' : Store) : Prop := {
  ch_memberships : channel_memberships st' = partial_alter (fun _ => new) (c, u) (channel_memberships st);
  ch_users : users st' = users st;
  ch_channel : exists ch, channels st !! c = Some ch /\ Channel.deleted_at ch = None
    /\ channels st' = <[c := ch <| Channel.membership_generation ::= fun g => g + 1 |>]> (channels st);
  ch_binding : exists ch b, channels st !! c = Some ch
    /\ broker_binding_states st' = <[(c, u) := b]> (broker_binding_states st)
    /\ BrokerBindingState.desired_bound b = authorized ch new
    /\ BrokerBindingState.generation b
       = match broker_binding_states st !! (c, u) with
         | Some p => BrokerBindingState.generation p + 1 | None => 1
         end
}.

Section Effects.
Context `{World} `{UnicodeData} `{BackendSettings}.

Lemma bump_generation_ok c s g s' :
  bump_channel_membership_generation c s = (inr g, s') ->
  exists ch, channels (work s) !! c = Some ch /\ durable s' = durable s
    /\ work s' = work s <| channels ::= <[c := ch <| Channel.membership_generation ::= fun g => g + 1 |>]> |>.
Proof. unfold bump_channel_membership_generation, get_channel. intros Hr. run_inv. eexists. by split_and!. Qed.

Lemma same_channel_event {X} (f : Store -> X) a c ty p :
  (forall st g, f (st <| outbox ::= g |>) = f st) -> preserves (same f) (enqueue_channel_event_outbox a c ty p).
Proof.
  intros Hf. unfold enqueue_channel_event_outbox, _get_channel_delivery_state, get_channel.
  pres. by apply same_add_outbox.
Qed.
Lemma same_user_event {X} (f : Store -> X) a c u ty p :
  (forall st g, f (st <| outbox ::= g |>) = f st) -> preserves (same f) (enqueue_user_event_outbox a c u ty p).
Proof.
  intros Hf. unfold enqueue_user_event_outbox, _get_username, get_user, _get_channel_delivery_state, get_channel.
  pres. by apply same_add_outbox.
Qed.

(** The parts of the store a membership operation is about. *)
Definition core (st : Store) :=
  (users st, channels st, channel_memberships st, channel_invites st, broker_binding_states st).

Lemma same_core {A} (m : M A) s r s' :
  preserves (same core) m -> m s = (r, s') ->
  durable s' = durable s /\ users (work s') = users (work s) /\ channels (work s') = channels (work s)
  /\ channel_memberships (work s') = channel_memberships (work s)
  /\ channel_invites (work s') = channel_invites (work s)
  /\ broker_binding_states (work s') = broker_binding_states (work s).
Proof. intros Hm E. apply (same_run core) in E as [Hc Hd]; [|done]. unfold core in Hc. by simplify_eq. Qed.

Lemma membership_update_ok c u role reason s x s' :
  _enqueue_membership_update c u role reason s = (inr x, s') ->
  durable s' = durable s /\ users (work s') = users (work s)
  /\ channel_memberships (work s') = channel_memberships (work s)
  /\ channel_invites (work s') = channel_invites (work s)
  /\ exists ch b, channels (work s) !! c = Some ch
       /\ channels (work s') = <[c := ch <| Channel.membership_generation ::= fun g => g + 1 |>]> (channels (work s))
       /\ broker_binding_states (work s') = <[(c, u) := b]> (broker_binding_states (work s))
       /\ BrokerBindingState.desired_bound b = authorized ch (channel_memberships (work s) !! (c, u))
       /\ BrokerBindingState.generation b
          = match broker_binding_states (work s) !! (c, u) with
            | Some p => BrokerBindingState.generation p + 1 | None => 1
            end.
Proof.
  unfold _enqueue_membership_update. intros Hr.
  apply bind_ok in Hr as (g & s1 & (ch & Hch & Hd1 & Hw1)%bump_generation_ok & Hr).
  apply bind_ok in Hr as (i1 & s2 & (Hw2 & Hd2 & _)%uuid4_ok & Hr).
  apply bind_ok in Hr as (o1 & s3 & H3 & Hr). apply (same_core _ _ _ _ (same_channel_event core _ _ _ _ (fun _ _ => eq_refl))) in H3
    as (Hd3 & Hu3 & Hc3 & Hm3 & Hi3 & Hb3).
  apply bind_ok in Hr as (i2 & s4 & (Hw4 & Hd4 & _)%uuid4_ok & Hr).
  apply bind_ok in Hr as (o2 & s5 & H5 & Hr). apply (same_core _ _ _ _ (same_user_event core _ _ _ _ _ (fun _ _ => eq_refl))) in H5
    as (Hd5 & Hu5 & Hc5 & Hm5 & Hi5 & Hb5).
  apply bind_ok in Hr as (o3 & s6 & (ch' & slug & Hch' & _ & Hw6 & _ & Hd6 & _)%enqueue_binding_ok & [_ ->]%ret_ok).
  rewrite Hw4, Hw2 in *. rewrite Hu3, Hc3, Hm3, Hi3, Hb3, Hw1 in *. cbn [users channels channel_memberships
    channel_invites broker_binding_states upd] in *.
  rewrite Hc5, lookup_insert_eq in Hch'. apply (inj Some) in Hch' as <-.
  rewrite Hw6. cbn [users channels channel_memberships channel_invites broker_binding_states upd].
  rewrite Hu5, Hc5, Hm5, Hi5, Hb5. split; [congruence|]. split_and!; try done.
  eexists ch, _. split; [done|]. split; [done|]. split; [reflexivity|].
  by destruct (broker_binding_states (work s) !! (c, u)).
Qed.

Lemma log_and_commit_ok ty p c a s x s' :
  log_and_commit ty p c a s = (inr x, s') ->
  users (durable s') = users (work s) /\ channels (durable s') = channels (work s)
  /\ channel_memberships (durable s') = channel_memberships (work s)
  /\ channel_invites (durable s') = channel_invites (work s)
  /\ broker_binding_states (durable s') = broker_binding_states (work s) /\ work s' = durable s'.
Proof.
  unfold log_and_commit. intros Hr.
  apply bind_ok in Hr as (ev & s1 & Hl & (Hw & Hd & _)%commit_ok).
  apply (same_core _ _ _ _ (same_log_event core _ _ _ _ (fun _ _ => eq_refl))) in Hl as (_ & ? & ? & ? & ? & ?).
  rewrite Hw, Hd. done.
Qed.

(** The common end of the membership operations, after the row was written. *)
Lemma notify_ok c u role reason ty p a new st s x s1 y s' :
  _enqueue_membership_update c u role reason s = (inr x, s1) -> log_and_commit ty p c a s1 = (inr y, s') ->
  (exists ch, channels st !! c = Some ch /\ Channel.deleted_at ch = None) ->
  users (work s) = users st -> channels (work s) = channels st ->
  channel_memberships (work s) = partial_alter (fun _ => new) (c, u) (channel_memberships st) ->
  broker_binding_states (work s) = broker_binding_states st ->
  change c u new st (durable s') /\ channel_invites (durable s') = channel_invites (work s).
Proof.
  intros He Hr (ch & Hch & Hdel) Hu Hc Hm Hb.
  apply membership_update_ok in He as (Hd1 & Hu1 & Hm1 & Hi1 & ch' & b & Hch' & Hc1 & Hb1 & Hdb & Hg).
  apply log_and_commit_ok in Hr as (Hu2 & Hc2 & Hm2 & Hi2 & Hb2 & _).
  assert (ch' = ch) as -> by (rewrite Hc in Hch'; congruence).
  split; [|congruence]. split.
  - congruence.
  - congruence.
  - exists ch. split; [done|]. split; [done|]. congruence.
  - exists ch, b. split; [done|]. split; [congruence|]. split; [|by rewrite <-Hb].
    by rewrite Hdb, Hm, lookup_partial_alter_eq.
Qed.

(** ** The operations *)

Lemma get_channel_for_update_ok c s ch s' :
  _get_channel_for_update c s = (inr ch, s') ->
  s' = s /\ channels (work s) !! c = Some ch /\ Channel.deleted_at ch = None.
Proof.
  unfold _get_channel_for_update, get_channel. intros Hr. run_inv.
  split; [done|]. split; [done|]. by eapply bool_decide_eq_true_1.
Qed.

Lemma memberships_dict (t : gmap (N * N) ChannelMembership.t) c us u :
  (list_to_map (omap (fun u => m ← t !! (c, u); Some (u, m)) us) : gmap N ChannelMembership.t) !! u
  = if bool_decide (u ∈ us) then t !! (c, u) else None.
Proof.
  induction us as [|v us IH]; [done|]. cbn [omap list_omap].
  destruct (t !! (c, v)) as [m|] eqn:E; cbn.
  - destruct (decide (u = v)) as [->|Hne].
    + rewrite lookup_insert_eq, bool_decide_true by set_solver. done.
    + rewrite lookup_insert_ne, IH by done. apply (f_equal (fun b : bool => if b then _ else _)).
      apply bool_decide_ext. set_solver.
  - rewrite IH. case_bool_decide as H1'; case_bool_decide as H2'; try done; set_solver.
Qed.

Lemma memberships_ok c us s d s' :
  _get_memberships_for_update c us s = (inr d, s') ->
  s' = s /\ forall u, u ∈ us -> d !! u = channel_memberships (work s) !! (c, u).
Proof.
  unfold _get_memberships_for_update. intros [-> ->]%gets_ok. split; [done|].
  intros u Hu. by rewrite memberships_dict, bool_decide_true.
Qed.

Lemma actor_and_target_ok c a t s m s' :
  actor_and_target c a t s = (inr m, s') ->
  s' = s /\ channel_memberships (work s) !! (c, a) = Some m.1
  /\ channel_memberships (work s) !! (c, t) = Some m.2.
Proof.
  unfold actor_and_target. intros Hr. apply bind_ok in Hr as (d & s1 & [-> Hd]%memberships_ok & Hr).
  rewrite !Hd in Hr by set_solver.
  destruct (channel_memberships (work s) !! (c, a)), (channel_memberships (work s) !! (c, t)); try done.
  by apply ret_ok in Hr as [-> ->].
Qed.

Lemma add_membership_ok c u role app cr inv s m s' :
  add_membership c u role app cr inv s = (inr m, s') ->
  channel_memberships (work s) !! (c, u) = None /\ ChannelMembership.role m = role
  /\ ChannelMembership.channel_id m = c /\ ChannelMembership.user_id m = u
  /\ durable s' = durable s
  /\ work s' = work s <| channel_memberships ::= <[(c, u) := m]> |>.
Proof.
  unfold add_membership. intros Hr. run_inv. session_simpl. by split_and!.
Qed.
End Effects.

(** ** The authorization policy *)

(** When an invite lets a user in. *)
Definition usable_invite `{UnicodeData} (st : Store) (c u : N) (i : ChannelInvite.t) : Prop :=
  ChannelInvite.channel_id i = c
  /\ exists now user, users st !! u = Some user /\ check_invite now i u user = inr tt.

(** Who may change whose membership, from which role to which role. *)
Inductive allowed `{UnicodeData} (st : Store) (c actor target : N)
  : option MembershipRole -> option MembershipRole -> Prop :=
| A_join ch : channels st !! c = Some ch -> Channel.join_mode ch = open_ -> actor = target ->
    allowed st c actor target None (Some member)
| A_request ch : channels st !! c = Some ch -> Channel.join_mode ch = approval_required -> actor = target ->
    allowed st c actor target None (Some pending_role)
| A_invited k i r : channel_invites st !! k = Some i -> usable_invite st c target i -> actor = target ->
    allowed st c actor target r (Some member)
| A_approve m : channel_memberships st !! (c, actor) = Some m ->
    p_approve (membership_permissions (Some m)) = true -> allowed st c actor target (Some pending_role) (Some member)
| A_add m r : channel_memberships st !! (c, actor) = Some m ->
    p_manage_members (membership_permissions (Some m)) = true -> allowed st c actor target r (Some member)
| A_promote m : channel_memberships st !! (c, actor) = Some m -> ChannelMembership.role m = owner ->
    allowed st c actor target (Some member) (Some admin)
| A_demote m : channel_memberships st !! (c, actor) = Some m -> ChannelMembership.role m = owner ->
    allowed st c actor target (Some admin) (Some member)
| A_permissions m : channel_memberships st !! (c, actor) = Some m -> ChannelMembership.role m = owner ->
    allowed st c actor target (Some admin) (Some admin)
| A_remove m r : channel_memberships st !! (c, actor) = Some m ->
    p_manage_members (membership_permissions (Some m)) = true ->
    can_remove (Some (ChannelMembership.role m)) (Some r) = true -> allowed st c actor target (Some r) None
| A_leave r : actor = target -> r <> owner -> allowed st c actor target (Some r) None.

(** One committed step of the membership table. *)
Inductive membership_step `{UnicodeData} (st st' : Store) : Prop :=
| MS_same : channel_memberships st' = channel_memberships st -> membership_step st st'
| MS_create c m : channels st !! c = None -> channel_memberships st !! (c, ChannelMembership.user_id m) = None ->
    ChannelMembership.role m = owner ->
    (exists ch, channels st' !! c = Some ch /\ Channel.owner_user_id ch = ChannelMembership.user_id m) ->
    channel_memberships st' = <[(c, ChannelMembership.user_id m) := m]> (channel_memberships st) ->
    membership_step st st'
| MS_change c actor target new :
    change c target new st st' ->
    allowed st c actor target (ChannelMembership.role <$> channel_memberships st !! (c, target))
      (ChannelMembership.role <$> new) ->
    membership_step st st'.

(** ** The channel table *)

(** One committed step of the channel table. *)
Inductive channels_step (st st' : Store) : Prop :=
| CS_same : channels st' = channels st -> channels_step st st'
| CS_create k ch : channels st !! k = None -> Channel.last_seq_id ch = 0 ->
    safe_identifier (Channel.channel_slug ch) = true ->
    (forall k' c, channels st !! k' = Some c -> Channel.channel_slug c <> Channel.channel_slug ch) ->
    channels st' = <[k := ch]> (channels st) -> channels_step st st'
| CS_put k ch ch' : channels st !! k = Some ch ->
    Channel.owner_user_id ch' = Channel.owner_user_id ch /\ Channel.last_seq_id ch' = Channel.last_seq_id ch ->
    (Channel.channel_slug ch' = Channel.channel_slug ch
     \/ safe_identifier (Channel.channel_slug ch') = true
        /\ forall k' c, channels st !! k' = Some c -> k' <> k -> Channel.channel_slug c <> Channel.channel_slug ch') ->
    channels st' = <[k := ch']> (channels st) -> channels_step st st'.

(** Both tables. *)
Definition db_step `{UnicodeData} (st st' : Store) : Prop := membership_step st st' /\ channels_step st st'.

Lemma db_step_same `{UnicodeData} st : db_step st st.
Proof. split; [by apply MS_same|by apply CS_same]. Qed.

Lemma db_step_change `{UnicodeData} st st' c actor target new :
  change c target new st st' ->
  allowed st c actor target (ChannelMembership.role <$> channel_memberships st !! (c, target))
    (ChannelMembership.role <$> new) ->
  db_step st st'.
Proof.
  intros Hc Ha. split; [by eapply MS_change|]. destruct (ch_channel _ _ _ _ _ Hc) as (ch & Hch & _ & Hs).
  eapply CS_put; [exact Hch| | |exact Hs]; [done|by left].
Qed.

(** The operations that touch channels, memberships and invites. *)
Inductive channel_op :=
| OpCreate (owner_id : N) (req : ChannelCreateRequest)
| OpUpdate (c a : N) (req : ChannelPatchRequest)
| OpDelete (c a : N)
| OpJoin (c u : N) (token : option (list Z))
| OpInvite (c a : N) (req : InviteRequest)
| OpRevoke (c i a : N)
| OpAccept (token : list Z) (u : N)
| OpApprove (c a t : N)
| OpAdd (c a t : N)
| OpPromote (c a t : N)
| OpDemote (c a t : N)
| OpPermissions (c a t : N) (req : AdminPermissionsUpdateRequest)
| OpRemove (c a t : N)
| OpLeave (c u : N).

(** Run the head of an operation: the live channel, then both members. *)
Ltac open_channel Hr ch Hch Hdel :=
  apply bind_ok in Hr as (ch & ? & (-> & Hch & Hdel)%get_channel_for_update_ok & Hr).
Ltac open_members Hr ma mt Ha Ht :=
  apply bind_ok in Hr as ([ma mt] & ? & (-> & Ha & Ht)%actor_and_target_ok & Hr); cbn [fst snd] in Ha, Ht, Hr.
(** Run its tail: the notification, the audit event and the commit. *)
Ltac close_op Hr He Hl :=
  apply bind_ok in Hr as (? & ? & He & Hr); apply bind_ok in Hr as (? & ? & Hl & [-> ->]%ret_ok).

Ltac unfold_outbox :=
  unfold enqueue_channel_event_outbox, enqueue_user_event_outbox, enqueue_message_outbox,
    enqueue_broker_binding_outbox, _enqueue_broker_binding_snapshot, _get_username,
    _get_channel_delivery_state, bump_channel_membership_generation, get_user, get_channel, get_membership.
Ltac unfold_channel :=
  unfold create_channel, update_channel, delete_channel, create_invite, revoke_invite, join_channel, accept_invite,
    approve_member, add_member_direct, promote_member, demote_member, update_admin_permissions, remove_member,
    leave_channel, actor_and_target, _validate_invite, consume_invite, rebind_members, _next_available_slug,
    check_slug, log_and_commit, add_membership, _get_memberships_for_update, put_membership, delete_membership,
    put_channel, put_invite, get_channel_or_404, _get_channel_for_update, insert_row,
    validate_avatar_upload_reference, validate_profile_image_upload_reference, _enqueue_membership_update.

Section Steps.
Context `{World} `{UnicodeData} `{BackendSettings}.

Definition run_op (o : channel_op) : M unit :=
  match o with
  | OpCreate u req => _ ← create_channel u req; mret tt
  | OpUpdate c a req => _ ← update_channel c a req; mret tt
  | OpDelete c a => delete_channel c a
  | OpJoin c u token => _ ← join_channel c u token; mret tt
  | OpInvite c a req => _ ← create_invite c a req; mret tt
  | OpRevoke c i a => _ ← revoke_invite c i a; mret tt
  | OpAccept token u => _ ← accept_invite token u; mret tt
  | OpApprove c a t => _ ← approve_member c a t; mret tt
  | OpAdd c a t => _ ← add_member_direct c a t; mret tt
  | OpPromote c a t => _ ← promote_member c a t; mret tt
  | OpDemote c a t => _ ← demote_member c a t; mret tt
  | OpPermissions c a t req => _ ← update_admin_permissions c a t req; mret tt
  | OpRemove c a t => remove_member c a t
  | OpLeave c u => leave_channel c u
  end.

Lemma unit_op_ok {A} (m : M A) s x s' : (_ ← m; mret tt) s = (inr x, s') -> exists a, m s = (inr a, s').
Proof. intros Hr. apply bind_ok in Hr as (a & s1 & Hm & [_ ->]%ret_ok). eauto. Qed.

(** Finish an operation whose row was written with [put_membership]. *)
Lemma put_step c a u new role reason ty p s0 s x s1 y s' :
  _enqueue_membership_update c u role reason s = (inr x, s1) -> log_and_commit ty p c a s1 = (inr y, s') ->
  (exists ch, channels (work s0) !! c = Some ch /\ Channel.deleted_at ch = None) ->
  work s = work s0 <| channel_memberships ::= partial_alter (fun _ => new) (c, u) |> ->
  allowed (work s0) c a u (ChannelMembership.role <$> channel_memberships (work s0) !! (c, u))
    (ChannelMembership.role <$> new) ->
  db_step (work s0) (durable s').
Proof.
  intros He Hl Hch Hw Hal. eapply db_step_change; [|exact Hal].
  eapply notify_ok; [exact He|exact Hl|exact Hch|by rewrite Hw..].
Qed.

Lemma approve_step c a u s m s' :
  approve_member c a u s = (inr m, s') -> db_step (work s) (durable s').
Proof.
  unfold approve_member. intros Hr.
  open_channel Hr ch Hch Hdel. open_members Hr ma mt Ha Ht.
  apply bind_ok in Hr as (x1 & s0 & [Hp ->]%guard_ok & Hr).
  apply bind_ok in Hr as (x2 & s0 & [Hpend%bool_decide_eq_true_1 ->]%guard_ok & Hr).
  apply bind_ok in Hr as (now & s1 & (Hw1 & _)%utcnow_ok & Hr).
  apply bind_ok in Hr as (x3 & s2 & ->%modify_ok & Hr).
  close_op Hr He Hl.
  eapply (put_step c a u (Some (as_member now mt))); [exact He|exact Hl|eauto|cbn [work upd]; by rewrite Hw1|].
  rewrite Ht. cbn. rewrite Hpend. by eapply A_approve.
Qed.

Lemma promote_step c a u s m s' :
  promote_member c a u s = (inr m, s') -> db_step (work s) (durable s').
Proof.
  unfold promote_member. intros Hr.
  open_channel Hr ch Hch Hdel. open_members Hr ma mt Ha Ht.
  apply bind_ok in Hr as (x1 & s0 & [Hp ->]%guard_ok & Hr). cbv zeta in Hr.
  apply bind_ok in Hr as (x3 & s2 & ->%modify_ok & Hr).
  close_op Hr He Hl.
  eapply put_step; [exact He|exact Hl|eauto|cbn [work upd]; reflexivity|].
  unfold can_promote, role_of in Hp. apply andb_prop in Hp as [Hp1%bool_decide_eq_true_1 Hp2%bool_decide_eq_true_1].
  rewrite Ht. cbn. rewrite Hp2. eapply A_promote; [exact Ha|]. by injection Hp1.
Qed.

Lemma demote_step c a u s m s' :
  demote_member c a u s = (inr m, s') -> db_step (work s) (durable s').
Proof.
  unfold demote_member. intros Hr.
  open_channel Hr ch Hch Hdel. open_members Hr ma mt Ha Ht.
  apply bind_ok in Hr as (x1 & s0 & [Hp ->]%guard_ok & Hr). cbv zeta in Hr.
  apply bind_ok in Hr as (x3 & s2 & ->%modify_ok & Hr).
  close_op Hr He Hl.
  eapply put_step; [exact He|exact Hl|eauto|cbn [work upd]; reflexivity|].
  unfold can_demote, role_of in Hp. apply andb_prop in Hp as [Hp1%bool_decide_eq_true_1 Hp2%bool_decide_eq_true_1].
  rewrite Ht. cbn. rewrite Hp2. eapply A_demote; [exact Ha|]. by injection Hp1.
Qed.

Lemma permissions_step c a u req s m s' :
  update_admin_permissions c a u req s = (inr m, s') -> db_step (work s) (durable s').
Proof.
  unfold update_admin_permissions. intros Hr.
  open_channel Hr ch Hch Hdel. open_members Hr ma mt Ha Ht.
  apply bind_ok in Hr as (x1 & s0 & [Hp%bool_decide_eq_true_1 ->]%guard_ok & Hr).
  apply bind_ok in Hr as (x2 & s0 & [Hadm%bool_decide_eq_true_1 ->]%guard_ok & Hr). cbv zeta in Hr.
  apply bind_ok in Hr as (x3 & s2 & ->%modify_ok & Hr).
  close_op Hr He Hl.
  eapply put_step; [exact He|exact Hl|eauto|cbn [work upd]; reflexivity|].
  rewrite Ht. cbn. rewrite Hadm. by eapply A_permissions.
Qed.

Lemma remove_step c a u s m s' :
  remove_member c a u s = (inr m, s') -> db_step (work s) (durable s').
Proof.
  unfold remove_member. intros Hr.
  open_channel Hr ch Hch Hdel. open_members Hr ma mt Ha Ht.
  apply bind_ok in Hr as (x1 & s0 & [Hp ->]%guard_ok & Hr).
  apply bind_ok in Hr as (x2 & s0 & [Hrm ->]%guard_ok & Hr).
  apply bind_ok in Hr as (x3 & s2 & ->%modify_ok & Hr). apply bind_ok in Hr as (x4 & s3 & He & Hl).
  eapply (put_step c a u None); [exact He|exact Hl|eauto|cbn [work upd]; reflexivity|].
  rewrite Ht. cbn. by eapply A_remove.
Qed.

Lemma leave_step c u s m s' :
  leave_channel c u s = (inr m, s') -> db_step (work s) (durable s').
Proof.
  unfold leave_channel. intros Hr.
  open_channel Hr ch Hch Hdel.
  apply bind_ok in Hr as (d & s0 & [-> Hd]%memberships_ok & Hr).
  apply bind_ok in Hr as (mt & s0 & [Ht ->]%of_option_ok & Hr). rewrite Hd in Ht by set_solver.
  apply bind_ok in Hr as (x2 & s0 & [Hrm%negb_true_iff%bool_decide_eq_false_1 ->]%guard_ok & Hr).
  apply bind_ok in Hr as (x3 & s2 & ->%modify_ok & Hr). apply bind_ok in Hr as (x4 & s3 & He & Hl).
  eapply (put_step c u u None); [exact He|exact Hl|eauto|cbn [work upd]; reflexivity|].
  rewrite Ht. cbn. by apply A_leave.
Qed.

Lemma add_direct_step c a u s m s' :
  add_member_direct c a u s = (inr m, s') -> db_step (work s) (durable s').
Proof.
  unfold add_member_direct. intros Hr.
  open_channel Hr ch Hch Hdel.
  apply bind_ok in Hr as (d & s0 & [-> Hd]%memberships_ok & Hr). rewrite !Hd in Hr by set_solver.
  apply bind_ok in Hr as (x1 & s0 & [Hp ->]%guard_ok & Hr).
  apply bind_ok in Hr as (now & s1 & (Hw1 & _)%utcnow_ok & Hr).
  apply bind_ok in Hr as (t & s2 & Ht & Hr).
  close_op Hr He Hl.
  destruct (channel_memberships (work s) !! (c, a)) as [ma|] eqn:Ha; [|done].
  assert (Hrow : ChannelMembership.role t = member
    /\ work s2 = work s <| channel_memberships ::= partial_alter (fun _ => Some t) (c, u) |>).
  { destruct (channel_memberships (work s) !! (c, u)) as [mt|] eqn:Hmt.
    - apply bind_ok in Ht as (x6 & s5 & ->%modify_ok & [-> ->]%ret_ok). split; [done|]. cbn [work upd]. by rewrite Hw1.
    - apply add_membership_ok in Ht as (_ & Hrole & _ & _ & _ & Hw). split; [done|]. by rewrite Hw, Hw1. }
  destruct Hrow as [Hrole Hw].
  eapply put_step; [exact He|exact Hl|eauto|exact Hw|]. cbn. rewrite Hrole. by eapply A_add.
Qed.

Lemma find_invite_ok p st ki : find_invite p st = Some ki -> channel_invites st !! ki.1 = Some ki.2 /\ p ki.2 = true.
Proof.
  unfold find_invite. intros [l Hl]%head_Some.
  assert (Hin : ki ∈ List.filter (fun ki => p ki.2) (map_to_list (channel_invites st))) by (rewrite Hl; constructor).
  apply elem_of_filter_bool in Hin as [Hin Hp]. destruct ki. by apply elem_of_map_to_list in Hin.
Qed.

Lemma validate_invite_ok c tok u s ki s' :
  _validate_invite c tok u s = (inr ki, s') ->
  channel_invites (work s) !! ki.1 = Some ki.2 /\ usable_invite (work s) c u ki.2
  /\ work s' = work s /\ durable s' = durable s.
Proof.
  unfold _validate_invite, get_user. intros Hr. run_inv. session_simpl.
  match goal with H : find_invite _ _ = Some _ |- _ => apply find_invite_ok in H as [Hi [Hc _]%andb_prop] end.
  match goal with H : check_invite _ _ _ _ = inr ?y |- _ => destruct y; rename H into Hck end.
  split; [done|]. split; [|done]. split; [by apply bool_decide_eq_true_1 in Hc|]. eauto.
Qed.

(** Consuming an invite writes the invite table only. *)
Lemma consume_ok ki s x s' :
  consume_invite ki s = (inr x, s') ->
  durable s' = durable s /\ (work s' = work s \/ exists i, work s' = work s <| channel_invites ::= <[ki.1 := i]> |>).
Proof.
  unfold consume_invite, put_invite. destruct (_is_generic_invite ki.2); intros Hr; run_inv; [by auto|].
  session_simpl. eauto.
Qed.

(** [put_step] for operations that also wrote the invite table. *)
Lemma put_step_invite c a u new role reason ty p s0 s x s1 y s' :
  _enqueue_membership_update c u role reason s = (inr x, s1) -> log_and_commit ty p c a s1 = (inr y, s') ->
  (exists ch, channels (work s0) !! c = Some ch /\ Channel.deleted_at ch = None) ->
  (exists f, work s = work s0 <| channel_memberships ::= partial_alter (fun _ => new) (c, u) |>
                       <| channel_invites ::= f |>) ->
  allowed (work s0) c a u (ChannelMembership.role <$> channel_memberships (work s0) !! (c, u))
    (ChannelMembership.role <$> new) ->
  db_step (work s0) (durable s').
Proof.
  intros He Hl Hch [f Hw] Hal. eapply db_step_change; [|exact Hal].
  eapply notify_ok; [exact He|exact Hl|exact Hch|by rewrite Hw..].
Qed.

Lemma join_step c u tok s m s' :
  work s = durable s -> join_channel c u tok s = (inr m, s') -> db_step (work s) (durable s').
Proof.
  intros Hclean. unfold join_channel. intros Hr. open_channel Hr ch Hch Hdel. unfold get_membership in Hr.
  apply bind_ok in Hr as (mo & s0 & [-> ->]%gets_ok & Hr).
  destruct (channel_memberships (work s) !! (c, u)) as [m0|] eqn:Hm0.
  { apply ret_ok in Hr as [_ ->]. rewrite Hclean. apply db_step_same. }
  destruct (Channel.join_mode ch) eqn:Hj.
  - apply bind_ok in Hr as (now & s1 & (Hw1 & _)%utcnow_ok & Hr).
    apply bind_ok in Hr as (m1 & s2 & (_ & Hrole & _ & _ & _ & Hw2)%add_membership_ok & Hr).
    close_op Hr He Hl. eapply put_step; [exact He|exact Hl|eauto|rewrite Hw2, Hw1; reflexivity|].
    rewrite Hm0. cbn. rewrite Hrole. by eapply A_join.
  - destruct tok as [[|z tok]|].
    1, 3: apply ret_ok in Hr as [_ ->]; rewrite Hclean; apply db_step_same.
    apply bind_ok in Hr as (ki & s1 & (Hi & Hus & Hw1 & _)%validate_invite_ok & Hr).
    apply bind_ok in Hr as (x2 & s2 & (_ & Hcons)%consume_ok & Hr).
    apply bind_ok in Hr as (now & s3 & (Hw3 & _)%utcnow_ok & Hr).
    apply bind_ok in Hr as (m1 & s4 & (_ & Hrole & _ & _ & _ & Hw4)%add_membership_ok & Hr).
    close_op Hr He Hl. eapply put_step_invite; [exact He|exact Hl|eauto| |].
    + rewrite Hw4, Hw3. destruct Hcons as [->|[i ->]]; rewrite Hw1; [exists id; by destruct (work s)|by eexists].
    + rewrite Hm0. cbn. rewrite Hrole. by eapply A_invited.
  - apply bind_ok in Hr as (m1 & s2 & (_ & Hrole & _ & _ & _ & Hw2)%add_membership_ok & Hr).
    close_op Hr He Hl. eapply put_step; [exact He|exact Hl|eauto|rewrite Hw2; reflexivity|].
    rewrite Hm0. cbn. rewrite Hrole. by eapply A_request.
Qed.

Lemma accept_step tok u s m s' :
  work s = durable s -> accept_invite tok u s = (inr m, s') -> db_step (work s) (durable s').
Proof.
  intros Hclean. unfold accept_invite, get_user. intros Hr.
  apply bind_ok in Hr as (h & s0 & [Hh ->]%of_res_ok & Hr).
  apply bind_ok in Hr as (uo & s0 & [-> ->]%gets_ok & Hr).
  apply bind_ok in Hr as (usr & s0 & [Husr ->]%of_option_ok & Hr).
  apply bind_ok in Hr as (fo & s0 & [-> ->]%gets_ok & Hr).
  apply bind_ok in Hr as (fd & s0 & [Hfd ->]%of_option_ok & Hr). cbv zeta in Hr.
  open_channel Hr ch Hch Hdel.
  apply bind_ok in Hr as (ki & s1 & (Hi & Hus & Hw1 & Hd1)%validate_invite_ok & Hr).
  unfold get_membership in Hr. apply bind_ok in Hr as (mo & s2 & [-> ->]%gets_ok & Hr).
  pose proof (proj1 Hus) as Hcid. rewrite Hcid, Hw1 in Hr.
  set (c := ChannelInvite.channel_id fd.2) in *.
  destruct (channel_memberships (work s) !! (c, u)) as [m0|] eqn:Hm0.
  - destruct (_ && _).
    { apply ret_ok in Hr as [_ ->]. rewrite Hd1, Hclean. apply db_step_same. }
    apply bind_ok in Hr as (now & s3 & (Hw3 & _)%utcnow_ok & Hr).
    apply bind_ok in Hr as (x3 & s4 & ->%modify_ok & Hr).
    apply bind_ok in Hr as (x4 & s5 & (_ & Hcons)%consume_ok & Hr). close_op Hr He Hl.
    eapply (put_step_invite c u u (Some (as_member now m0))); [exact He|exact Hl|eauto| |].
    + destruct Hcons as [->|[i ->]]; cbn [work upd]; rewrite Hw3, Hw1; [exists id; by destruct (work s)|by eexists].
    + by eapply A_invited.
  - apply bind_ok in Hr as (now & s3 & (Hw3 & _)%utcnow_ok & Hr).
    apply bind_ok in Hr as (m1 & s4 & (_ & Hrole & _ & _ & _ & Hw4)%add_membership_ok & Hr).
    apply bind_ok in Hr as (x4 & s5 & (_ & Hcons)%consume_ok & Hr). close_op Hr He Hl.
    eapply (put_step_invite c u u (Some m1)); [exact He|exact Hl|eauto| |].
    + destruct Hcons as [->|[i ->]]; rewrite Hw4, Hw3, Hw1; [exists id; by destruct (work s)|by eexists].
    + cbn. rewrite Hrole. by eapply A_invited.
Qed.

(** Editing or deleting a channel and managing invites leave memberships alone. *)
Lemma unchanged_step T o :
  match o with OpUpdate _ _ _ | OpDelete _ _ | OpInvite _ _ _ | OpRevoke _ _ _ => True | _ => False end ->
  preserves (keeps (fun st => channel_memberships st = T)) (run_op o).
Proof.
  destruct o; try done; intros _; cbn [run_op]; unfold_channel; unfold_outbox; pres.
Qed.

Lemma channel_op_atomic o : atomic (run_op o).
Proof. destruct o; cbn [run_op]; unfold_channel; unfold_outbox; cbv zeta; atomic. Qed.

(** The reads and checks before the first write of [create_channel]. *)
Lemma avatar_check_same a url : preserves (fun s s' => s' = s) (validate_avatar_upload_reference a url).
Proof.
  unfold validate_avatar_upload_reference, validate_profile_image_upload_reference.
  assert (Reflexive (fun s s' : Session => s' = s)) by (by intros ?).
  assert (Transitive (fun s s' : Session => s' = s)) by (intros ? ? ? -> ->; done).
  pres.
Qed.

Lemma check_slug_ok cid slug s x s' :
  check_slug cid slug s = (inr x, s') ->
  s' = s /\ safe_identifier slug = true
  /\ forall k c, channels (work s) !! k = Some c -> k <> cid -> Channel.channel_slug c <> slug.
Proof.
  unfold check_slug. intros Hr. run_inv. split; [done|]. split; [done|]. intros k c Hk Hne E.
  match goal with H : negb (existsb _ _) = true |- _ => apply negb_true_iff in H; rename H into Hx end.
  apply not_true_iff_false in Hx. apply Hx. apply existsb_exists. exists (k, c).
  split; [apply list_elem_of_In; by apply elem_of_map_to_list|]. cbn. rewrite E.
  unfold str_eqb. rewrite bool_decide_true by done. apply N.eqb_neq in Hne. by rewrite Hne.
Qed.

Definition channel_part (st : Store) := (channels st, channel_memberships st).

(** Nothing after the writes of [create_channel] touches its rows again. *)
Lemma create_channel_ok u req s ch s' :
  create_channel u req s = (inr ch, s') ->
  channels (work s) !! Channel.id ch = None /\ (Channel.owner_user_id ch = u /\ Channel.last_seq_id ch = 0)
  /\ (forall k c, channels (work s) !! k = Some c -> Channel.channel_slug c <> Channel.channel_slug ch)
  /\ safe_identifier (Channel.channel_slug ch) = true
  /\ channels (durable s') = <[Channel.id ch := ch]> (channels (work s))
  /\ exists m, ChannelMembership.role m = owner /\ ChannelMembership.channel_id m = Channel.id ch
       /\ ChannelMembership.user_id m = u /\ channel_memberships (work s) !! (Channel.id ch, u) = None
       /\ channel_memberships (durable s') = <[(Channel.id ch, u) := m]> (channel_memberships (work s)).
Proof.
  unfold create_channel. intros Hr.
  apply bind_ok in Hr as (n & s0 & [-> ->]%gets_ok & Hr). apply bind_ok in Hr as (x0 & s0 & [_ ->]%guard_ok & Hr).
  apply bind_ok in Hr as (x1 & s0 & Hav & Hr).
  assert (s0 = s) as ->.
  { destruct (cr_avatar_url req); [|by apply ret_ok in Hav as [_ ->]].
    pose proof (avatar_check_same u (Some l) s) as E. by rewrite Hav in E. }
  apply bind_ok in Hr as (ps & s0 & Hps & Hr).
  assert (s0 = s) as ->.
  { destruct (cr_channel_slug req) as [[|z l]|]; [by apply ret_ok in Hps as [_ ->]|by apply of_res_ok in Hps as [_ ->]|
      by apply ret_ok in Hps as [_ ->]]. }
  apply bind_ok in Hr as (slug & s0 & Hslug & Hr).
  assert (s0 = s) as -> by (unfold _next_available_slug in Hslug; by run_inv). clear Hav Hps Hslug.
  apply bind_ok in Hr as (cid & s1 & (Hw1 & _)%uuid4_ok & Hr).
  apply bind_ok in Hr as (now & s2 & (Hw2 & _)%utcnow_ok & Hr). cbv zeta in Hr. set (row := Channel.Row _ _ _ _ _ _ _ _ _ _ _ _) in *.
  apply bind_ok in Hr as (x3 & s3 & (-> & Hsafe & Huniq)%check_slug_ok & Hr).
  apply bind_ok in Hr as (x4 & s3 & [Hnew ->]%insert_row_ok & Hr).
  apply bind_ok in Hr as (app & s4 & (Hw4 & _)%utcnow_ok & Hr).
  apply bind_ok in Hr as (x5 & s5 & [_ ->]%insert_row_ok & Hr).
  apply bind_ok in Hr as (m & s6 & (Hn & Hrole & Hcid & Huid & _ & Hw6)%add_membership_ok & Hr).
  apply bind_ok in Hr as (o & s7 & Hb & Hr). apply (same_run channel_part) in Hb as [Hb _]; [|unfold_outbox; pres].
  apply bind_ok in Hr as (ev & s8 & Hl & Hr). apply (same_run channel_part) in Hl as [Hl _]; [|pres].
  apply bind_ok in Hr as (x9 & s9 & Hl2 & Hr). apply (same_run channel_part) in Hl2 as [Hl2 _]; [|pres].
  apply bind_ok in Hr as (x10 & s10 & (_ & Hc & _)%commit_ok & [-> ->]%ret_ok).
  rewrite Hl, Hb, <-Hc in Hl2. cbn [work upd] in *. rewrite Hw4, Hw2, Hw1 in *.
  rewrite Hw6 in Hl2. unfold channel_part in Hl2. cbn [channels channel_memberships upd work] in *.
  injection Hl2 as Hc1 Hc2. cbn [channels channel_memberships upd] in *.
  split; [done|]. split; [done|]. split; [|split; [done|]].
  { intros k c Hk. apply (Huniq k c Hk). intros ->. congruence. }
  split; [done|]. exists m. by split_and!.
Qed.

Lemma create_step u req s ch s' :
  create_channel u req s = (inr ch, s') -> db_step (work s) (durable s').
Proof.
  intros (Hn & [Ho Hz] & Hu & Hs & Hc & m & Hrole & _ & Huid & Hm & Hms)%create_channel_ok. split.
  - eapply (MS_create _ _ (Channel.id ch) m); rewrite ?Huid; try done.
    exists ch. by rewrite Hc, lookup_insert_eq.
  - by eapply CS_create.
Qed.
End Steps.

Section ChannelSteps.
Context `{World} `{UnicodeData} `{BackendSettings}.

Lemma rebind_same {X} (f : Store -> X) c act :
  (forall st g, f (st <| outbox ::= g |>) = f st) ->
  (forall st g, f (st <| broker_binding_states ::= g |>) = f st) ->
  preserves (same f) (rebind_members c act).
Proof.
  intros Ho Hb. unfold rebind_members. unfold_outbox. pres.
  - by apply same_modify.
  - by apply same_add_outbox.
Qed.

Lemma update_channel_step c a req s ch s' :
  update_channel c a req s = (inr ch, s') -> channels_step (work s) (durable s').
Proof.
  unfold update_channel. intros Hr. open_channel Hr ch0 Hch Hdel. unfold get_membership in Hr.
  apply bind_ok in Hr as (mo & s0 & [-> ->]%gets_ok & Hr). apply bind_ok in Hr as (x0 & s0 & [_ ->]%guard_ok & Hr).
  apply bind_ok in Hr as (x1 & s0 & Hav & Hr).
  assert (s0 = s) as ->.
  { destruct (cp_avatar_url req) as [[url|]|]; [|by apply ret_ok in Hav as [_ ->]..].
    pose proof (avatar_check_same a (Some url) s) as E. by rewrite Hav in E. }
  cbv zeta in Hr. apply bind_ok in Hr as (eid & s1 & (Hw1 & _)%uuid4_ok & Hr).
  apply bind_ok in Hr as (x2 & s2 & Hslug & Hr). rewrite <-Hw1 in Hch.
  assert (Hs : s2 = s1 /\ (Channel.channel_slug (patched req ch0) = Channel.channel_slug ch0
     \/ safe_identifier (Channel.channel_slug (patched req ch0)) = true
        /\ forall k' x, channels (work s1) !! k' = Some x -> k' <> c ->
             Channel.channel_slug x <> Channel.channel_slug (patched req ch0))).
  { unfold str_eqb in Hslug. case_bool_decide; [apply ret_ok in Hslug as [_ ->]; by auto|].
    apply check_slug_ok in Hslug as (-> & ? & ?). auto. }
  destruct Hs as [-> Hs]. apply bind_ok in Hr as (x3 & s3 & ->%modify_ok & Hr).
  apply bind_ok in Hr as (o & s4 & He & Hr).
  apply (same_run channels) in He as [He _]; [|by apply same_channel_event].
  apply bind_ok in Hr as (x5 & s5 & Hrb & Hr).
  assert (Hc5 : channels (work s5) = channels (work s4)).
  { destruct (str_eqb _ _); [by apply ret_ok in Hrb as [_ ->]|].
    by apply (same_run channels) in Hrb as [? _]; [|apply rebind_same]. }
  apply bind_ok in Hr as (x6 & s6 & (_ & Hc6 & _)%log_and_commit_ok & [-> ->]%ret_ok).
  rewrite <-Hw1. eapply CS_put; [exact Hch| |exact Hs|]; [done|]. rewrite Hc6, Hc5, He. done.
Qed.

Lemma delete_channel_step c a s x s' :
  delete_channel c a s = (inr x, s') -> channels_step (work s) (durable s').
Proof.
  unfold delete_channel. intros Hr. open_channel Hr ch0 Hch Hdel. unfold get_membership, get_user in Hr.
  apply bind_ok in Hr as (mo & s0 & [-> ->]%gets_ok & Hr). apply bind_ok in Hr as (uo & s0 & [-> ->]%gets_ok & Hr).
  apply bind_ok in Hr as (x0 & s0 & [_ ->]%guard_ok & Hr). apply bind_ok in Hr as (now & s1 & (Hw1 & _)%utcnow_ok & Hr).
  apply bind_ok in Hr as (x3 & s3 & ->%modify_ok & Hr). apply bind_ok in Hr as (eid & s2 & (Hw2 & _)%uuid4_ok & Hr).
  apply bind_ok in Hr as (o & s4 & He & Hr).
  apply (same_run channels) in He as [He _]; [|by apply same_channel_event].
  apply bind_ok in Hr as (g & s5 & (ch1 & Hch1 & _ & Hw5)%bump_generation_ok & Hr).
  apply bind_ok in Hr as (x5 & s6 & Hrb & Hr). apply (same_run channels) in Hrb as [Hrb _]; [|by apply rebind_same].
  apply log_and_commit_ok in Hr as (_ & Hc & _).
  rewrite He, Hw2 in Hch1. cbn [channels work upd] in Hch1. rewrite lookup_insert_eq in Hch1.
  apply (inj Some) in Hch1 as <-. rewrite Hw5 in Hrb. cbn [channels upd] in Hrb. rewrite He, Hw2 in Hrb.
  cbn [channels work upd] in Hrb. rewrite Hw1, insert_insert_eq in Hrb.
  eapply CS_put; [exact Hch| | |rewrite Hc; exact Hrb]; [done|by left].
Qed.

Lemma invites_keep_channels T o :
  match o with OpInvite _ _ _ | OpRevoke _ _ _ => True | _ => False end ->
  preserves (keeps (fun st => channels st = T)) (run_op o).
Proof. destruct o; try done; intros _; cbn [run_op]; unfold_channel; unfold_outbox; pres. Qed.

(** Every successful operation is one step of both tables. *)
Lemma op_step o s x s' :
  work s = durable s -> run_op o s = (inr x, s') -> db_step (durable s) (durable s').
Proof.
  intros Hclean Hr. rewrite <-Hclean.
  assert (Hmem : match o with OpUpdate _ _ _ | OpDelete _ _ | OpInvite _ _ _ | OpRevoke _ _ _ => True | _ => False end ->
    membership_step (work s) (durable s')).
  { intros Ho. apply MS_same. pose proof (unchanged_step (channel_memberships (work s)) o Ho s) as Hk.
    rewrite Hr in Hk. apply Hk; [by rewrite Hclean|done]. }
  assert (Hinv : match o with OpInvite _ _ _ | OpRevoke _ _ _ => True | _ => False end ->
    channels_step (work s) (durable s')).
  { intros Ho. apply CS_same. pose proof (invites_keep_channels (channels (work s)) o Ho s) as Hk.
    rewrite Hr in Hk. apply Hk; [by rewrite Hclean|done]. }
  destruct o; cbn [run_op] in Hr; try (apply unit_op_ok in Hr as [y Hr]).
  - by eapply create_step.
  - split; [by apply Hmem|by eapply update_channel_step].
  - split; [by apply Hmem|by eapply delete_channel_step].
  - by eapply join_step.
  - split; [by apply Hmem|by apply Hinv].
  - split; [by apply Hmem|by apply Hinv].
  - by eapply accept_step.
  - by eapply approve_step.
  - by eapply add_direct_step.
  - by eapply promote_step.
  - by eapply demote_step.
  - by eapply permissions_step.
  - by eapply remove_step.
  - by eapply leave_step.
Qed.
End ChannelSteps.

(** ** Well-formed channel tables *)

Record channels_wf (st : Store) : Prop := {
  wf_member : forall c u m, channel_memberships st !! (c, u) = Some m ->
    exists ch, channels st !! c = Some ch /\ (ChannelMembership.role m = owner -> Channel.owner_user_id ch = u);
  wf_unique : forall k1 k2 c1 c2, channels st !! k1 = Some c1 -> channels st !! k2 = Some c2 ->
    Channel.channel_slug c1 = Channel.channel_slug c2 -> k1 = k2;
  wf_safe : forall k c, channels st !! k = Some c -> safe_identifier (Channel.channel_slug c) = true
}.

(** A channel never disappears and never changes its owner. *)
Lemma channels_step_owner st st' k ch :
  channels_step st st' -> channels st !! k = Some ch ->
  exists ch', channels st' !! k = Some ch' /\ Channel.owner_user_id ch' = Channel.owner_user_id ch.
Proof.
  intros [E|k0 ch0 Hn _ _ _ E|k0 ch0 ch0' Hk0 [Ho _] _ E] Hk; rewrite E; [by eauto| |].
  - rewrite lookup_insert_ne by congruence. eauto.
  - destruct (decide (k0 = k)) as [->|Hne]; [|rewrite lookup_insert_ne by done; eauto].
    rewrite lookup_insert_eq. exists ch0'. split; [done|]. congruence.
Qed.

(** Slugs stay unique and safe. *)
Lemma channels_step_slugs st st' :
  channels_step st st' -> channels_wf st ->
  (forall k1 k2 c1 c2, channels st' !! k1 = Some c1 -> channels st' !! k2 = Some c2 ->
     Channel.channel_slug c1 = Channel.channel_slug c2 -> k1 = k2)
  /\ (forall k c, channels st' !! k = Some c -> safe_identifier (Channel.channel_slug c) = true).
Proof.
  intros [E|k0 ch0 Hn _ Hs Hu E|k0 ch0 ch0' Hk0 Ho Hs E] [_ Huniq Hsafe]; rewrite E; [done| |].
  - split.
    + intros k1 k2 c1 c2. rewrite !lookup_insert_Some.
      intros [[<- <-]|[Hn1 H1]] [[<- <-]|[Hn2 H2]] Heq; [done| | |by eapply Huniq]; exfalso; by eapply Hu.
    + intros k c. rewrite lookup_insert_Some. intros [[<- <-]|[_ Hk]]; [done|by eapply Hsafe].
  - assert (Hne : forall k c, channels st !! k = Some c -> k <> k0 -> Channel.channel_slug c <> Channel.channel_slug ch0').
    { intros k c Hk Hne Heq. destruct Hs as [Hsame|[_ Hs]]; [|by eapply Hs]. apply Hne.
      eapply Huniq; [exact Hk|exact Hk0|congruence]. }
    split.
    + intros k1 k2 c1 c2. rewrite !lookup_insert_Some.
      intros [[<- <-]|[Hn1 H1]] [[<- <-]|[Hn2 H2]] Heq; [done| | |by eapply Huniq]; exfalso; by eapply Hne.
    + intros k c. rewrite lookup_insert_Some. intros [[<- <-]|[_ Hk]]; [|by eapply Hsafe].
      destruct Hs as [->|[? _]]; [by eapply Hsafe|done].
Qed.

Lemma allowed_not_owner `{UnicodeData} st c a t r r' : allowed st c a t r r' -> r' <> Some owner.
Proof. by destruct 1. Qed.

Lemma db_step_wf `{UnicodeData} st st' : db_step st st' -> channels_wf st -> channels_wf st'.
Proof.
  intros [Hm Hc] Hwf. destruct (channels_step_slugs _ _ Hc Hwf) as [Hu Hs].
  assert (Hold : forall c u m, channel_memberships st !! (c, u) = Some m -> exists ch, channels st' !! c = Some ch
    /\ (ChannelMembership.role m = owner -> Channel.owner_user_id ch = u)).
  { intros c u m Hmem. destruct (wf_member st Hwf c u m Hmem) as (ch & Hch & Ho).
    destruct (channels_step_owner _ _ _ _ Hc Hch) as (ch' & Hch' & Eo). exists ch'. split; [done|]. by rewrite Eo. }
  split; [|done|done]. intros c u m.
  destruct Hm as [E|k0 m0 Hn Hn' Hrole (ch & Hch & Ho) E|k0 a t new Hchg Hal].
  - rewrite E. apply Hold.
  - rewrite E, lookup_insert_Some. intros [[Ek <-]|[_ Hk]]; [|by eapply Hold].
    apply pair_equal_spec in Ek as [<- <-]. eauto.
  - rewrite (ch_memberships _ _ _ _ _ Hchg). intros Hk.
    destruct (decide ((k0, t) = (c, u))) as [Ek|Hne]; [|rewrite lookup_partial_alter_ne in Hk by done; by eapply Hold].
    apply pair_equal_spec in Ek as [<- <-]. rewrite lookup_partial_alter_eq in Hk. subst new.
    destruct (ch_channel _ _ _ _ _ Hchg) as (ch & Hch & _ & Es). rewrite Es, lookup_insert_eq.
    eexists. split; [reflexivity|]. intros Hr. apply allowed_not_owner in Hal. cbn in Hal. congruence.
Qed.

(** ** Slugs *)

Lemma suffixed_inj base k1 k2 : 0 <= k1 -> 0 <= k2 -> suffixed base k1 = suffixed base k2 -> k1 = k2.
Proof.
  intros H1 H2 E. unfold suffixed, suffix_token in E. apply (f_equal (@rev Z)) in E.
  rewrite !rev_app_distr in E. change (rev (py "-")) with [45] in E. rewrite <-!app_assoc in E. cbn [app] in E.
  apply digits_sep_inj in E as [E _].
  - apply (f_equal (@rev Z)) in E. rewrite !rev_involutive in E. by apply str_of_Z_inj in E.
  - rewrite forallb_rev. by apply str_of_Z_nonneg_digits.
  - rewrite forallb_rev. by apply str_of_Z_nonneg_digits.
  - done.
Qed.

(** The candidates the loop tries. *)
Definition candidates (base : pystr) (n : nat) (suffix : Z) : list pystr :=
  suffixed base <$> ((fun i => suffix + Z.of_nat i) <$> seq 0 n).

Lemma candidates_nodup base n suffix : 0 <= suffix -> NoDup (candidates base n suffix).
Proof.
  intros Hs. unfold candidates. apply NoDup_fmap_2_strong.
  - intros x y Hx Hy E. apply list_elem_of_fmap in Hx as (i & -> & _). apply list_elem_of_fmap in Hy as (j & -> & _).
    apply suffixed_inj in E; lia.
  - apply NoDup_fmap_2; [intros i j; lia|apply NoDup_seq].
Qed.

(** When the loop runs out of fuel, every candidate was taken. *)
Lemma slug_loop_none fuel taken base cand suffix :
  slug_loop fuel taken base cand suffix = None ->
  fuel = O \/ (taken cand = true /\ forall s, s ∈ candidates base (pred fuel) suffix -> taken s = true).
Proof.
  revert cand suffix. induction fuel as [|fuel IH]; intros cand suffix Hl; [by left|]. right. cbn in Hl.
  destruct (taken cand) eqn:Et; [|done]. split; [done|]. cbn [pred negb] in *.
  apply IH in Hl as [->|[Hc Hr]]; [by intros s ?%elem_of_nil|].
  destruct fuel as [|fuel]; [by intros s ?%elem_of_nil|]. cbn [pred] in Hr.
  intros s Hs. unfold candidates in Hs. cbn [seq] in Hs. rewrite !fmap_cons in Hs.
  apply elem_of_cons in Hs as [->|Hs]; [by rewrite Z.add_0_r|]. apply Hr. unfold candidates.
  rewrite <-!list_fmap_compose in *. rewrite <-seq_shift in Hs.
  change (map S) with (@fmap _ list_fmap _ _ S) in Hs. rewrite <-list_fmap_compose in Hs.
  eapply list_elem_of_fmap in Hs as (i & -> & Hi). apply list_elem_of_fmap. exists i. split; [|done].
  cbn. f_equal. lia.
Qed.

Lemma slug_loop_some fuel taken base cand suffix slug :
  slug_loop fuel taken base cand suffix = Some slug ->
  taken slug = false /\ (slug = cand \/ exists k, suffix <= k /\ slug = suffixed base k).
Proof.
  revert cand suffix. induction fuel as [|fuel IH]; intros cand suffix Hl; [done|]. cbn in Hl.
  destruct (taken cand) eqn:Et; cbn [negb] in Hl; [|injection Hl as <-; by auto].
  apply IH in Hl as [Ht [->|(k & Hk & ->)]]; (split; [done|right]); [by exists suffix; split; [lia|]|].
  exists k. split; [lia|done].
Qed.

Lemma slug_taken_in st s : slug_taken st s = true <-> s ∈ (Channel.channel_slug <$> rows (channels st)).
Proof.
  unfold slug_taken. rewrite existsb_exists, list_elem_of_fmap. split.
  - intros (c & Hc%list_elem_of_In & E%bool_decide_eq_true). eauto.
  - intros (c & -> & Hc). exists c. split; [by apply list_elem_of_In|by apply bool_decide_true].
Qed.

Lemma rows_size {K} `{Countable K} {A} (t : gmap K A) : length (rows t) = size t.
Proof. unfold rows. rewrite length_fmap. apply length_map_to_list. Qed.

(** No two dashes in a row; [prev] says whether a dash came before. *)
Fixpoint single_dashes (prev : bool) (s : pystr) : bool :=
  match s with
  | [] => true
  | c :: s => if c =? 45 then negb prev && single_dashes true s else single_dashes false s
  end.

Lemma single_dashes_weaken b s : single_dashes b s = true -> single_dashes false s = true.
Proof. destruct s as [|c s]; [done|]. cbn. destruct (c =? 45); [|done]. by intros [_ ?]%andb_prop. Qed.

Lemma single_dashes_app_l b s t : single_dashes b (s ++ t) = true -> single_dashes b s = true.
Proof.
  revert b. induction s as [|c s IH]; intros b; [done|]. cbn. destruct (c =? 45); [|apply IH].
  intros [-> Hs]%andb_prop. cbn. by apply IH.
Qed.

Lemma sub_dash_single b s : single_dashes b (sub_dash b s) = true.
Proof.
  revert b. induction s as [|c s IH]; intros b; [done|]. cbn. destruct (slug_char c) eqn:E.
  - cbn. assert ((c =? 45) = false) as -> by (unfold slug_char, is_digit in E; lia). apply IH.
  - destruct b; [apply IH|]. cbn. apply IH.
Qed.

Definition slug_or_dash (c : Z) : bool := slug_char c || (c =? 45).

Lemma sub_dash_chars b s : forallb slug_or_dash (sub_dash b s) = true.
Proof.
  revert b. induction s as [|c s IH]; intros b; [done|]. cbn. destruct (slug_char c) eqn:E.
  - cbn. unfold slug_or_dash at 1. by rewrite E, IH.
  - destruct b; [apply IH|]. cbn. by rewrite IH.
Qed.

Lemma collapse_single s b : single_dashes b s = true -> collapse_dashes b s = s.
Proof.
  revert b. induction s as [|c s IH]; intros b; [done|]. cbn. destruct (Z.eqb_spec c 45) as [->|].
  - intros [Hb Hs]%andb_prop. destruct b; [done|]. by rewrite IH.
  - intros Hs. by rewrite IH.
Qed.

Lemma lstrip_suffix p s : exists t, s = t ++ lstrip_when p s.
Proof.
  induction s as [|c s [t IH]]; cbn; [by exists []|]. destruct (p c); [|by exists []].
  exists (c :: t). cbn. by rewrite <-IH.
Qed.

Lemma rstrip_prefix p s : exists t, s = rstrip_when p s ++ t.
Proof.
  unfold rstrip_when. destruct (lstrip_suffix p (rev s)) as [t Ht]. exists (rev t).
  apply (f_equal (@rev Z)) in Ht. by rewrite rev_involutive, rev_app_distr in Ht.
Qed.

Lemma strip_dash_single s : single_dashes false s = true -> single_dashes false (strip_dash s) = true.
Proof.
  intros Hs. unfold strip_dash, strip_when.
  assert (Hl : single_dashes false (lstrip_when (Z.eqb 45) s) = true).
  { destruct (lstrip_suffix (Z.eqb 45) s) as [t Ht]. rewrite Ht in Hs. clear Ht. revert Hs. generalize false at 1.
    induction t as [|c t IH]; intros b; [apply single_dashes_weaken|]. cbn.
    destruct (c =? 45); [intros [_ Hs]%andb_prop; by apply IH in Hs|apply IH]. }
  destruct (rstrip_prefix (Z.eqb 45) (lstrip_when (Z.eqb 45) s)) as [t Ht].
  rewrite Ht in Hl. by apply single_dashes_app_l in Hl.
Qed.

Lemma rev_reverse {A} (l : list A) : rev l = reverse l.
Proof. apply rev_alt. Qed.

Lemma strip_when_fix p s :
  match head s with Some c => p c = false | None => True end ->
  match last s with Some c => p c = false | None => True end -> strip_when p s = s.
Proof.
  intros Hh Hl. unfold strip_when, rstrip_when.
  assert (E : forall t, match head t with Some c => p c = false | None => True end -> lstrip_when p t = t).
  { intros [|c t]; [done|]. cbn. by intros ->. }
  rewrite (E s) by done. rewrite (E (rev s)), rev_involutive; [done|]. by rewrite rev_reverse, head_reverse.
Qed.

Lemma strip_when_ends p s :
  match head (strip_when p s) with Some c => p c = false | None => True end
  /\ match last (strip_when p s) with Some c => p c = false | None => True end.
Proof.
  split.
  - destruct (strip_when p s) as [|c t] eqn:E; [done|]. cbn. by eapply strip_when_head.
  - unfold strip_when, rstrip_when. rewrite (rev_reverse (lstrip_when _ (rev _))), last_reverse.
    pose proof (lstrip_when_head p (rev (lstrip_when p s))) as Hh. by destruct (lstrip_when p (rev _)).
Qed.

(** At most one character is stripped from the end. *)
Lemma rstrip_dash_length s : single_dashes false s = true -> (length s <= S (length (rstrip_when (Z.eqb 45) s)))%nat.
Proof.
  destruct s as [|x s _] using rev_ind; [cbn; lia|]. intros Hs. unfold rstrip_when. rewrite rev_app_distr. cbn [rev app lstrip_when].
  destruct (45 =? x) eqn:Ex; [|cbn [rev]; rewrite !length_app, length_rev, length_rev; cbn; lia].
  destruct s as [|y s _] using rev_ind; [cbn; lia|]. rewrite rev_app_distr. cbn [rev app lstrip_when].
  assert (Hy : (45 =? y) = false).
  { apply Z.eqb_eq in Ex as <-. destruct (Z.eqb_spec 45 y) as [<-|]; [|done]. exfalso.
    assert (Hg : forall b t, single_dashes b ((t ++ [45]) ++ [45]) = true -> False); [|by eapply Hg].
    intros b t. revert b. induction t as [|z t IH]; intros b; cbn; [by destruct b|].
    destruct (z =? 45); [intros [_ ?]%andb_prop|intros ?]; by eapply IH. }
  rewrite Hy. cbn [rev]. rewrite !length_app, rev_involutive. cbn. lia.
Qed.

Lemma slug_or_dash_safe c : slug_or_dash c = true -> safe_char c = true /\ negb ((65 <=? c) && (c <=? 90)) = true.
Proof. unfold slug_or_dash, slug_char, is_digit, safe_char, is_alnum. lia. Qed.

Lemma forallb_impl {A} (p q : A -> bool) l :
  (forall x, p x = true -> q x = true) -> forallb p l = true -> forallb q l = true.
Proof. intros Hpq. rewrite !forallb_forall. auto. Qed.

Lemma forallb_take {A} (p : A -> bool) n l : forallb p l = true -> forallb p (take n l) = true.
Proof. intros Hl. rewrite <-(take_drop n l), forallb_app in Hl. by apply andb_prop in Hl as [? _]. Qed.

Lemma lstrip_nodash s : match head s with Some c => (45 =? c) = false | None => True end ->
  lstrip_when (Z.eqb 45) s = s.
Proof. destruct s as [|c s]; [done|]. cbn. by intros ->. Qed.

(** The part of [_slugify] after the substitutions, on a stripped text. *)
Lemma slug_shape s :
  single_dashes false s = true -> forallb slug_or_dash s = true -> strip_dash s = s -> s <> [] ->
  let n := if (length s <? 3)%nat then s ++ py "-channel" else s in
  let r := or_else (strip_dash (take SAFE_IDENTIFIER_MAX_LENGTH n)) (py "channel") in
  forallb slug_or_dash r = true /\ (3 <= length r <= 50)%nat.
Proof.
  intros Hsd Hch Hst Hne n r.
  pose proof (strip_when_ends (Z.eqb 45) s) as [Hh Hl]. fold (strip_dash s) in Hh, Hl. rewrite Hst in Hh, Hl.
  assert (Hn : forallb slug_or_dash n = true).
  { subst n. destruct (length s <? 3)%nat; [|done]. by rewrite forallb_app, Hch. }
  set (v := take SAFE_IDENTIFIER_MAX_LENGTH n) in *.
  assert (Hv : forallb slug_or_dash (strip_dash v) = true) by (by apply strip_when_forall, forallb_take).
  assert (Hlen : (3 <= length (strip_dash v) <= 50)%nat).
  { destruct (Nat.ltb_spec (length s) 3) as [Hlt|Hge]; subst n.
    - assert (Ev : v = s ++ py "-channel").
      { subst v. unfold SAFE_IDENTIFIER_MAX_LENGTH. apply firstn_all2. rewrite length_app. cbn. lia. }
      rewrite Ev. unfold strip_dash. rewrite strip_when_fix; [rewrite length_app; cbn; lia| |].
      + destruct s; [done|]. exact Hh.
      + change (py "-channel") with (py "-channe" ++ [108]). by rewrite app_assoc, last_snoc.
    - destruct (le_lt_dec (length s) 50) as [Hle|Hgt].
      + assert (Ev : v = s) by (subst v; by apply firstn_all2). rewrite Ev, Hst. lia.
      + assert (Hlv : length v = 50%nat) by (subst v; rewrite length_take; unfold SAFE_IDENTIFIER_MAX_LENGTH; lia).
        unfold strip_dash, strip_when. rewrite lstrip_nodash.
        2: { subst v. destruct s; [done|]. exact Hh. }
        assert (Hsv : single_dashes false v = true).
        { subst v. rewrite <-(take_drop SAFE_IDENTIFIER_MAX_LENGTH s) in Hsd. by apply single_dashes_app_l in Hsd. }
        pose proof (rstrip_dash_length v Hsv). split; [lia|].
        destruct (rstrip_prefix (Z.eqb 45) v) as [t Ht]. apply (f_equal length) in Ht. rewrite length_app in Ht. lia. }
  subst r. unfold or_else. destruct (strip_dash v); [cbn in Hlen; lia|]. done.
Qed.

(** ** Invites *)

Definition tokens_unique (st : Store) : Prop :=
  forall k1 k2 i1 i2, channel_invites st !! k1 = Some i1 -> channel_invites st !! k2 = Some i2 ->
    ChannelInvite.token_hash i1 = ChannelInvite.token_hash i2 -> k1 = k2.

Lemma find_invite_unique p st k i :
  channel_invites st !! k = Some i -> p i = true ->
  (forall k' i', channel_invites st !! k' = Some i' -> p i' = true -> k' = k) -> find_invite p st = Some (k, i).
Proof.
  intros Hk Hp Hu. destruct (find_invite p st) as [[k' i']|] eqn:E.
  - apply find_invite_ok in E as [Hk' Hp']. cbn in *. assert (k' = k) as -> by eauto. congruence.
  - exfalso. unfold find_invite in E. apply head_None in E.
    assert (Hin : (k, i) ∈ List.filter (fun ki => p ki.2) (map_to_list (channel_invites st))).
    { apply elem_of_filter_bool. split; [by apply elem_of_map_to_list|done]. }
    rewrite E in Hin. by apply elem_of_nil in Hin.
Qed.

Lemma find_invite_none p st k i :
  find_invite p st = None -> channel_invites st !! k = Some i -> p i = false.
Proof.
  intros E Hk. unfold find_invite in E. apply head_None in E. apply not_true_iff_false. intros Hp.
  assert (Hin : (k, i) ∈ List.filter (fun ki => p ki.2) (map_to_list (channel_invites st))).
  { apply elem_of_filter_bool. split; [by apply elem_of_map_to_list|done]. }
  rewrite E in Hin. by apply elem_of_nil in Hin.
Qed.

Section InviteLemmas.
Context `{World} `{UnicodeData} `{BackendSettings}.

(** The checks of [_validate_invite], run forwards. *)
Lemma validate_invite_run c tok u h user k i s :
  sha256_hex tok = inr h -> users (work s) !! u = Some user ->
  find_invite (fun i => bool_decide (ChannelInvite.channel_id i = c) && has_token h i) (work s) = Some (k, i) ->
  exists s', _validate_invite c tok u s
    = (match check_invite (clock (clock_at s)) i u user with inl e => inl e | inr _ => inr (k, i) end, s')
    /\ work s' = work s /\ durable s' = durable s.
Proof.
  intros Hh Hu Hf. unfold _validate_invite. rewrite Hh.
  rewrite (bind_step _ _ s h s) by done. unfold get_user. rewrite (bind_step _ _ s _ s (gets_run _ s)), Hu.
  rewrite (bind_step _ _ s user s) by done. rewrite (bind_step _ _ s _ s (gets_run _ s)), Hf.
  rewrite (bind_step _ _ s (k, i) s) by done.
  rewrite (bind_step _ _ s (clock (clock_at s)) (s <| clock_at ::= S |>)) by done. cbn [snd].
  exists (s <| clock_at ::= S |>). split; [|done].
  destruct (check_invite _ i u user) as [e|x] eqn:Ec.
  - by rewrite (bind_fail _ _ _ e (s <| clock_at ::= S |>)).
  - by rewrite (bind_step _ _ _ x (s <| clock_at ::= S |>)).
Qed.

(** The invite that a successful validation found. *)
Lemma validate_invite_found c tok u s ki s' :
  _validate_invite c tok u s = (inr ki, s') ->
  exists h, sha256_hex tok = inr h /\ ChannelInvite.token_hash ki.2 = h.
Proof.
  unfold _validate_invite, get_user. intros Hr. run_inv. eexists. split; [eassumption|].
  match goal with H : find_invite _ _ = Some _ |- _ => apply find_invite_ok in H as [_ [_ Ht]%andb_prop] end.
  unfold has_token, str_eqb in Ht. by apply bool_decide_eq_true_1 in Ht.
Qed.

Lemma consume_targeted ki s x s' :
  _is_generic_invite ki.2 = false -> consume_invite ki s = (inr x, s') ->
  exists now, work s' = work s <| channel_invites ::= <[ki.1 := ki.2 <| ChannelInvite.accepted_at := Some now |>]> |>.
Proof. unfold consume_invite, put_invite. intros ->. intros Hr. run_inv. session_simpl. eauto. Qed.

(** Accepting a targeted invite marks it. *)
Lemma accept_marks tok u s m s' :
  accept_invite tok u s = (inr m, s') ->
  exists ki h, channel_invites (work s) !! ki.1 = Some ki.2 /\ sha256_hex tok = inr h
    /\ ChannelInvite.token_hash ki.2 = h
    /\ (_is_generic_invite ki.2 = false -> exists now, channel_invites (durable s')
          = <[ki.1 := ki.2 <| ChannelInvite.accepted_at := Some now |>]> (channel_invites (work s))).
Proof.
  unfold accept_invite, get_user. intros Hr.
  apply bind_ok in Hr as (h & s0 & [Hh ->]%of_res_ok & Hr). apply bind_ok in Hr as (uo & s0 & [-> ->]%gets_ok & Hr).
  apply bind_ok in Hr as (usr & s0 & [Husr ->]%of_option_ok & Hr). apply bind_ok in Hr as (fo & s0 & [-> ->]%gets_ok & Hr).
  apply bind_ok in Hr as (fd & s0 & [Hfd ->]%of_option_ok & Hr). cbv zeta in Hr. open_channel Hr ch Hch Hdel.
  apply bind_ok in Hr as (ki & s1 & Hv & Hr). destruct (validate_invite_found _ _ _ _ _ _ Hv) as (h' & Hh' & Ht).
  apply validate_invite_ok in Hv as (Hi & _ & Hw1 & _). exists ki, h'. split; [done|]. split; [done|]. split; [done|].
  intros Hg. unfold get_membership in Hr. apply bind_ok in Hr as (mo & s2 & [-> ->]%gets_ok & Hr).
  assert (Htail : forall s3 s4 x4 (y z : ChannelMembership.t) role reason ty p c, channel_invites (work s3) = channel_invites (work s) ->
    consume_invite ki s3 = (inr x4, s4) ->
    (_enqueue_membership_update c u role reason ;; log_and_commit ty p c u ;; mret y) s4 = (inr z, s') ->
    exists now, channel_invites (durable s')
      = <[ki.1 := ki.2 <| ChannelInvite.accepted_at := Some now |>]> (channel_invites (work s))).
  { intros s3 s4 x4 y z role reason ty p c Hw3 (now & Hw4)%consume_targeted Ht2; [|done].
    apply bind_ok in Ht2 as (a1 & s5 & (_ & _ & _ & Hi5 & _)%membership_update_ok & Ht2).
    apply bind_ok in Ht2 as (a2 & s6 & (_ & _ & _ & Hi6 & _)%log_and_commit_ok & [_ ->]%ret_ok).
    exists now. rewrite Hi6, Hi5, Hw4. cbn [channel_invites upd]. by rewrite Hw3. }
  destruct (channel_memberships (work s1) !! _) as [m0|].
  - rewrite Hg in Hr. cbn [andb] in Hr. apply bind_ok in Hr as (now & s3 & (Hw3 & _)%utcnow_ok & Hr).
    apply bind_ok in Hr as (x3 & s4 & ->%modify_ok & Hr). apply bind_ok in Hr as (x4 & s5 & Hc & Hr).
    eapply Htail; [|exact Hc|exact Hr]. cbn [work upd channel_invites]. by rewrite Hw3, Hw1.
  - apply bind_ok in Hr as (now & s3 & (Hw3 & _)%utcnow_ok & Hr).
    apply bind_ok in Hr as (m1 & s4 & (_ & _ & _ & _ & _ & Hw4)%add_membership_ok & Hr).
    apply bind_ok in Hr as (x4 & s5 & Hc & Hr).
    eapply Htail; [|exact Hc|exact Hr]. rewrite Hw4. cbn [channel_invites upd]. by rewrite Hw3, Hw1.
Qed.

(** What [create_invite] stores. *)
Lemma create_invite_ok c a req s i tok s' :
  create_invite c a req s = (inr (i, tok), s') ->
  ChannelInvite.channel_id i = c /\ ChannelInvite.revoked_at i = None /\ ChannelInvite.accepted_at i = None
  /\ sha256_hex tok = inr (ChannelInvite.token_hash i)
  /\ find_invite (has_token (ChannelInvite.token_hash i)) (work s) = None
  /\ channel_invites (durable s') = <[ChannelInvite.id i := i]> (channel_invites (work s)).
Proof.
  unfold create_invite. intros Hr.
  apply bind_ok in Hr as (ch & s0 & (-> & _)%get_channel_for_update_ok & Hr). unfold get_membership in Hr.
  apply bind_ok in Hr as (mo & s0 & [-> ->]%gets_ok & Hr). apply bind_ok in Hr as (x1 & s0 & [_ ->]%guard_ok & Hr).
  apply bind_ok in Hr as (now & s1 & (Hw1 & _)%utcnow_ok & Hr). apply bind_ok in Hr as (n & s2 & [-> ->]%gets_ok & Hr).
  apply bind_ok in Hr as (x2 & s2 & [_ ->]%guard_ok & Hr). cbv zeta in Hr.
  apply bind_ok in Hr as (target & s2 & Ht & Hr).
  assert (s2 = s1) as -> by (destruct (normalize_email <$> ir_invited_email req); by run_inv). clear Ht.
  apply bind_ok in Hr as (token & s3 & (Hw3 & _)%token_ok & Hr). apply bind_ok in Hr as (h & s4 & [Hh ->]%of_res_ok & Hr).
  apply bind_ok in Hr as (e & s4 & (Hw4 & _)%utcnow_ok & Hr). apply bind_ok in Hr as (cr & s5 & (Hw5 & _)%utcnow_ok & Hr).
  apply bind_ok in Hr as (id & s6 & (Hw6 & _)%uuid4_ok & Hr). apply bind_ok in Hr as (tk & s7 & [-> ->]%gets_ok & Hr).
  apply bind_ok in Hr as (x3 & s7 & [Hnone%bool_decide_eq_true_1 ->]%guard_ok & Hr).
  apply bind_ok in Hr as (x4 & s8 & [_ ->]%insert_row_ok & Hr).
  apply bind_ok in Hr as (x5 & s9 & (_ & _ & _ & Hi & _)%log_and_commit_ok & [E ->]%ret_ok).
  apply pair_equal_spec in E as [-> ->]. cbn [work upd channel_invites] in Hi.
  rewrite Hw6, Hw5, Hw4, Hw3, Hw1 in *. by split_and!.
Qed.
End InviteLemmas.

(** ** Properties *)

Section ChannelProperties.
Context `{World} `{UnicodeData} `{BackendSettings}.

(** A request runs one operation in a session of its own; what was not
    committed is rolled back when the session closes. *)
Definition request (o : channel_op) : M unit :=
  try_except (run_op o) (fun _ => mret tt) ;; rollback.

Lemma request_run o s :
  work s = durable s ->
  let s' := (request o s).2 in
  work s' = durable s' /\ (durable s' = durable s \/ db_step (durable s) (durable s')).
Proof.
  intros Hclean. unfold request. destruct (run_op o s) as [[e|x] s1] eqn:E.
  - rewrite (bind_step _ _ s tt s1) by (by rewrite (try_fail _ _ _ _ _ E)). cbn.
    split; [done|]. left. by eapply channel_op_atomic.
  - rewrite (bind_step _ _ s x s1) by (by rewrite (try_step _ _ _ _ _ E)). cbn.
    split; [done|]. right. by eapply op_step.
Qed.



(** The channel tables stay well formed under any sequence of requests,
    whatever fails in between: every membership belongs to an existing
    channel, only the user recorded as a channel's owner ever holds the owner
    role in it, and slugs are unique safe identifiers. *)
Theorem channels_stay_wf ops s :
  work s = durable s -> channels_wf (durable s) ->
  channels_wf (durable (fold_left (fun s o => (request o s).2) ops s)).
Proof.
  revert s. induction ops as [|o ops IH]; intros s Hc Hwf; [done|]. cbn [fold_left].
  destruct (request_run o s Hc) as [Hc' [E|Hs]]; apply IH; try done; [by rewrite E|by eapply db_step_wf].
Qed.

(** The slug search ends and finds a free slug: for any database and any
    base, some candidate among the first [n + 2] is unused by the [n] existing
    channels, and the result is the base itself or the base with a numeric
    suffix. *)
Theorem next_slug_is_fresh st base_slug :
  exists slug, next_slug st base_slug = Some slug
    /\ (forall k c, channels st !! k = Some c -> Channel.channel_slug c <> slug)
    /\ let base := or_else (take SAFE_IDENTIFIER_MAX_LENGTH base_slug) (py "channel") in
       slug = base \/ exists k, 2 <= k /\ slug = suffixed base k.
Proof.
  unfold next_slug. set (base := or_else _ _).
  destruct (slug_loop _ _ base base 2) as [slug|] eqn:E.
  - apply slug_loop_some in E as [Ht Hs]. exists slug. split; [done|]. split; [|exact Hs].
    intros k c Hk Heq. apply not_true_iff_false in Ht. apply Ht. apply slug_taken_in. rewrite <-Heq.
    apply list_elem_of_fmap_2, elem_of_rows. eauto.
  - exfalso. apply slug_loop_none in E as [E|[_ Hall]]; [lia|].
    assert (Hsub : candidates base (size (channels st) + 1) 2 ⊆+ (Channel.channel_slug <$> rows (channels st))).
    { apply NoDup_submseteq; [by apply candidates_nodup|]. intros s Hs. apply slug_taken_in, Hall.
      replace (pred (size (channels st) + 2)) with (size (channels st) + 1)%nat by lia. exact Hs. }
    apply submseteq_length in Hsub. unfold candidates in Hsub.
    rewrite !length_fmap, length_seq, rows_size in Hsub. lia.
Qed.

(** Every channel name gives a usable slug: whatever the name (empty,
    other scripts, very long), the derived slug is a safe identifier of 3 to
    50 characters that normalisation accepts unchanged. *)
Theorem slugify_is_safe raw :
  safe_identifier (_slugify raw) = true /\ normalize_channel_slug (_slugify raw) = inr (_slugify raw).
Proof.
  assert (Hshape : forallb slug_or_dash (_slugify raw) = true /\ (3 <= length (_slugify raw) <= 50)%nat).
  { unfold _slugify. set (s := strip_dash (sub_dash false (lower (strip raw)))).
    assert (Hs : single_dashes false s = true) by apply strip_dash_single, sub_dash_single.
    rewrite (collapse_single s false Hs). destruct s as [|c t] eqn:Es; [by split; [|cbn; lia]|]. rewrite <-Es in *.
    apply slug_shape; [done| | |congruence].
    - rewrite Es. subst s. rewrite <-Es. apply strip_when_forall, sub_dash_chars.
    - rewrite Es, <-Es. subst s. unfold strip_dash. apply strip_when_fix; apply strip_when_ends. }
  destruct Hshape as [Hc Hl].
  assert (Hsafe : safe_identifier (_slugify raw) = true).
  { unfold safe_identifier. rewrite (forallb_impl _ safe_char _ (fun c Hc => proj1 (slug_or_dash_safe c Hc)) Hc), andb_true_r.
    apply andb_true_iff. split; apply Nat.leb_le; lia. }
  split; [done|]. unfold normalize_channel_slug, _normalize_identifier.
  rewrite safe_strip, lower_safe_id, Hsafe; [done| | |].
  all: eapply forallb_impl, Hc; intros c Hcc; by apply slug_or_dash_safe.
Qed.

(** An issued token works for whom it was issued: the token returned by
    [create_invite] is accepted by the validation in the committed database,
    for every existing account that the invite addresses (the resolved user,
    or a verified matching address, or anyone for a generic link) until it
    expires; the row holds only the token's SHA-256 hash. *)
Theorem invite_token_roundtrip c a req s i tok s' u user s2 :
  create_invite c a req s = (inr (i, tok), s') ->
  work s2 = durable s' -> users (work s2) !! u = Some user ->
  clock (clock_at s2) < ChannelInvite.expires_at i ->
  match ChannelInvite.invited_user_id i, ChannelInvite.invited_email i with
  | Some target, _ => target = u
  | None, Some e => normalize_email <$> User.email user = Some (normalize_email e) /\ is_Some (User.email_verified_at user)
  | None, None => True
  end ->
  sha256_hex tok = inr (ChannelInvite.token_hash i)
  /\ exists s3, _validate_invite c tok u s2 = (inr (ChannelInvite.id i, i), s3) /\ work s3 = work s2.
Proof.
  intros (Hc & Hrev & Hacc & Hh & Hnone & Hi)%create_invite_ok Hw Hu Hexp Hfor. split; [done|].
  assert (Hf : find_invite (fun x => bool_decide (ChannelInvite.channel_id x = c)
      && has_token (ChannelInvite.token_hash i) x) (work s2) = Some (ChannelInvite.id i, i)).
  { rewrite Hw. apply find_invite_unique; rewrite ?Hi.
    - by rewrite lookup_insert_eq.
    - unfold has_token, str_eqb. by rewrite !bool_decide_true.
    - intros k' i'. rewrite lookup_insert_Some. intros [[<- _]|[_ Hk]] [_ Ht]%andb_prop; [done|].
      by rewrite (find_invite_none _ _ _ _ Hnone Hk) in Ht. }
  destruct (validate_invite_run c tok u _ user _ i s2 Hh Hu Hf) as (s3 & E & Hw3 & _).
  exists s3. split; [|done]. rewrite E. unfold check_invite. rewrite Hrev, Hacc.
  rewrite bool_decide_false by (by intros [? ?]). rewrite andb_false_r.
  destruct (Z.leb_spec (ChannelInvite.expires_at i) (clock (clock_at s2))); [lia|].
  destruct (ChannelInvite.invited_user_id i) as [target|]; [by rewrite bool_decide_true|].
  destruct (ChannelInvite.invited_email i); [|done]. destruct Hfor. by rewrite !bool_decide_true.
Qed.

(** A targeted invite is used once: after somebody accepted it, the row is
    marked as accepted and no account, the same one included, passes the
    validation with that token again. *)
Theorem targeted_invite_is_single_use tok u s m s' k i :
  tokens_unique (work s) -> channel_invites (work s) !! k = Some i ->
  sha256_hex tok = inr (ChannelInvite.token_hash i) -> _is_generic_invite i = false ->
  accept_invite tok u s = (inr m, s') ->
  (exists now, channel_invites (durable s') !! k = Some (i <| ChannelInvite.accepted_at := Some now |>))
  /\ forall v s2, work s2 = durable s' ->
       is_ok (_validate_invite (ChannelInvite.channel_id i) tok v s2).1 = false.
Proof.
  intros Hun Hk Hh Hg ([k' i'] & h & Hk' & Hh' & Ht & Hmark)%accept_marks. cbn [fst snd] in *.
  assert (h = ChannelInvite.token_hash i) as -> by congruence.
  assert (k' = k) as -> by (by eapply Hun). assert (i' = i) as -> by congruence.
  destruct (Hmark Hg) as [now E]. split; [exists now; by rewrite E, lookup_insert_eq|].
  intros v s2 Hw2. destruct (_validate_invite _ tok v s2) as [[e|[k2 i2]] s3] eqn:Ev; [done|]. exfalso.
  destruct (validate_invite_found _ _ _ _ _ _ Ev) as (h2 & Hh2 & Ht2).
  apply validate_invite_ok in Ev as (Hk2 & (_ & now2 & usr & _ & Hck) & _). cbn [fst snd] in *.
  rewrite Hw2, E in Hk2. apply lookup_insert_Some in Hk2 as [[<- <-]|[Hne Hk2]].
  - unfold check_invite in Hck. destruct (bool_decide (is_Some (ChannelInvite.revoked_at _))); [done|].
    assert (Hg2 : _is_generic_invite (i <| ChannelInvite.accepted_at := Some now |>) = false) by exact Hg.
    rewrite Hg2 in Hck. rewrite bool_decide_true in Hck by (by eexists). done.
  - apply Hne. eapply Hun; [exact Hk|exact Hk2|]. congruence.
Qed.
End ChannelProperties.

(** ** Concrete runs *)

Section Demo.
Local Existing Instances still_world ascii_ucd demo_settings.

Definition demo_open (db : Store) : Session := open_session (H := still_world) db tt.



Lemma demo_wf : channels_wf demo_store.
Proof.
  split.
  - intros c u m. cbn [channel_memberships demo_store upd]. rewrite !lookup_insert_Some, lookup_singleton_Some.
    intros [[[= <- <-] <-]|[_ [[[= <- <-] <-]|[_ [[= <- <-] <-]]]]]; exists demo_channel; by split.
  - intros k1 k2 c1 c2. cbn [channels demo_store upd]. rewrite !lookup_singleton_Some. by intros [<- <-] [<- <-].
  - intros k c. cbn [channels demo_store upd]. rewrite lookup_singleton_Some. by intros [<- <-].
Qed.

Lemma channels_stay_wf_witness :
  channels_wf (durable (fold_left (fun s o => (request o s).2)
    [OpJoin 7 5 None; OpPromote 7 3 5; OpRemove 7 5 3; OpLeave 7 4] demo_session)).
Proof. apply (channels_stay_wf _ demo_session); [reflexivity|apply demo_wf]. Defined.

Definition generic_request : InviteRequest :=
  {| ir_invited_user_id := None; ir_invited_email := None; ir_expires_in_hours := 72 |}.

Lemma invite_token_roundtrip_witness :
  exists i tok s' s3, create_invite 7 3 generic_request demo_session = (inr (i, tok), s')
    /\ _validate_invite 7 tok 5 (demo_open (durable s')) = (inr (ChannelInvite.id i, i), s3).
Proof.
  destruct (create_invite 7 3 generic_request demo_session) as [[e|[i tok]] s'] eqn:E.
  { exfalso. assert (X : is_ok (create_invite 7 3 generic_request demo_session).1 = true) by (vm_compute; reflexivity).
    rewrite E in X. discriminate X. }
  assert (Hf : match (create_invite 7 3 generic_request demo_session).1 with
    | inr (i, _) => ChannelInvite.expires_at i = 1735948800000000 /\ ChannelInvite.invited_user_id i = None
                    /\ ChannelInvite.invited_email i = None
    | inl _ => False end) by (vm_compute; split_and!; reflexivity).
  rewrite E in Hf. destruct Hf as (Hexp & Hnu & Hne).
  assert (Hu : users (work (demo_open (durable s'))) !! 5%N = Some (demo_user 5 "carol")).
  { assert (X : users (durable (create_invite 7 3 generic_request demo_session).2) !! 5%N
      = Some (demo_user 5 "carol")) by (vm_compute; reflexivity).
    rewrite E in X. exact X. }
  destruct (invite_token_roundtrip 7 3 generic_request demo_session i tok s' 5 (demo_user 5 "carol")
    (demo_open (durable s')) E eq_refl Hu) as (_ & s3 & Hv & _).
  - rewrite Hexp. vm_compute. reflexivity.
  - rewrite Hnu, Hne. exact I.
  - exists i, tok, s', s3. split; [reflexivity|exact Hv].
Defined.

(** A pending invite for carol, with the token [t]. *)
Definition demo_invite : ChannelInvite.t :=
  ChannelInvite.Row 60 7 (Some 5%N) None (sha256_hexdigest (py "t")) (py "t") (py "t") 3 0 1735948800000000 None None.
Definition invite_session : Session := demo_open (demo_store <| channel_invites := {[60%N := demo_invite]} |>).

Lemma targeted_invite_is_single_use_witness :
  exists m s', accept_invite (py "t") 5 invite_session = (inr m, s')
    /\ is_ok (_validate_invite 7 (py "t") 5 (demo_open (durable s'))).1 = false.
Proof.
  destruct (accept_invite (py "t") 5 invite_session) as [[e|m] s'] eqn:E.
  { exfalso. assert (X : is_ok (accept_invite (py "t") 5 invite_session).1 = true) by (vm_compute; reflexivity).
    rewrite E in X. discriminate X. }
  exists m, s'. split; [reflexivity|].
  destruct (targeted_invite_is_single_use (py "t") 5 invite_session m s' 60 demo_invite) as [_ Hv].
  - intros k1 k2 i1 i2. cbn. rewrite !lookup_singleton_Some. by intros [<- _] [<- _].
  - reflexivity.
  - reflexivity.
  - reflexivity.
  - exact E.
  - exact (Hv 5%N (demo_open (durable s')) eq_refl).
Defined.

(** ** Behaviours worth knowing *)

Definition role_in (r : res unit * Session) (c u : N) : option MembershipRole :=
  ChannelMembership.role <$> channel_memberships (durable r.2) !! (c, u).

(** [add_member_direct] checks only that the actor manages members: dave, an
    admin with the default permissions, turns alice, the owner, into a plain
    member, and the channel has no owner membership any more. *)
Lemma admin_can_demote_owner :
  role_in (run_op (OpAdd 7 6 3) demo_session) 7 3 = Some member.
Proof. vm_compute. reflexivity. Qed.

(** Accepting a targeted invite demotes an existing administrator. *)
Lemma accepting_invite_demotes_admin :
  role_in (run_op (OpAccept (py "t") 6) (demo_open (demo_store <| channel_invites :=
    {[60%N := demo_invite <| ChannelInvite.invited_user_id := Some 6%N |>]} |>))) 7 6 = Some member.
Proof. vm_compute. reflexivity. Qed.

(** The audit event of a new invite names no invite. *)
Lemma invite_created_event_has_no_id :
  let s' := (run_op (OpInvite 7 3 generic_request) demo_session).2 in
  Event.payload <$> rows (events (durable s'))
  = [PDict [(py "channel_id", PStr (uuid_str 7)); (py "invite_id", PStr (py "None"))]].
Proof. vm_compute. reflexivity. Qed.
End Demo.
