(* ===== verification/Messages.v ===== *)
(** * Messages (backend/app/services/message_service.py)

    Publishing with per-channel sequence numbers, history, read markers, edits,
    tombstones, reactions and pins.  Row locks are not modelled: operations on
    one channel run one after the other, as the locks make them do. *)

From S2P Require Import Prelude PyStr Json Models Session EventIntegrity Identifiers Rbac.
From S2P Require Import Outbox Encryption Uploads Channels.
Local Open Scope Z_scope.

(** ** Requests *)

Record PublishMessageRequest := {
  pm_content_text : option pystr; pm_content_json : option pyval; pm_reply_to_message_id : option N;
  pm_reply_to_seq_id : option Z; pm_attachments : option (list N); pm_client_msg_id : option N
}.
Record MessagePatchRequest := { mp_content_text : option pystr; mp_content_json : option pyval }.
(** [sr_last_seen_at] is a UTC instant. *)
Record SeenRequest := { sr_last_seen_message_id : option N; sr_last_seen_seq_id : option Z; sr_last_seen_at : option Z }.

(** ** Serialisation *)

(** [dt.isoformat()] of a UTC datetime. *)
Definition isoformat (t : instant) : pystr :=
  let clock := drop 11 (iso_us t) in
  take 10 (iso_us t) ++ [84] ++ (if t mod 1000000 =? 0 then take 8 clock else clock) ++ py "+00:00".

Definition opt_iso (t : option Z) : pyval := match t with Some t => PStr (isoformat t) | None => PNone end.
Definition opt_int (n : option Z) : pyval := match n with Some n => PInt n | None => PNone end.

Definition is_deleted (m : Message.t) : bool := bool_decide (is_Some (Message.deleted_at m)).

Definition sender_profile : Type := option pystr * option pystr * option pystr.

Definition _serialize_message_for_outbox (m : Message.t) (sender : sender_profile) : list (list Z * pyval) :=
  let '(sender_username, sender_display_name, sender_avatar_url) := sender in
  [(py "id", str_id (Message.id m)); (py "channel_id", str_id (Message.channel_id m));
   (py "sender_user_id", str_id (Message.sender_user_id m)); (py "sender_username", opt_str sender_username);
   (py "sender_display_name", opt_str sender_display_name); (py "sender_avatar_url", opt_str sender_avatar_url);
   (py "seq_id", PInt (Message.seq_id m)); (py "content_type", PStr (content_type_value (Message.content_type m)));
   (py "content_text", if is_deleted m then PNone else opt_str (Message.content_text m));
   (py "content_json", if is_deleted m then PNone else Message.content_json m);
   (py "reply_to_message_id", opt_id (Message.reply_to_message_id m));
   (py "reply_to_seq_id", opt_int (Message.reply_to_seq_id m));
   (py "attachments", if is_deleted m then PNone else Message.attachments m);
   (py "is_pinned", PBool (Message.is_pinned m)); (py "client_msg_id", opt_id (Message.client_msg_id m));
   (py "created_at", PStr (isoformat (Message.created_at m)));
   (py "updated_at", PStr (isoformat (Message.updated_at m)));
   (py "edited_at", opt_iso (Message.edited_at m)); (py "deleted_at", opt_iso (Message.deleted_at m));
   (py "reactions_summary", PDict [(py "counts", PDict []); (py "my_reaction", PList [])])].

(** ** Queries *)

Definition message_not_found : exc := AppError 404 "MESSAGE_NOT_FOUND".
Definition invalid : exc := AppError 400 "VALIDATION_ERROR".

Definition messages_of (channel_id : N) (p : Message.t -> bool) (st : Store) : list Message.t :=
  List.filter (fun m => bool_decide (Message.channel_id m = channel_id) && p m) (rows (messages st)).

Definition by_seq (l : list Message.t) : list Message.t := order_by (fun m => [Message.seq_id m]) l.
Definition by_seq_desc (l : list Message.t) : list Message.t := order_by (fun m => [- Message.seq_id m]) l.

Definition same_client_msg (channel_id sender_id client_msg_id : N) (m : Message.t) : bool :=
  bool_decide (Message.channel_id m = channel_id) && bool_decide (Message.sender_user_id m = sender_id)
  && bool_decide (Message.client_msg_id m = Some client_msg_id).

(** The unread messages after a marker: replies do not count. *)
Definition unread_after (channel_id : N) (seen_seq : Z) (st : Store) : Z :=
  Z.of_nat (length (messages_of channel_id (fun m => negb (is_deleted m) && (seen_seq <? Message.seq_id m)
    && bool_decide (Message.reply_to_message_id m = None) && bool_decide (Message.reply_to_seq_id m = None)) st)).

(** ** Reactions *)

Record ReactionSummary := { rs_counts : list (list Z * Z); rs_my_reaction : list (list Z) }.
Definition summary_value (r : ReactionSummary) : pyval :=
  PDict [(py "counts", PDict ((fun kc => (kc.1, PInt kc.2)) <$> rs_counts r));
         (py "my_reaction", PList (PStr <$> rs_my_reaction r))].

Definition reactions_of (message_id : N) (st : Store) : list MessageReaction.t :=
  List.filter (fun r => bool_decide (MessageReaction.message_id r = message_id)) (rows (message_reactions st)).
Definition distinct_emoji (message_id : N) (st : Store) : list (list Z) :=
  order_by id (remove_dups (MessageReaction.emoji <$> reactions_of message_id st)).

(** [GROUP BY emoji] and the caller's own, in the order of the emoji. *)
Definition _reaction_summary (message_id actor_user_id : N) (st : Store) : ReactionSummary :=
  {| rs_counts := (fun e => (e, count_where (fun r => str_eqb (MessageReaction.emoji r) e) (reactions_of message_id st)))
                    <$> distinct_emoji message_id st;
     rs_my_reaction := order_by id (MessageReaction.emoji <$>
       List.filter (fun r => bool_decide (MessageReaction.user_id r = actor_user_id)) (reactions_of message_id st)) |}.

Definition is_emoji_base (c : Z) : bool :=
  ((0x1F000 <=? c) && (c <=? 0x1FAFF)) || ((0x2600 <=? c) && (c <=? 0x27BF)) || ((0x2300 <=? c) && (c <=? 0x23FF))
  || ((0x1F1E6 <=? c) && (c <=? 0x1F1FF)) || existsb (Z.eqb c) [0x00A9; 0x00AE; 0x203C; 0x2049; 0x2122; 0x2139].
Definition allowed_composition (c : Z) : bool :=
  existsb (Z.eqb c) [0x200D; 0xFE0F; 0x20E3] || ((0x1F3FB <=? c) && (c <? 0x1F400)).

(** core/payload_limits.normalize_reaction; [ucd_is_control] is a category
    starting with C. *)
Definition normalize_reaction `{UnicodeData} (value : pystr) : res pystr :=
  let emoji := strip value in
  let err := ValueError "emoji" in
  if str_eqb emoji [] then raise err
  else if (16 <? Z.of_nat (length emoji))
          || match utf8_encode emoji with Some bs => 64 <? Z.of_nat (length bs) | None => true end then raise err
  else if existsb (fun c => isspace c || (ucd_is_control c && negb (c =? 0x200D))) emoji then raise err
  else if negb (existsb is_emoji_base emoji) then raise err
  else if existsb (fun c => negb (is_emoji_base c) && negb (allowed_composition c)) emoji then raise err
  else mret emoji.

(** An [UPDATE] computes [messages.updated_at] in the server ([onupdate]), which
    expires the attribute of the object.  Whether the object relation mapper
    reloads it when it is read next, or raises as SQLAlchemy documents for an
    [AsyncSession], is a parameter. *)
Class Orm := { reloads_expired : bool }.

Section Messages.
Context `{World} `{UnicodeData} `{BackendSettings} `{Crypto} `{EncryptionSettings} `{Orm}.

Definition _safe_log_event (event_type : string) (payload : list (list Z * pyval)) (channel_id actor : N)
    (with_commit : bool) : M unit :=
  try_except
    (_ ← log_event (py event_type) (PDict payload) (Some channel_id) (Some actor);
     if with_commit then commit else mret tt)
    (fun _ => rollback).

Definition _encrypt_payload (content_text : option pystr) (content_json : option pyval) : M (option pystr * pyval) :=
  match content_text, content_json with
  | Some text, _ => c ← encrypt_message text; mret (Some c, PNone)
  | None, Some v => c ← encrypt_json_payload v; mret (None, c)
  | None, None => mret (None, PNone)
  end.

(** [except AppError: await _safe_log_event(...); raise]. *)
Definition encrypt_or_log (content_text : option pystr) (content_json : option pyval) (channel_id actor : N)
    (payload : list (list Z * pyval)) : M (option pystr * pyval) :=
  try_except (_encrypt_payload content_text content_json)
    (fun e =>
       match e with
       | AppError _ _ => _safe_log_event "message.encryption_failed" payload channel_id actor false ;; throw e
       | _ => throw e
       end).

Definition _load_sender_profile (sender_user_id : N) : M sender_profile :=
  u ← get_user sender_user_id;
  mret match u with
       | None => (None, None, None)
       | Some u => (Some (User.username u), User.display_name u, User.avatar_url u)
       end.

Definition _resolve_reply_target (channel_id : N) (reply_to_message_id : option N) (reply_to_seq_id : option Z)
  : M (option N * option Z) :=
  match reply_to_message_id, reply_to_seq_id with
  | None, None => mret (None, None)
  | Some id, _ =>
      target ← gets (fun st => messages st !! id);
      target ← of_option message_not_found target;
      guard (bool_decide (Message.channel_id target = channel_id) && negb (is_deleted target)) message_not_found ;;
      guard (match reply_to_seq_id with Some n => Message.seq_id target =? n | None => true end) invalid ;;
      mret (Some (Message.id target), Some (Message.seq_id target))
  | None, Some n =>
      target ← gets (fun st => head (messages_of channel_id (fun m => (Message.seq_id m =? n) && negb (is_deleted m)) st));
      target ← of_option message_not_found target;
      mret (Some (Message.id target), Some (Message.seq_id target))
  end.

(** [db.add(message); await db.flush()] with the unique constraints. *)
Definition insert_message (m : Message.t) : M unit :=
  st ← gets id;
  guard (negb (existsb (fun x => bool_decide (Message.channel_id x = Message.channel_id m)
                                 && (Message.seq_id x =? Message.seq_id m)) (rows (messages st))))
    (IntegrityError "uq_messages_channel_seq") ;;
  guard (match Message.client_msg_id m with
         | Some cid => negb (existsb (same_client_msg (Message.channel_id m) (Message.sender_user_id m) cid) (rows (messages st)))
         | None => true
         end) (IntegrityError "uq_messages_client_msg_not_null") ;;
  insert_row "messages_pkey" messages (upd messages) (Message.id m) m.

(** [UPDATE messages SET ... WHERE id = ...] of the attributes that [f] sets. *)
Definition update_message (message_id : N) (f : Message.t -> Message.t) : M unit :=
  modify (fun st => st <| messages ::= alter f message_id |>).

Definition add_attachment (message_id channel_id upload_id : N) : M unit :=
  now ← utcnow;
  insert_row "message_attachments_pkey" message_attachments (upd message_attachments) (message_id, upload_id)
    (MessageAttachment.Row message_id upload_id channel_id now).

(** The update message that edits, tombstones and pins broadcast. *)
Definition broadcast_message (type : string) (channel_id : N) (m : Message.t) : M unit :=
  sender ← _load_sender_profile (Message.sender_user_id m);
  _ ← enqueue_message_outbox (Message.id m) channel_id
        ((py "type", PStr (py type)) :: _serialize_message_for_outbox m sender);
  mret tt.

Definition attachments_column (a : option (list pyval)) : pyval :=
  match a with Some l => PList l | None => PNone end.

(** The message an earlier request with the same client identifier stored. *)
Definition find_client_msg (channel_id sender_id : N) (client_msg_id : option N) : M (option Message.t) :=
  match client_msg_id with
  | Some cid => gets (fun st => head (List.filter (same_client_msg channel_id sender_id cid) (rows (messages st))))
  | None => mret None
  end.

(** The part of [publish_message] after the permission and retry checks. *)
Definition publish_new (channel : Channel.t) (channel_id sender_id : N) (req : PublishMessageRequest) : M Message.t :=
  attachments ← _normalize_attachments sender_id (pm_attachments req);
  '(reply_id, reply_seq) ← _resolve_reply_target channel_id (pm_reply_to_message_id req) (pm_reply_to_seq_id req);
  let seq_id := Channel.last_seq_id channel + 1 in
  put_channel channel_id (channel <| Channel.last_seq_id := seq_id |>) ;;
  '(text, json) ← encrypt_or_log (pm_content_text req) (pm_content_json req) channel_id sender_id
                    [(py "channel_id", str_id channel_id)];
  let content_type := match pm_content_json req with Some _ => json_ | None => text_ end in
  id ← uuid4;
  now ← utcnow;
  let message := Message.Row id channel_id sender_id seq_id content_type text json reply_id reply_seq
                   (attachments_column attachments) false (pm_client_msg_id req) now now None None in
  insert_message message ;;
  for_each (match pm_attachments req, attachments with Some ids, Some (_ :: _) => ids | _, _ => [] end)
    (fun upload_id => add_attachment id channel_id upload_id) ;;
  broadcast_message "message" channel_id message ;;
  _ ← log_event (py "message.published")
        (PDict [(py "message_id", str_id id); (py "channel_id", str_id channel_id); (py "seq_id", PInt seq_id);
                (py "content_type", PStr (content_type_value content_type));
                (py "attachment_count", PInt (Z.of_nat (length (default [] attachments))));
                (py "reply_to_message_id", opt_id reply_id); (py "reply_to_seq_id", opt_int reply_seq)])
        (Some channel_id) (Some sender_id);
  try_except (commit ;; mret message)
    (fun e =>
       match e with
       | IntegrityError _ =>
           rollback ;;
           conflict ← find_client_msg channel_id sender_id (pm_client_msg_id req);
           of_option (AppError 409 "CONFLICT") conflict
       | _ => throw e
       end).

Definition may_publish (membership : option ChannelMembership.t) (req : PublishMessageRequest) : bool :=
  let role := ChannelMembership.role <$> membership in
  let is_member_reply :=
    bool_decide (role = Some member)
    && (bool_decide (is_Some (pm_reply_to_message_id req)) || bool_decide (is_Some (pm_reply_to_seq_id req))) in
  can_publish role match membership with Some m => ChannelMembership.admin_permissions m | None => PNone end
  || is_member_reply.

Definition publish_message (channel_id sender_id : N) (req : PublishMessageRequest) : M Message.t :=
  channel ← _get_channel_for_update channel_id;
  membership ← get_membership channel_id sender_id;
  if may_publish membership req then
    existing ← find_client_msg channel_id sender_id (pm_client_msg_id req);
    match existing with
    | Some m => mret m
    | None => publish_new channel channel_id sender_id req
    end
  else
    _safe_log_event "security.unauthorized_publish"
      [(py "channel_id", str_id channel_id); (py "reason", PStr (py "insufficient_permissions"))]
      channel_id sender_id true ;;
    throw forbidden.

(** ** Reading *)

Definition _assert_can_read (channel_id user_id : N) : M MembershipRole :=
  _ ← _get_channel_for_update channel_id;
  membership ← get_membership channel_id user_id;
  match membership with
  | Some m =>
      if approved (ChannelMembership.role m) then mret (ChannelMembership.role m)
      else
        _safe_log_event "security.unauthorized_read"
          [(py "channel_id", str_id channel_id); (py "reason", PStr (py "insufficient_permissions"))]
          channel_id user_id true ;;
        throw forbidden
  | None =>
      _safe_log_event "security.unauthorized_read"
        [(py "channel_id", str_id channel_id); (py "reason", PStr (py "insufficient_permissions"))]
        channel_id user_id true ;;
      throw forbidden
  end.

Definition get_message (channel_id user_id message_id : N) : M Message.t :=
  _ ← _assert_can_read channel_id user_id;
  m ← gets (fun st => messages st !! message_id);
  m ← of_option message_not_found m;
  guard (bool_decide (Message.channel_id m = channel_id)) message_not_found ;;
  mret m.

Record MessagePage := { pg_items : list Message.t; pg_next_before : option Z; pg_next_after : option Z; pg_has_more : bool }.

(** The query of [list_messages]. *)
Definition select_page (channel_id : N) (before_seq_id after_seq_id : option Z) (ascending : bool) (st : Store)
  : list Message.t :=
  let l := messages_of channel_id (fun m => negb (is_deleted m)
             && match before_seq_id with Some b => Message.seq_id m <? b | None => true end
             && match after_seq_id with Some a => a <? Message.seq_id m | None => true end) st in
  if ascending then by_seq l else by_seq_desc l.

(** [min] and [max] of the sequence numbers of a page. *)
Definition seq_min (l : list Message.t) : option Z :=
  match l with m :: l => Some (foldr (fun m acc => Z.min (Message.seq_id m) acc) (Message.seq_id m) l) | [] => None end.
Definition seq_max (l : list Message.t) : option Z :=
  match l with m :: l => Some (foldr (fun m acc => Z.max (Message.seq_id m) acc) (Message.seq_id m) l) | [] => None end.

Definition list_messages (channel_id user_id : N) (before_seq_id after_seq_id : option Z) (limit : nat)
    (order : option pystr) : M MessagePage :=
  _ ← _assert_can_read channel_id user_id;
  let order := match order with
               | Some o => o
               | None => match after_seq_id with Some _ => py "asc" | None => py "desc" end
               end in
  guard (bool_decide (order ∈ [py "asc"; py "desc"])) invalid ;;
  let ascending := str_eqb order (py "asc") in
  values ← gets (fun st => take (limit + 1) (select_page channel_id before_seq_id after_seq_id ascending st));
  let page := take limit values in
  mret {| pg_items := page;
          pg_next_before := if ascending then None else seq_min page;
          pg_next_after := if ascending then seq_max page else None;
          pg_has_more := (limit <? length values)%nat |}.

Definition messages_around (channel_id user_id : N) (seq_id : Z) (limit_before limit_after : nat) : M (list Message.t) :=
  _ ← _assert_can_read channel_id user_id;
  gets (fun st =>
    let live p := messages_of channel_id (fun m => p (Message.seq_id m) && negb (is_deleted m)) st in
    rev (take limit_before (by_seq_desc (live (fun n => n <? seq_id))))
    ++ take 1 (live (fun n => n =? seq_id))
    ++ take limit_after (by_seq (live (fun n => seq_id <? n)))).

(** ** Read markers *)

(** The marker the request names, by message or by number. *)
Definition requested_marker (channel_id : N) (req : SeenRequest) : M (option Z * option N * bool) :=
  '(requested_seq, requested_message_id) ←
    (match sr_last_seen_message_id req with
     | Some mid =>
         m ← gets (fun st => messages st !! mid);
         m ← of_option message_not_found m;
         guard (bool_decide (Message.channel_id m = channel_id)) message_not_found ;;
         mret (Some (Message.seq_id m), Some (Message.id m))
     | None => mret (None, None)
     end);
  match sr_last_seen_seq_id req with
  | Some n => mret (Some n, requested_message_id, true)
  | None => mret (requested_seq, requested_message_id, false)
  end.

Definition seen_payload (channel_id user_id : N) (state : UserChannelState.t) : list (list Z * pyval) :=
  [(py "type", PStr (py "seen")); (py "channel_id", str_id channel_id); (py "user_id", str_id user_id);
   (py "last_seen_message_id", opt_id (UserChannelState.last_seen_message_id state));
   (py "last_seen_seq_id", opt_int (UserChannelState.last_seen_seq_id state));
   (py "unread_count", PInt (UserChannelState.unread_count state));
   (py "last_seen_at", opt_iso (UserChannelState.last_seen_at state))].

Definition put_state (channel_id user_id : N) (state : UserChannelState.t) : M unit :=
  modify (fun st => st <| user_channel_state ::= <[(channel_id, user_id) := state]> |>).

(** The part of [mark_seen] that moves the marker forward. *)
Definition move_marker (channel_id user_id : N) (req : SeenRequest) (requested_seq : Z) (message_id : option N)
  : M UserChannelState.t :=
  seen_at ← (match sr_last_seen_at req with Some t => mret t | None => utcnow end);
  unread ← gets (unread_after channel_id requested_seq);
  let state := UserChannelState.Row channel_id user_id message_id (Some requested_seq) (Some seen_at) unread in
  put_state channel_id user_id state ;;
  event_id ← uuid4;
  _ ← enqueue_channel_event_outbox event_id channel_id (py "seen") (seen_payload channel_id user_id state);
  commit ;;
  mret state.

Definition mark_seen (channel_id user_id : N) (req : SeenRequest) : M UserChannelState.t :=
  _ ← _assert_can_read channel_id user_id;
  channel ← get_channel channel_id;
  channel ← of_option (AppError 404 "CHANNEL_NOT_FOUND") channel;
  state ← gets (fun st => user_channel_state st !! (channel_id, user_id));
  '(requested_seq, requested_message_id, clear_message_id) ← requested_marker channel_id req;
  guard (match requested_seq with Some n => negb (Channel.last_seq_id channel <? n) | None => true end) invalid ;;
  requested_seq ← of_option invalid requested_seq;
  let message_id := if (clear_message_id : bool) then None else requested_message_id in
  let current_seen_seq := match state with
                          | Some u => default 0 (UserChannelState.last_seen_seq_id u)
                          | None => -1
                          end in
  match state with
  | Some u =>
      if requested_seq <=? current_seen_seq then mret u
      else move_marker channel_id user_id req requested_seq message_id
  | None => move_marker channel_id user_id req requested_seq message_id
  end.

(** ** Edits and tombstones *)

Definition moderates (role : MembershipRole) : bool := bool_decide (role ∈ [owner; admin]).

Definition edit_message (channel_id actor_user_id message_id : N) (req : MessagePatchRequest) : M Message.t :=
  role ← _assert_can_read channel_id actor_user_id;
  message ← gets (fun st => messages st !! message_id);
  message ← of_option message_not_found message;
  guard (bool_decide (Message.channel_id message = channel_id) && negb (is_deleted message)) message_not_found ;;
  guard (bool_decide (Message.sender_user_id message = actor_user_id) || moderates role) forbidden ;;
  '(text, json) ← encrypt_or_log (mp_content_text req) (mp_content_json req) channel_id actor_user_id
                    [(py "channel_id", str_id channel_id); (py "message_id", str_id message_id)];
  edited ← utcnow;
  updated ← utcnow;
  let change (m : Message.t) :=
    m <| Message.content_type := match mp_content_text req with Some _ => text_ | None => json_ end |>
      <| Message.content_text := text |> <| Message.content_json := json |>
      <| Message.edited_at := Some edited |> <| Message.updated_at := updated |> in
  update_message message_id change ;;
  broadcast_message "message_updated" channel_id (change message) ;;
  commit ;;
  mret (change message).

Definition delete_message (channel_id actor_user_id message_id : N) : M Message.t :=
  role ← _assert_can_read channel_id actor_user_id;
  message ← gets (fun st => messages st !! message_id);
  message ← of_option message_not_found message;
  guard (bool_decide (Message.channel_id message = channel_id)) message_not_found ;;
  guard (bool_decide (Message.sender_user_id message = actor_user_id) || moderates role) forbidden ;;
  if is_deleted message then mret message
  else
    now ← utcnow;
    let change (m : Message.t) :=
      m <| Message.deleted_at := Some now |> <| Message.updated_at := now |>
        <| Message.content_text := None |> <| Message.content_json := PNone |> in
    update_message message_id change ;;
    broadcast_message "message_updated" channel_id (change message) ;;
    commit ;;
    mret (change message).

(** ** Reactions *)

Definition my_reaction (message_id user_id : N) (emoji : pystr) (r : MessageReaction.t) : bool :=
  bool_decide (MessageReaction.message_id r = message_id) && bool_decide (MessageReaction.user_id r = user_id)
  && str_eqb (MessageReaction.emoji r) emoji.

(** [except ValueError as exc: raise AppError(..., 400)]. *)
Definition checked_reaction (emoji : pystr) : M pystr :=
  match normalize_reaction emoji with
  | inr e => mret e
  | inl (ValueError _) => throw invalid
  | inl e => throw e
  end.

Definition live_message (channel_id message_id : N) : M Message.t :=
  message ← gets (fun st => messages st !! message_id);
  message ← of_option message_not_found message;
  guard (bool_decide (Message.channel_id message = channel_id) && negb (is_deleted message)) message_not_found ;;
  mret message.

Definition broadcast_reactions (channel_id message_id : N) (summary : ReactionSummary) : M unit :=
  _ ← enqueue_message_outbox message_id channel_id
        [(py "type", PStr (py "reaction_updated")); (py "channel_id", str_id channel_id);
         (py "message_id", str_id message_id); (py "reactions_summary", summary_value summary)];
  mret tt.

Definition add_reaction (channel_id message_id actor_user_id : N) (emoji : pystr) : M ReactionSummary :=
  emoji ← checked_reaction emoji;
  _ ← _assert_can_read channel_id actor_user_id;
  _ ← live_message channel_id message_id;
  existing ← gets (fun st => existsb (my_reaction message_id actor_user_id emoji) (rows (message_reactions st)));
  if (existing : bool) then gets (_reaction_summary message_id actor_user_id)
  else
    distinct ← gets (distinct_emoji message_id);
    guard (bool_decide (emoji ∈ distinct)
           || negb (max_distinct_reactions_per_message <=? Z.of_nat (length distinct)))
      (AppError 409 "REACTION_QUOTA_EXCEEDED") ;;
    id ← uuid4;
    now ← utcnow;
    insert_row "message_reactions_pkey" message_reactions (upd message_reactions) id
      (MessageReaction.Row id channel_id message_id actor_user_id emoji now) ;;
    summary ← gets (_reaction_summary message_id actor_user_id);
    broadcast_reactions channel_id message_id summary ;;
    commit ;;
    mret summary.

Definition remove_reaction (channel_id message_id actor_user_id : N) (emoji : pystr) : M ReactionSummary :=
  emoji ← checked_reaction emoji;
  _ ← _assert_can_read channel_id actor_user_id;
  _ ← live_message channel_id message_id;
  deleted ← gets (fun st => count_where (my_reaction message_id actor_user_id emoji) (rows (message_reactions st)));
  modify (fun st => st <| message_reactions ::=
    base.filter (fun kr => my_reaction message_id actor_user_id emoji kr.2 = false) |>) ;;
  summary ← gets (_reaction_summary message_id actor_user_id);
  if 0 <? deleted then
    broadcast_reactions channel_id message_id summary ;;
    commit ;;
    mret summary
  else mret summary.

(** ** Pins *)

(** [message.is_pinned = flag; await db.flush()], then the serializer reads
    [message.updated_at]. *)
Definition set_pinned (message : Message.t) (flag : bool) : M Message.t :=
  if Bool.eqb (Message.is_pinned message) flag then mret message
  else
    now ← utcnow;
    let change (m : Message.t) := m <| Message.is_pinned := flag |> <| Message.updated_at := now |> in
    update_message (Message.id message) change ;;
    guard reloads_expired (MissingGreenlet "updated_at") ;;
    mret (change message).

Definition pin_message (channel_id message_id actor_user_id : N) : M unit :=
  role ← _assert_can_read channel_id actor_user_id;
  guard (moderates role) forbidden ;;
  message ← gets (fun st => messages st !! message_id);
  message ← of_option message_not_found message;
  guard (bool_decide (Message.channel_id message = channel_id)) message_not_found ;;
  existing ← gets (fun st => pinned_messages st !! (channel_id, message_id));
  (match existing with
   | Some _ => mret tt
   | None =>
       now ← utcnow;
       modify (fun st => st <| pinned_messages ::=
         <[(channel_id, message_id) := PinnedMessage.Row channel_id message_id actor_user_id now]> |>)
   end) ;;
  message ← set_pinned message true;
  broadcast_message "message_updated" channel_id message ;;
  commit.

Definition unpin_message (channel_id message_id actor_user_id : N) : M unit :=
  role ← _assert_can_read channel_id actor_user_id;
  guard (moderates role) forbidden ;;
  message ← gets (fun st => messages st !! message_id);
  modify (fun st => st <| pinned_messages ::= delete (channel_id, message_id) |>) ;;
  (match message with
   | Some message =>
       if bool_decide (Message.channel_id message = channel_id) then
         message ← set_pinned message false;
         broadcast_message "message_updated" channel_id message
       else mret tt
   | None => mret tt
   end) ;;
  commit.

Definition list_pins (channel_id actor_user_id : N) (limit : nat) : M (list Message.t) :=
  _ ← _assert_can_read channel_id actor_user_id;
  gets (fun st =>
    let pins := List.filter (fun p => bool_decide (PinnedMessage.channel_id p = channel_id)) (rows (pinned_messages st)) in
    take limit (omap (fun p => m ← messages st !! PinnedMessage.message_id p;
                               if bool_decide (Message.channel_id m = channel_id) then Some m else None)
                  (order_by (fun p => [- PinnedMessage.created_at p]) pins))).

(** ** Synchronisation *)

Definition PROTOCOL_CHANNEL_ARRAY_MAX : Z := 100.

Record SyncRequest := { sy_channels : list (N * option Z); sy_limit : nat }.

(** [{entry.channel_id: int(entry.last_seen_seq_id or 0) for entry in channels}]. *)
Definition channel_state (req : SyncRequest) : gmap N Z :=
  foldl (fun d e => <[e.1 := default 0 e.2]> d) ∅ (sy_channels req).

Definition membership_map (actor_user_id : N) (st : Store) : list N :=
  ChannelMembership.channel_id <$>
    List.filter (fun m => bool_decide (ChannelMembership.user_id m = actor_user_id) && approved (ChannelMembership.role m))
      (rows (channel_memberships st)).

Definition selected_channels (actor_user_id : N) (req : SyncRequest) (st : Store) : list N :=
  let joined := membership_map actor_user_id st in
  match sy_channels req with
  | [] => take (Z.to_nat PROTOCOL_CHANNEL_ARRAY_MAX) (order_by uuid_str joined)
  | _ => order_by uuid_str (List.filter (fun c => bool_decide (c ∈ joined)) (map_to_list (channel_state req)).*1)
  end.

Definition _fetch_sync_message_page (channel_id : N) (after_seq_id : Z) (limit : nat) (st : Store) : list Message.t :=
  take (Nat.max 1 limit)
    (order_by (fun m => [Message.seq_id m; Z.of_N (Message.id m)])
       (messages_of channel_id (fun m => (after_seq_id <? Message.seq_id m) && negb (is_deleted m)) st)).

(** The loop that spends one budget over the selected channels. *)
Fixpoint sync_pages (state : gmap N Z) (selected : list N) (remaining : nat) (st : Store) : list Message.t :=
  match selected with
  | [] => []
  | cid :: selected =>
      if (remaining <=? 0)%nat then []
      else
        let page := _fetch_sync_message_page cid (default 0 (state !! cid)) remaining st in
        page ++ sync_pages state selected (remaining - length page) st
  end.

(** The messages of the answer to [sync]. *)
Definition sync_messages (actor_user_id : N) (req : SyncRequest) : M (list Message.t) :=
  gets (fun st => sync_pages (channel_state req) (selected_channels actor_user_id req st) (sy_limit req) st).

End Messages.
