(* ===== verification/MessageProps.v ===== *)
(** * Properties of messages

    The committed messages of a channel are an append-only log without gaps;
    retried publications, paging, read markers and synchronisation are proved
    against it. *)

From S2P Require Import Prelude PyStr Json Models Session EventIntegrity Identifiers Rbac.
From S2P Require Import Outbox Encryption Uploads Channels ChannelProps Messages.
Local Open Scope Z_scope.

(** ** The message log *)

(** What a message keeps for ever. *)
Definition msg_identity (m : Message.t) :=
  (Message.id m, Message.channel_id m, Message.sender_user_id m, Message.seq_id m, Message.client_msg_id m,
   (Message.reply_to_message_id m, Message.reply_to_seq_id m, Message.created_at m)).

Record log_wf (st : Store) : Prop := {
  lw_last : forall c ch, channels st !! c = Some ch -> 0 <= Channel.last_seq_id ch;
  lw_key : forall k m, messages st !! k = Some m -> Message.id m = k;
  lw_channel : forall k m, messages st !! k = Some m ->
    exists c, channels st !! Message.channel_id m = Some c /\ 1 <= Message.seq_id m <= Channel.last_seq_id c;
  lw_seq : forall k1 k2 m1 m2, messages st !! k1 = Some m1 -> messages st !! k2 = Some m2 ->
    Message.channel_id m1 = Message.channel_id m2 -> Message.seq_id m1 = Message.seq_id m2 -> k1 = k2;
  lw_gapless : forall c ch n, channels st !! c = Some ch -> 1 <= n <= Channel.last_seq_id ch ->
    exists k m, messages st !! k = Some m /\ Message.channel_id m = c /\ Message.seq_id m = n;
  lw_client : forall k1 k2 m1 m2 x, messages st !! k1 = Some m1 -> messages st !! k2 = Some m2 ->
    Message.channel_id m1 = Message.channel_id m2 -> Message.sender_user_id m1 = Message.sender_user_id m2 ->
    Message.client_msg_id m1 = Some x -> Message.client_msg_id m2 = Some x -> k1 = k2
}.

(** One committed step: the old messages keep their identity and their
    tombstones, and no message appears ... *)
Record evolves_parts (ms : gmap N Message.t) (cs : gmap N Channel.t) (ms' : gmap N Message.t) (cs' : gmap N Channel.t)
  : Prop := {
  ev_old : forall k m, ms !! k = Some m ->
    exists m', ms' !! k = Some m' /\ msg_identity m' = msg_identity m
               /\ (is_deleted m = true -> is_deleted m' = true);
  ev_new : forall k, ms !! k = None -> ms' !! k = None;
  ev_channels : forall c ch, cs !! c = Some ch ->
    exists ch', cs' !! c = Some ch' /\ Channel.last_seq_id ch' = Channel.last_seq_id ch;
  ev_created : forall c ch', cs' !! c = Some ch' -> cs !! c = None -> Channel.last_seq_id ch' = 0
}.
Definition evolves (st st' : Store) : Prop := evolves_parts (messages st) (channels st) (messages st') (channels st').

(** ... or exactly one does, with the next number of its channel. *)
Record appends (m : Message.t) (st st' : Store) : Prop := {
  ap_fresh : messages st !! Message.id m = None;
  ap_messages : messages st' = <[Message.id m := m]> (messages st);
  ap_channel : exists ch, channels st !! Message.channel_id m = Some ch
    /\ Message.seq_id m = Channel.last_seq_id ch + 1
    /\ channels st' = <[Message.channel_id m := ch <| Channel.last_seq_id := Message.seq_id m |>]> (channels st);
  ap_client : forall k x m', messages st !! k = Some m' -> Message.client_msg_id m = Some x ->
    Message.channel_id m' = Message.channel_id m -> Message.sender_user_id m' = Message.sender_user_id m ->
    Message.client_msg_id m' <> Some x
}.

Definition log_step (st st' : Store) : Prop := evolves st st' \/ exists m, appends m st st'.

Global Instance evolves_refl : Reflexive evolves.
Proof. intros st. split; eauto. congruence. Qed.
Global Instance evolves_trans : Transitive evolves.
Proof.
  intros a b c [O1 N1 C1 X1] [O2 N2 C2 X2]. split.
  - intros k m (m1 & H1 & I1 & D1)%O1. destruct (O2 _ _ H1) as (m2 & H2 & I2 & D2). exists m2.
    split; [done|]. split; [congruence|auto].
  - auto.
  - intros k ch (c1 & H1 & E1)%C1. destruct (C2 _ _ H1) as (c2 & H2 & E2). exists c2. split; [done|congruence].
  - intros k ch' Hk Ha. destruct (channels b !! k) as [ch|] eqn:Eb; [|by eapply X2].
    destruct (C2 _ _ Eb) as (c2 & H2 & E2). rewrite Hk in H2. injection H2 as <-. rewrite E2. by eapply X1.
Qed.

Lemma evolves_same st st' : messages st' = messages st -> channels st' = channels st -> evolves st st'.
Proof.
  intros Hm Hc. split; rewrite ?Hm, ?Hc; eauto. congruence.
Qed.

(** Changing attributes other than the identity. *)
Lemma evolves_alter st0 st k f :
  (forall m, msg_identity (f m) = msg_identity m) -> (forall m, is_deleted m = true -> is_deleted (f m) = true) ->
  evolves st0 st -> evolves st0 (st <| messages ::= alter f k |>).
Proof.
  intros Hf Hd He. etrans; [exact He|]. split; cbn [messages channels upd]; eauto; [| |congruence].
  - intros k' m Hk. destruct (decide (k' = k)) as [->|Hne].
    + exists (f m). rewrite lookup_alter_eq, Hk. auto.
    + exists m. rewrite lookup_alter_ne by done. auto.
  - intros k' Hk. destruct (decide (k' = k)) as [->|Hne]; [by rewrite lookup_alter_eq, Hk|].
    by rewrite lookup_alter_ne.
Qed.

Ltac identities H := unfold msg_identity in H; apply pair_equal_spec in H as [H ?];
  repeat match goal with E : (_, _) = (_, _) |- _ => apply pair_equal_spec in E as [? ?] end.

Lemma evolves_back st st' k m' : evolves st st' -> messages st' !! k = Some m' ->
  exists m, messages st !! k = Some m /\ msg_identity m' = msg_identity m.
Proof.
  intros [O N _ _] Hk. destruct (messages st !! k) as [m|] eqn:E; [|by rewrite (N _ E) in Hk].
  destruct (O _ _ E) as (m1 & H1 & I & _). rewrite Hk in H1. injection H1 as <-. eauto.
Qed.

Lemma evolves_wf st st' : evolves st st' -> log_wf st -> log_wf st'.
Proof.
  intros He [Hl Hk Hc Hs Hg Hx]. split.
  - intros c ch' Hch. destruct (channels st !! c) as [ch|] eqn:Ec.
    + destruct (ev_channels _ _ _ _ He _ _ Ec) as (ch1 & H1 & El). rewrite Hch in H1. injection H1 as <-.
      rewrite El. by eapply Hl.
    + by rewrite (ev_created _ _ _ _ He _ _ Hch Ec).
  - intros k m' (m & Hm & I)%(evolves_back st). 2: done. identities I. rewrite <-(Hk _ _ Hm). congruence.
  - intros k m' (m & Hm & I)%(evolves_back st). 2: done. identities I.
    destruct (Hc _ _ Hm) as (ch & Hch & Hn). destruct (ev_channels _ _ _ _ He _ _ Hch) as (ch' & Hch' & El).
    exists ch'. split; [congruence|]. rewrite El. congruence.
  - intros k1 k2 m1 m2 (n1 & H1 & I1)%(evolves_back st) (n2 & H2 & I2)%(evolves_back st). 2-3: done.
    identities I1. identities I2. intros ? ?. apply (Hs _ _ _ _ H1 H2); congruence.
  - intros c ch' n Hch Hn. destruct (channels st !! c) as [ch|] eqn:Ec.
    + destruct (ev_channels _ _ _ _ He _ _ Ec) as (ch1 & H1 & El). rewrite Hch in H1. injection H1 as <-.
      rewrite El in Hn. destruct (Hg _ _ _ Ec Hn) as (k & m & Hm & E1 & E2).
      destruct (ev_old _ _ _ _ He _ _ Hm) as (m' & Hm' & I & _). identities I. exists k, m'. split_and!; congruence.
    + rewrite (ev_created _ _ _ _ He _ _ Hch Ec) in Hn. lia.
  - intros k1 k2 m1 m2 x (n1 & H1 & I1)%(evolves_back st) (n2 & H2 & I2)%(evolves_back st). 2-3: done.
    identities I1. identities I2. intros ? ? ? ?. apply (Hx _ _ _ _ x H1 H2); congruence.
Qed.

Lemma appends_wf m st st' : appends m st st' -> log_wf st -> log_wf st'.
Proof.
  intros [Hf Em (ch & Hch & Hseq & Ec) Hcl] [Hl Hk Hc Hs Hg Hx]. pose proof (Hl _ _ Hch) as Hpos.
  assert (Hlt : forall k x, messages st !! k = Some x -> Message.channel_id x = Message.channel_id m ->
    Message.seq_id x <> Message.seq_id m).
  { intros k x Hx' E. destruct (Hc _ _ Hx') as (ch1 & H1 & Hn). rewrite E, Hch in H1. injection H1 as <-. lia. }
  split; rewrite ?Em, ?Ec.
  - intros c ch'. rewrite lookup_insert_Some. intros [[<- <-]|[_ ?]]; [cbn; lia|by eapply Hl].
  - intros k x. rewrite lookup_insert_Some. intros [[<- <-]|[_ ?]]; eauto.
  - intros k x. rewrite lookup_insert_Some. intros [[<- <-]|[_ Hkx]].
    + rewrite lookup_insert_eq. eexists. split; [done|]. cbn. lia.
    + destruct (Hc _ _ Hkx) as (ch1 & H1 & Hn). destruct (decide (Message.channel_id x = Message.channel_id m)) as [E|Hne].
      * rewrite E, lookup_insert_eq. eexists. split; [done|]. cbn. rewrite E, Hch in H1. injection H1 as <-. lia.
      * rewrite lookup_insert_ne by done. eauto.
  - intros k1 k2 m1 m2. rewrite !lookup_insert_Some.
    intros [[<- <-]|[_ H1]] [[<- <-]|[_ H2]] E1 E2; [done| | |by eapply Hs]; exfalso.
    + by apply (Hlt _ _ H2).
    + by apply (Hlt _ _ H1).
  - intros c ch' n. rewrite lookup_insert_Some. intros [[<- <-]|[Hne Hc']] Hn; cbn in *.
    + destruct (decide (n = Message.seq_id m)) as [->|Hnm].
      * exists (Message.id m), m. by rewrite lookup_insert_eq.
      * destruct (Hg _ _ n Hch) as (k & x & Hkx & E1 & E2); [lia|]. exists k, x.
        rewrite lookup_insert_ne by congruence. auto.
    + destruct (Hg _ _ n Hc' Hn) as (k & x & Hkx & E1 & E2). exists k, x. rewrite lookup_insert_ne by congruence. auto.
  - intros k1 k2 m1 m2 x. rewrite !lookup_insert_Some.
    intros [[<- <-]|[_ H1]] [[<- <-]|[_ H2]] E1 E2 E3 E4; [done| | |by eapply Hx]; exfalso.
    + by eapply (Hcl _ _ _ H2).
    + by eapply (Hcl _ _ _ H1).
Qed.

Lemma log_step_wf st st' : log_step st st' -> log_wf st -> log_wf st'.
Proof. intros [He|[m Ha]]; [by apply evolves_wf|by eapply appends_wf]. Qed.

(** Old messages survive any step. *)
Lemma log_step_old st st' k m : log_step st st' -> messages st !! k = Some m ->
  exists m', messages st' !! k = Some m' /\ msg_identity m' = msg_identity m
             /\ (is_deleted m = true -> is_deleted m' = true).
Proof.
  intros [He|[x Ha]] Hk; [by apply He|]. exists m. split; [|done]. rewrite (ap_messages _ _ _ Ha).
  rewrite lookup_insert_ne; [done|]. intros <-. by rewrite (ap_fresh _ _ _ Ha) in Hk.
Qed.

(** ** The log of a channel as a list *)

Definition channel_log (c : N) (st : Store) : list Message.t := by_seq (messages_of c (fun _ => true) st).

Lemma elem_of_messages_of c p st m :
  m ∈ messages_of c p st <-> (exists k, messages st !! k = Some m) /\ Message.channel_id m = c /\ p m = true.
Proof.
  unfold messages_of. rewrite list_elem_of_In, filter_In, <-list_elem_of_In, elem_of_rows, andb_true_iff, bool_decide_eq_true.
  done.
Qed.

Lemma messages_of_seq_inj c p st x y :
  log_wf st -> x ∈ messages_of c p st -> y ∈ messages_of c p st -> Message.seq_id x = Message.seq_id y -> x = y.
Proof.
  intros Hwf [[k1 H1] [E1 _]]%elem_of_messages_of [[k2 H2] [E2 _]]%elem_of_messages_of E.
  assert (k1 = k2) as <- by (eapply (lw_seq _ Hwf); [exact H1|exact H2|congruence|done]). congruence.
Qed.

Lemma messages_of_nodup c p st : log_wf st -> NoDup (messages_of c p st).
Proof.
  intros Hwf. eapply sublist_NoDup; [|apply sublist_filter_bool].
  apply (NoDup_fmap_1 Message.id), rows_keyed_nodup. apply Hwf.
Qed.

Lemma sorted_seq i n : StronglySorted le (seq i n).
Proof.
  revert i. induction n as [|n IH]; intros i; constructor; [apply IH|]. apply Forall_forall.
  intros j Hj%elem_of_seq. lia.
Qed.
Lemma sorted_seqZ m n : StronglySorted Z.le (seqZ m n).
Proof. unfold seqZ. eapply StronglySorted_fmap, sorted_seq. intros; cbn; lia. Qed.

Lemma by_seq_sorted l : StronglySorted Z.le (Message.seq_id <$> by_seq l).
Proof.
  eapply StronglySorted_fmap, order_by_sorted. intros x y Hxy. unfold key_le, lex_le in Hxy.
  apply lex_leb_cons in Hxy. lia.
Qed.

(** The messages of a channel, in order, are numbered 1, 2, ... without gaps. *)
Lemma log_numbers c ch st :
  log_wf st -> channels st !! c = Some ch -> Message.seq_id <$> channel_log c st = seqZ 1 (Channel.last_seq_id ch).
Proof.
  intros Hwf Hch. apply (StronglySorted_unique Z.le); [apply by_seq_sorted|apply sorted_seqZ|].
  unfold channel_log, by_seq. rewrite order_by_perm. apply NoDup_Permutation.
  - apply NoDup_fmap_2_strong; [|by apply messages_of_nodup]. intros x y Hx Hy.
    by apply (messages_of_seq_inj c (fun _ => true) st x y).
  - apply NoDup_seqZ.
  - intros n. rewrite list_elem_of_fmap, elem_of_seqZ. split.
    + intros (m & -> & [[k Hk] [E _]]%elem_of_messages_of). destruct (lw_channel _ Hwf _ _ Hk) as (ch' & Hch' & Hn).
      rewrite E, Hch in Hch'. injection Hch' as <-. lia.
    + intros Hn. destruct (lw_gapless _ Hwf _ _ n Hch) as (k & m & Hk & E1 & E2); [lia|]. exists m. split; [done|].
      apply elem_of_messages_of. eauto.
Qed.

Lemma log_no_channel c st : log_wf st -> channels st !! c = None -> channel_log c st = [].
Proof.
  intros Hwf Hc. apply elem_of_nil_inv. intros m. unfold channel_log, by_seq. rewrite elem_of_order_by, elem_of_messages_of.
  intros [[k Hk] [E _]]. destruct (lw_channel _ Hwf _ _ Hk) as (ch & Hch & _). congruence.
Qed.

(** Position and number determine each other. *)
Lemma log_lookup c st i m :
  log_wf st ->
  channel_log c st !! i = Some m <->
  messages st !! Message.id m = Some m /\ Message.channel_id m = c /\ Message.seq_id m = Z.of_nat i + 1.
Proof.
  intros Hwf.
  assert (Hin : m ∈ channel_log c st <-> messages st !! Message.id m = Some m /\ Message.channel_id m = c).
  { unfold channel_log, by_seq. rewrite elem_of_order_by, elem_of_messages_of. split.
    - intros [[k Hk] [E _]]. by rewrite (lw_key _ Hwf _ _ Hk).
    - intros [Hk E]. eauto. }
  assert (Hnum : forall j x, channel_log c st !! j = Some x -> Message.seq_id x = Z.of_nat j + 1).
  { intros j x Hj. destruct (channels st !! c) as [ch|] eqn:Ec; [|by rewrite (log_no_channel _ _ Hwf Ec) in Hj].
    pose proof (f_equal (lookup j) (log_numbers c ch st Hwf Ec)) as E. rewrite list_lookup_fmap, Hj in E. cbn in E.
    symmetry in E. apply lookup_seqZ in E. lia. }
  split.
  - intros Hi. pose proof (list_elem_of_lookup_2 _ _ _ Hi) as H1. apply Hin in H1 as [H1 H2].
    split_and!; [done..|]. by apply Hnum.
  - intros (H1 & H2 & H3). destruct (proj1 (list_elem_of_lookup _ _) (proj2 Hin (conj H1 H2))) as [j Hj].
    pose proof (Hnum _ _ Hj) as E. by replace i with j by lia.
Qed.

Lemma prefix_of_lookup {A} (l l' : list A) : (forall i x, l !! i = Some x -> l' !! i = Some x) -> l `prefix_of` l'.
Proof.
  revert l'. induction l as [|x l IH]; intros l' Hl; [apply prefix_nil|].
  destruct l' as [|y l']; [by specialize (Hl 0%nat x eq_refl)|].
  specialize (Hl 0%nat x eq_refl) as E. injection E as <-. apply prefix_cons, IH. intros i. apply (Hl (S i)).
Qed.

(** The log only grows at its end. *)
Lemma log_step_prefix c st st' :
  log_step st st' -> log_wf st -> Message.id <$> channel_log c st `prefix_of` Message.id <$> channel_log c st'.
Proof.
  intros Hs Hwf. apply prefix_of_lookup. intros i k. rewrite !list_lookup_fmap, !fmap_Some.
  intros (m & (Hk & Ec & En)%log_lookup & ->); [|done].
  destruct (log_step_old _ _ _ _ Hs Hk) as (m' & Hm' & I & _). identities I. exists m'. split; [|congruence].
  apply log_lookup; [by eapply log_step_wf|]. split_and!; congruence.
Qed.

(** ** Requests *)

Inductive message_op :=
| OpPublish (c u : N) (req : PublishMessageRequest)
| OpSeen (c u : N) (req : SeenRequest)
| OpEdit (c u m : N) (req : MessagePatchRequest)
| OpErase (c u m : N)
| OpReact (c m u : N) (emoji : list Z)
| OpUnreact (c m u : N) (emoji : list Z)
| OpPin (c m u : N)
| OpUnpin (c m u : N)
| OpChannel (o : channel_op).

Ltac unfold_message :=
  unfold mark_seen, move_marker, requested_marker, put_state, edit_message, delete_message, add_reaction,
    remove_reaction, checked_reaction, live_message, broadcast_reactions, pin_message, unpin_message, set_pinned,
    broadcast_message, _load_sender_profile, encrypt_or_log, _encrypt_payload, _assert_can_read, _safe_log_event,
    encrypt_message, encrypt_message_with_key, encrypt_json_payload, encrypt_json_payload_with_key, encrypt_text,
    _get_channel_for_update, update_message, add_attachment, put_channel,
    _resolve_reply_target, _normalize_attachments, insert_row.

Lemma same_rollback `{World} : preserves (same unit_part) rollback.
Proof. by intros s. Qed.

Section Reading.
Context `{World}.

Lemma normalize_loop_reads u seen ids : reads (normalize_attachment_loop u seen ids).
Proof. revert seen. induction ids as [|i ids IH]; intros seen; cbn [normalize_attachment_loop]; unfold reads; pres. apply IH. Qed.

Lemma reads_same {A X} (f : Store -> X) (m : M A) : reads m -> preserves (same f) m.
Proof. intros Hm s. by rewrite (Hm s). Qed.

Lemma normalize_attachments_reads u a : reads (_normalize_attachments u a).
Proof. unfold _normalize_attachments, reads. pres. apply normalize_loop_reads. Qed.

Lemma insert_message_same m : preserves (same unit_part) (insert_message m).
Proof. unfold insert_message, insert_row. pres. Qed.

Lemma resolve_reply_reads c i n : reads (_resolve_reply_target c i n).
Proof. unfold _resolve_reply_target, reads. pres. Qed.
End Reading.
#[export] Hint Extern 5 (preserves (same _) (normalize_attachment_loop _ _ _)) =>
  apply reads_same, normalize_loop_reads : pres.
#[export] Hint Resolve same_rollback insert_message_same : pres.

Section MessageSteps.
Context `{World} `{UnicodeData} `{BackendSettings} `{Crypto} `{EncryptionSettings} `{Orm}.

Definition run_message_op (o : message_op) : M unit :=
  match o with
  | OpPublish c u req => _ ← publish_message c u req; mret tt
  | OpSeen c u req => _ ← mark_seen c u req; mret tt
  | OpEdit c u m req => _ ← edit_message c u m req; mret tt
  | OpErase c u m => _ ← delete_message c u m; mret tt
  | OpReact c m u e => _ ← add_reaction c m u e; mret tt
  | OpUnreact c m u e => _ ← remove_reaction c m u e; mret tt
  | OpPin c m u => pin_message c m u
  | OpUnpin c m u => unpin_message c m u
  | OpChannel o => run_op o
  end.

Lemma keeps_alter st0 k f :
  (forall m, msg_identity (f m) = msg_identity m) -> (forall m, is_deleted m = true -> is_deleted (f m) = true) ->
  preserves (keeps (evolves st0)) (modify (fun st => st <| messages ::= alter f k |>)).
Proof. intros Hf Hd. apply keeps_modify. intros st. by apply evolves_alter. Qed.

(** Every operation but publishing evolves the log. *)
Lemma other_ops_evolve st0 o :
  match o with OpPublish _ _ _ | OpChannel _ => False | _ => True end ->
  preserves (keeps (evolves st0)) (run_message_op o).
Proof.
  destruct o; try done; intros _; cbn [run_message_op]; unfold_message; unfold_outbox; cbv zeta; pres.
  all: apply keeps_alter; intros m'; [done|by cbn].
Qed.

Lemma channel_ops_keep_messages T o : preserves (keeps (fun st => messages st = T)) (run_op o).
Proof. destruct o; cbn [run_op]; unfold_channel; unfold_outbox; pres. Qed.

Lemma channels_step_evolves st st' : channels_step st st' -> messages st' = messages st -> evolves st st'.
Proof.
  intros Hc Hm. split; rewrite ?Hm; eauto.
  - intros c ch Hch. destruct Hc as [E|k ch0 Hn Hz _ _ E|k ch0 ch1 Hk [_ Hl] _ E]; rewrite E; [by eauto| |].
    + rewrite lookup_insert_ne by congruence. eauto.
    + destruct (decide (k = c)) as [->|Hne]; [|rewrite lookup_insert_ne by done; eauto].
      rewrite lookup_insert_eq. exists ch1. split; [done|]. congruence.
  - intros c ch' Hch Hn. destruct Hc as [E|k ch0 _ Hz _ _ E|k ch0 ch1 Hk _ _ E]; rewrite E in Hch; [congruence| |];
      apply lookup_insert_Some in Hch as [[<- <-]|[_ Hch]]; congruence.
Qed.

(** ** Publishing *)

Lemma find_client_msg_reads c u x : reads (find_client_msg c u x).
Proof. destruct x; apply pres_gets || apply pres_ret; apply _. Qed.

Lemma publish_new_atomic ch c u req : atomic (publish_new ch c u req).
Proof.
  unfold publish_new. unfold_message. unfold_outbox. cbv zeta. atomic.
  apply reads_same, find_client_msg_reads.
Qed.

(** What the part of a publication after the writes of its rows leaves alone. *)
Definition log_part (st : Store) := (messages st, channels st).

Lemma encrypt_ok text json c u p s r s' :
  encrypt_or_log text json c u p s = (inr r, s') ->
  _encrypt_payload text json s = (inr r, s') /\ log_part (work s') = log_part (work s) /\ durable s' = durable s.
Proof.
  unfold encrypt_or_log, try_except. destruct (_encrypt_payload text json s) as [[e|x] s1] eqn:E.
  - intros Hr. exfalso. destruct e; try done. by apply bind_ok in Hr as (? & ? & _ & Hr).
  - intros Hr. assert (inr x = inr r /\ s1 = s') as [Ex ->] by (by apply pair_equal_spec in Hr). rewrite Ex. split; [done|].
    apply (same_run log_part) in E; [done|].
    unfold_message. pres.
Qed.

Lemma insert_message_ok m s x s' :
  insert_message m s = (inr x, s') ->
  s' = s <| work := work s <| messages ::= <[Message.id m := m]> |> |>
  /\ messages (work s) !! Message.id m = None
  /\ forall k y z, messages (work s) !! k = Some y -> Message.client_msg_id m = Some z ->
       Message.channel_id y = Message.channel_id m -> Message.sender_user_id y = Message.sender_user_id m ->
       Message.client_msg_id y <> Some z.
Proof.
  unfold insert_message. intros Hr. apply bind_ok in Hr as (st & s1 & [-> ->]%gets_ok & Hr).
  apply bind_ok in Hr as (x1 & s1 & [_ ->]%guard_ok & Hr). apply bind_ok in Hr as (x2 & s1 & [Hg ->]%guard_ok & Hr).
  apply insert_row_ok in Hr as [Hn ->]. split; [done|]. split; [done|]. intros k y z Hy Hz E1 E2 E3.
  rewrite Hz in Hg. apply negb_true_iff, not_true_iff_false in Hg. apply Hg, existsb_exists. exists y.
  split; [apply list_elem_of_In, elem_of_rows; eauto|]. unfold same_client_msg. by rewrite !bool_decide_true.
Qed.

Lemma publish_new_ok ch c u req s m s' :
  channels (work s) !! c = Some ch -> publish_new ch c u req s = (inr m, s') ->
  appends m (work s) (durable s') /\ log_part (work s') = log_part (durable s')
  /\ Message.channel_id m = c /\ Message.sender_user_id m = u /\ Message.client_msg_id m = pm_client_msg_id req
  /\ is_deleted m = false
  /\ exists s1 s2, _encrypt_payload (pm_content_text req) (pm_content_json req) s1
                     = (inr (Message.content_text m, Message.content_json m), s2).
Proof.
  intros Hch. unfold publish_new. intros Hr.
  apply bind_ok in Hr as (att & s1 & Ha & Hr). apply reads_run in Ha as ->; [|apply normalize_attachments_reads].
  apply bind_ok in Hr as ([ri rs] & s1 & Ha & Hr). apply reads_run in Ha as ->; [|apply resolve_reply_reads].
  cbv zeta in Hr. apply bind_ok in Hr as (x1 & s1 & ->%modify_ok & Hr).
  apply bind_ok in Hr as ([text json] & s2 & (He & Hp2 & _)%encrypt_ok & Hr).
  apply bind_ok in Hr as (id & s3 & (Hw3 & _)%uuid4_ok & Hr). apply bind_ok in Hr as (now & s4 & (Hw4 & _)%utcnow_ok & Hr).
  set (row := Message.Row id c u _ _ text json ri rs _ false _ now now None None) in *.
  apply bind_ok in Hr as (x5 & s5 & (-> & Hn & Hcl)%insert_message_ok & Hr).
  apply bind_ok in Hr as (x6 & s6 & Hatt & Hr).
  apply (same_run log_part) in Hatt as [Hp6 _]; [|unfold_message; unfold log_part; pres].
  apply bind_ok in Hr as (x7 & s7 & Hb & Hr).
  apply (same_run log_part) in Hb as [Hp7 _]; [|unfold_message; unfold_outbox; unfold log_part; pres].
  apply bind_ok in Hr as (ev & s8 & Hl & Hr). apply (same_run log_part) in Hl as [Hp8 _]; [|unfold log_part; pres].
  assert (Hc : m = row /\ work s' = work s8 /\ durable s' = work s8).
  { unfold try_except in Hr. destruct ((commit ;; mret row) s8) as [[e|y] s9] eqn:E.
    - exfalso. unfold commit, may_fault, mbind, M_bind in E. destruct (db_fault (fault_at s8)); [|done].
      apply pair_equal_spec in E as [E _]. apply (inj inl) in E as <-. done.
    - apply pair_equal_spec in Hr as [Hr ->]. apply (inj inr) in Hr as <-.
      apply bind_ok in E as (z & s10 & (E1 & E2 & _)%commit_ok & [-> ->]%ret_ok). done. }
  destruct Hc as (-> & Hw & Hd). rewrite Hw, Hd. rewrite Hp7, Hp6 in Hp8.
  cbn [work upd] in *. unfold log_part in *. cbn [messages channels upd] in Hp8. rewrite Hw4, Hw3 in *.
  injection Hp2 as Hm2 Hc2. injection Hp8 as Hm8 Hc8. cbn [messages channels upd] in *. rewrite Hm2 in *. rewrite Hc2 in Hc8.
  split; [|split; [done|]; split_and!; try done; by eexists _, _].
  split; [done|by rewrite Hm8| |].
  - exists ch. by rewrite Hc8.
  - intros k x y Hk Hx. by apply (Hcl k y x).
Qed.
End MessageSteps.

Section MessageRequests.
Context `{World} `{UnicodeData} `{BackendSettings} `{Crypto} `{EncryptionSettings} `{Orm}.

Lemma find_client_msg_ok c u x s o s' :
  find_client_msg c u x s = (inr o, s') ->
  s' = s /\ match o with
            | Some m => exists y k, x = Some y /\ messages (work s) !! k = Some m /\ same_client_msg c u y m = true
            | None => forall y k m, x = Some y -> messages (work s) !! k = Some m -> same_client_msg c u y m = false
            end.
Proof.
  destruct x as [y|]; [|intros [-> ->]%ret_ok; by split].
  intros [-> ->]%gets_ok. split; [done|]. destruct (head _) as [m|] eqn:E.
  - apply head_Some_elem_of in E. apply list_elem_of_In, filter_In in E as [E1 E2].
    apply list_elem_of_In, elem_of_rows in E1 as [k Hk]. eauto.
  - intros y' k m [= <-] Hk. apply head_None in E. destruct (same_client_msg c u y m) eqn:Es; [|done]. exfalso.
    assert (Hin : m ∈ List.filter (same_client_msg c u y) (rows (messages (work s)))).
    { apply list_elem_of_In, filter_In. split; [|done]. apply list_elem_of_In, elem_of_rows. eauto. }
    rewrite E in Hin. by apply elem_of_nil in Hin.
Qed.

(** A publication that succeeds returns the message of an earlier request, and
    changes nothing, or stores a new one. *)
Lemma publish_ok c u req s m s' :
  publish_message c u req s = (inr m, s') ->
  exists ch, channels (work s) !! c = Some ch
  /\ ((s' = s /\ exists x k, pm_client_msg_id req = Some x /\ messages (work s) !! k = Some m
                             /\ same_client_msg c u x m = true)
      \/ publish_new ch c u req s = (inr m, s')).
Proof.
  unfold publish_message. intros Hr. open_channel Hr ch Hch Hdel. unfold get_membership in Hr.
  apply bind_ok in Hr as (mo & s0 & [-> ->]%gets_ok & Hr). exists ch. split; [done|].
  destruct (may_publish _ _); [|by apply bind_ok in Hr as (? & ? & _ & Hr)].
  apply bind_ok in Hr as (o & s0 & [-> Ho]%find_client_msg_ok & Hr). destruct o as [m0|].
  - apply ret_ok in Hr as [-> ->]. left. destruct Ho as (y & k & ? & ? & ?). eauto 10.
  - by right.
Qed.

Lemma unauthorized_evolves st0 ty p c u e s :
  evolves st0 (durable s) -> evolves st0 (work s) ->
  evolves st0 (durable ((_safe_log_event ty p c u true ;; throw (A := Message.t) e) s).2).
Proof.
  intros Hd Hw. assert (Hk : preserves (keeps (evolves st0)) (_safe_log_event ty p c u true ;; throw (A := Message.t) e)).
  { unfold_message. pres. }
  by apply (Hk s Hd Hw).
Qed.

(** A publication that fails leaves the committed log alone. *)
Lemma publish_fail c u req s e s' :
  work s = durable s -> publish_message c u req s = (inl e, s') -> evolves (durable s) (durable s').
Proof.
  intros Hclean Hr. unfold publish_message in Hr.
  apply reads_bind in Hr as [(e' & _ & ->)|(ch & _ & Hr)]; [done| |unfold _get_channel_for_update, get_channel, reads; pres].
  apply reads_bind in Hr as [(e' & _ & ->)|(mo & _ & Hr)]; [done| |apply pres_gets, _].
  destruct (may_publish mo req).
  - apply reads_bind in Hr as [(e' & _ & ->)|(o & _ & Hr)]; [done| |apply find_client_msg_reads].
    destruct o; [done|]. apply publish_new_atomic in Hr as ->. done.
  - pose proof (unauthorized_evolves (durable s) "security.unauthorized_publish"
      [(py "channel_id", str_id c); (py "reason", PStr (py "insufficient_permissions"))] c u forbidden s) as Hk.
    rewrite Hr in Hk. by apply Hk; rewrite ?Hclean.
Qed.

(** ** Sequences of requests *)

Definition message_request (o : message_op) : M unit :=
  try_except (run_message_op o) (fun _ => mret tt) ;; rollback.

Lemma message_request_eq o s : (message_request o s).2 = (run_message_op o s).2 <| work := durable (run_message_op o s).2 |>.
Proof.
  unfold message_request. destruct (run_message_op o s) as [[e|x] s1] eqn:E.
  - by rewrite (bind_step _ _ s tt s1) by (by rewrite (try_fail _ _ _ _ _ E)).
  - by rewrite (bind_step _ _ s x s1) by (by rewrite (try_step _ _ _ _ _ E)).
Qed.

Lemma message_op_step o s :
  work s = durable s -> log_step (durable s) (durable (run_message_op o s).2).
Proof.
  intros Hclean. destruct o as [c u req| | | | | | | |o].
  2-8: left; match goal with |- context [run_message_op ?o] => apply (other_ops_evolve (durable s) o I s) end;
    by rewrite ?Hclean.
  - cbn [run_message_op]. destruct (publish_message c u req s) as [[e|m] s1] eqn:E.
    + rewrite (bind_fail _ _ _ _ _ E). left. by eapply publish_fail.
    + rewrite (bind_step _ _ _ _ _ E). apply publish_ok in E as (ch & Hch & [[-> _]|E]); [by left|].
      right. exists m. rewrite <-Hclean. by eapply publish_new_ok in E as [Ha _].
  - left. cbn [run_message_op]. pose proof (channel_ops_keep_messages (messages (durable s)) o s) as Hk.
    destruct (run_op o s) as [[e|x] s1] eqn:E.
    + cbn [snd]. by rewrite (channel_op_atomic o s e s1 E).
    + cbn [snd] in *. apply channels_step_evolves; [by apply (op_step o s x s1)|]. apply Hk; by rewrite ?Hclean.
Qed.

Lemma message_requests_run ops s :
  work s = durable s -> log_wf (durable s) ->
  let s' := fold_left (fun s o => (message_request o s).2) ops s in
  work s' = durable s' /\ log_wf (durable s')
  /\ (forall c, Message.id <$> channel_log c (durable s) `prefix_of` Message.id <$> channel_log c (durable s'))
  /\ (forall k m, messages (durable s) !! k = Some m ->
        exists m', messages (durable s') !! k = Some m' /\ msg_identity m' = msg_identity m
                   /\ (is_deleted m = true -> is_deleted m' = true)).
Proof.
  revert s. induction ops as [|o ops IH]; intros s Hc Hwf; cbn [fold_left]; [by eauto 10|].
  pose proof (message_op_step o s Hc) as Hstep. rewrite message_request_eq.
  set (s1 := (run_message_op o s).2 <| work := durable (run_message_op o s).2 |>).
  assert (Hwf1 : log_wf (durable s1)) by (by eapply log_step_wf).
  destruct (IH s1 eq_refl Hwf1) as (Hc2 & Hwf2 & Hp2 & Ho2). split; [done|]. split; [done|]. split.
  - intros c. etrans; [by apply (log_step_prefix c _ (durable s1))|apply Hp2].
  - intros k m Hk. destruct (log_step_old _ _ _ _ Hstep Hk) as (m1 & K1 & I1 & D1).
    destruct (Ho2 k m1 K1) as (m2 & K2 & I2 & D2). exists m2. split; [done|]. split; [congruence|auto].
Qed.
End MessageRequests.

(** ** Paging *)

(** Lists that are strictly ordered by a number. *)
Section Ordered.
Context {A : Type} (f : A -> Z).
Implicit Types l : list A.

Lemma ordered_app l1 x l2 :
  StronglySorted Z.lt (f <$> (l1 ++ x :: l2)) ->
  (forall y, y ∈ l1 -> f y < f x) /\ (forall y, y ∈ l2 -> f x < f y).
Proof.
  rewrite fmap_app, fmap_cons. intros Hs. apply StronglySorted_app in Hs as (Hle & _ & H2). split.
  - intros y Hy. apply Hle; [by apply list_elem_of_fmap_2|by left].
  - intros y Hy. inversion H2 as [|? ? _ Hf]; subst. rewrite Forall_forall in Hf. by apply Hf, list_elem_of_fmap_2.
Qed.

Lemma filter_all (p : A -> bool) l : (forall y, y ∈ l -> p y = true) -> List.filter p l = l.
Proof.
  induction l as [|x l IH]; intros Hp; [done|]. cbn. rewrite Hp by (by left). f_equal. apply IH. intros y Hy. apply Hp. by right.
Qed.
Lemma filter_none (p : A -> bool) l : (forall y, y ∈ l -> p y = false) -> List.filter p l = [].
Proof.
  induction l as [|x l IH]; intros Hp; [done|]. cbn. rewrite Hp by (by left). apply IH. intros y Hy. apply Hp. by right.
Qed.

Lemma filter_after l1 x l2 :
  StronglySorted Z.lt (f <$> (l1 ++ x :: l2)) -> List.filter (fun y => f x <? f y) (l1 ++ x :: l2) = l2.
Proof.
  intros [Hl Hr]%ordered_app. rewrite List.filter_app. cbn. rewrite Z.ltb_irrefl.
  rewrite filter_none, filter_all; [done|..]; intros y Hy; [apply Z.ltb_lt; by apply Hr|].
  apply Z.ltb_ge. specialize (Hl y Hy). lia.
Qed.
End Ordered.

Lemma seq_max_last l1 x : (forall y, y ∈ l1 -> Message.seq_id y < Message.seq_id x) -> seq_max (l1 ++ [x]) = Some (Message.seq_id x).
Proof.
  intros Hl. destruct l1 as [|y l1]; [done|]. cbn. f_equal. assert (Hy : Message.seq_id y < Message.seq_id x) by (apply Hl; by left).
  assert (Hl' : forall z, z ∈ l1 -> Message.seq_id z < Message.seq_id x) by (intros z Hz; apply Hl; by right).
  clear Hl. rewrite foldr_app. cbn. rewrite Z.max_l by lia. induction l1 as [|z l1 IH]; cbn; [done|].
  rewrite IH by (intros w Hw; apply Hl'; by right). apply Z.max_r. specialize (Hl' z ltac:(by left)). lia.
Qed.

Definition live_after (c : N) (a : Z) (st : Store) : list Message.t :=
  by_seq (messages_of c (fun m => negb (is_deleted m) && (a <? Message.seq_id m)) st).

Lemma live_after_sorted c a st : log_wf st -> StronglySorted Z.lt (Message.seq_id <$> live_after c a st).
Proof.
  intros Hwf. assert (Hn : NoDup (Message.seq_id <$> live_after c a st)).
  { apply NoDup_fmap_2_strong.
    - intros x y. unfold live_after, by_seq. rewrite !elem_of_order_by. by apply messages_of_seq_inj.
    - unfold live_after, by_seq. rewrite order_by_perm. by apply messages_of_nodup. }
  pose proof (by_seq_sorted (messages_of c (fun m => negb (is_deleted m) && (a <? Message.seq_id m)) st)) as Hs.
  unfold live_after in *. induction Hs as [|x l _ IH Hf]; [constructor|]. apply NoDup_cons in Hn as [Hx Hn].
  constructor; [by apply IH|]. rewrite Forall_forall in *. intros y Hy. specialize (Hf y Hy).
  assert (y <> x) by (by intros ->). lia.
Qed.

(** Asking for what follows a message of the list drops everything up to it. *)
Lemma live_after_tail c a st l1 x l2 :
  log_wf st -> live_after c a st = l1 ++ x :: l2 -> live_after c (Message.seq_id x) st = l2.
Proof.
  intros Hwf E. pose proof (live_after_sorted c a st Hwf) as Hs. rewrite E in Hs.
  rewrite <-(filter_after Message.seq_id l1 x l2 Hs), <-E. unfold live_after at 1, by_seq. apply order_by_unique.
  - intros y z Hy Hz [= Hyz]. by eapply messages_of_seq_inj.
  - assert (Hsub : forall l p, StronglySorted (key_le (fun m => [Message.seq_id m])) l ->
      StronglySorted (key_le (fun m => [Message.seq_id m])) (List.filter p l)).
    { intros l p. induction 1 as [|y l _ IH Hf]; cbn; [constructor|]. destruct (p y); [|done]. constructor; [done|].
      rewrite Forall_forall in *. intros z Hz%list_elem_of_In. apply filter_In in Hz as [Hz%list_elem_of_In _]. by apply Hf. }
    apply Hsub, order_by_sorted.
  - assert (Ha : a < Message.seq_id x).
    { assert (Hx : x ∈ live_after c a st) by (rewrite E; set_solver).
      unfold live_after, by_seq in Hx. rewrite elem_of_order_by, elem_of_messages_of in Hx.
      destruct Hx as (_ & _ & Hx). apply andb_true_iff in Hx as [_ Hx]. by apply Z.ltb_lt. }
    apply NoDup_Permutation; [|by apply messages_of_nodup|].
    + eapply sublist_NoDup; [|apply sublist_filter_bool]. unfold live_after, by_seq. rewrite order_by_perm. by apply messages_of_nodup.
    + intros y. rewrite list_elem_of_In, filter_In, <-list_elem_of_In. unfold live_after, by_seq.
      rewrite elem_of_order_by, !elem_of_messages_of, !andb_true_iff, !Z.ltb_lt.
      split; [intros ((? & ? & ? & ?) & ?)|intros (? & ? & ? & ?)]; split_and!; try done; lia.
Qed.

Section Paging.
Context `{World} `{UnicodeData} `{BackendSettings} `{Crypto} `{EncryptionSettings} `{Orm}.

(** A client that reads forward from a number until it is told to stop. *)
Fixpoint page_forward (fuel : nat) (c u : N) (limit : nat) (after : Z) : M (list Message.t) :=
  match fuel with
  | O => mret []
  | S fuel =>
      page ← list_messages c u None (Some after) limit None;
      match pg_has_more page, pg_next_after page with
      | true, Some next => rest ← page_forward fuel c u limit next; mret (pg_items page ++ rest)
      | _, _ => mret (pg_items page)
      end
  end.

(** An approved member of a live channel. *)
Definition may_read (c u : N) (st : Store) : Prop :=
  exists ch m, channels st !! c = Some ch /\ Channel.deleted_at ch = None
    /\ channel_memberships st !! (c, u) = Some m /\ approved (ChannelMembership.role m) = true.

Lemma assert_can_read_run c u s :
  may_read c u (work s) -> exists r, _assert_can_read c u s = (inr r, s) /\ approved r = true.
Proof.
  intros (ch & m & Hch & Hd & Hm & Ha). unfold _assert_can_read, _get_channel_for_update, get_channel, get_membership.
  exists (ChannelMembership.role m). unfold mbind, M_bind, gets, of_option, guard. cbn [fst snd].
  rewrite Hch. cbn. rewrite bool_decide_true by done. cbn. rewrite Hm. cbn. by rewrite Ha.
Qed.

Lemma list_messages_run c u a limit s :
  may_read c u (work s) ->
  list_messages c u None (Some a) limit None s =
  (inr {| pg_items := take limit (live_after c a (work s)); pg_next_before := None;
          pg_next_after := seq_max (take limit (live_after c a (work s)));
          pg_has_more := (limit <? length (take (limit + 1) (live_after c a (work s))))%nat |}, s).
Proof.
  intros Hr. destruct (assert_can_read_run c u s Hr) as (r & Hc & _). unfold list_messages. rewrite (bind_step _ _ _ _ _ Hc).
  rewrite (bind_step _ _ s tt s) by (vm_compute; reflexivity). cbv zeta.
  replace (str_eqb (py "asc") (py "asc")) with true by (vm_compute; reflexivity).
  assert (El : select_page c None (Some a) true (work s) = live_after c a (work s)).
  { unfold select_page, live_after. f_equal. unfold messages_of. apply List.filter_ext. intros x. by rewrite andb_true_r. }
  rewrite (bind_step _ _ s (take (limit + 1) (live_after c a (work s))) s) by (by rewrite gets_run, El).
  rewrite take_take. by replace (limit `min` (limit + 1))%nat with limit by lia.
Qed.

Lemma page_forward_run fuel c u limit a s :
  may_read c u (work s) -> log_wf (work s) -> (1 <= limit)%nat -> (length (live_after c a (work s)) < fuel)%nat ->
  page_forward fuel c u limit a s = (inr (live_after c a (work s)), s).
Proof.
  intros Hr Hwf Hl. revert a. induction fuel as [|fuel IH]; intros a Hf; [lia|]. cbn [page_forward].
  rewrite (bind_step _ _ _ _ _ (list_messages_run c u a limit s Hr)). cbn [pg_has_more pg_next_after pg_items].
  rewrite length_take. set (L := live_after c a (work s)) in *.
  destruct (Nat.ltb_spec limit ((limit + 1) `min` length L)) as [Hm|Hm].
  - destruct (lookup_lt_is_Some_2 L (limit - 1)) as [x Hx]; [lia|].
    pose proof (take_drop_middle L (limit - 1) x Hx) as El. replace (S (limit - 1)) with limit in El by lia.
    assert (Et : take limit L = take (limit - 1) L ++ [x]).
    { replace limit with (S (limit - 1)) at 1 by lia. by apply take_S_r. }
    pose proof (live_after_sorted c a (work s) Hwf) as Hs. fold L in Hs. rewrite <-El in Hs.
    rewrite Et, seq_max_last by (by apply (ordered_app Message.seq_id _ x (drop limit L))).
    assert (Ed : live_after c (Message.seq_id x) (work s) = drop limit L) by (by eapply live_after_tail).
    rewrite (bind_step _ _ s (drop limit L) s); [by rewrite <-Et, take_drop|].
    rewrite IH, Ed; [done|]. rewrite Ed, length_drop. lia.
  - rewrite take_ge by lia. done.
Qed.
End Paging.

(** ** Read markers *)

Section Markers.
Context `{World} `{UnicodeData} `{BackendSettings} `{Crypto} `{EncryptionSettings} `{Orm}.

Lemma assert_can_read_ok c u s r s' : _assert_can_read c u s = (inr r, s') -> s' = s.
Proof.
  unfold _assert_can_read. intros Hr. open_channel Hr ch Hch Hdel. unfold get_membership in Hr.
  apply bind_ok in Hr as (mo & s0 & [-> ->]%gets_ok & Hr). destruct (channel_memberships (work s) !! (c, u)) as [m|].
  - destruct (approved _); [by apply ret_ok in Hr as [_ ->]|by apply bind_ok in Hr as (? & ? & _ & Hr)].
  - by apply bind_ok in Hr as (? & ? & _ & Hr).
Qed.

Lemma requested_marker_reads c req : reads (requested_marker c req).
Proof. unfold requested_marker, reads. pres. Qed.

Lemma move_marker_ok c u req n mid s r s' :
  move_marker c u req n mid s = (inr r, s') ->
  UserChannelState.last_seen_seq_id r = Some n /\ UserChannelState.unread_count r = unread_after c n (work s)
  /\ user_channel_state (durable s') = <[(c, u) := r]> (user_channel_state (work s)).
Proof.
  unfold move_marker, put_state. intros Hr. apply bind_ok in Hr as (t & s1 & Ht & Hr).
  assert (Hw1 : work s1 = work s).
  { destruct (sr_last_seen_at req); [by apply ret_ok in Ht as [_ ->]|by apply utcnow_ok in Ht as [? _]]. }
  apply bind_ok in Hr as (n0 & s2 & [-> ->]%gets_ok & Hr). cbv zeta in Hr. rewrite Hw1 in Hr.
  set (row := UserChannelState.Row _ _ _ _ _ _) in *.
  apply bind_ok in Hr as (x & s3 & ->%modify_ok & Hr). apply bind_ok in Hr as (e & s4 & (Hw4 & _)%uuid4_ok & Hr).
  apply bind_ok in Hr as (o & s5 & He & Hr).
  apply (same_run user_channel_state) in He as [He _]; [|by apply same_channel_event].
  apply bind_ok in Hr as (y & s6 & (_ & Hd & _)%commit_ok & [-> ->]%ret_ok). split; [done|]. split; [done|].
  rewrite Hd, He, Hw4. cbn [work upd user_channel_state]. by rewrite Hw1.
Qed.

Lemma mark_seen_ok c u req s r s' :
  mark_seen c u req s = (inr r, s') ->
  exists ch, channels (work s) !! c = Some ch
  /\ ((s' = s /\ user_channel_state (work s) !! (c, u) = Some r)
      \/ exists n, UserChannelState.last_seen_seq_id r = Some n /\ n <= Channel.last_seq_id ch
           /\ (forall old, user_channel_state (work s) !! (c, u) = Some old ->
                 default 0 (UserChannelState.last_seen_seq_id old) < n)
           /\ UserChannelState.unread_count r = unread_after c n (work s)
           /\ user_channel_state (durable s') = <[(c, u) := r]> (user_channel_state (work s))).
Proof.
  unfold mark_seen. intros Hr. apply bind_ok in Hr as (role & s0 & ->%assert_can_read_ok & Hr). unfold get_channel in Hr.
  apply bind_ok in Hr as (cho & s0 & [-> ->]%gets_ok & Hr). apply bind_ok in Hr as (ch & s0 & [Hch ->]%of_option_ok & Hr).
  apply bind_ok in Hr as (st & s0 & [-> ->]%gets_ok & Hr).
  apply bind_ok in Hr as ([[rq rm] cl] & s0 & Hm & Hr). apply reads_run in Hm as ->; [|apply requested_marker_reads].
  apply bind_ok in Hr as (x & s0 & [Hb ->]%guard_ok & Hr). apply bind_ok in Hr as (n & s0 & [-> ->]%of_option_ok & Hr).
  apply negb_true_iff, Z.ltb_ge in Hb. cbv zeta in Hr. exists ch. split; [done|].
  destruct (user_channel_state (work s) !! (c, u)) as [st|] eqn:Es.
  - destruct (Z.leb_spec n (default 0 (UserChannelState.last_seen_seq_id st))).
    + apply ret_ok in Hr as [-> ->]. auto.
    + right. exists n. apply move_marker_ok in Hr as (? & ? & ?). split_and!; try done. by intros old [= <-].
  - right. exists n. apply move_marker_ok in Hr as (? & ? & ?). by split_and!.
Qed.
End Markers.

(** ** Synchronisation *)

Section Syncing.

Lemma fetch_page_spec c a limit st m :
  m ∈ _fetch_sync_message_page c a limit st -> m ∈ messages_of c (fun m => (a <? Message.seq_id m) && negb (is_deleted m)) st.
Proof.
  unfold _fetch_sync_message_page. intros Hm.
  by apply (elem_of_order_by (fun m => [Message.seq_id m; Z.of_N (Message.id m)])),
    (elem_of_submseteq _ _ _ Hm), sublist_submseteq, sublist_take.
Qed.

Lemma fetch_page_full c a limit st :
  (0 < limit)%nat -> (length (_fetch_sync_message_page c a limit st) < limit)%nat ->
  forall m, m ∈ messages_of c (fun m => (a <? Message.seq_id m) && negb (is_deleted m)) st ->
  m ∈ _fetch_sync_message_page c a limit st.
Proof.
  unfold _fetch_sync_message_page. intros Hl Hf m Hm. rewrite length_take, order_by_length in Hf.
  rewrite take_ge by (rewrite order_by_length; lia). by apply elem_of_order_by.
Qed.

Lemma fetch_page_length c a limit st : (0 < limit)%nat -> (length (_fetch_sync_message_page c a limit st) <= limit)%nat.
Proof. intros Hl. unfold _fetch_sync_message_page. rewrite length_take. lia. Qed.

Definition beyond_cursor (state : gmap N Z) (c : N) (st : Store) (m : Message.t) : Prop :=
  m ∈ messages_of c (fun m => (default 0 (state !! c) <? Message.seq_id m) && negb (is_deleted m)) st.

Lemma sync_pages_spec state selected remaining st :
  let l := sync_pages state selected remaining st in
  (length l <= remaining)%nat
  /\ (forall m, m ∈ l -> Message.channel_id m ∈ selected /\ beyond_cursor state (Message.channel_id m) st m)
  /\ ((length l < remaining)%nat -> forall c m, c ∈ selected -> beyond_cursor state c st m -> m ∈ l).
Proof.
  revert remaining. induction selected as [|c selected IH]; intros remaining; cbn [sync_pages].
  { split; [cbn; lia|]. split; intros; by apply elem_of_nil in H || apply elem_of_nil in H0. }
  destruct (Nat.leb_spec remaining 0) as [Hz|Hp].
  { split; [cbn; lia|]. split; [intros m Hm; by apply elem_of_nil in Hm|cbn; lia]. }
  cbv zeta. set (page := _fetch_sync_message_page c (default 0 (state !! c)) remaining st).
  pose proof (fetch_page_length c (default 0 (state !! c)) remaining st Hp) as Hlen. fold page in Hlen.
  destruct (IH (remaining - length page)%nat) as (I1 & I2 & I3). rewrite length_app. split; [lia|]. split.
  - intros m [Hm|Hm]%elem_of_app.
    + apply fetch_page_spec in Hm. assert (Message.channel_id m = c) as <- by (by apply elem_of_messages_of in Hm as (_ & ? & _)).
      split; [by left|done].
    + destruct (I2 m Hm). split; [by right|done].
  - intros Hlt c' m [->|Hc]%elem_of_cons Hm; apply elem_of_app.
    + left. apply fetch_page_full; [done| |done]. fold page. lia.
    + right. apply I3 with c'; [lia|done|done].
Qed.

Lemma selected_channels_joined u req st c :
  c ∈ selected_channels u req st -> exists m, m ∈ rows (channel_memberships st) /\ ChannelMembership.user_id m = u
    /\ ChannelMembership.channel_id m = c /\ approved (ChannelMembership.role m) = true.
Proof.
  assert (Hj : c ∈ membership_map u st -> exists m, m ∈ rows (channel_memberships st) /\ ChannelMembership.user_id m = u
    /\ ChannelMembership.channel_id m = c /\ approved (ChannelMembership.role m) = true).
  { unfold membership_map. intros (m & -> & [Hm [Hu Ha]%andb_true_iff]%list_elem_of_In%filter_In)%list_elem_of_fmap.
    apply bool_decide_eq_true in Hu. exists m. split; [by apply list_elem_of_In|done]. }
  unfold selected_channels. destruct (sy_channels req).
  - intros Hc. apply Hj. apply (elem_of_order_by uuid_str).
    eapply elem_of_submseteq; [exact Hc|]. apply sublist_submseteq, sublist_take.
  - rewrite elem_of_order_by. intros [_ Hc]%list_elem_of_In%filter_In. apply Hj. by apply bool_decide_eq_true in Hc.
Qed.
End Syncing.

(** ** Properties *)

Section MessageProperties.
Context `{World} `{UnicodeData} `{BackendSettings} `{Crypto} `{EncryptionSettings} `{Orm}.

(** C11. The messages of a channel are an append-only log.  Whatever sequence of
    requests runs (publishing, read markers, edits, deletions, reactions,
    pins, channel and membership operations), and whichever of them fail, the
    committed log of every channel only grows at its end, its entries are
    numbered 1, 2, 3, ... without gap or repetition, and every old message
    keeps its identity (sender, channel, number, client identifier, reply
    target, creation time) and, once deleted, stays deleted. *)
Theorem message_log_is_append_only ops s :
  work s = durable s -> log_wf (durable s) ->
  let s' := fold_left (fun s o => (message_request o s).2) ops s in
  log_wf (durable s')
  /\ (forall c, Message.id <$> channel_log c (durable s) `prefix_of` Message.id <$> channel_log c (durable s'))
  /\ (forall c i m, channel_log c (durable s') !! i = Some m -> Message.seq_id m = Z.of_nat i + 1)
  /\ (forall k m, messages (durable s) !! k = Some m ->
        exists m', messages (durable s') !! k = Some m' /\ msg_identity m' = msg_identity m
                   /\ (is_deleted m = true -> is_deleted m' = true)).
Proof.
  intros Hc Hwf s'. destruct (message_requests_run ops s Hc Hwf) as (_ & Hwf' & Hp & Ho).
  split; [done|]. split; [done|]. split; [|done]. intros c i m Hi. by apply log_lookup in Hi as (_ & _ & ?).
Qed.

(** C15. Publishing is idempotent per client message identifier: when a request
    has stored a message, a later request of the same sender with the same
    identifier, after any other requests in between, answers with that same
    message and changes nothing. *)
Theorem publish_retry_is_idempotent c u req req' x s m s1 ops m' s3 :
  work s = durable s -> log_wf (durable s) ->
  pm_client_msg_id req = Some x -> pm_client_msg_id req' = Some x ->
  publish_message c u req s = (inr m, s1) ->
  let s2 := fold_left (fun s o => (message_request o s).2) (OpPublish c u req :: ops) s in
  publish_message c u req' s2 = (inr m', s3) ->
  msg_identity m' = msg_identity m /\ s3 = s2.
Proof.
  intros Hc Hwf Hx Hx' Hp s2 Hp2.
  assert (Hm : work (message_request (OpPublish c u req) s).2 = durable (message_request (OpPublish c u req) s).2
    /\ exists k, messages (durable (message_request (OpPublish c u req) s).2) !! k = Some m
                 /\ same_client_msg c u x m = true).
  { rewrite message_request_eq. cbn [run_message_op]. rewrite (bind_step _ _ _ _ _ Hp). cbn. split; [done|].
    apply publish_ok in Hp as (ch & Hch & [(-> & y & k & Hy & Hk & Hs)|Hp]).
    - rewrite Hx in Hy. injection Hy as <-. rewrite <-Hc. eauto.
    - apply publish_new_ok in Hp as (Ha & _ & E1 & E2 & E3 & _); [|done]. exists (Message.id m).
      rewrite (ap_messages _ _ _ Ha), lookup_insert_eq. split; [done|]. unfold same_client_msg.
      rewrite E1, E2, E3, Hx. by rewrite !bool_decide_true. }
  destruct Hm as (Hc1 & k & Hk & Hs).
  assert (Hwf1 : log_wf (durable (message_request (OpPublish c u req) s).2)).
  { by apply (message_requests_run [OpPublish c u req] s Hc Hwf). }
  destruct (message_requests_run ops _ Hc1 Hwf1) as (Hc2 & Hwf2 & _ & Ho).
  change (fold_left _ ops _) with s2 in Hc2, Hwf2, Ho. destruct (Ho k m Hk) as (m2 & Hk2 & I2 & _).
  apply publish_ok in Hp2 as (ch & Hch & [(-> & y & k' & Hy & Hk' & Hs')|Hp2]).
  - split; [|done]. rewrite Hx' in Hy. injection Hy as <-. rewrite Hc2 in Hk'.
    apply andb_true_iff in Hs as [[Hs1 Hs2]%andb_true_iff Hs3], Hs' as [[Hs1' Hs2']%andb_true_iff Hs3'].
    apply bool_decide_eq_true in Hs1, Hs2, Hs3, Hs1', Hs2', Hs3'. pose proof I2 as I3. identities I3.
    assert (k' = k) as -> by (eapply (lw_client _ Hwf2 _ _ _ _ x Hk' Hk2); congruence). congruence.
  - exfalso. apply publish_new_ok in Hp2 as (Ha & _ & E1 & E2 & E3 & _); [|done]. rewrite Hc2 in Ha.
    identities I2. apply andb_true_iff in Hs as [[Hs1 Hs2]%andb_true_iff Hs3].
    apply bool_decide_eq_true in Hs1, Hs2, Hs3. eapply (ap_client _ _ _ Ha k x m2 Hk2); congruence.
Qed.

(** C16. Reading history forward is exact: a member who pages from a sequence
    number with any page size of at least one, following the returned cursor
    until [has_more] is false, receives every live message after that number
    exactly once, in order; one page more than there are messages is enough. *)
Theorem paging_visits_every_message c u limit a s :
  may_read c u (work s) -> log_wf (work s) -> (1 <= limit)%nat ->
  page_forward (S (length (live_after c a (work s)))) c u limit a s = (inr (live_after c a (work s)), s)
  /\ NoDup (live_after c a (work s))
  /\ forall m, m ∈ live_after c a (work s) <->
       (exists k, messages (work s) !! k = Some m) /\ Message.channel_id m = c /\ is_deleted m = false /\ a < Message.seq_id m.
Proof.
  intros Hr Hwf Hl. split; [by apply page_forward_run; [..|lia]|]. split.
  - unfold live_after, by_seq. rewrite order_by_perm. by apply messages_of_nodup.
  - intros m. unfold live_after, by_seq. rewrite elem_of_order_by, elem_of_messages_of, andb_true_iff, negb_true_iff, Z.ltb_lt.
    tauto.
Qed.

(** Read markers only move forward: a successful [mark_seen] either returns
    the stored marker and changes nothing, or stores one that is strictly
    ahead of the previous one and not beyond the last message of the channel,
    with the number of live top-level messages after it as unread count, and
    touches no other marker. *)
Theorem seen_marker_moves_forward c u req s r s' :
  work s = durable s -> mark_seen c u req s = (inr r, s') ->
  exists ch, channels (durable s) !! c = Some ch
  /\ ((s' = s /\ user_channel_state (durable s) !! (c, u) = Some r)
      \/ exists n, UserChannelState.last_seen_seq_id r = Some n /\ n <= Channel.last_seq_id ch
           /\ (forall old, user_channel_state (durable s) !! (c, u) = Some old ->
                 default 0 (UserChannelState.last_seen_seq_id old) < n)
           /\ UserChannelState.unread_count r = unread_after c n (durable s)
           /\ user_channel_state (durable s') = <[(c, u) := r]> (user_channel_state (durable s))).
Proof. intros Hc Hr. rewrite <-Hc. by eapply mark_seen_ok. Qed.


(** Message bodies are encrypted at rest and recoverable: the committed row
    of a newly published text holds a version-2 envelope and no JSON, and
    decrypting it yields the text that was sent. *)
Theorem published_text_is_encrypted `{!CryptoLaws} c u req text s m s' ring :
  work s = durable s -> pm_content_text req = Some text -> pm_client_msg_id req = None ->
  publish_message c u req s = (inr m, s') -> _build_key_ring = inr ring -> key_id_ok (active_key_id ring) = true ->
  (forall data, utf8_encode text = Some data -> Z.of_nat (length data) <= 393000) ->
  messages (durable s') !! Message.id m = Some m
  /\ (exists rest, Message.content_text m = Some (MESSAGE_V2_PREFIX ++ rest)) /\ Message.content_json m = PNone
  /\ decrypt_message (Message.content_text m) = inr text.
Proof.
  intros Hc Ht Hx Hp Hring Hid Hlen. apply publish_ok in Hp as (ch & Hch & [(-> & y & k & Hy & _)|Hp]); [congruence|].
  apply publish_new_ok in Hp as (Ha & _ & _ & _ & _ & _ & s1 & s2 & He); [|done].
  rewrite Ht in He. cbn [_encrypt_payload] in He. apply bind_ok in He as (ct & s3 & He & Hret).
  apply ret_ok in Hret as [[= E1 E2] _]. rewrite E1, E2, (ap_messages _ _ _ Ha), lookup_insert_eq. split; [done|].
  split; [|split; [done|]].
  - unfold encrypt_message, encrypt_message_with_key in He. apply bind_ok in He as (rg & s4 & _ & He).
    apply bind_ok in He as (tok & s5 & _ & [-> _]%ret_ok). eauto.
  - by eapply (encrypted_text_decrypts _ _ text s1 ct s3 ring ring).
Qed.
End MessageProperties.

(** ** Concrete runs *)

Section Demo.
Definition async_orm : Orm := {| reloads_expired := false |}.
Local Existing Instances still_world ascii_ucd demo_settings toy_crypto demo_encryption async_orm.

Definition hello (client : option N) : PublishMessageRequest :=
  {| pm_content_text := Some (py "hello"); pm_content_json := None; pm_reply_to_message_id := None;
     pm_reply_to_seq_id := None; pm_attachments := None; pm_client_msg_id := client |}.
Definition seen_first : SeenRequest :=
  {| sr_last_seen_message_id := None; sr_last_seen_seq_id := Some 1; sr_last_seen_at := None |}.

Lemma demo_log_wf : log_wf demo_store.
Proof.
  split; cbn [messages channels demo_store empty_store upd]; try (intros until 0; by rewrite lookup_empty).
  - intros c ch. rewrite lookup_singleton_Some. by intros [_ <-].
  - intros c ch n. rewrite lookup_singleton_Some. intros [_ <-]. cbn. lia.
Qed.

Lemma message_log_is_append_only_witness :
  let s' := fold_left (fun s o => (message_request o s).2)
    [OpPublish 7 3 (hello (Some 9%N)); OpPublish 7 4 (hello None); OpSeen 7 4 seen_first; OpPin 7 0 3] demo_session in
  log_wf (durable s') /\ forall c i m, channel_log c (durable s') !! i = Some m -> Message.seq_id m = Z.of_nat i + 1.
Proof.
  destruct (message_log_is_append_only
    [OpPublish 7 3 (hello (Some 9%N)); OpPublish 7 4 (hello None); OpSeen 7 4 seen_first; OpPin 7 0 3] demo_session
    eq_refl demo_log_wf) as (Hwf & _ & Hn & _). split; [exact Hwf|exact Hn].
Defined.

Lemma publish_retry_is_idempotent_witness :
  exists m s1 m' s3,
    publish_message 7 3 (hello (Some 9%N)) demo_session = (inr m, s1)
    /\ let s2 := fold_left (fun s o => (message_request o s).2)
         [OpPublish 7 3 (hello (Some 9%N)); OpPublish 7 6 (hello None)] demo_session in
       publish_message 7 3 (hello (Some 9%N)) s2 = (inr m', s3) /\ msg_identity m' = msg_identity m /\ s3 = s2.
Proof.
  destruct (publish_message 7 3 (hello (Some 9%N)) demo_session) as [[e|m] s1] eqn:E.
  { exfalso. assert (X : is_ok (publish_message 7 3 (hello (Some 9%N)) demo_session).1 = true) by (vm_compute; reflexivity).
    rewrite E in X. discriminate X. }
  set (s2 := fold_left _ _ demo_session).
  destruct (publish_message 7 3 (hello (Some 9%N)) s2) as [[e|m'] s3] eqn:E2.
  { exfalso. assert (X : is_ok (publish_message 7 3 (hello (Some 9%N)) s2).1 = true) by (vm_compute; reflexivity).
    rewrite E2 in X. discriminate X. }
  exists m, s1, m', s3. split; [reflexivity|]. cbv zeta. fold s2. split; [exact E2|].
  pose proof (publish_retry_is_idempotent 7 3 (hello (Some 9%N)) (hello (Some 9%N)) 9 demo_session m s1
    [OpPublish 7 6 (hello None)] m' s3 eq_refl demo_log_wf eq_refl eq_refl E) as Hi.
  cbv zeta in Hi. fold s2 in Hi. exact (Hi E2).
Defined.

(** A channel with three messages, the second of them deleted. *)
Definition talked : Session :=
  fold_left (fun s o => (message_request o s).2)
    [OpPublish 7 3 (hello None); OpPublish 7 6 (hello (Some 9%N)); OpPublish 7 3 (hello None); OpErase 7 6 103] demo_session.

Lemma talked_wf : work talked = durable talked /\ log_wf (durable talked).
Proof.
  destruct (message_requests_run
    [OpPublish 7 3 (hello None); OpPublish 7 6 (hello (Some 9%N)); OpPublish 7 3 (hello None); OpErase 7 6 103] demo_session
    eq_refl demo_log_wf) as (Hc & Hwf & _). by split.
Qed.

Lemma talked_numbers : Message.seq_id <$> channel_log 7 (durable talked) = [1; 2; 3]
  /\ Message.seq_id <$> live_after 7 0 (durable talked) = [1; 3].
Proof. vm_compute. auto. Qed.

Lemma paging_visits_every_message_witness :
  page_forward (S (length (live_after 7 0 (work talked)))) 7 4 1 0 talked = (inr (live_after 7 0 (work talked)), talked)
  /\ length (live_after 7 0 (work talked)) = 2%nat.
Proof.
  destruct talked_wf as [Hc Hwf].
  assert (Hr : may_read 7 4 (work talked)).
  { eexists _, _. split; [vm_compute; reflexivity|]. split; [vm_compute; reflexivity|].
    split; [vm_compute; reflexivity|vm_compute; reflexivity]. }
  split; [|vm_compute; reflexivity].
  apply (paging_visits_every_message 7 4 1 0 talked Hr); [rewrite Hc; exact Hwf|lia].
Defined.

Lemma seen_marker_moves_forward_witness :
  exists r s', mark_seen 7 4 seen_first talked = (inr r, s') /\ UserChannelState.unread_count r = 1
    /\ exists ch, channels (durable talked) !! 7%N = Some ch
    /\ ((s' = talked /\ user_channel_state (durable talked) !! (7%N, 4%N) = Some r)
      \/ exists n, UserChannelState.last_seen_seq_id r = Some n /\ n <= Channel.last_seq_id ch
           /\ (forall old, user_channel_state (durable talked) !! (7%N, 4%N) = Some old ->
                 default 0 (UserChannelState.last_seen_seq_id old) < n)
           /\ UserChannelState.unread_count r = unread_after 7 n (durable talked)
           /\ user_channel_state (durable s') = <[(7%N, 4%N) := r]> (user_channel_state (durable talked))).
Proof.
  destruct (mark_seen 7 4 seen_first talked) as [[e|r] s'] eqn:E.
  { exfalso. assert (X : is_ok (mark_seen 7 4 seen_first talked).1 = true) by (vm_compute; reflexivity).
    rewrite E in X. discriminate X. }
  exists r, s'. split; [reflexivity|]. split.
  - assert (X : match (mark_seen 7 4 seen_first talked).1 with inr r => UserChannelState.unread_count r | inl _ => 0 end = 1)
      by (vm_compute; reflexivity). rewrite E in X. exact X.
  - exact (seen_marker_moves_forward 7 4 seen_first talked r s' (proj1 talked_wf) E).
Defined.

Definition sync_from_one : SyncRequest := {| sy_channels := [(7%N, Some 1); (8%N, None)]; sy_limit := 5 |}.


Lemma published_text_is_encrypted_witness :
  exists m s', publish_message 7 3 (hello None) demo_session = (inr m, s')
    /\ messages (durable s') !! Message.id m = Some m /\ decrypt_message (Message.content_text m) = inr (py "hello").
Proof.
  destruct (publish_message 7 3 (hello None) demo_session) as [[e|m] s'] eqn:E.
  { exfalso. assert (X : is_ok (publish_message 7 3 (hello None) demo_session).1 = true) by (vm_compute; reflexivity).
    rewrite E in X. discriminate X. }
  destruct _build_key_ring as [e|ring] eqn:Er.
  { exfalso. assert (X : is_ok _build_key_ring = true) by (vm_compute; reflexivity). rewrite Er in X. discriminate X. }
  assert (Hid : key_id_ok (active_key_id ring) = true).
  { assert (X : match _build_key_ring with inr r => key_id_ok (active_key_id r) | inl _ => false end = true)
      by (vm_compute; reflexivity). rewrite Er in X. exact X. }
  assert (Hlen : forall data, utf8_encode (py "hello") = Some data -> Z.of_nat (length data) <= 393000).
  { intros data Hd. assert (X : match utf8_encode (py "hello") with Some d => (length d <=? 5)%nat | None => false end = true)
      by (vm_compute; reflexivity). rewrite Hd in X. apply Nat.leb_le in X. lia. }
  destruct (published_text_is_encrypted (H5 := toy_crypto_laws) 7 3 (hello None) (py "hello") demo_session m s' ring eq_refl eq_refl
    eq_refl E Er Hid Hlen) as (Hm & _ & _ & Hdec).
  exists m, s'. split; [reflexivity|]. split; [exact Hm|exact Hdec].
Defined.
End Demo.

(** ** What the model shows *)

Section Observations.
Context `{World} `{UnicodeData} `{BackendSettings} `{Crypto} `{EncryptionSettings} `{Orm}.

(** Where reading an expired attribute raises, a message that is not pinned can
    not be pinned, nor a pinned one unpinned. *)
Lemma pinning_reads_an_expired_attribute c mid u m s x s' :
  reloads_expired = false -> messages (work s) !! mid = Some m -> Message.is_pinned m = false ->
  pin_message c mid u s <> (inr x, s').
Proof.
  intros Ho Hm Hp. unfold pin_message. intros Hr. apply bind_ok in Hr as (role & s0 & ->%assert_can_read_ok & Hr).
  apply bind_ok in Hr as (x0 & s0 & [_ ->]%guard_ok & Hr). apply bind_ok in Hr as (mo & s0 & [-> ->]%gets_ok & Hr).
  rewrite Hm in Hr. apply bind_ok in Hr as (m0 & s0 & [[= <-] ->]%of_option_ok & Hr).
  apply bind_ok in Hr as (x1 & s0 & [_ ->]%guard_ok & Hr). apply bind_ok in Hr as (p & s0 & _ & Hr).
  apply bind_ok in Hr as (x2 & s1 & _ & Hr). apply bind_ok in Hr as (m1 & s2 & Hs & _).
  unfold set_pinned in Hs. rewrite Hp in Hs. cbn [Bool.eqb] in Hs. apply bind_ok in Hs as (now & s3 & _ & Hs).
  apply bind_ok in Hs as (x3 & s4 & _ & Hs). apply bind_ok in Hs as (x4 & s5 & [Hg _]%guard_ok & _). congruence.
Qed.

(** The audit event of an encryption failure is part of the transaction that the
    failure abandons. *)
Lemma encryption_failure_is_not_recorded ch c u req s e s' :
  publish_new ch c u req s = (inl e, s') -> events (durable s') = events (durable s).
Proof. intros Hr. by rewrite (publish_new_atomic ch c u req s e s' Hr). Qed.
End Observations.
