(* ===== verification/MerkleAudit.v ===== *)
(** * Audit checkpoints (backend/app/services/merkle_audit_service.py,
    merkle_checkpoint_service.py)

    Batches of audit events under a signed Merkle root, chained by the hash of
    the previous checkpoint; verification of the database; inclusion proofs as
    self-contained bundles; anchors.  Ed25519 is a parameter. *)

From S2P Require Import Prelude PyStr Sha256 Json Merkle Models Session EventIntegrity Identifiers Outbox.
From S2P Require Import Encryption Uploads.
Local Open Scope Z_scope.

(** ** Libraries *)

(** [cryptography]'s Ed25519 on raw keys and signatures. *)
Class Ed25519 := {
  ed_public : list Z -> list Z;
  ed_sign : list Z -> list Z -> list Z;
  ed_verify : list Z -> list Z -> list Z -> bool
}.
Class Ed25519Laws `{Ed25519} := {
  ed_public_size : forall seed, length seed = 32%nat -> length (ed_public seed) = 32%nat /\ Forall is_byte (ed_public seed);
  ed_sign_size : forall seed m, length seed = 32%nat -> length (ed_sign seed m) = 64%nat /\ Forall is_byte (ed_sign seed m);
  ed_correct : forall seed m, length seed = 32%nat -> ed_verify (ed_public seed) (ed_sign seed m) m = true
}.

(** Conversions of untrusted values whose full grammar is the interpreter's:
    [int(x)] of a float ([ValueError] for nan, [OverflowError] for inf), its
    comparison with an integer, the decimal value of a non-ASCII digit, and
    [datetime.fromisoformat], which gives the offset, if any, and the local
    reading. *)
Class Conversions := {
  float_trunc : list Z -> exc + Z;
  float_is : list Z -> Z -> bool;
  unicode_decimal : Z -> option Z;
  fromisoformat : list Z -> option (option Z * Z)
}.

(** The years 1 to 9999. *)
Definition datetime_ok (t : Z) : bool := (-719162 * us_per_day <=? t) && (t <? 2932897 * us_per_day).

(** What [isoformat] prints is read back. *)
Class ConversionLaws `{Conversions} := {
  fromisoformat_iso : forall t, datetime_ok t = true -> fromisoformat (iso_us t ++ py "+00:00") = Some (Some 0, t)
}.

(** ** Values *)

Definition CHECKPOINT_VERSION : Z := 1.
Definition MERKLE_VERSION : Z := 1.
Definition MAX_BATCH_SIZE : Z := 4096.

Definition format_invalid : exc := MerkleIntegrityError "CHECKPOINT_FORMAT_INVALID".
Definition key_invalid : exc := MerkleIntegrityError "KEY_FORMAT_INVALID".

Section Values.
Context `{Conversions}.

(** [int(text, base)]: surrounding white space, a sign, the prefix of base 16,
    digits with single underscores between them, at most 4300 of them in base
    10. *)
Definition char_digit (base c : Z) : option Z :=
  d ← (if is_digit c then Some (c - 48)
       else if (97 <=? c) && (c <=? 122) then Some (c - 87)
       else if (65 <=? c) && (c <=? 90) then Some (c - 55)
       else if c <? 128 then None else unicode_decimal c);
  if d <? base then Some d else None.
Fixpoint digits_value (base acc : Z) (after_digit : bool) (s : pystr) : option Z :=
  match s with
  | [] => if after_digit then Some acc else None
  | c :: s =>
      if (c =? 95) && after_digit then digits_value base acc false s
      else d ← char_digit base c; digits_value base (base * acc + d) true s
  end.
Definition int_space (c : Z) : bool := isspace c && negb ((28 <=? c) && (c <=? 31)).
Definition base_prefix (base : Z) (s : pystr) : pystr :=
  match s with
  | 48 :: x :: s' =>
      if (base =? 16) && ((x =? 120) || (x =? 88)) then match s' with 95 :: s'' => s'' | _ => s' end else s
  | _ => s
  end.
Definition split_sign (s : pystr) : Z * pystr :=
  match s with
  | [] => (1, [])
  | c :: s' => if c =? 45 then (-1, s') else if c =? 43 then (1, s') else (1, s)
  end.
Definition int_text (base : Z) (s : pystr) : option Z :=
  let '(sign, s) := split_sign (strip_when int_space s) in
  if (base =? 10) && (4300 <? Z.of_nat (length (List.filter (fun c => negb (c =? 95)) s))) then None
  else Z.mul sign <$> digits_value base 0 false (base_prefix base s).

(** [s.replace(sub, "")]; [skip] characters of an occurrence are left. *)
Fixpoint remove_sub (sub : pystr) (skip : nat) (s : pystr) : pystr :=
  match s with
  | [] => []
  | c :: s' =>
      match skip with
      | S skip => remove_sub sub skip s'
      | O => if startswith sub s then remove_sub sub (length sub - 1) s' else c :: remove_sub sub 0 s'
      end
  end.

(** [UUID(text)]. *)
Definition uuid_text (s : pystr) : option N :=
  let hex := remove_sub (py "uuid:") 0 (remove_sub (py "urn:") 0 s) in
  let hex := List.filter (fun c => negb (c =? 45)) (strip_when (fun c => (c =? 123) || (c =? 125)) hex) in
  if (length hex =? 32)%nat then
    n ← int_text 16 hex; if (0 <=? n) && (n <? 2 ^ 128) then Some (Z.to_N n) else None
  else None.

(** [int(value)]. *)
Definition int_of (v : pyval) : res Z :=
  match v with
  | PInt n => mret n
  | PBool b => mret (if b then 1 else 0)
  | PFloat r => float_trunc r
  | PStr s | PEnum s => match int_text 10 s with Some n => mret n | None => raise (ValueError "int") end
  | _ => raise (TypeError "int")
  end.

(** [UUID(str(value))]. *)
Definition uuid_of (v : pyval) : res N :=
  match uuid_text (py_str v) with Some u => mret u | None => raise (ValueError "badly formed UUID") end.

(** [value.replace("Z", "+00:00")]. *)
Definition replace_z (s : pystr) : pystr := s ≫= (fun c => if c =? 90 then py "+00:00" else [c]).

(** [_as_utc]: [astimezone] fails outside the range of [datetime], in which
    a naive value lies already. *)
Definition _as_utc (offset : option Z) (local : Z) : res Z :=
  let t := _as_utc_datetime offset local in
  if datetime_ok t then mret t else raise (OverflowError "date value out of range").

Definition _timestamp (v : pyval) : res pystr :=
  value ← (match v with
           | PStr s | PEnum s => match fromisoformat (replace_z s) with Some d => mret d | None => raise format_invalid end
           | PDatetime o t => mret (o, t)
           | _ => raise format_invalid
           end);
  t ← _as_utc (fst value) (snd value); mret (iso_us t ++ py "Z").
End Values.

Definition _decode_base64 (v : pyval) (size : nat) : res bytes :=
  match v with
  | PStr ((_ :: _) as s) =>
      match b64decode s with
      | Some bs => if (length bs =? size)%nat then mret bs else raise key_invalid
      | None => raise key_invalid
      end
  | _ => raise key_invalid
  end.

Definition _encode_base64 (value : bytes) : pystr := b64encode value.

(** ** Signatures *)

Section Signatures.
Context `{Ed25519}.

Definition derive_public_key (private_key_base64 : pystr) : res pystr :=
  seed ← _decode_base64 (PStr private_key_base64) 32;
  mret (_encode_base64 (ed_public seed)).

Definition validate_signing_configuration (signing_key_id private_key_base64 : pystr)
    (public_keys : list (list Z * list Z)) : res unit :=
  if negb (key_id_ok signing_key_id) then raise (MerkleIntegrityError "SIGNING_KEY_CONFIG_INVALID")
  else
    match assoc signing_key_id public_keys with
    | None => raise (MerkleIntegrityError "UNKNOWN_SIGNING_KEY")
    | Some trusted_value =>
        _ ← _decode_base64 (PStr trusted_value) 32;
        derived ← derive_public_key private_key_base64;
        if str_eqb derived trusted_value then mret tt else raise (MerkleIntegrityError "SIGNING_KEY_MISMATCH")
    end.

Definition sign_checkpoint_hash (checkpoint_hash private_key_base64 : pystr) : res pystr :=
  match (if is_hash_hex checkpoint_hash then bytes_fromhex checkpoint_hash else None) with
  | None => raise (MerkleIntegrityError "CHECKPOINT_HASH_MISMATCH")
  | Some digest =>
      seed ← _decode_base64 (PStr private_key_base64) 32;
      mret (_encode_base64 (ed_sign seed digest))
  end.

(** [None] is a valid signature. *)
Definition verify_checkpoint_signature (checkpoint_hash signing_key_id signature : pystr)
    (public_keys : list (list Z * list Z)) : option string :=
  match (if is_hash_hex checkpoint_hash then bytes_fromhex checkpoint_hash else None) with
  | None => Some "CHECKPOINT_HASH_MISMATCH"%string
  | Some digest =>
      match assoc signing_key_id public_keys with
      | None => Some "UNKNOWN_SIGNING_KEY"%string
      | Some public_value =>
          match (pub ← _decode_base64 (PStr public_value) 32; sig ← _decode_base64 (PStr signature) 64; mret (pub, sig)) with
          | inr (pub, sig) => if ed_verify pub sig digest then None else Some "SIGNATURE_INVALID"%string
          | inl _ => Some "SIGNATURE_INVALID"%string
          end
      end
  end.
End Signatures.

(** ** Checkpoints *)

Section Checkpoints.
Context `{Conversions}.

Definition field (name : string) (raw : list (list Z * pyval)) : res pyval :=
  match assoc (py name) raw with Some v => mret v | None => raise format_invalid end.

(** [except (TypeError, ValueError)]. *)
Definition format_error {A} (r : res A) : res A :=
  match r with
  | inl (TypeError _) | inl (ValueError _) => raise format_invalid
  | _ => r
  end.

Definition hash_field (v : pyval) : res pystr :=
  if is_hash_hex (py_str v) then mret (py_str v) else raise format_invalid.

Record CheckpointPayload := {
  cp_sequence_no : Z; cp_leaf_count : Z; cp_first_event_id : pystr; cp_last_event_id : pystr;
  cp_first_event_hash : pystr; cp_last_event_hash : pystr; cp_merkle_root : pystr;
  cp_previous_checkpoint_hash : option pystr; cp_signing_key_id : pystr; cp_created_at : pystr
}.

(** The canonical dictionary. *)
Definition payload_dict (p : CheckpointPayload) : list (list Z * pyval) :=
  [(py "checkpoint_version", PInt CHECKPOINT_VERSION); (py "sequence_no", PInt (cp_sequence_no p));
   (py "merkle_version", PInt MERKLE_VERSION); (py "hash_algorithm", PStr HASH_ALGORITHM);
   (py "leaf_count", PInt (cp_leaf_count p)); (py "first_event_id", PStr (cp_first_event_id p));
   (py "last_event_id", PStr (cp_last_event_id p)); (py "first_event_hash", PStr (cp_first_event_hash p));
   (py "last_event_hash", PStr (cp_last_event_hash p)); (py "merkle_root", PStr (cp_merkle_root p));
   (py "previous_checkpoint_hash", opt_str (cp_previous_checkpoint_hash p));
   (py "signing_key_id", PStr (cp_signing_key_id p)); (py "created_at", PStr (cp_created_at p))].

Definition checkpoint_payload (raw : list (list Z * pyval)) : res CheckpointPayload :=
  raw_version ← field "checkpoint_version" raw; raw_sequence ← field "sequence_no" raw;
  raw_merkle_version ← field "merkle_version" raw; raw_algorithm ← field "hash_algorithm" raw;
  raw_count ← field "leaf_count" raw; raw_first ← field "first_event_id" raw; raw_last ← field "last_event_id" raw;
  raw_first_hash ← field "first_event_hash" raw; raw_last_hash ← field "last_event_hash" raw;
  raw_root ← field "merkle_root" raw; previous ← field "previous_checkpoint_hash" raw;
  raw_key ← field "signing_key_id" raw; raw_created ← field "created_at" raw;
  checkpoint_version ← format_error (int_of raw_version);
  sequence_no ← format_error (int_of raw_sequence);
  merkle_version ← format_error (int_of raw_merkle_version);
  leaf_count ← format_error (int_of raw_count);
  first_event_id ← format_error (uuid_of raw_first);
  last_event_id ← format_error (uuid_of raw_last);
  if (sequence_no <? 1) || negb (merkle_version =? MERKLE_VERSION) || negb ((1 <=? leaf_count) && (leaf_count <=? MAX_BATCH_SIZE))
  then raise format_invalid
  else if negb (checkpoint_version =? CHECKPOINT_VERSION)
          || negb (match raw_algorithm with PStr s | PEnum s => str_eqb s HASH_ALGORITHM | _ => false end)
  then raise format_invalid
  else
    first_event_hash ← hash_field raw_first_hash;
    last_event_hash ← hash_field raw_last_hash;
    merkle_root ← hash_field raw_root;
    previous ← (match previous with PNone => mret None | v => h ← hash_field v; mret (Some h) end);
    if negb (key_id_ok (py_str raw_key)) then raise format_invalid
    else
      created_at ← _timestamp raw_created;
      mret {| cp_sequence_no := sequence_no; cp_leaf_count := leaf_count; cp_first_event_id := uuid_str first_event_id;
              cp_last_event_id := uuid_str last_event_id; cp_first_event_hash := first_event_hash;
              cp_last_event_hash := last_event_hash; cp_merkle_root := merkle_root;
              cp_previous_checkpoint_hash := previous; cp_signing_key_id := py_str raw_key; cp_created_at := created_at |}.

(** The mapping built from a row. *)
Definition batch_raw (b : AuditMerkleBatch.t) : list (list Z * pyval) :=
  [(py "checkpoint_version", PInt CHECKPOINT_VERSION); (py "sequence_no", PInt (AuditMerkleBatch.sequence_no b));
   (py "merkle_version", PInt (AuditMerkleBatch.merkle_version b)); (py "hash_algorithm", PStr (AuditMerkleBatch.hash_algorithm b));
   (py "leaf_count", PInt (AuditMerkleBatch.leaf_count b)); (py "first_event_id", PStr (uuid_str (AuditMerkleBatch.first_event_id b)));
   (py "last_event_id", PStr (uuid_str (AuditMerkleBatch.last_event_id b)));
   (py "first_event_hash", PStr (AuditMerkleBatch.first_event_hash b));
   (py "last_event_hash", PStr (AuditMerkleBatch.last_event_hash b)); (py "merkle_root", PStr (AuditMerkleBatch.merkle_root b));
   (py "previous_checkpoint_hash", opt_str (AuditMerkleBatch.previous_checkpoint_hash b));
   (py "signing_key_id", PStr (AuditMerkleBatch.signing_key_id b));
   (py "created_at", PDatetime (Some 0) (AuditMerkleBatch.created_at b))].

Definition canonical_checkpoint_json (raw : list (list Z * pyval)) : res pystr :=
  p ← checkpoint_payload raw; mret (json_dumps (PDict (payload_dict p))).

(** The JSON text is ASCII. *)
Definition compute_checkpoint_hash (raw : list (list Z * pyval)) : res pystr :=
  text ← canonical_checkpoint_json raw; mret (sha256_hexdigest text).
End Checkpoints.

(** ** The database *)

(** Integrity metadata that [_valid_event_metadata_filter] accepts. *)
Definition valid_event_metadata (e : Event.t) : bool :=
  bool_decide (is_Some (Event.event_hash e)) && bool_decide (Event.hash_algorithm e = Some HASH_ALGORITHM)
  && bool_decide (Event.integrity_version e = Some INTEGRITY_VERSION) && bool_decide (is_Some (Event.integrity_scope e)).

Definition has_leaf (st : Store) (e : Event.t) : bool :=
  existsb (fun l => bool_decide (AuditMerkleLeaf.event_id l = Event.id e)) (rows (audit_merkle_leaves st)).

(** Events that no batch covers, oldest first. *)
Definition pending_events (st : Store) : list Event.t :=
  order_by event_key (List.filter (fun e => negb (has_leaf st e) && valid_event_metadata e) (rows (events st))).

Definition batches_by_sequence (st : Store) : list AuditMerkleBatch.t :=
  order_by (fun b => [AuditMerkleBatch.sequence_no b]) (rows (audit_merkle_batches st)).
Definition latest_batch (st : Store) : option AuditMerkleBatch.t :=
  head (order_by (fun b => [- AuditMerkleBatch.sequence_no b]) (rows (audit_merkle_batches st))).

Definition leaves_of (batch_id : N) (st : Store) : list AuditMerkleLeaf.t :=
  order_by (fun l => [AuditMerkleLeaf.leaf_index l])
    (List.filter (fun l => bool_decide (AuditMerkleLeaf.batch_id l = batch_id)) (rows (audit_merkle_leaves st))).

(** [db.add(batch); await db.flush()] with the unique constraints. *)
Definition insert_batch `{World} (b : AuditMerkleBatch.t) : M unit :=
  st ← gets id;
  guard (negb (existsb (fun x => AuditMerkleBatch.sequence_no x =? AuditMerkleBatch.sequence_no b) (rows (audit_merkle_batches st))))
    (IntegrityError "audit_merkle_batches_sequence_no_key") ;;
  guard (negb (existsb (fun x => str_eqb (AuditMerkleBatch.checkpoint_hash x) (AuditMerkleBatch.checkpoint_hash b))
                 (rows (audit_merkle_batches st))))
    (IntegrityError "audit_merkle_batches_checkpoint_hash_key") ;;
  insert_row "audit_merkle_batches_pkey" audit_merkle_batches (upd audit_merkle_batches) (AuditMerkleBatch.id b) b.

Definition insert_leaf `{World} (l : AuditMerkleLeaf.t) : M unit :=
  st ← gets id;
  guard (negb (existsb (fun x => bool_decide (AuditMerkleLeaf.event_id x = AuditMerkleLeaf.event_id l)) (rows (audit_merkle_leaves st))))
    (IntegrityError "audit_merkle_leaves_event_id_key") ;;
  insert_row "audit_merkle_leaves_pkey" audit_merkle_leaves (upd audit_merkle_leaves)
    (AuditMerkleLeaf.batch_id l, AuditMerkleLeaf.leaf_index l) l.

Record SigningKey := { sk_id : pystr; sk_private : pystr; sk_public_keys : list (list Z * list Z) }.

(** [[AuditMerkleLeaf(...) for index, event in enumerate(events)]]. *)
Definition leaf_rows (batch_id : N) (es : list Event.t) (leaf_hashes : list pystr) : list AuditMerkleLeaf.t :=
  zip_with (fun ie h => AuditMerkleLeaf.Row batch_id (Event.id ie.2) ie.1 (default [] (Event.event_hash ie.2)) h)
    (zip (Z.of_nat <$> seq 0 (length es)) es) leaf_hashes.

Section Database.
Context `{World} `{Ed25519} `{Conversions}.

(** The advisory lock is a statement that the server may abort. *)
Definition lock_checkpoint : M unit := may_fault.

Definition create_checkpoint (max_leaves : Z) (key : SigningKey) : M (option AuditMerkleBatch.t) :=
  guard ((1 <=? max_leaves) && (max_leaves <=? MAX_BATCH_SIZE)) (MerkleIntegrityError "BATCH_SIZE_INVALID") ;;
  of_res (validate_signing_configuration (sk_id key) (sk_private key) (sk_public_keys key)) ;;
  lock_checkpoint ;;
  missing ← gets (fun st => List.filter (fun e => negb (valid_event_metadata e)) (rows (events st)));
  guard (length missing =? 0)%nat (MerkleIntegrityError "MISSING_INTEGRITY_METADATA") ;;
  es ← gets (fun st => take (Z.to_nat max_leaves) (pending_events st));
  match es with
  | [] => mret None
  | first :: _ =>
      guard (forallb (fun e => bool_decide (Event.event_hash e = Some (compute_event_hash e))) es)
        (MerkleIntegrityError "EVENT_HASH_MISMATCH") ;;
      latest ← gets latest_batch;
      let event_hashes := (fun e => default [] (Event.event_hash e)) <$> es in
      leaf_hashes ← of_res (res_map (fun h => leaf_hash (PStr h)) event_hashes);
      created_at ← utcnow;
      root ← of_res (build_merkle_root leaf_hashes);
      let last_event := default first (last es) in
      let draft := AuditMerkleBatch.Row 0 (match latest with None => 1 | Some l => AuditMerkleBatch.sequence_no l + 1 end)
        MERKLE_VERSION HASH_ALGORITHM (Z.of_nat (length es)) (Event.id first) (Event.id last_event)
        (default [] (Event.event_hash first)) (default [] (Event.event_hash last_event)) root
        (AuditMerkleBatch.checkpoint_hash <$> latest) (replicate 64 48) (sk_id key) [] created_at in
      checkpoint_hash ← of_res (compute_checkpoint_hash (batch_raw draft));
      signature ← of_res (sign_checkpoint_hash checkpoint_hash (sk_private key));
      id ← uuid4;
      let batch := draft <| AuditMerkleBatch.id := id |> <| AuditMerkleBatch.checkpoint_hash := checkpoint_hash |>
                         <| AuditMerkleBatch.signature := signature |> in
      insert_batch batch ;;
      for_each (leaf_rows id es leaf_hashes) insert_leaf ;;
      mret (Some batch)
  end.

(** ** Verification *)

(** [for item in leaves: if leaf_hash(item.event_hash) != item.leaf_hash]. *)
Definition leaf_hash_matches (l : AuditMerkleLeaf.t) : bool :=
  match leaf_hash (PStr (AuditMerkleLeaf.event_hash l)) with
  | inr h => str_eqb h (AuditMerkleLeaf.leaf_hash l)
  | inl _ => false
  end.

(** The comparison of the leaves with the current events. *)
Fixpoint check_leaf_events (st : Store) (leaves : list AuditMerkleLeaf.t) : res (option string) :=
  match leaves with
  | [] => mret None
  | item :: leaves =>
      match events st !! AuditMerkleLeaf.event_id item with
      | None => raise (KeyError "event_id")
      | Some event =>
          if negb (bool_decide (Event.event_hash event = Some (AuditMerkleLeaf.event_hash item)))
          then mret (Some "EVENT_HASH_SNAPSHOT_MISMATCH"%string)
          else if negb (str_eqb (compute_event_hash event) (AuditMerkleLeaf.event_hash item))
          then mret (Some "EVENT_HASH_MISMATCH"%string)
          else check_leaf_events st leaves
      end
  end.

Definition _verify_batch (st : Store) (batch : AuditMerkleBatch.t) (public_keys : list (list Z * list Z)) : res (option string) :=
  match compute_checkpoint_hash (batch_raw batch) with
  | inl (MerkleIntegrityError _) => mret (Some "CHECKPOINT_FORMAT_INVALID"%string)
  | inl e => raise e
  | inr expected =>
      if negb (str_eqb (AuditMerkleBatch.checkpoint_hash batch) expected) then mret (Some "CHECKPOINT_HASH_MISMATCH"%string)
      else
        match verify_checkpoint_signature (AuditMerkleBatch.checkpoint_hash batch) (AuditMerkleBatch.signing_key_id batch)
                (AuditMerkleBatch.signature batch) public_keys with
        | Some reason => mret (Some reason)
        | None =>
            let leaves := leaves_of (AuditMerkleBatch.id batch) st in
            if negb (Z.of_nat (length leaves) =? AuditMerkleBatch.leaf_count batch) then mret (Some "LEAF_COUNT_MISMATCH"%string)
            else if negb (bool_decide (AuditMerkleLeaf.leaf_index <$> leaves = Z.of_nat <$> seq 0 (length leaves)))
            then mret (Some "LEAF_INDEX_MISMATCH"%string)
            else
              match leaves, last leaves with
              | first :: _, Some last_leaf =>
                  if negb (bool_decide (AuditMerkleLeaf.event_id first = AuditMerkleBatch.first_event_id batch)
                           && bool_decide (AuditMerkleLeaf.event_id last_leaf = AuditMerkleBatch.last_event_id batch)
                           && str_eqb (AuditMerkleLeaf.event_hash first) (AuditMerkleBatch.first_event_hash batch)
                           && str_eqb (AuditMerkleLeaf.event_hash last_leaf) (AuditMerkleBatch.last_event_hash batch))
                  then mret (Some "CHECKPOINT_BOUNDARY_MISMATCH"%string)
                  else if negb (forallb leaf_hash_matches leaves) then mret (Some "LEAF_HASH_MISMATCH"%string)
                  else
                    match build_merkle_root (AuditMerkleLeaf.leaf_hash <$> leaves) with
                    | inl (ValueError _) => mret (Some "MERKLE_ROOT_MISMATCH"%string)
                    | inl e => raise e
                    | inr root =>
                        if negb (str_eqb root (AuditMerkleBatch.merkle_root batch)) then mret (Some "MERKLE_ROOT_MISMATCH"%string)
                        else
                          let found := List.filter (fun e => bool_decide (Event.id e ∈ AuditMerkleLeaf.event_id <$> leaves))
                                         (rows (events st)) in
                          if negb (length found =? length leaves)%nat then mret (Some "EVENT_MISSING"%string)
                          else check_leaf_events st leaves
                    end
              | _, _ => mret (Some "LEAF_COUNT_MISMATCH"%string)
              end
        end
  end.

Record DatabaseVerification := {
  dv_valid : bool; dv_reason_code : option string; dv_batch_count : Z; dv_checked_batches : Z; dv_checked_events : Z;
  dv_broken_sequence : option Z; dv_latest_sequence : option Z; dv_latest_checkpoint_hash : option pystr
}.

Definition _invalid_verification (reason : string) (batch_count checked_batches checked_events : Z)
    (broken_sequence : option Z) : DatabaseVerification :=
  {| dv_valid := false; dv_reason_code := Some reason; dv_batch_count := batch_count; dv_checked_batches := checked_batches;
     dv_checked_events := checked_events; dv_broken_sequence := broken_sequence; dv_latest_sequence := None;
     dv_latest_checkpoint_hash := None |}.

(** The loop over the batches: the number of events checked, or the answer. *)
Fixpoint verify_batches (st : Store) (public_keys : list (list Z * list Z)) (batch_count expected_sequence : Z)
    (expected_previous : option pystr) (checked_events : Z) (batches : list AuditMerkleBatch.t)
  : res (DatabaseVerification + Z) :=
  match batches with
  | [] => mret (inr checked_events)
  | batch :: batches =>
      let broken reason := mret (inl (_invalid_verification reason batch_count (expected_sequence - 1) checked_events
                                        (Some (AuditMerkleBatch.sequence_no batch)))) in
      if negb (AuditMerkleBatch.sequence_no batch =? expected_sequence) then broken "CHECKPOINT_SEQUENCE_BROKEN"%string
      else if negb (bool_decide (AuditMerkleBatch.previous_checkpoint_hash batch = expected_previous))
      then broken "CHECKPOINT_CHAIN_BROKEN"%string
      else
        reason ← _verify_batch st batch public_keys;
        match reason with
        | Some r => broken r
        | None =>
            verify_batches st public_keys batch_count (expected_sequence + 1) (Some (AuditMerkleBatch.checkpoint_hash batch))
              (checked_events + AuditMerkleBatch.leaf_count batch) batches
        end
  end.

Definition verify_database (public_keys : list (list Z * list Z)) (through_sequence : option Z) (verify_event_chains : bool)
    (st : Store) : res DatabaseVerification :=
  let batches := List.filter (fun b => match through_sequence with
                                       | Some n => AuditMerkleBatch.sequence_no b <=? n
                                       | None => true
                                       end) (batches_by_sequence st) in
  let batch_count := Z.of_nat (length batches) in
  r ← verify_batches st public_keys batch_count 1 None 0 batches;
  match r with
  | inl answer => mret answer
  | inr checked_events =>
      if match through_sequence with
         | Some n => negb (bool_decide (AuditMerkleBatch.sequence_no <$> last batches = Some n))
         | None => false
         end
      then mret (_invalid_verification "ANCHORED_CHECKPOINT_MISSING" batch_count batch_count checked_events through_sequence)
      else
        let covered := List.filter (fun e => existsb (fun b => existsb (fun l => bool_decide (AuditMerkleLeaf.event_id l = Event.id e))
                                                             (leaves_of (AuditMerkleBatch.id b) st)) batches) (rows (events st)) in
        let scopes := order_by id (remove_dups (omap Event.integrity_scope covered)) in
        if verify_event_chains && negb (forallb (fun scope => vr_valid (verify_events scope (chain_of scope st))) scopes)
        then mret (_invalid_verification "EVENT_CHAIN_BROKEN" batch_count batch_count checked_events None)
        else
          mret {| dv_valid := true; dv_reason_code := None; dv_batch_count := batch_count; dv_checked_batches := batch_count;
                  dv_checked_events := checked_events; dv_broken_sequence := None;
                  dv_latest_sequence := AuditMerkleBatch.sequence_no <$> last batches;
                  dv_latest_checkpoint_hash := AuditMerkleBatch.checkpoint_hash <$> last batches |}
  end.
End Database.

(** ** Proof bundles *)

Section Bundles.
Context `{Ed25519} `{Conversions}.

(** The inner join of the event with its leaf and its batch; [event_id] is
    unique among the leaves and [id] among the batches. *)
Definition leaf_of (event_id : N) (st : Store) : option (Event.t * AuditMerkleLeaf.t * AuditMerkleBatch.t) :=
  event ← events st !! event_id;
  leaf ← List.find (fun l => bool_decide (AuditMerkleLeaf.event_id l = event_id)) (rows (audit_merkle_leaves st));
  batch ← audit_merkle_batches st !! AuditMerkleLeaf.batch_id leaf;
  mret (event, leaf, batch).

Definition bundle_of (event : Event.t) (leaf : AuditMerkleLeaf.t) (batch : AuditMerkleBatch.t)
    (proof : MerkleProof) (checkpoint : CheckpointPayload) : list (list Z * pyval) :=
  [(py "proof_version", PInt 1); (py "event_id", PStr (uuid_str (Event.id event)));
   (py "event_hash", PStr (AuditMerkleLeaf.event_hash leaf)); (py "leaf_hash", PStr (AuditMerkleLeaf.leaf_hash leaf));
   (py "batch_id", PStr (uuid_str (AuditMerkleBatch.id batch))); (py "batch_sequence", PInt (AuditMerkleBatch.sequence_no batch));
   (py "leaf_index", PInt (AuditMerkleLeaf.leaf_index leaf)); (py "leaf_count", PInt (AuditMerkleBatch.leaf_count batch));
   (py "merkle_root", PStr (AuditMerkleBatch.merkle_root batch)); (py "siblings", PList (siblings proof));
   (py "checkpoint", PDict (payload_dict checkpoint)); (py "checkpoint_hash", PStr (AuditMerkleBatch.checkpoint_hash batch));
   (py "signature", PStr (AuditMerkleBatch.signature batch));
   (py "verification", PDict [(py "valid", PBool true); (py "event_hash_valid", PBool true);
      (py "inclusion_proof_valid", PBool true); (py "checkpoint_hash_valid", PBool true);
      (py "signature_valid", PBool true); (py "checkpoint_chain_valid", PBool true); (py "reason_code", PNone)])].

Definition proof_for_event (event_id : N) (public_keys : list (list Z * list Z)) (st : Store)
  : res (list (list Z * pyval)) :=
  match leaf_of event_id st with
  | None =>
      match events st !! event_id with
      | None => raise (MerkleIntegrityError "EVENT_NOT_FOUND")
      | Some _ => raise (MerkleIntegrityError "MERKLE_NOT_CHECKPOINTED")
      end
  | Some (event, selected_leaf, batch) =>
      if negb (bool_decide (Event.event_hash event = Some (compute_event_hash event)))
      then raise (MerkleIntegrityError "EVENT_HASH_MISMATCH")
      else if negb (bool_decide (Event.event_hash event = Some (AuditMerkleLeaf.event_hash selected_leaf)))
      then raise (MerkleIntegrityError "LEAF_HASH_MISMATCH")
      else
        h ← leaf_hash (PStr (AuditMerkleLeaf.event_hash selected_leaf));
        if negb (str_eqb h (AuditMerkleLeaf.leaf_hash selected_leaf))
        then raise (MerkleIntegrityError "LEAF_HASH_MISMATCH")
        else
          chain_result ← verify_database public_keys (Some (AuditMerkleBatch.sequence_no batch)) false st;
          if negb (dv_valid chain_result)
          then raise (MerkleIntegrityError (default "None"%string (dv_reason_code chain_result)))
          else
            let leaves := leaves_of (AuditMerkleBatch.id batch) st in
            proof ← build_merkle_proof (AuditMerkleLeaf.leaf_hash <$> leaves) (AuditMerkleLeaf.leaf_index selected_leaf);
            checkpoint ← checkpoint_payload (batch_raw batch);
            mret (bundle_of event selected_leaf batch proof checkpoint)
  end.

(** The [result] dictionary; its [checkpoint_chain_valid] stays [None]. *)
Record BundleVerification := {
  bv_valid : bool; bv_event_hash_valid : bool; bv_inclusion_proof_valid : bool; bv_checkpoint_hash_valid : bool;
  bv_signature_valid : bool; bv_reason_code : option string
}.

(** The results at the successive [return]s: which of the checks passed. *)
Definition bundle_result (passed : nat) (reason : option string) : BundleVerification :=
  {| bv_valid := (4 <=? passed)%nat; bv_event_hash_valid := (3 <=? passed)%nat; bv_inclusion_proof_valid := (4 <=? passed)%nat;
     bv_checkpoint_hash_valid := (1 <=? passed)%nat; bv_signature_valid := (2 <=? passed)%nat; bv_reason_code := reason |}.

(** [except (KeyError, TypeError, ValueError, MerkleIntegrityError): return result]. *)
Definition attempt {A} (passed : nat) (r : res A) (k : A -> res BundleVerification) : res BundleVerification :=
  match r with
  | inr a => k a
  | inl (KeyError _) | inl (TypeError _) | inl (ValueError _) | inl (MerkleIntegrityError _) =>
      mret (bundle_result passed (Some "PROOF_FORMAT_INVALID"%string))
  | inl e => raise e
  end.

(** [proof.get(name, default)]. *)
Definition get (name : string) (dflt : pyval) (d : list (list Z * pyval)) : pyval := default dflt (assoc (py name) d).
Definition get_str (name : string) (d : list (list Z * pyval)) : pystr := py_str (get name (PStr []) d).

Definition verify_inclusion (proof : list (list Z * pyval)) (canonical : CheckpointPayload) : res BundleVerification :=
  attempt 2 (uuid_of (get "event_id" (PStr []) proof)) (fun u =>
  let event_id := uuid_str u in
  let event_hash_value := get_str "event_hash" proof in
  attempt 2 (leaf_hash (PStr event_hash_value)) (fun h =>
  if negb (str_eqb h (get_str "leaf_hash" proof)) then mret (bundle_result 2 (Some "LEAF_HASH_MISMATCH"%string))
  else
    attempt 3 (int_of (get "leaf_index" (PInt (-1)) proof)) (fun leaf_index =>
    attempt 3 (int_of (get "leaf_count" (PInt 0) proof)) (fun leaf_count =>
    attempt 3 (int_of (get "batch_sequence" (PInt 0) proof)) (fun batch_sequence =>
    let merkle_root := get_str "merkle_root" proof in
    if negb (cp_leaf_count canonical =? leaf_count) || negb (cp_sequence_no canonical =? batch_sequence)
       || negb (str_eqb (cp_merkle_root canonical) merkle_root) || str_eqb event_id []
    then mret (bundle_result 3 (Some "PROOF_CHECKPOINT_MISMATCH"%string))
    else
      match get "siblings" PNone proof with
      | PList sibs =>
          attempt 3 (verify_event_merkle_proof (PStr event_hash_value) (PInt leaf_index) (PInt leaf_count) (PList sibs)
                       (PStr merkle_root)) (fun ok =>
          if ok then mret (bundle_result 4 None) else mret (bundle_result 3 (Some "MERKLE_PROOF_INVALID"%string)))
      | _ => mret (bundle_result 3 (Some "MERKLE_PROOF_INVALID"%string))
      end))))).

Definition verify_proof_bundle (proof : pyval) (public_keys : list (list Z * list Z)) : res BundleVerification :=
  match proof with
  | PDict proof =>
      attempt 0 (int_of (get "proof_version" (PInt 0) proof)) (fun version =>
      if negb (version =? 1) then mret (bundle_result 0 (Some "PROOF_FORMAT_INVALID"%string))
      else
        match get "checkpoint" PNone proof with
        | PDict checkpoint_raw =>
            attempt 0 (checkpoint_payload checkpoint_raw) (fun canonical =>
            attempt 0 (compute_checkpoint_hash (payload_dict canonical)) (fun computed =>
            let supplied := get_str "checkpoint_hash" proof in
            if negb (str_eqb computed supplied) then mret (bundle_result 0 (Some "CHECKPOINT_HASH_MISMATCH"%string))
            else
              match verify_checkpoint_signature supplied (cp_signing_key_id canonical) (get_str "signature" proof) public_keys with
              | Some reason => mret (bundle_result 1 (Some reason))
              | None => verify_inclusion proof canonical
              end))
        | _ => mret (bundle_result 0 (Some "PROOF_FORMAT_INVALID"%string))
        end)
  | _ => mret (bundle_result 0 (Some "PROOF_FORMAT_INVALID"%string))
  end.
End Bundles.

(** ** Anchors *)

Section Anchors.
Context `{Ed25519} `{Conversions}.

(** [created_at] comes from a row, so [_timestamp] does not raise. *)
Definition anchor_for_batch (batch : AuditMerkleBatch.t) : list (list Z * pyval) :=
  [(py "anchor_version", PInt 1); (py "sequence_no", PInt (AuditMerkleBatch.sequence_no batch));
   (py "checkpoint_hash", PStr (AuditMerkleBatch.checkpoint_hash batch)); (py "merkle_root", PStr (AuditMerkleBatch.merkle_root batch));
   (py "previous_checkpoint_hash", opt_str (AuditMerkleBatch.previous_checkpoint_hash batch));
   (py "created_at", PStr (iso_us (AuditMerkleBatch.created_at batch) ++ py "Z"));
   (py "signing_key_id", PStr (AuditMerkleBatch.signing_key_id batch)); (py "signature", PStr (AuditMerkleBatch.signature batch))].

Record AnchorVerification := {
  av_valid : bool; av_signature_valid : bool; av_checkpoint_chain_valid : option bool; av_reason_code : option string;
  av_sequence_no : option Z
}.
Definition signature_answer (reason : option string) : AnchorVerification :=
  {| av_valid := bool_decide (reason = None); av_signature_valid := bool_decide (reason = None);
     av_checkpoint_chain_valid := None; av_reason_code := reason; av_sequence_no := None |}.

Definition verify_anchor_body (anchor : list (list Z * pyval)) (public_keys : list (list Z * list Z)) : res AnchorVerification :=
  anchor_version ← int_of (get "anchor_version" (PInt 0) anchor);
  if negb (anchor_version =? 1) then raise (ValueError "")
  else
    sequence_no ← int_of (get "sequence_no" (PInt 0) anchor);
    if sequence_no <? 1 then raise (ValueError "")
    else
      let previous := get "previous_checkpoint_hash" PNone anchor in
      _ ← _timestamp (get "created_at" PNone anchor);
      if negb (is_hash_hex (get_str "merkle_root" anchor)) then raise (ValueError "")
      else if match previous with PNone => false | v => negb (is_hash_hex (py_str v)) end then raise (ValueError "")
      else
        mret (signature_answer (verify_checkpoint_signature (get_str "checkpoint_hash" anchor) (get_str "signing_key_id" anchor)
                                  (get_str "signature" anchor) public_keys)).

Definition verify_anchor_signature (anchor : list (list Z * pyval)) (public_keys : list (list Z * list Z)) : res AnchorVerification :=
  match verify_anchor_body anchor public_keys with
  | inl (TypeError _) | inl (ValueError _) | inl (MerkleIntegrityError _) =>
      mret (signature_answer (Some "ANCHOR_FORMAT_INVALID"%string))
  | r => r
  end.

(** Python [==] of an untrusted value with an integer, a string or [None]. *)
Definition value_is (v expected : pyval) : bool :=
  match expected, v with
  | PInt n, PInt m => n =? m
  | PInt n, PBool b => n =? (if b then 1 else 0)
  | PInt n, PFloat r => float_is r n
  | PStr s, PStr t | PStr s, PEnum t => str_eqb s t
  | PNone, PNone => true
  | _, _ => false
  end.

Definition verify_anchor_against_database (anchor : list (list Z * pyval)) (public_keys : list (list Z * list Z)) (st : Store)
  : res AnchorVerification :=
  signature ← verify_anchor_signature anchor public_keys;
  if negb (av_valid signature) then mret signature
  else
    sequence_no ← (match assoc (py "sequence_no") anchor with Some v => int_of v | None => raise (KeyError "sequence_no") end);
    let failed reason := {| av_valid := false; av_signature_valid := true; av_checkpoint_chain_valid := None;
                            av_reason_code := Some reason; av_sequence_no := None |} in
    match List.find (fun b => AuditMerkleBatch.sequence_no b =? sequence_no) (rows (audit_merkle_batches st)) with
    | None => mret (failed "ANCHORED_CHECKPOINT_MISSING"%string)
    | Some batch =>
        if negb (forallb (fun kv => value_is (default PNone (assoc kv.1 anchor)) kv.2) (anchor_for_batch batch))
        then mret (failed "ANCHOR_CHECKPOINT_MISMATCH"%string)
        else
          chain ← verify_database public_keys (Some sequence_no) false st;
          mret {| av_valid := dv_valid chain; av_signature_valid := true; av_checkpoint_chain_valid := Some (dv_valid chain);
                  av_reason_code := dv_reason_code chain; av_sequence_no := Some sequence_no |}
    end.
End Anchors.

(** ** The checkpoint cycle *)

Record CheckpointBatchResult := { cb_sequence_no : Z; cb_leaf_count : Z; cb_merkle_root : pystr }.

Section Cycle.
Context `{World} `{Ed25519} `{Conversions}.

(** One turn of the [while True] loop: [None] is the [break] on no batch. *)
Definition checkpoint_turn (max_leaves : Z) (key : SigningKey) : M (option CheckpointBatchResult) :=
  try_except
    (batch ← create_checkpoint max_leaves key;
     match batch with
     | None => rollback ;; mret None
     | Some batch =>
         commit ;;
         mret (Some {| cb_sequence_no := AuditMerkleBatch.sequence_no batch; cb_leaf_count := AuditMerkleBatch.leaf_count batch;
                       cb_merkle_root := AuditMerkleBatch.merkle_root batch |})
     end)
    (fun e => rollback ;; throw e).

(** [None] when the fuel runs out. *)
Fixpoint checkpoint_loop (fuel : nat) (max_leaves : Z) (key : SigningKey) (all_pending : bool)
    (created : list CheckpointBatchResult) : M (option (list CheckpointBatchResult)) :=
  match fuel with
  | O => mret None
  | S fuel =>
      result ← checkpoint_turn max_leaves key;
      match result with
      | None => mret (Some created)
      | Some result =>
          if all_pending then checkpoint_loop fuel max_leaves key all_pending (created ++ [result])
          else mret (Some (created ++ [result]))
      end
  end.

(** Every turn covers at least one pending event. *)
Definition checkpoint_fuel (st : Store) : nat := S (length (pending_events st)).

Definition checkpoint_pending_events (max_leaves : Z) (key : SigningKey) (all_pending : bool)
  : M (option (list CheckpointBatchResult)) :=
  fuel ← gets checkpoint_fuel;
  checkpoint_loop fuel max_leaves key all_pending [].
End Cycle.

(** ** Status and listing *)

Record CheckpointStatus := {
  cs_total_events : Z; cs_integrity_hashed_events : Z; cs_checkpointed_events : Z; cs_pending_events : Z;
  cs_missing_integrity_events : Z; cs_batch_count : Z; cs_latest : option AuditMerkleBatch.t;
  cs_latest_signature_valid : option bool; cs_checkpoint_chain_valid : bool; cs_reason_code : option string
}.

Record BatchSummary := {
  bs_id : N; bs_sequence_no : Z; bs_leaf_count : Z; bs_merkle_root : pystr; bs_checkpoint_hash : pystr;
  bs_previous_checkpoint_hash : option pystr; bs_signing_key_id : pystr; bs_created_at : instant
}.
Definition batch_summary (b : AuditMerkleBatch.t) : BatchSummary :=
  {| bs_id := AuditMerkleBatch.id b; bs_sequence_no := AuditMerkleBatch.sequence_no b; bs_leaf_count := AuditMerkleBatch.leaf_count b;
     bs_merkle_root := AuditMerkleBatch.merkle_root b; bs_checkpoint_hash := AuditMerkleBatch.checkpoint_hash b;
     bs_previous_checkpoint_hash := AuditMerkleBatch.previous_checkpoint_hash b;
     bs_signing_key_id := AuditMerkleBatch.signing_key_id b; bs_created_at := AuditMerkleBatch.created_at b |}.

Definition list_batches (offset limit : nat) (st : Store) : list BatchSummary * Z :=
  (batch_summary <$> take limit (drop offset (order_by (fun b => [- AuditMerkleBatch.sequence_no b]) (rows (audit_merkle_batches st)))),
   Z.of_nat (length (rows (audit_merkle_batches st)))).

Section Status.
Context `{Ed25519} `{Conversions}.

(** The six [latest_...] entries are fields of the row [cs_latest]. *)
Definition status (public_keys : list (list Z * list Z)) (st : Store) : res CheckpointStatus :=
  let total_events := Z.of_nat (length (rows (events st))) in
  let integrity_hashed := Z.of_nat (length (List.filter valid_event_metadata (rows (events st)))) in
  let checkpointed := Z.of_nat (length (rows (audit_merkle_leaves st))) in
  let latest := latest_batch st in
  chain ← verify_database public_keys None false st;
  mret {| cs_total_events := total_events; cs_integrity_hashed_events := integrity_hashed;
          cs_checkpointed_events := checkpointed; cs_pending_events := Z.of_nat (length (pending_events st));
          cs_missing_integrity_events := total_events - integrity_hashed;
          cs_batch_count := Z.of_nat (length (rows (audit_merkle_batches st))); cs_latest := latest;
          cs_latest_signature_valid :=
            (fun b => bool_decide (verify_checkpoint_signature (AuditMerkleBatch.checkpoint_hash b)
                                     (AuditMerkleBatch.signing_key_id b) (AuditMerkleBatch.signature b) public_keys = None)) <$> latest;
          cs_checkpoint_chain_valid := dv_valid chain; cs_reason_code := dv_reason_code chain |}.
End Status.

(** ** The checkpointer process *)

Record MerkleCheckpointerSettings := {
  audit_merkle_batch_size : Z; audit_merkle_key : SigningKey
}.
Definition run_checkpoint_cycle `{World} `{Ed25519} `{Conversions} (settings : MerkleCheckpointerSettings)
  : M (option (list CheckpointBatchResult)) :=
  checkpoint_pending_events (audit_merkle_batch_size settings) (audit_merkle_key settings) true.
