(* ===== verification/MerkleAuditProps.v ===== *)
(** * Audit checkpoints: theorems

    Canonical checkpoint texts determine the checkpoint; a new checkpoint
    extends a database that verifies; the checkpoint cycle terminates with
    nothing pending; exported proof bundles verify; and an accepted bundle is
    about an event of the database, up to a SHA-256 collision. *)

From S2P Require Import Prelude PyStr Sha256 Json Merkle Models Session EventIntegrity Identifiers Outbox.
From S2P Require Import Encryption Uploads MerkleAudit.
Local Open Scope Z_scope.

(** ** Values *)

Lemma remove_sub_none sub s c : c ∈ sub -> forallb (fun x => negb (x =? c)) s = true -> remove_sub sub 0 s = s.
Proof.
  intros Hc. induction s as [|x s IH]; [done|]. cbn [forallb remove_sub]. intros [Hx Hs]%andb_prop.
  destruct (startswith sub (x :: s)) eqn:Es; [|by rewrite IH]. exfalso.
  apply startswith_spec in Es as [t Et].
  assert (Hin : c ∈ x :: s) by (rewrite Et; apply elem_of_app; by left).
  apply list_elem_of_In in Hin. assert (Hall : forallb (fun x => negb (x =? c)) (x :: s) = true) by (cbn; by rewrite Hx).
  rewrite forallb_forall in Hall. specialize (Hall c Hin). lia.
Qed.

(** The text of a UUID holds lower-case hexadecimal digits and dashes. *)
Lemma uuid_str_chars u : forallb (fun c => is_lower_hex c || (c =? 45)) (uuid_str u) = true.
Proof.
  assert (Hw : forall s, forallb is_lower_hex s = true -> forallb (fun c => is_lower_hex c || (c =? 45)) s = true).
  { intros s. rewrite !forallb_forall. intros Hs c Hc. by rewrite (Hs c Hc). }
  unfold uuid_str. rewrite !forallb_app. cbn [forallb].
  pose proof (uuid_groups_lower u 8 0) as H8. rewrite drop_0 in H8.
  by rewrite !Hw by first [done|apply uuid_groups_lower|apply uuid_tail_lower].
Qed.

Section Values.
Context `{Conversions}.

Lemma char_digit_hex c d : hex_val c = Some d -> is_lower_hex c = true -> char_digit 16 c = Some d.
Proof.
  intros Hd Hc. destruct (hex_digit_val c Hc) as (d' & Hd' & <- & Hr). rewrite Hd in Hd'. injection Hd' as <-.
  assert (Hall : forallb (fun d => bool_decide (char_digit 16 (hex_digit d) = Some d)) (seqZ 0 16) = true) by reflexivity.
  rewrite forallb_forall in Hall. specialize (Hall d). rewrite <-list_elem_of_In, elem_of_seqZ in Hall.
  specialize (Hall ltac:(lia)). by apply bool_decide_eq_true_1 in Hall.
Qed.

Lemma digits_value_hex s acc b : forallb is_lower_hex s = true -> s <> [] \/ b = true ->
  digits_value 16 acc b s = hex_digits acc s.
Proof.
  revert acc b. induction s as [|c s IH]; intros acc b Hs Hb; cbn.
  - by destruct Hb as [?| ->].
  - cbn in Hs. apply andb_prop in Hs as [Hc Hs]. assert ((c =? 95) = false) as -> by (unfold is_lower_hex in Hc; lia).
    cbn [andb]. destruct (hex_digit_val c Hc) as (d & Hd & _). rewrite (char_digit_hex c d Hd Hc), Hd. cbn.
    apply IH; auto.
Qed.

Lemma forallb_weaken (p q : Z -> bool) s : (forall c, p c = true -> q c = true) -> forallb p s = true -> forallb q s = true.
Proof. rewrite !forallb_forall. auto. Qed.

Lemma base_prefix_hex s : forallb is_lower_hex s = true -> base_prefix 16 s = s.
Proof.
  destruct s as [|c [|x s]]; try done; cbn; [by repeat case_match|].
  intros [_ [Hx _]%andb_prop]%andb_prop. unfold is_lower_hex in Hx.
  assert (((x =? 120) || (x =? 88)) = false) as -> by lia. by repeat case_match.
Qed.

Lemma int_text_hex s : forallb is_lower_hex s = true -> s <> [] -> int_text 16 s = hex_digits 0 s.
Proof.
  intros Hs Hne. unfold int_text. rewrite strip_when_none.
  2: { revert Hs. apply forallb_weaken. intros c. unfold is_lower_hex, int_space, isspace. lia. }
  assert (E : split_sign s = (1, s)).
  { destruct s as [|c s]; [done|]. cbn in Hs |- *. unfold is_lower_hex in Hs.
    assert ((c =? 45) = false) as -> by lia. by assert ((c =? 43) = false) as -> by lia. }
  rewrite E. cbn [Z.eqb Pos.eqb andb]. rewrite base_prefix_hex, digits_value_hex by auto.
  destruct (hex_digits 0 s) as [[]|]; done.
Qed.

Lemma uuid_text_str u : uuid_ok u -> uuid_text (uuid_str u) = Some u.
Proof.
  intros Hu. pose proof (uuid_str_chars u) as Hc. unfold uuid_text.
  assert (Hcolon : forall x, x = 58 \/ x = 123 \/ x = 125 -> forallb (fun c => negb (c =? x)) (uuid_str u) = true).
  { intros x Hx. revert Hc. apply forallb_weaken. intros c. unfold is_lower_hex. lia. }
  rewrite (remove_sub_none (py "urn:") _ 58), (remove_sub_none (py "uuid:") _ 58);
    [|cbn; set_solver|by apply Hcolon; left|cbn; set_solver|by apply Hcolon; left].
  rewrite strip_when_none.
  2: { revert Hc. apply forallb_weaken. intros c. unfold is_lower_hex. lia. }
  rewrite uuid_str_digits, uuid_hex_length, int_text_hex, hex_digits_uuid;
    [|done|apply uuid_hex_lower|intros E%(f_equal length); by rewrite uuid_hex_length in E].
  unfold uuid_ok in Hu. cbn [Nat.eqb mbind option_bind].
  assert ((0 <=? Z.of_N u) && (Z.of_N u <? 2 ^ 128) = true) as -> by lia. f_equal. lia.
Qed.

Lemma uuid_text_ok s u : uuid_text s = Some u -> uuid_ok u.
Proof.
  unfold uuid_text, uuid_ok. destruct (_ =? 32)%nat; [|done]. destruct (int_text 16 _) as [n|]; [|done]. cbn.
  destruct ((0 <=? n) && (n <? 2 ^ 128)) eqn:E; [|done]. intros [= <-]. lia.
Qed.
End Values.

(** ** Checkpoint texts *)

Definition no_z (c : Z) : bool := negb (c =? 90).

Lemma zpad_no_z n a : 0 <= a -> forallb no_z (zpad n (str_of_Z a)) = true.
Proof. intros Ha. apply (forallb_weaken is_digit); [unfold is_digit, no_z; lia|by apply zpad_digits]. Qed.

Lemma datetime_instant t : datetime_ok t = true -> instant_ok t.
Proof. unfold datetime_ok, instant_ok, us_per_day. lia. Qed.

Lemma iso_us_no_z t : instant_ok t -> forallb no_z (iso_us t) = true.
Proof.
  intros Ht. unfold iso_us. unfold instant_ok, us_per_day in *.
  assert (Dt : -719468 <= t / 86400000000) by (apply Z.div_le_lower_bound; lia).
  destruct (civil_of_days (t / 86400000000)) as [[y m] d] eqn:Et.
  destruct (civil_of_days_nonneg _ _ _ _ Dt Et) as (? & ? & ?).
  pose proof (Z.mod_pos_bound t 86400000000 eq_refl) as Rt.
  rewrite !forallb_app, !zpad_no_z; [done|..]; first [done|apply Z.mod_pos_bound; lia|apply Z.div_pos; lia].
Qed.

Lemma replace_z_none s : forallb no_z s = true -> replace_z s = s.
Proof.
  induction s as [|c s IH]; [done|]. cbn. intros [Hc Hs]%andb_prop.
  assert ((c =? 90) = false) as -> by (unfold no_z in Hc; lia). cbn. f_equal. by apply IH.
Qed.
Lemma replace_z_app s t : replace_z (s ++ t) = replace_z s ++ replace_z t.
Proof. apply bind_app. Qed.

Definition stamp_ok (s : pystr) : Prop := exists t, datetime_ok t = true /\ s = iso_us t ++ py "Z".

Section Timestamps.
Context `{ConversionLaws}.

Lemma timestamp_ok v s : _timestamp v = inr s -> stamp_ok s.
Proof.
  unfold _timestamp. intros ((o & t) & _ & (u & Hu & [= <-])%res_bind_ok)%res_bind_ok.
  unfold _as_utc in Hu. cbn in Hu. destruct (datetime_ok (_as_utc_datetime o t)) eqn:E; [|done].
  injection Hu as <-. by eexists.
Qed.

Lemma as_utc_zero t : datetime_ok t = true -> _as_utc (Some 0) t = inr t.
Proof. intros Ht. unfold _as_utc, _as_utc_datetime. by rewrite Z.sub_0_r, Ht. Qed.

Lemma timestamp_str s : stamp_ok s -> _timestamp (PStr s) = inr s.
Proof.
  intros (t & Ht & ->). unfold _timestamp. rewrite replace_z_app, replace_z_none by (by apply iso_us_no_z, datetime_instant).
  change (replace_z (py "Z")) with (py "+00:00"). rewrite fromisoformat_iso by done. cbn [mbind res_bind mret res_ret fst snd].
  by rewrite as_utc_zero.
Qed.

Lemma timestamp_datetime t : datetime_ok t = true -> _timestamp (PDatetime (Some 0) t) = inr (iso_us t ++ py "Z").
Proof.
  intros Ht. unfold _timestamp. cbn [mbind res_bind mret res_ret fst snd]. by rewrite as_utc_zero.
Qed.
End Timestamps.

(** What a canonical checkpoint looks like. *)
Record payload_ok (p : CheckpointPayload) : Prop := {
  po_sequence : 1 <= cp_sequence_no p;
  po_count : 1 <= cp_leaf_count p <= MAX_BATCH_SIZE;
  po_first : exists u, uuid_ok u /\ cp_first_event_id p = uuid_str u;
  po_last : exists u, uuid_ok u /\ cp_last_event_id p = uuid_str u;
  po_first_hash : is_hash_hex (cp_first_event_hash p) = true;
  po_last_hash : is_hash_hex (cp_last_event_hash p) = true;
  po_root : is_hash_hex (cp_merkle_root p) = true;
  po_previous : match cp_previous_checkpoint_hash p with Some h => is_hash_hex h = true | None => True end;
  po_key : key_id_ok (cp_signing_key_id p) = true;
  po_created : stamp_ok (cp_created_at p)
}.

Lemma hash_field_ok v h : hash_field v = inr h -> is_hash_hex h = true /\ h = py_str v.
Proof. unfold hash_field. destruct (is_hash_hex (py_str v)) eqn:E; [|done]. by intros [= <-]. Qed.
Lemma hash_field_str h : is_hash_hex h = true -> hash_field (PStr h) = inr h.
Proof. intros Hh. unfold hash_field. cbn [py_str]. by rewrite Hh. Qed.

Lemma format_error_ok {A} (r : res A) x : format_error r = inr x -> r = inr x.
Proof. unfold format_error. by destruct r as [[]|]. Qed.

Section Payloads.
Context `{ConversionLaws}.

Lemma uuid_of_ok v u : uuid_of v = inr u -> uuid_ok u.
Proof. unfold uuid_of. destruct (uuid_text (py_str v)) as [w|] eqn:E; [|done]. intros [= <-]. by apply uuid_text_ok in E. Qed.
Lemma uuid_of_str_ok u : uuid_ok u -> uuid_of (PStr (uuid_str u)) = inr u.
Proof. intros Hu. unfold uuid_of. cbn [py_str]. by rewrite uuid_text_str. Qed.

Lemma checkpoint_payload_ok raw p : checkpoint_payload raw = inr p -> payload_ok p.
Proof.
  unfold checkpoint_payload. intros E.
  repeat match type of E with (_ ≫= _) = inr _ => apply res_bind_ok in E as (? & ? & E) end.
  destruct (_ || _ || _) eqn:E1 in E; [done|]. destruct (_ || _) eqn:E2 in E; [done|].
  repeat match type of E with (_ ≫= _) = inr _ => apply res_bind_ok in E as (? & ? & E) end.
  destruct (negb _) eqn:E3 in E; [done|]. apply res_bind_ok in E as (created & Hc & E). injection E as <-.
  repeat match goal with
  | Hx : format_error _ = inr _ |- _ => apply format_error_ok in Hx
  | Hx : uuid_of _ = inr _ |- _ => apply uuid_of_ok in Hx
  | Hx : hash_field _ = inr _ |- _ => apply hash_field_ok in Hx as [? _]
  end.
  split; cbn; [lia|lia|eauto|eauto|done|done|done| |by apply negb_false_iff in E3|by eapply timestamp_ok].
  match goal with Hx : _ = inr ?o |- match ?o with _ => _ end => revert Hx end.
  match goal with |- match ?v with _ => _ end = _ -> _ => destruct v end;
    intros Hx; first [by injection Hx as <-|by apply res_bind_ok in Hx as (h & [Hh _]%hash_field_ok & [= <-])].
Qed.

Lemma field_some name raw v : assoc (py name) raw = Some v -> field name raw = inr v.
Proof. intros E. unfold field. by rewrite E. Qed.

Lemma checkpoint_payload_canonical p : payload_ok p -> checkpoint_payload (payload_dict p) = inr p.
Proof.
  intros [Hs Hn (u & Hu & Eu) (w & Hw & Ew) H1' H2' H3' Hp Hk Hc]. unfold checkpoint_payload.
  repeat match goal with
  | |- (field ?n _ ≫= _) = _ => erewrite (field_some n) by reflexivity; cbn [mbind res_bind]
  end.
  cbn [int_of format_error mbind res_bind mret res_ret]. rewrite Eu, Ew, !uuid_of_str_ok by done.
  cbn [format_error mbind res_bind mret res_ret].
  assert ((cp_sequence_no p <? 1) || negb (MERKLE_VERSION =? MERKLE_VERSION)
    || negb ((1 <=? cp_leaf_count p) && (cp_leaf_count p <=? MAX_BATCH_SIZE)) = false) as -> by (unfold MERKLE_VERSION; lia).
  assert (negb (CHECKPOINT_VERSION =? CHECKPOINT_VERSION) || negb (str_eqb HASH_ALGORITHM HASH_ALGORITHM) = false) as -> by reflexivity.
  rewrite !hash_field_str by done. cbn [mbind res_bind py_str]. rewrite timestamp_str, Hk by done.
  destruct p as [? ? ? ? ? ? ? [prev|] ? ?]; cbn in *; subst; [by rewrite hash_field_str|done].
Qed.
End Payloads.

Lemma checkpoint_keys_nodup p : NoDup (map fst (payload_dict p)).
Proof.
  change (map fst (payload_dict p)) with (map fst (payload_dict (Build_CheckpointPayload 0 0 [] [] [] [] [] None [] []))).
  apply (bool_decide_unpack _). vm_compute. exact I.
Qed.

Lemma hash_hex_scalar s : is_hash_hex s = true -> scalar_str s = true.
Proof. intros [_ Hs]%andb_prop. eapply scalar_str_impl; [apply lower_hex_scalar|done]. Qed.
Lemma key_id_scalar s : key_id_ok s = true -> scalar_str s = true.
Proof.
  intros [_ Hs]%andb_prop. eapply scalar_str_impl; [|done]. intros c. unfold safe_char, is_alnum, is_scalar. lia.
Qed.
Lemma stamp_scalar s : stamp_ok s -> scalar_str s = true.
Proof. intros (t & Ht & ->). rewrite scalar_str_app, iso_us_scalar; [done|by apply datetime_instant]. Qed.

Lemma payload_json_ok p : payload_ok p -> json_ok (PDict (payload_dict p)) = true.
Proof.
  intros [Hs Hn (u & Hu & Eu) (w & Hw & Ew) H1 H2 H3 Hp Hk Hc]. apply json_ok_dict. split; [apply checkpoint_keys_nodup|].
  unfold payload_dict. rewrite Eu, Ew.
  repeat first [apply Forall_nil_2 | apply Forall_cons_2; [split; [vm_compute; reflexivity|]|]]; cbn [snd json_ok];
    auto using hash_hex_scalar, key_id_scalar, stamp_scalar, uuid_str_scalar.
  destruct (cp_previous_checkpoint_hash p); [by apply hash_hex_scalar|done].
Qed.

(** The canonical text determines the checkpoint. *)
Lemma payload_json_inj p q : payload_ok p -> payload_ok q ->
  json_dumps (PDict (payload_dict p)) = json_dumps (PDict (payload_dict q)) -> p = q.
Proof.
  intros Hp Hq E. apply json_dumps_inj in E; [|by apply payload_json_ok..].
  assert (Hf : forall i v w, payload_dict p !! i = Some v -> payload_dict q !! i = Some w -> v.1 = w.1 ->
    json_norm v.2 = json_norm w.2).
  { intros i [k v] [k' w] Hv Hw Ek. cbn in Ek. subst k'.
    eapply json_norm_dict_lookup; [exact E|apply checkpoint_keys_nodup|by eapply list_elem_of_lookup_2..]. }
  pose proof (Hf 1%nat _ _ eq_refl eq_refl eq_refl) as E1. pose proof (Hf 4%nat _ _ eq_refl eq_refl eq_refl) as E4.
  pose proof (Hf 5%nat _ _ eq_refl eq_refl eq_refl) as E5. pose proof (Hf 6%nat _ _ eq_refl eq_refl eq_refl) as E6.
  pose proof (Hf 7%nat _ _ eq_refl eq_refl eq_refl) as E7. pose proof (Hf 8%nat _ _ eq_refl eq_refl eq_refl) as E8.
  pose proof (Hf 9%nat _ _ eq_refl eq_refl eq_refl) as E9. pose proof (Hf 10%nat _ _ eq_refl eq_refl eq_refl) as E10.
  pose proof (Hf 11%nat _ _ eq_refl eq_refl eq_refl) as E11. pose proof (Hf 12%nat _ _ eq_refl eq_refl eq_refl) as E12.
  cbn [snd json_norm] in *. apply opt_str_inj in E10. destruct p, q. cbn in *. congruence.
Qed.

Section Hashes.
Context `{ConversionLaws}.

Definition checkpoint_text (p : CheckpointPayload) : bytes := json_dumps (PDict (payload_dict p)).

Lemma compute_checkpoint_hash_ok raw h :
  compute_checkpoint_hash raw = inr h ->
  exists p, checkpoint_payload raw = inr p /\ payload_ok p /\ h = sha256_hexdigest (checkpoint_text p).
Proof.
  unfold compute_checkpoint_hash, canonical_checkpoint_json.
  intros (text & (p & Hp & Et)%res_bind_ok & E)%res_bind_ok. apply (inj inr) in Et as <-. apply (inj inr) in E as <-.
  exists p. split; [done|]. split; [by eapply checkpoint_payload_ok|done].
Qed.

Lemma compute_checkpoint_hash_eq raw p :
  checkpoint_payload raw = inr p -> compute_checkpoint_hash raw = inr (sha256_hexdigest (checkpoint_text p)).
Proof. intros E. unfold compute_checkpoint_hash, canonical_checkpoint_json. by rewrite E. Qed.

(** The payload of a row. *)
Definition row_payload (b : AuditMerkleBatch.t) : CheckpointPayload :=
  {| cp_sequence_no := AuditMerkleBatch.sequence_no b; cp_leaf_count := AuditMerkleBatch.leaf_count b;
     cp_first_event_id := uuid_str (AuditMerkleBatch.first_event_id b); cp_last_event_id := uuid_str (AuditMerkleBatch.last_event_id b);
     cp_first_event_hash := AuditMerkleBatch.first_event_hash b; cp_last_event_hash := AuditMerkleBatch.last_event_hash b;
     cp_merkle_root := AuditMerkleBatch.merkle_root b; cp_previous_checkpoint_hash := AuditMerkleBatch.previous_checkpoint_hash b;
     cp_signing_key_id := AuditMerkleBatch.signing_key_id b; cp_created_at := iso_us (AuditMerkleBatch.created_at b) ++ py "Z" |}.

Record row_ok (b : AuditMerkleBatch.t) : Prop := {
  ro_version : AuditMerkleBatch.merkle_version b = MERKLE_VERSION;
  ro_algorithm : AuditMerkleBatch.hash_algorithm b = HASH_ALGORITHM;
  ro_first : uuid_ok (AuditMerkleBatch.first_event_id b);
  ro_last : uuid_ok (AuditMerkleBatch.last_event_id b);
  ro_created : datetime_ok (AuditMerkleBatch.created_at b) = true;
  ro_payload : payload_ok (row_payload b)
}.

Lemma batch_payload b : row_ok b -> checkpoint_payload (batch_raw b) = inr (row_payload b).
Proof.
  intros [Hv Ha Hu Hw Hc [Hs Hn _ _ H1' H2' H3' Hp Hk _]]. unfold checkpoint_payload.
  repeat match goal with
  | |- (field ?n _ ≫= _) = _ => erewrite (field_some n) by reflexivity; cbn [mbind res_bind]
  end.
  cbn [int_of format_error mbind res_bind mret res_ret]. rewrite Hv, Ha, !uuid_of_str_ok by done.
  cbn [format_error mbind res_bind mret res_ret].
  assert ((AuditMerkleBatch.sequence_no b <? 1) || negb (MERKLE_VERSION =? MERKLE_VERSION)
    || negb ((1 <=? AuditMerkleBatch.leaf_count b) && (AuditMerkleBatch.leaf_count b <=? MAX_BATCH_SIZE)) = false) as ->
    by (unfold MERKLE_VERSION; cbn in *; lia).
  assert (negb (CHECKPOINT_VERSION =? CHECKPOINT_VERSION) || negb (str_eqb HASH_ALGORITHM HASH_ALGORITHM) = false) as -> by reflexivity.
  cbn in H1', H2', H3', Hk, Hp. rewrite !hash_field_str by done. cbn [mbind res_bind py_str].
  rewrite timestamp_datetime, Hk by done. cbn [mbind res_bind negb]. unfold row_payload.
  destruct (AuditMerkleBatch.previous_checkpoint_hash b) as [h|]; cbn; [by rewrite hash_field_str|done].
Qed.
End Hashes.

(** ** What verification establishes *)

Definition leaf_event_ok (st : Store) (l : AuditMerkleLeaf.t) : Prop :=
  exists e, events st !! AuditMerkleLeaf.event_id l = Some e /\ Event.event_hash e = Some (AuditMerkleLeaf.event_hash l)
            /\ compute_event_hash e = AuditMerkleLeaf.event_hash l.

Lemma str_eqb_true a b : str_eqb a b = true <-> a = b.
Proof. unfold str_eqb. apply bool_decide_eq_true. Qed.

Lemma check_leaf_events_ok st leaves : check_leaf_events st leaves = inr None <-> Forall (leaf_event_ok st) leaves.
Proof.
  induction leaves as [|l leaves IH]; [by split|]. cbn. split.
  - destruct (events st !! AuditMerkleLeaf.event_id l) as [e|] eqn:Ee; [|done].
    destruct (bool_decide _) eqn:E1 in |- *; [|done]. destruct (str_eqb _ _) eqn:E2 in |- *; [|done]. cbn [negb].
    intros Hr%IH. constructor; [|done]. apply bool_decide_eq_true in E1. apply str_eqb_true in E2. by exists e.
  - intros [(e & Ee & E1 & E2) Hr]%Forall_cons. rewrite Ee, bool_decide_true, (proj2 (str_eqb_true _ _) E2) by done.
    by apply IH.
Qed.

Lemma filter_true {A} (l : list A) : List.filter (fun _ => true) l = l.
Proof. induction l; cbn; congruence. Qed.

Section Verified.
Context `{Ed25519} `{ConversionLaws}.

(** A batch against its leaves and the events. *)
Record batch_verified (st : Store) (keys : list (list Z * list Z)) (b : AuditMerkleBatch.t)
    (leaves : list AuditMerkleLeaf.t) : Prop := {
  bv_hash : compute_checkpoint_hash (batch_raw b) = inr (AuditMerkleBatch.checkpoint_hash b);
  bv_signature : verify_checkpoint_signature (AuditMerkleBatch.checkpoint_hash b) (AuditMerkleBatch.signing_key_id b)
                   (AuditMerkleBatch.signature b) keys = None;
  bv_count : Z.of_nat (length leaves) = AuditMerkleBatch.leaf_count b;
  bv_index : AuditMerkleLeaf.leaf_index <$> leaves = Z.of_nat <$> seq 0 (length leaves);
  bv_first : exists l, head leaves = Some l /\ AuditMerkleLeaf.event_id l = AuditMerkleBatch.first_event_id b
                       /\ AuditMerkleLeaf.event_hash l = AuditMerkleBatch.first_event_hash b;
  bv_last : exists l, last leaves = Some l /\ AuditMerkleLeaf.event_id l = AuditMerkleBatch.last_event_id b
                      /\ AuditMerkleLeaf.event_hash l = AuditMerkleBatch.last_event_hash b;
  bv_leaf : Forall (fun l => leaf_hash (PStr (AuditMerkleLeaf.event_hash l)) = inr (AuditMerkleLeaf.leaf_hash l)) leaves;
  bv_root : build_merkle_root (AuditMerkleLeaf.leaf_hash <$> leaves) = inr (AuditMerkleBatch.merkle_root b);
  bv_found : length (List.filter (fun e => bool_decide (Event.id e ∈ AuditMerkleLeaf.event_id <$> leaves)) (rows (events st)))
             = length leaves;
  bv_events : Forall (leaf_event_ok st) leaves
}.

Lemma leaf_hash_matches_ok l :
  leaf_hash_matches l = true <-> leaf_hash (PStr (AuditMerkleLeaf.event_hash l)) = inr (AuditMerkleLeaf.leaf_hash l).
Proof.
  unfold leaf_hash_matches. destruct (leaf_hash _) as [e|h]; [done|]. rewrite str_eqb_true.
  split; [by intros ->|by intros E%(inj inr)].
Qed.
Lemma leaf_hashes_match leaves :
  forallb leaf_hash_matches leaves = true
  <-> Forall (fun l => leaf_hash (PStr (AuditMerkleLeaf.event_hash l)) = inr (AuditMerkleLeaf.leaf_hash l)) leaves.
Proof.
  rewrite forallb_forall, Forall_forall. setoid_rewrite leaf_hash_matches_ok. by setoid_rewrite list_elem_of_In.
Qed.

Lemma verify_batch_ok st b keys :
  _verify_batch st b keys = inr None <-> batch_verified st keys b (leaves_of (AuditMerkleBatch.id b) st).
Proof.
  unfold _verify_batch. set (leaves := leaves_of (AuditMerkleBatch.id b) st). clearbody leaves. split.
  - destruct (compute_checkpoint_hash _) as [[]|h] eqn:E1; try done.
    destruct (str_eqb _ h) eqn:E2; [|done]. apply str_eqb_true in E2 as <-. cbn [negb].
    destruct (verify_checkpoint_signature _ _ _ _) eqn:E3; [done|].
    destruct (_ =? _) eqn:E4; [|done]. cbn [negb]. destruct (bool_decide _) eqn:E5; [|done]. cbn [negb].
    destruct leaves as [|first leaves]; [done|]. destruct (last (first :: leaves)) as [z|] eqn:El; [|done].
    destruct (_ && _) eqn:E6; [|done]. cbn [negb]. destruct (forallb leaf_hash_matches _) eqn:E7; [|done]. cbn [negb].
    destruct (build_merkle_root _) as [[]|root] eqn:E8; try done. destruct (str_eqb root _) eqn:E9; [|done]. cbn [negb].
    apply str_eqb_true in E9 as ->. destruct (_ =? _)%nat eqn:E10; [|done]. cbn [negb]. intros E11%check_leaf_events_ok.
    apply andb_prop in E6 as [[[F1 F2]%andb_prop F3]%andb_prop F4].
    apply bool_decide_eq_true in F1, F2, E5. apply str_eqb_true in F3, F4.
    apply Z.eqb_eq in E4. apply Nat.eqb_eq in E10. split; try done; [by exists first|by exists z|by apply leaf_hashes_match].
  - intros [E1 E2 E3 E4 (f & Hf & F1 & F3) (z & Hz & F2 & F4) E7 E8 E9 E10].
    rewrite E1, (proj2 (str_eqb_true _ _) eq_refl), E2, E3, Z.eqb_refl, bool_decide_true by done. cbn [negb].
    destruct leaves as [|f' leaves]; [done|]. injection Hf as ->. rewrite Hz, F1, F2, F3, F4.
    rewrite !bool_decide_true, !(proj2 (str_eqb_true _ _) eq_refl) by done. cbn [andb negb].
    rewrite (proj2 (leaf_hashes_match _) E7), E8, (proj2 (str_eqb_true _ _) eq_refl), E9, Nat.eqb_refl. cbn [negb].
    by apply check_leaf_events_ok.
Qed.

(** The chain of checkpoints that the loop accepts. *)
Fixpoint chained (st : Store) (keys : list (list Z * list Z)) (sequence : Z) (previous : option pystr)
    (batches : list AuditMerkleBatch.t) : Prop :=
  match batches with
  | [] => True
  | b :: batches =>
      AuditMerkleBatch.sequence_no b = sequence /\ AuditMerkleBatch.previous_checkpoint_hash b = previous
      /\ batch_verified st keys b (leaves_of (AuditMerkleBatch.id b) st)
      /\ chained st keys (sequence + 1) (Some (AuditMerkleBatch.checkpoint_hash b)) batches
  end.
Definition total_leaves (batches : list AuditMerkleBatch.t) : Z :=
  foldr (fun b n => AuditMerkleBatch.leaf_count b + n) 0 batches.

Lemma total_leaves_cons b l : total_leaves (b :: l) = AuditMerkleBatch.leaf_count b + total_leaves l.
Proof. done. Qed.

Lemma verify_batches_ok st keys n sequence previous checked batches total :
  verify_batches st keys n sequence previous checked batches = inr (inr total)
  <-> chained st keys sequence previous batches /\ total = checked + total_leaves batches.
Proof.
  revert sequence previous checked. induction batches as [|b batches IH]; intros sequence previous checked; cbn [verify_batches chained].
  - unfold total_leaves. cbn [foldr]. rewrite Z.add_0_r. split; [by intros [= ->]|by intros [_ ->]].
  - rewrite total_leaves_cons. split.
    + destruct (_ =? sequence) eqn:E1; [|done]. destruct (bool_decide _) eqn:E2; [|done]. cbn [negb].
      intros (reason & Hv & Hr)%res_bind_ok. destruct reason; [done|].
      apply IH in Hr as [Hc ->]. apply verify_batch_ok in Hv. apply bool_decide_eq_true in E2.
      split; [|lia]. split_and!; [lia|done..].
    + intros ((<- & <- & Hv%verify_batch_ok & Hc) & ->). rewrite Z.eqb_refl, bool_decide_true, Hv by done. cbn.
      apply IH. split; [done|lia].
Qed.

(** No answer of the loop is a valid one. *)
Lemma verify_batches_answer st keys n sequence previous checked batches answer :
  verify_batches st keys n sequence previous checked batches = inr (inl answer) -> dv_valid answer = false.
Proof.
  revert sequence previous checked. induction batches as [|b batches IH]; intros sequence previous checked; cbn; [done|].
  destruct (_ =? sequence); [|by intros [= <-]]. destruct (bool_decide _); [|by intros [= <-]].
  intros (reason & _ & Hr)%res_bind_ok. destruct reason; [by injection Hr as <-|by apply IH in Hr].
Qed.

Lemma verify_database_valid keys st v :
  verify_database keys None false st = inr v -> dv_valid v = true ->
  chained st keys 1 None (batches_by_sequence st)
  /\ dv_checked_events v = total_leaves (batches_by_sequence st)
  /\ dv_batch_count v = Z.of_nat (length (batches_by_sequence st)).
Proof.
  unfold verify_database. rewrite filter_true. intros ([answer|checked] & Hr & E)%res_bind_ok Hv.
  - apply (inj inr) in E as ->. by rewrite (verify_batches_answer _ _ _ _ _ _ _ _ Hr) in Hv.
  - apply verify_batches_ok in Hr as [Hc ->]. cbn [andb] in E. apply (inj inr) in E as <-. done.
Qed.

Lemma verify_database_chained keys st :
  chained st keys 1 None (batches_by_sequence st) ->
  exists v, verify_database keys None false st = inr v /\ dv_valid v = true
    /\ dv_batch_count v = Z.of_nat (length (batches_by_sequence st))
    /\ dv_checked_events v = total_leaves (batches_by_sequence st)
    /\ dv_latest_checkpoint_hash v = AuditMerkleBatch.checkpoint_hash <$> last (batches_by_sequence st).
Proof.
  intros Hc. unfold verify_database. rewrite filter_true.
  rewrite (proj2 (verify_batches_ok st keys _ 1 None 0 _ _) (conj Hc eq_refl)). cbn [mbind res_bind andb].
  by eexists.
Qed.

Lemma chained_elem st keys sequence previous batches b :
  chained st keys sequence previous batches -> b ∈ batches -> batch_verified st keys b (leaves_of (AuditMerkleBatch.id b) st).
Proof.
  revert sequence previous. induction batches as [|c batches IH]; intros sequence previous; [by intros _ ?%elem_of_nil|].
  intros (_ & _ & Hv & Hc) [->|Hb]%elem_of_cons; [done|by eapply IH].
Qed.
End Verified.

(** ** Accepted bundles *)

Section BundleSoundness.
Context `{Ed25519} `{ConversionLaws}.

Lemma attempt_valid {A} n (r : res A) k v :
  attempt n r k = inr v -> bv_valid v = true -> (n < 4)%nat -> exists a, r = inr a /\ k a = inr v.
Proof.
  intros E Hv Hn. assert (Hno : forall w, (inr (bundle_result n w) : res BundleVerification) = inr v -> exists a, r = inr a /\ k a = inr v).
  { intros w Ew. injection Ew as Ew. rewrite <-Ew in Hv. cbn [bundle_result bv_valid] in Hv. apply Nat.leb_le in Hv. lia. }
  unfold attempt in E. destruct r as [[]|a]; first [done|by apply Hno in E|by exists a].
Qed.

(** Everything an accepted bundle has been checked for. *)
Record bundle_checked (d : list (list Z * pyval)) (keys : list (list Z * list Z)) (cp : CheckpointPayload) (i : Z) : Prop := {
  bc_checkpoint : exists raw, get "checkpoint" PNone d = PDict raw /\ checkpoint_payload raw = inr cp;
  bc_payload : payload_ok cp;
  bc_hash : sha256_hexdigest (checkpoint_text cp) = get_str "checkpoint_hash" d;
  bc_signature : verify_checkpoint_signature (get_str "checkpoint_hash" d) (cp_signing_key_id cp) (get_str "signature" d) keys = None;
  bc_index : int_of (get "leaf_index" (PInt (-1)) d) = inr i;
  bc_proof : verify_event_merkle_proof (PStr (get_str "event_hash" d)) (PInt i) (PInt (cp_leaf_count cp))
               (get "siblings" PNone d) (PStr (cp_merkle_root cp)) = inr true
}.

Lemma verify_inclusion_valid d cp v :
  verify_inclusion d cp = inr v -> bv_valid v = true ->
  exists i, int_of (get "leaf_index" (PInt (-1)) d) = inr i
    /\ verify_event_merkle_proof (PStr (get_str "event_hash" d)) (PInt i) (PInt (cp_leaf_count cp))
         (get "siblings" PNone d) (PStr (cp_merkle_root cp)) = inr true.
Proof.
  unfold verify_inclusion. intros E Hv.
  apply attempt_valid in E as (u & _ & E); [|done|lia]. apply attempt_valid in E as (h & _ & E); [|done|lia].
  destruct (str_eqb h _); cbn [negb] in E; [|by apply (inj inr) in E as <-].
  apply attempt_valid in E as (i & Hi & E); [|done|lia]. apply attempt_valid in E as (n & _ & E); [|done|lia].
  apply attempt_valid in E as (q & _ & E); [|done|lia].
  destruct (_ || _) eqn:Ec in E; [by apply (inj inr) in E as <-|].
  apply orb_false_iff in Ec as [[[En _]%orb_false_iff Er]%orb_false_iff _].
  apply negb_false_iff in En, Er. apply Z.eqb_eq in En as <-. apply str_eqb_true in Er. rewrite <-Er in E.
  exists i. split; [done|]. destruct (get "siblings" PNone d); try (by apply (inj inr) in E as <-).
  apply attempt_valid in E as (ok & Hok & E); [|done|lia]. destruct ok; [done|by apply (inj inr) in E as <-].
Qed.

Lemma verify_proof_bundle_valid d keys v :
  verify_proof_bundle (PDict d) keys = inr v -> bv_valid v = true -> exists cp i, bundle_checked d keys cp i.
Proof.
  unfold verify_proof_bundle. intros E Hv. apply attempt_valid in E as (n & _ & E); [|done|lia].
  destruct (n =? 1); cbn [negb] in E; [|by apply (inj inr) in E as <-].
  destruct (get "checkpoint" PNone d) as [| | | | | | | | | |raw] eqn:Er; try (by apply (inj inr) in E as <-).
  apply attempt_valid in E as (cp & Hcp & E); [|done|lia]. apply attempt_valid in E as (h & Hh & E); [|done|lia].
  pose proof (checkpoint_payload_ok raw cp Hcp) as Hok.
  rewrite (compute_checkpoint_hash_eq _ cp) in Hh by (by apply checkpoint_payload_canonical). apply (inj inr) in Hh as <-.
  destruct (str_eqb _ _) eqn:Eh; cbn [negb] in E; [|by apply (inj inr) in E as <-]. apply str_eqb_true in Eh.
  destruct (verify_checkpoint_signature _ _ _ _) eqn:Es; [by apply (inj inr) in E as <-|].
  destruct (verify_inclusion_valid d cp v E Hv) as (i & Hi & Hp).
  exists cp, i. split; [by exists raw|done|done|exact Es|done|done].
Qed.

Lemma payload_fields raw p : checkpoint_payload raw = inr p ->
  (exists v, field "leaf_count" raw = inr v /\ int_of v = inr (cp_leaf_count p))
  /\ (exists v, field "merkle_root" raw = inr v /\ cp_merkle_root p = py_str v)
  /\ (exists v, field "sequence_no" raw = inr v /\ int_of v = inr (cp_sequence_no p))
  /\ (exists v, field "signing_key_id" raw = inr v /\ cp_signing_key_id p = py_str v).
Proof.
  unfold checkpoint_payload. intros E.
  repeat match type of E with (_ ≫= _) = inr _ => apply res_bind_ok in E as (? & ? & E) end.
  destruct (_ || _ || _) in E; [done|]. destruct (_ || _) in E; [done|].
  repeat match type of E with (_ ≫= _) = inr _ => apply res_bind_ok in E as (? & ? & E) end.
  destruct (negb _) in E; [done|]. apply res_bind_ok in E as (created & _ & E). injection E as <-.
  cbn [cp_leaf_count cp_merkle_root cp_sequence_no cp_signing_key_id]. split_and!; eexists; (split; [eassumption|]).
  - by apply format_error_ok.
  - by eapply hash_field_ok.
  - by apply format_error_ok.
  - done.
Qed.

Lemma batch_payload_fields b p : checkpoint_payload (batch_raw b) = inr p ->
  cp_leaf_count p = AuditMerkleBatch.leaf_count b /\ cp_merkle_root p = AuditMerkleBatch.merkle_root b
  /\ cp_sequence_no p = AuditMerkleBatch.sequence_no b /\ cp_signing_key_id p = AuditMerkleBatch.signing_key_id b.
Proof.
  intros ((v & Hv & En) & (w & Hw & ->) & (x & Hx & Es) & (y & Hy & ->))%payload_fields.
  rewrite (field_some _ _ (PInt (AuditMerkleBatch.leaf_count b))) in Hv by reflexivity.
  rewrite (field_some _ _ (PStr (AuditMerkleBatch.merkle_root b))) in Hw by reflexivity.
  rewrite (field_some _ _ (PInt (AuditMerkleBatch.sequence_no b))) in Hx by reflexivity.
  rewrite (field_some _ _ (PStr (AuditMerkleBatch.signing_key_id b))) in Hy by reflexivity.
  injection Hv as <-. injection Hw as <-. injection Hx as <-. injection Hy as <-. injection En as <-. by injection Es as <-.
Qed.

(** The event hashes of a verified batch, as digests. *)
Lemma verified_digests st keys b leaves : batch_verified st keys b leaves ->
  exists l, AuditMerkleLeaf.event_hash <$> leaves = hex_of_bytes <$> l /\ Forall digest l /\ l <> []
    /\ AuditMerkleLeaf.leaf_hash <$> leaves = hex_of_bytes <$> (sha256 ∘ leaf_pre <$> l)
    /\ AuditMerkleBatch.merkle_root b = hex_of_bytes (root_of (sha256 ∘ leaf_pre <$> l)).
Proof.
  intros Hb. destruct Hb as [_ _ _ _ (f & Hf & _) _ Hleaf Hroot _ _].
  assert (Hm : res_map leaf_hash (PStr <$> (AuditMerkleLeaf.event_hash <$> leaves)) = inr (AuditMerkleLeaf.leaf_hash <$> leaves)).
  { apply res_map_ok. clear -Hleaf. induction Hleaf; cbn; by constructor. }
  apply leaf_hash_level in Hm as (l & El & Hl & Ell). apply fmap_PStr_inj in El. exists l.
  assert (Hne : l <> []). { intros ->. by destruct leaves. }
  split_and!; [done..|]. rewrite Ell, build_merkle_root_digests in Hroot; [by apply (inj inr) in Hroot|..].
  - apply Forall_fmap, Forall_true. intros; apply digest_sha256.
  - intros E%(f_equal length). rewrite length_fmap in E. by destruct l.
Qed.

(** The texts hashed on the way from the signature to the event: by the bundle
    and by the batch. *)
Definition bundle_preimages (d : list (list Z * pyval)) : list bytes :=
  match get "checkpoint" PNone d, int_of (get "leaf_index" (PInt (-1)) d) with
  | PDict raw, inr i =>
      match checkpoint_payload raw with
      | inr cp => checkpoint_text cp
                  :: event_proof_preimages (get_str "event_hash" d) i (cp_leaf_count cp) (get "siblings" PNone d)
      | inl _ => []
      end
  | _, _ => []
  end.
Definition batch_preimages (st : Store) (b : AuditMerkleBatch.t) : list bytes :=
  match checkpoint_payload (batch_raw b) with inr cp => [checkpoint_text cp] | inl _ => [] end
  ++ event_tree_preimages (AuditMerkleLeaf.event_hash <$> leaves_of (AuditMerkleBatch.id b) st).

(** C6. A proof bundle that [verify_proof_bundle] accepts, whatever its
    source, and that carries the checkpoint hash of a batch of a database that
    [verify_database] accepts, is about an event of that database: the leaf at
    the bundle's index belongs to the batch, its event is stored, and the
    bundle's event hash is both the stored one and the one recomputed from the
    event.  Otherwise the bundle and the batch exhibit two different texts with
    the same SHA-256 digest. *)
Theorem accepted_bundle_is_about_a_stored_event st keys d b v r :
  verify_database keys None false st = inr v -> dv_valid v = true ->
  b ∈ rows (audit_merkle_batches st) -> AuditMerkleBatch.checkpoint_hash b = get_str "checkpoint_hash" d ->
  verify_proof_bundle (PDict d) keys = inr r -> bv_valid r = true ->
  (exists l e, l ∈ leaves_of (AuditMerkleBatch.id b) st
     /\ int_of (get "leaf_index" (PInt (-1)) d) = inr (AuditMerkleLeaf.leaf_index l)
     /\ events st !! AuditMerkleLeaf.event_id l = Some e
     /\ Event.event_hash e = Some (get_str "event_hash" d) /\ compute_event_hash e = get_str "event_hash" d)
  \/ exists x y, x ∈ bundle_preimages d /\ y ∈ batch_preimages st b /\ sha_collision x y.
Proof.
  intros Hdb Hvalid Hb Hh Hr Hrv.
  destruct (verify_database_valid _ _ _ Hdb Hvalid) as [Hc _].
  assert (Hbv : batch_verified st keys b (leaves_of (AuditMerkleBatch.id b) st))
    by (eapply chained_elem; [exact Hc|by apply elem_of_order_by]).
  destruct (verify_proof_bundle_valid d keys r Hr Hrv) as (cp & i & [(raw & Eraw & Hraw) Hcp Hcph _ Hi Hproof]).
  unfold bundle_preimages, batch_preimages. rewrite Eraw, Hi, Hraw.
  destruct (compute_checkpoint_hash_ok _ _ (bv_hash _ _ _ _ Hbv)) as (p & Hp & Hpok & Eh). rewrite Hp.
  rewrite Hh, <-Hcph in Eh. apply sha_equal_or_collision in Eh as [Et|Hcol].
  2: { right. exists (checkpoint_text cp), (checkpoint_text p). split_and!; [constructor|constructor|done]. }
  apply payload_json_inj in Et as <-; [|done..]. destruct (batch_payload_fields b cp Hp) as (Hn & Hroot & _).
  destruct (verified_digests _ _ _ _ Hbv) as (l & El & Hl & Hne & _ & Er).
  set (leaves := leaves_of (AuditMerkleBatch.id b) st) in *.
  assert (Elen : length leaves = length l) by (rewrite <-(length_fmap AuditMerkleLeaf.event_hash), El; apply length_fmap).
  rewrite Hroot, Er, Hn, <-(bv_count _ _ _ _ Hbv), Elen in Hproof.
  apply event_proof_sound in Hproof as (k & c & x & Ei & Ec & Hk & Hor); [|done..].
  injection Ei as ->. apply PStr_inj in Ec.
  destruct Hor as [->|(y & z & Hy & Hz & Hcol)].
  - left. assert (Hk' : (AuditMerkleLeaf.event_hash <$> leaves) !! k = Some (hex_of_bytes x)) by (by rewrite El, list_lookup_fmap, Hk).
    rewrite list_lookup_fmap in Hk'. destruct (leaves !! k) as [lf|] eqn:Hlf; [|done]. apply (inj Some) in Hk'.
    pose proof (Forall_lookup_1 _ _ _ _ (bv_events _ _ _ _ Hbv) Hlf) as (e & He & Hev & Hce).
    exists lf, e. rewrite Ec, <-Hk'. split_and!; [by eapply list_elem_of_lookup_2| |done..].
    pose proof (f_equal (fun x => x !! k) (bv_index _ _ _ _ Hbv)) as Hix. cbn in Hix. rewrite !list_lookup_fmap, Hlf in Hix.
    rewrite lookup_seq_lt in Hix by (by eapply lookup_lt_Some). by injection Hix as ->.
  - right. exists y, z. rewrite Ec, El, Hn, <-(bv_count _ _ _ _ Hbv), Elen. split_and!; [by constructor|by constructor|done].
Qed.
End BundleSoundness.

(** ** Exported bundles *)

(** The keys and constraints of the schema. *)
Record audit_wf (st : Store) : Prop := {
  aw_events : forall k e, events st !! k = Some e -> Event.id e = k /\ uuid_ok k;
  aw_batches : forall k b, audit_merkle_batches st !! k = Some b -> AuditMerkleBatch.id b = k;
  aw_leaves : forall k l, audit_merkle_leaves st !! k = Some l -> (AuditMerkleLeaf.batch_id l, AuditMerkleLeaf.leaf_index l) = k;
  aw_unique : forall l l', l ∈ rows (audit_merkle_leaves st) -> l' ∈ rows (audit_merkle_leaves st) ->
    AuditMerkleLeaf.event_id l = AuditMerkleLeaf.event_id l' -> l = l';
  aw_sequence : forall b b', b ∈ rows (audit_merkle_batches st) -> b' ∈ rows (audit_merkle_batches st) ->
    AuditMerkleBatch.sequence_no b = AuditMerkleBatch.sequence_no b' -> b = b';
  aw_owner : forall l, l ∈ rows (audit_merkle_leaves st) -> is_Some (audit_merkle_batches st !! AuditMerkleLeaf.batch_id l)
}.

Lemma elem_of_leaves_of id st l :
  l ∈ leaves_of id st <-> l ∈ rows (audit_merkle_leaves st) /\ AuditMerkleLeaf.batch_id l = id.
Proof. unfold leaves_of. by rewrite elem_of_order_by, elem_of_filter_bool, bool_decide_eq_true. Qed.

Lemma find_elem {A} (p : A -> bool) l x : x ∈ l -> p x = true -> exists y, List.find p l = Some y /\ y ∈ l /\ p y = true.
Proof.
  intros Hx Hp. destruct (List.find p l) as [y|] eqn:E.
  - apply find_some in E as [Hy Hpy]. exists y. by rewrite list_elem_of_In.
  - apply list_elem_of_In in Hx. by rewrite (find_none _ _ E x Hx) in Hp.
Qed.

Lemma uuid_str_nonempty u : uuid_str u <> [].
Proof. intros E. pose proof (uuid_str_digits u) as D. rewrite E in D. cbn in D. pose proof (uuid_hex_length u). by rewrite <-D in *. Qed.

Section Exporting.
Context `{Ed25519} `{ConversionLaws}.

(** Restricting the chain to the first sequence numbers. *)
Lemma chained_above st keys sequence previous batches n :
  chained st keys sequence previous batches -> n < sequence ->
  List.filter (fun b => AuditMerkleBatch.sequence_no b <=? n) batches = [].
Proof.
  revert sequence previous. induction batches as [|b batches IH]; intros sequence previous; [done|]. cbn [chained List.filter].
  intros (-> & _ & _ & Hc) Hn. destruct (Z.leb_spec sequence n); [lia|]. by apply (IH _ _ Hc); lia.
Qed.
Lemma chained_through st keys sequence previous batches n :
  chained st keys sequence previous batches ->
  chained st keys sequence previous (List.filter (fun b => AuditMerkleBatch.sequence_no b <=? n) batches).
Proof.
  revert sequence previous. induction batches as [|b batches IH]; intros sequence previous; [done|]. cbn [chained List.filter].
  intros (Hs & Hp & Hv & Hc). destruct (Z.leb_spec (AuditMerkleBatch.sequence_no b) n).
  - cbn [chained]. by auto.
  - rewrite (chained_above _ _ _ _ _ _ Hc); [done|lia].
Qed.
Lemma chained_last st keys sequence previous batches b n :
  chained st keys sequence previous batches -> b ∈ batches -> AuditMerkleBatch.sequence_no b = n ->
  last (List.filter (fun b => AuditMerkleBatch.sequence_no b <=? n) batches) = Some b.
Proof.
  revert sequence previous. induction batches as [|c batches IH]; intros sequence previous; [by intros _ ?%elem_of_nil|].
  cbn [chained List.filter]. intros (Hs & _ & _ & Hc) [->|Hb]%elem_of_cons Hn.
  - rewrite Hn, Z.leb_refl, (chained_above _ _ _ _ _ _ Hc); [done|lia].
  - assert (Hge : sequence + 1 <= n).
    { destruct (Z.lt_ge_cases n (sequence + 1)) as [Hlt|]; [|done]. pose proof (chained_above _ _ _ _ _ n Hc Hlt) as Ef.
      assert (Hin : b ∈ List.filter (fun b => AuditMerkleBatch.sequence_no b <=? n) batches)
        by (apply elem_of_filter_bool; split; [done|lia]).
      rewrite Ef in Hin. by apply elem_of_nil in Hin. }
    destruct (Z.leb_spec (AuditMerkleBatch.sequence_no c) n); [|lia].
    rewrite last_cons, (IH _ _ Hc Hb Hn). done.
Qed.

Lemma verify_database_through keys st b :
  chained st keys 1 None (batches_by_sequence st) -> b ∈ batches_by_sequence st ->
  exists v, verify_database keys (Some (AuditMerkleBatch.sequence_no b)) false st = inr v /\ dv_valid v = true.
Proof.
  intros Hc Hb. unfold verify_database. pose proof (chained_through _ _ _ _ _ (AuditMerkleBatch.sequence_no b) Hc) as Ht.
  rewrite (proj2 (verify_batches_ok st keys _ 1 None 0 _ _) (conj Ht eq_refl)). cbn [mbind res_bind andb].
  rewrite (chained_last _ _ _ _ _ b _ Hc Hb eq_refl), bool_decide_true by done. by eexists.
Qed.

(** Every check of a bundle passes. *)
Lemma bundle_passes d keys cp i sibs u h :
  get "proof_version" (PInt 0) d = PInt 1 -> get "checkpoint" PNone d = PDict (payload_dict cp) -> payload_ok cp ->
  get_str "checkpoint_hash" d = sha256_hexdigest (checkpoint_text cp) ->
  verify_checkpoint_signature (get_str "checkpoint_hash" d) (cp_signing_key_id cp) (get_str "signature" d) keys = None ->
  get "event_id" (PStr []) d = PStr (uuid_str u) -> uuid_ok u ->
  get_str "event_hash" d = h -> leaf_hash (PStr h) = inr (get_str "leaf_hash" d) ->
  get "leaf_index" (PInt (-1)) d = PInt i -> get "leaf_count" (PInt 0) d = PInt (cp_leaf_count cp) ->
  get "batch_sequence" (PInt 0) d = PInt (cp_sequence_no cp) -> get_str "merkle_root" d = cp_merkle_root cp ->
  get "siblings" PNone d = PList sibs ->
  verify_event_merkle_proof (PStr h) (PInt i) (PInt (cp_leaf_count cp)) (PList sibs) (PStr (cp_merkle_root cp)) = inr true ->
  verify_proof_bundle (PDict d) keys = inr (bundle_result 4 None).
Proof.
  intros Hv Hc Hok Hh Hs He Hu <- Hl Hi Hn Hq Hr Hss Hp. unfold verify_proof_bundle. rewrite Hv, Hc. cbn [int_of attempt mret res_ret].
  change (1 =? 1) with true. cbn [negb]. rewrite checkpoint_payload_canonical by done. cbn [attempt].
  rewrite (compute_checkpoint_hash_eq _ cp) by (by apply checkpoint_payload_canonical). cbn [attempt].
  rewrite <-Hh, (proj2 (str_eqb_true _ _) eq_refl), Hs. cbn [negb]. unfold verify_inclusion. rewrite He, uuid_of_str_ok, Hl by done. cbn [attempt].
  rewrite (proj2 (str_eqb_true _ _) eq_refl), Hi, Hn, Hq, Hr, Hss. cbn [negb int_of attempt mret res_ret].
  rewrite !Z.eqb_refl, (proj2 (str_eqb_true _ _) eq_refl). cbn [negb orb].
  destruct (str_eqb (uuid_str u) []) eqn:E; [by apply str_eqb_true, uuid_str_nonempty in E|]. by rewrite Hp.
Qed.

(** The leaf at a position of a verified batch, and its proof. *)
Lemma leaf_position st keys b leaves l k cp :
  batch_verified st keys b leaves -> leaves !! k = Some l -> checkpoint_payload (batch_raw b) = inr cp ->
  AuditMerkleLeaf.leaf_index l = Z.of_nat k
  /\ exists sibs,
    build_merkle_proof (AuditMerkleLeaf.leaf_hash <$> leaves) (AuditMerkleLeaf.leaf_index l)
      = inr {| leaf_index := Z.of_nat k; leaf_count := AuditMerkleBatch.leaf_count b; siblings := sibs |}
    /\ verify_event_merkle_proof (PStr (AuditMerkleLeaf.event_hash l)) (PInt (Z.of_nat k)) (PInt (AuditMerkleBatch.leaf_count b))
         (PList sibs) (PStr (AuditMerkleBatch.merkle_root b)) = inr true.
Proof.
  intros Hb Hk Hcp. pose proof (checkpoint_payload_ok _ _ Hcp) as Hok. destruct (batch_payload_fields b cp Hcp) as (Hn & _).
  destruct (verified_digests _ _ _ _ Hb) as (ds & Eh & Hd & Hne & Elh & Er).
  assert (Elen : length leaves = length ds) by (rewrite <-(length_fmap AuditMerkleLeaf.event_hash), Eh; apply length_fmap).
  assert (Hix : AuditMerkleLeaf.leaf_index l = Z.of_nat k).
  { pose proof (f_equal (fun x => x !! k) (bv_index _ _ _ _ Hb)) as Hix. cbn in Hix. rewrite !list_lookup_fmap, Hk in Hix.
    rewrite lookup_seq_lt in Hix by (by eapply lookup_lt_Some). by injection Hix as ->. }
  split; [done|]. pose proof (Forall_lookup_1 _ _ _ _ (bv_leaf _ _ _ _ Hb) Hk) as Hleaf.
  assert (Hlh : (hex_of_bytes <$> (sha256 ∘ leaf_pre <$> ds)) !! k = Some (AuditMerkleLeaf.leaf_hash l))
    by (by rewrite <-Elh, list_lookup_fmap, Hk).
  rewrite list_lookup_fmap in Hlh. destruct ((sha256 ∘ leaf_pre <$> ds) !! k) as [dg|] eqn:Hdg; [|done]. apply (inj Some) in Hlh.
  pose proof (po_count _ Hok) as Hcount. rewrite Hn, <-(bv_count _ _ _ _ Hb), Elen in Hcount. unfold MAX_BATCH_SIZE in Hcount.
  destruct (proof_complete (sha256 ∘ leaf_pre <$> ds) k dg) as (ss & Hp & _ & Hv);
    [apply Forall_fmap, Forall_true; intros; apply digest_sha256|rewrite length_fmap; lia|done|].
  rewrite length_fmap, <-Elen in Er. rewrite length_fmap, <-Elen, (bv_count _ _ _ _ Hb) in Hp, Hv. exists ss. rewrite Elh, Hix, Hp. split; [done|].
  unfold verify_event_merkle_proof. rewrite Hleaf, <-Hlh, Er. by apply Hv.
Qed.

(** The bundle of a leaf of a verified batch is accepted. *)
Lemma bundle_accepted st keys b leaves l k e p cp :
  batch_verified st keys b leaves -> leaves !! k = Some l -> uuid_ok (Event.id e) ->
  build_merkle_proof (AuditMerkleLeaf.leaf_hash <$> leaves) (AuditMerkleLeaf.leaf_index l) = inr p ->
  checkpoint_payload (batch_raw b) = inr cp ->
  verify_proof_bundle (PDict (bundle_of e l b p cp)) keys = inr (bundle_result 4 None).
Proof.
  intros Hb Hk Hu Hproof Hcp. pose proof (checkpoint_payload_ok _ _ Hcp) as Hok.
  destruct (batch_payload_fields b cp Hcp) as (Hn & Hroot & Hseq & Hkey).
  destruct (leaf_position _ _ _ _ _ _ _ Hb Hk Hcp) as (Hix & ss & Hp & Hv).
  rewrite Hp in Hproof. apply (inj inr) in Hproof as <-.
  destruct (compute_checkpoint_hash_ok _ _ (bv_hash _ _ _ _ Hb)) as (q & Hq & _ & Ech).
  rewrite Hcp in Hq. apply (inj inr) in Hq as <-.
  apply (bundle_passes _ keys cp (Z.of_nat k) ss (Event.id e) (AuditMerkleLeaf.event_hash l));
    rewrite ?Hn, ?Hroot, ?Hseq, ?Hkey; try done.
  - exact (bv_signature _ _ _ _ Hb).
  - exact (Forall_lookup_1 _ _ _ _ (bv_leaf _ _ _ _ Hb) Hk).
  - rewrite <-Hix. reflexivity.
Qed.

(** A leaf under a chain of verified checkpoints. *)
Lemma proof_exported st keys l :
  audit_wf st -> chained st keys 1 None (batches_by_sequence st) -> l ∈ rows (audit_merkle_leaves st) ->
  exists d, proof_for_event (AuditMerkleLeaf.event_id l) keys st = inr d
            /\ verify_proof_bundle (PDict d) keys = inr (bundle_result 4 None).
Proof.
  intros Hwf Hc Hl.
  destruct (aw_owner _ Hwf l Hl) as [b Hb]. pose proof (aw_batches _ Hwf _ _ Hb) as Hid.
  assert (Hbs : b ∈ batches_by_sequence st) by (apply elem_of_order_by, elem_of_rows; eauto).
  pose proof (chained_elem _ _ _ _ _ _ Hc Hbs) as Hbv. rewrite Hid in Hbv.
  assert (Hin : l ∈ leaves_of (AuditMerkleLeaf.batch_id l) st) by (by apply elem_of_leaves_of).
  destruct (list_elem_of_lookup_1 _ _ Hin) as [k Hk].
  pose proof (Forall_lookup_1 _ _ _ _ (bv_events _ _ _ _ Hbv) Hk) as (e & He & Hev & Hce).
  pose proof (Forall_lookup_1 _ _ _ _ (bv_leaf _ _ _ _ Hbv) Hk) as Hlh.
  assert (Hof : leaf_of (AuditMerkleLeaf.event_id l) st = Some (e, l, b)).
  { unfold leaf_of. rewrite He. cbn [mbind option_bind].
    destruct (find_elem (fun x => bool_decide (AuditMerkleLeaf.event_id x = AuditMerkleLeaf.event_id l)) _ l Hl) as (l' & -> & Hl' & El');
      [by apply bool_decide_eq_true|]. apply bool_decide_eq_true in El'.
    rewrite (aw_unique _ Hwf l' l Hl' Hl El'). cbn [mbind option_bind]. by rewrite Hb. }
  destruct (verify_database_through keys st b Hc Hbs) as (w & Hw & Hwv).
  destruct (compute_checkpoint_hash_ok _ _ (bv_hash _ _ _ _ Hbv)) as (cp & Hcp & _ & _).
  destruct (leaf_position _ _ _ _ _ _ _ Hbv Hk Hcp) as (_ & ss & Hp & _).
  eexists. split.
  - unfold proof_for_event. rewrite Hof, Hev, Hce, !bool_decide_true by done. cbn [negb]. rewrite Hlh. cbn [mbind res_bind].
    rewrite (proj2 (str_eqb_true _ _) eq_refl), Hw. cbn [negb mbind res_bind]. by rewrite Hwv, Hid, Hp, Hcp.
  - eapply bundle_accepted; [exact Hbv|exact Hk| |exact Hp|exact Hcp]. destruct (aw_events _ Hwf _ _ He) as [-> ?]. done.
Qed.

(** Every checkpointed event of a database that verifies has a proof:
    [proof_for_event] exports a bundle, and [verify_proof_bundle], which sees
    nothing but the bundle and the public keys, accepts it. *)
Theorem checkpointed_event_has_a_proof st keys v l :
  audit_wf st -> verify_database keys None false st = inr v -> dv_valid v = true ->
  l ∈ rows (audit_merkle_leaves st) ->
  exists d, proof_for_event (AuditMerkleLeaf.event_id l) keys st = inr d
            /\ verify_proof_bundle (PDict d) keys = inr (bundle_result 4 None).
Proof.
  intros Hwf Hdb Hvalid Hl. destruct (verify_database_valid _ _ _ Hdb Hvalid) as [Hc _]. by apply proof_exported.
Qed.
End Exporting.

(** ** A new checkpoint *)

Section Signing.
Context `{Ed25519Laws}.

Lemma decode_base64_ok v n bs : _decode_base64 v n = inr bs -> exists s, v = PStr s /\ b64decode s = Some bs /\ length bs = n.
Proof.
  unfold _decode_base64. destruct v as [| | | |[|c s]| | | | | |]; try done. intros E. exists (c :: s).
  destruct (b64decode (c :: s)) as [x|]; [|done]. destruct (Nat.eqb_spec (length x) n); [|done]. by injection E as ->.
Qed.
Lemma decode_encode_base64 bs n : Forall is_byte bs -> length bs = S n -> _decode_base64 (PStr (_encode_base64 bs)) (S n) = inr bs.
Proof.
  intros Hb Hn. unfold _decode_base64, _encode_base64. destruct (b64decode_encode bs Hb) as (E & _ & Hl).
  destruct (b64encode bs) as [|c s] eqn:Es.
  - exfalso. rewrite Hn in Hl. cbn [length] in Hl.
    assert (1 <= (S n + 2) / 3)%nat by (apply Nat.div_le_lower_bound; lia). lia.
  - by rewrite E, Hn, Nat.eqb_refl.
Qed.

(** A signature of a validated configuration is accepted. *)
Lemma sign_verify key h signature :
  validate_signing_configuration (sk_id key) (sk_private key) (sk_public_keys key) = inr tt ->
  sign_checkpoint_hash h (sk_private key) = inr signature ->
  verify_checkpoint_signature h (sk_id key) signature (sk_public_keys key) = None /\ key_id_ok (sk_id key) = true.
Proof.
  unfold validate_signing_configuration, sign_checkpoint_hash, verify_checkpoint_signature.
  destruct (key_id_ok (sk_id key)); [|done]. cbn [negb].
  destruct (assoc (sk_id key) (sk_public_keys key)) as [trusted|]; [|done].
  intros (pub & Hpub & (derived & Hd & Ed)%res_bind_ok)%res_bind_ok. destruct (str_eqb derived trusted) eqn:Et; [|done].
  apply str_eqb_true in Et as <-. unfold derive_public_key in Hd.
  apply res_bind_ok in Hd as (seed & Hseed & Ed'). apply (inj inr) in Ed' as <-.
  destruct (if is_hash_hex h then bytes_fromhex h else None) as [digest|]; [|done].
  intros (seed' & Hseed' & Es)%res_bind_ok. apply (inj inr) in Es as <-. rewrite Hseed in Hseed'. apply (inj inr) in Hseed' as <-.
  apply decode_base64_ok in Hseed as (_ & _ & _ & Hsz). rewrite Hpub. cbn [mbind res_bind].
  destruct (ed_public_size seed Hsz) as [Hp1 Hp2], (ed_sign_size seed digest Hsz) as [Hs1 Hs2].
  rewrite decode_encode_base64 in Hpub by done. apply (inj inr) in Hpub as <-. rewrite decode_encode_base64 by done.
  cbn [mbind res_bind mret res_ret]. by rewrite ed_correct.
Qed.
End Signing.

Section Inserting.
Context `{World}.

Definition leaf_key (l : AuditMerkleLeaf.t) : N * Z := (AuditMerkleLeaf.batch_id l, AuditMerkleLeaf.leaf_index l).

Lemma insert_leaf_ok l s a s' :
  insert_leaf l s = (inr a, s') ->
  audit_merkle_leaves (work s) !! leaf_key l = None
  /\ (forall x, x ∈ rows (audit_merkle_leaves (work s)) -> AuditMerkleLeaf.event_id x <> AuditMerkleLeaf.event_id l)
  /\ s' = s <| work := upd audit_merkle_leaves (insert (leaf_key l) l) (work s) |>.
Proof.
  unfold insert_leaf. intros Hr. run_inv. split_and!; [done| |done]. intros x Hx Ex.
  match goal with Hg : negb _ = true |- _ => apply negb_true_iff in Hg; rename Hg into Hn end.
  apply not_true_iff_false in Hn. apply Hn. apply existsb_exists. exists x. rewrite <-list_elem_of_In. split; [done|].
  by apply bool_decide_eq_true.
Qed.

Definition leaf_tables_ok (t : gmap (N * Z) AuditMerkleLeaf.t) : Prop :=
  (forall k l, t !! k = Some l -> leaf_key l = k)
  /\ (forall l l', l ∈ rows t -> l' ∈ rows t -> AuditMerkleLeaf.event_id l = AuditMerkleLeaf.event_id l' -> l = l').

Lemma insert_leaves_ok ls s a s' :
  for_each ls insert_leaf s = (inr a, s') ->
  rows (audit_merkle_leaves (work s')) ≡ₚ ls ++ rows (audit_merkle_leaves (work s))
  /\ (leaf_tables_ok (audit_merkle_leaves (work s)) -> leaf_tables_ok (audit_merkle_leaves (work s')))
  /\ events (work s') = events (work s) /\ audit_merkle_batches (work s') = audit_merkle_batches (work s)
  /\ durable s' = durable s.
Proof.
  revert s. induction ls as [|l ls IH]; intros s Hr; cbn in Hr.
  - by apply ret_ok in Hr as [-> ->].
  - apply bind_ok in Hr as (x & s1 & (Hk & Hu & ->)%insert_leaf_ok & Hr). apply IH in Hr as (Hp & Ht & He & Hb & Hd).
    cbn in Hp, Ht, He, Hb, Hd. rewrite rows_insert in Hp by done. split_and!; [|intros [T1 T2]; apply Ht|done..].
    + rewrite Hp. cbn. by rewrite Permutation_middle.
    + split.
      * intros k y. destruct (decide (leaf_key l = k)) as [<-|Hne]; [rewrite lookup_insert_eq; by intros [= <-]|].
        rewrite lookup_insert_ne by done. apply T1.
      * intros y z. rewrite !rows_insert, !elem_of_cons by done. intros [->|Hy] [->|Hz] E; [done| | |by apply T2].
        -- by destruct (Hu z Hz).
        -- by destruct (Hu y Hy).
Qed.

Lemma insert_batch_ok b s a s' :
  insert_batch b s = (inr a, s') ->
  audit_merkle_batches (work s) !! AuditMerkleBatch.id b = None
  /\ s' = s <| work := upd audit_merkle_batches (insert (AuditMerkleBatch.id b) b) (work s) |>.
Proof. unfold insert_batch. intros Hr. run_inv. done. Qed.
End Inserting.

Lemma last_cons_Some {A} (x : A) l : exists z, last (x :: l) = Some z.
Proof. destruct (last (x :: l)) eqn:E; [by eexists|by apply last_None in E]. Qed.

Section Creating.
Context `{World} `{Ed25519} `{Conversions}.
Context (Hclock : forall i, datetime_ok (clock i) = true).

Definition hash_of (e : Event.t) : pystr := default [] (Event.event_hash e).

(** What [create_checkpoint] has computed when it returns a batch. *)
Record checkpoint_made (n : Z) (key : SigningKey) (st : Store) (b : AuditMerkleBatch.t) (es : list Event.t)
    (leaf_hashes : list pystr) : Prop := {
  cm_size : 1 <= n <= MAX_BATCH_SIZE;
  cm_key : validate_signing_configuration (sk_id key) (sk_private key) (sk_public_keys key) = inr tt;
  cm_events : es = take (Z.to_nat n) (pending_events st);
  cm_hashes : Forall (fun e => Event.event_hash e = Some (compute_event_hash e)) es;
  cm_leaves : res_map (fun h => leaf_hash (PStr h)) (hash_of <$> es) = inr leaf_hashes;
  cm_root : build_merkle_root leaf_hashes = inr (AuditMerkleBatch.merkle_root b);
  cm_sequence : AuditMerkleBatch.sequence_no b
                = match latest_batch st with None => 1 | Some l => AuditMerkleBatch.sequence_no l + 1 end;
  cm_previous : AuditMerkleBatch.previous_checkpoint_hash b = AuditMerkleBatch.checkpoint_hash <$> latest_batch st;
  cm_count : AuditMerkleBatch.leaf_count b = Z.of_nat (length es);
  cm_first : exists e, head es = Some e /\ AuditMerkleBatch.first_event_id b = Event.id e
                       /\ AuditMerkleBatch.first_event_hash b = hash_of e;
  cm_last : exists e, last es = Some e /\ AuditMerkleBatch.last_event_id b = Event.id e
                      /\ AuditMerkleBatch.last_event_hash b = hash_of e;
  cm_signer : AuditMerkleBatch.signing_key_id b = sk_id key;
  cm_created : datetime_ok (AuditMerkleBatch.created_at b) = true;
  cm_hash : compute_checkpoint_hash (batch_raw b) = inr (AuditMerkleBatch.checkpoint_hash b);
  cm_signature : sign_checkpoint_hash (AuditMerkleBatch.checkpoint_hash b) (sk_private key) = inr (AuditMerkleBatch.signature b);
  cm_fresh : audit_merkle_batches st !! AuditMerkleBatch.id b = None
}.

Lemma hashes_checked es :
  forallb (fun e => bool_decide (Event.event_hash e = Some (compute_event_hash e))) es = true ->
  Forall (fun e => Event.event_hash e = Some (compute_event_hash e)) es.
Proof.
  rewrite forallb_forall, Forall_forall. intros Hall e He. apply list_elem_of_In in He.
  specialize (Hall e He). by apply bool_decide_eq_true in Hall.
Qed.

Lemma create_checkpoint_ok n key s r s' :
  create_checkpoint n key s = (inr r, s') ->
  match r with
  | None => 1 <= n /\ pending_events (work s) = [] /\ work s' = work s /\ durable s' = durable s
  | Some b =>
      exists es leaf_hashes s1, checkpoint_made n key (work s) b es leaf_hashes
        /\ work s1 = upd audit_merkle_batches (insert (AuditMerkleBatch.id b) b) (work s) /\ durable s1 = durable s
        /\ for_each (leaf_rows (AuditMerkleBatch.id b) es leaf_hashes) insert_leaf s1 = (inr tt, s')
  end.
Proof.
  unfold create_checkpoint. intros Hr.
  apply bind_ok in Hr as (x1 & s1 & [Hn ->]%guard_ok & Hr). apply bind_ok in Hr as (x2 & s2 & [Hkey ->]%of_res_ok & Hr).
  apply bind_ok in Hr as (x3 & s3 & (Hw3 & Hd3 & _)%may_fault_ok & Hr).
  apply bind_ok in Hr as (x4 & s4 & [_ ->]%gets_ok & Hr). apply bind_ok in Hr as (x5 & s5 & [_ ->]%guard_ok & Hr).
  apply bind_ok in Hr as (es & s6 & [Ees ->]%gets_ok & Hr). rewrite Hw3 in Ees. destruct x2.
  destruct es as [|first rest].
  { apply ret_ok in Hr as [-> ->]. split_and!; [lia| |done..].
    destruct (pending_events (work s)); [done|]. destruct (Z.to_nat n) eqn:En; [lia|done]. }
  set (es := first :: rest) in *.
  apply bind_ok in Hr as (x7 & s7 & [Hh ->]%guard_ok & Hr). apply bind_ok in Hr as (latest & s8 & [-> ->]%gets_ok & Hr).
  rewrite Hw3 in Hr. cbv zeta in Hr.
  apply bind_ok in Hr as (lhs & s9 & [Hl ->]%of_res_ok & Hr). apply bind_ok in Hr as (created & s10 & Hnow & Hr).
  assert (Hcr : datetime_ok created = true) by (unfold utcnow in Hnow; injection Hnow as <- _; apply Hclock).
  apply utcnow_ok in Hnow as (Hw10 & Hd10 & _). apply bind_ok in Hr as (root & s11 & [Hroot ->]%of_res_ok & Hr).
  apply bind_ok in Hr as (ch & s12 & [Hch ->]%of_res_ok & Hr). apply bind_ok in Hr as (sg & s13 & [Hsg ->]%of_res_ok & Hr).
  apply bind_ok in Hr as (id & s14 & (Hw14 & Hd14 & _)%uuid4_ok & Hr).
  apply bind_ok in Hr as (x15 & s15 & [Hfresh ->]%insert_batch_ok & Hr). apply bind_ok in Hr as (x16 & s16 & Hins & Hr).
  apply ret_ok in Hr as [-> ->]. destruct x16.
  rewrite Hw14, Hw10, Hw3 in *. exists es, lhs. eexists. split; [|split; [|split; [|exact Hins]]]; [|done|cbn; congruence].
  split; try done; [lia|by apply hashes_checked|by exists first|].
  destruct (last_cons_Some first rest) as [z Hz]. exists z. fold es in Hz. unfold es. cbn. fold es. by rewrite Hz.
Qed.
End Creating.

(** ** The rows of a new batch *)

Lemma leaf_rows_spec_from id es lhs k : length lhs = length es ->
  let ls := zip_with (fun ie h => AuditMerkleLeaf.Row id (Event.id ie.2) ie.1 (hash_of ie.2) h)
              (zip (Z.of_nat <$> seq k (length es)) es) lhs in
  AuditMerkleLeaf.leaf_index <$> ls = Z.of_nat <$> seq k (length es) /\ AuditMerkleLeaf.event_id <$> ls = Event.id <$> es
  /\ AuditMerkleLeaf.event_hash <$> ls = hash_of <$> es /\ AuditMerkleLeaf.leaf_hash <$> ls = lhs
  /\ Forall (fun l => AuditMerkleLeaf.batch_id l = id) ls.
Proof.
  revert k lhs. induction es as [|e es IH]; intros k [|h lhs] E; try done. cbn in E. injection E as E.
  destruct (IH (S k) lhs E) as (H1 & H2 & H3 & H4 & H5). cbn in *.
  split_and!; [by f_equal..|]. by constructor.
Qed.
Lemma leaf_rows_spec id es lhs : length lhs = length es ->
  let ls := leaf_rows id es lhs in
  AuditMerkleLeaf.leaf_index <$> ls = Z.of_nat <$> seq 0 (length es) /\ AuditMerkleLeaf.event_id <$> ls = Event.id <$> es
  /\ AuditMerkleLeaf.event_hash <$> ls = hash_of <$> es /\ AuditMerkleLeaf.leaf_hash <$> ls = lhs
  /\ Forall (fun l => AuditMerkleLeaf.batch_id l = id) ls.
Proof. apply leaf_rows_spec_from. Qed.

Lemma indexed_sorted {A} (f : A -> Z) l k : f <$> l = Z.of_nat <$> seq k (length l) -> StronglySorted (key_le (fun x => [f x])) l.
Proof.
  revert k. induction l as [|x l IH]; intros k E; [constructor|]. cbn in E. injection E as Ex El.
  constructor; [by eapply IH|]. apply Forall_forall. intros y Hy. apply (list_elem_of_fmap_2 f) in Hy. rewrite El in Hy.
  apply list_elem_of_fmap in Hy as (j & Ej & [Hj _]%elem_of_seq). unfold key_le, lex_le. apply lex_leb_cons. lia.
Qed.

Lemma filter_keeps {A} (p : A -> bool) l : Forall (fun x => p x = true) l -> List.filter p l = l.
Proof. induction 1 as [|x l Hx _ IH]; cbn; [done|]. by rewrite Hx, IH. Qed.
Lemma filter_drops {A} (p : A -> bool) l : Forall (fun x => p x = false) l -> List.filter p l = [].
Proof. induction 1 as [|x l Hx _ IH]; cbn; [done|]. by rewrite Hx. Qed.

Lemma leaf_index_inj t id x y : leaf_tables_ok t ->
  x ∈ List.filter (fun l => bool_decide (AuditMerkleLeaf.batch_id l = id)) (rows t) ->
  y ∈ List.filter (fun l => bool_decide (AuditMerkleLeaf.batch_id l = id)) (rows t) ->
  [AuditMerkleLeaf.leaf_index x] = [AuditMerkleLeaf.leaf_index y] -> x = y.
Proof.
  intros [Hk _] [Hx Bx%bool_decide_eq_true]%elem_of_filter_bool [Hy By%bool_decide_eq_true]%elem_of_filter_bool [= E].
  apply (nodup_map_inj leaf_key (rows t)); [by apply rows_keyed_nodup|done..|]. unfold leaf_key. congruence.
Qed.

(** The leaves of a batch after the rows of another, or of itself, were added. *)
Lemma leaves_of_added st st' ls id : leaf_tables_ok (audit_merkle_leaves st') ->
  rows (audit_merkle_leaves st') ≡ₚ ls ++ rows (audit_merkle_leaves st) ->
  Forall (fun l => AuditMerkleLeaf.batch_id l <> id) ls -> leaves_of id st' = leaves_of id st.
Proof.
  intros Ht Hp Hls. unfold leaves_of. apply order_by_perm_eq; [intros x y; by apply leaf_index_inj|].
  rewrite Hp, List.filter_app, filter_drops; [done|]. eapply Forall_impl; [exact Hls|]. intros l Hl. by apply bool_decide_eq_false.
Qed.
Lemma leaves_of_new st st' ls id : leaf_tables_ok (audit_merkle_leaves st') ->
  rows (audit_merkle_leaves st') ≡ₚ ls ++ rows (audit_merkle_leaves st) ->
  Forall (fun l => AuditMerkleLeaf.batch_id l = id) ls ->
  Forall (fun l => AuditMerkleLeaf.batch_id l <> id) (rows (audit_merkle_leaves st)) ->
  AuditMerkleLeaf.leaf_index <$> ls = Z.of_nat <$> seq 0 (length ls) -> leaves_of id st' = ls.
Proof.
  intros Ht Hp Hls Hold Hix. unfold leaves_of. apply order_by_unique; [intros x y; by apply leaf_index_inj|by eapply indexed_sorted|].
  rewrite Hp, List.filter_app, filter_keeps, filter_drops, app_nil_r; [done| |].
  - eapply Forall_impl; [exact Hold|]. intros l Hl. by apply bool_decide_eq_false.
  - eapply Forall_impl; [exact Hls|]. intros l Hl. by apply bool_decide_eq_true.
Qed.

(** Pending events are stored, distinct events. *)
Lemma elem_of_pending st e :
  e ∈ pending_events st <-> e ∈ rows (events st) /\ has_leaf st e = false /\ valid_event_metadata e = true.
Proof.
  unfold pending_events. rewrite elem_of_order_by, elem_of_filter_bool, andb_true_iff, negb_true_iff. done.
Qed.

Lemma audit_ids st : audit_wf st -> ids_ok (events st).
Proof. intros Hwf k e He. by apply (aw_events _ Hwf). Qed.

Lemma events_nodup st : audit_wf st -> NoDup (Event.id <$> rows (events st)).
Proof. intros Hwf. apply rows_keyed_nodup. by apply audit_ids. Qed.

Lemma pending_ids_nodup st : audit_wf st -> NoDup (Event.id <$> pending_events st).
Proof.
  intros Hwf. unfold pending_events. rewrite order_by_perm.
  eapply sublist_NoDup; [apply (events_nodup st Hwf)|]. apply fmap_sublist, sublist_filter_bool.
Qed.

Lemma has_leaf_true st e :
  has_leaf st e = true <-> exists l, l ∈ rows (audit_merkle_leaves st) /\ AuditMerkleLeaf.event_id l = Event.id e.
Proof.
  unfold has_leaf. rewrite existsb_exists. setoid_rewrite <-list_elem_of_In. by setoid_rewrite bool_decide_eq_true.
Qed.

(** ** A checkpoint extends the chain *)

Lemma leaf_hashes_ok ls hs lhs :
  AuditMerkleLeaf.event_hash <$> ls = hs -> AuditMerkleLeaf.leaf_hash <$> ls = lhs ->
  res_map (fun h => leaf_hash (PStr h)) hs = inr lhs ->
  Forall (fun l => leaf_hash (PStr (AuditMerkleLeaf.event_hash l)) = inr (AuditMerkleLeaf.leaf_hash l)) ls.
Proof.
  intros <- <- Hm%res_map_ok. induction ls as [|l ls IH]; [done|].
  rewrite !fmap_cons in Hm. apply Forall2_cons_1 in Hm as [Hl Hm]. constructor; [exact Hl|by apply IH].
Qed.

Section Chains.
Context `{Ed25519} `{Conversions}.

Definition tip_hash (previous : option pystr) (batches : list AuditMerkleBatch.t) : option pystr :=
  match last batches with Some c => Some (AuditMerkleBatch.checkpoint_hash c) | None => previous end.

Lemma chained_snoc st keys sequence previous batches b :
  chained st keys sequence previous (batches ++ [b])
  <-> chained st keys sequence previous batches /\ AuditMerkleBatch.sequence_no b = sequence + Z.of_nat (length batches)
      /\ AuditMerkleBatch.previous_checkpoint_hash b = tip_hash previous batches
      /\ batch_verified st keys b (leaves_of (AuditMerkleBatch.id b) st).
Proof.
  revert sequence previous. induction batches as [|c batches IH]; intros sequence previous.
  - cbn. rewrite Z.add_0_r. tauto.
  - cbn [app chained]. rewrite IH. cbn [length]. unfold tip_hash. rewrite last_cons.
    replace (sequence + 1 + Z.of_nat (length batches)) with (sequence + Z.of_nat (S (length batches))) by lia.
    destruct (last batches); tauto.
Qed.

Lemma chained_sequences st keys sequence previous batches c :
  chained st keys sequence previous batches -> c ∈ batches ->
  sequence <= AuditMerkleBatch.sequence_no c < sequence + Z.of_nat (length batches).
Proof.
  revert sequence previous. induction batches as [|x batches IH]; intros sequence previous; [by intros _ ?%elem_of_nil|].
  cbn [chained length]. intros (Hs & _ & _ & Hc) [->|Hin]%elem_of_cons; [lia|]. specialize (IH _ _ Hc Hin). lia.
Qed.

Lemma chained_impl st st' keys sequence previous batches :
  (forall c, c ∈ batches -> batch_verified st keys c (leaves_of (AuditMerkleBatch.id c) st) ->
     batch_verified st' keys c (leaves_of (AuditMerkleBatch.id c) st')) ->
  chained st keys sequence previous batches -> chained st' keys sequence previous batches.
Proof.
  intros Hv. revert sequence previous. induction batches as [|c batches IH]; intros sequence previous; [done|].
  cbn [chained]. intros (? & ? & Hc & Hr). split_and!; [done..| |].
  - apply Hv; [constructor|done].
  - apply IH; [|done]. intros x Hx. apply Hv. by constructor.
Qed.
End Chains.

Lemma latest_batch_last st : audit_wf st -> latest_batch st = last (batches_by_sequence st).
Proof.
  intros Hwf. unfold latest_batch, batches_by_sequence.
  change (fun b => [- AuditMerkleBatch.sequence_no b]) with (fun b => Z.opp <$> [AuditMerkleBatch.sequence_no b]).
  rewrite (order_by_desc (fun b => [AuditMerkleBatch.sequence_no b]) 1).
  - by rewrite head_reverse.
  - done.
  - intros x y Hx Hy [= E]. by apply (aw_sequence _ Hwf).
Qed.

Lemma filter_take_drop {A} (p : A -> bool) n l :
  (forall x, x ∈ take n l -> p x = false) -> (forall x, x ∈ drop n l -> p x = true) -> List.filter p l = drop n l.
Proof.
  intros Ht Hd. rewrite <-(take_drop n l) at 1. rewrite List.filter_app, filter_drops, filter_keeps; [done|..]; by apply Forall_forall.
Qed.

Lemma filter_and {A} (p q : A -> bool) l : List.filter (fun x => p x && q x) l = List.filter p (List.filter q l).
Proof. induction l as [|x l IH]; cbn; [done|]. destruct (q x); [|by rewrite andb_false_r]. cbn. rewrite andb_true_r. by rewrite IH. Qed.

(** Filtering the rows of a query filters its answer. *)
Lemma order_by_filter {A} (key : A -> list Z) (p : A -> bool) l :
  (forall x y, x ∈ l -> y ∈ l -> key x = key y -> x = y) ->
  order_by key (List.filter p l) = List.filter p (order_by key l).
Proof.
  intros Hinj. apply order_by_unique.
  - intros x y [Hx _]%elem_of_filter_bool [Hy _]%elem_of_filter_bool. by apply Hinj.
  - pose proof (order_by_sorted key l) as Hs. induction Hs as [|x k _ IH Hf]; cbn; [constructor|].
    destruct (p x); [|done]. constructor; [done|]. rewrite Forall_forall in *. intros y [Hy _]%elem_of_filter_bool. auto.
  - by rewrite order_by_perm.
Qed.

Section Extending.
Context `{World} `{Ed25519Laws} `{ConversionLaws}.
Context (n : Z) (key : SigningKey) (st st' : Store) (b : AuditMerkleBatch.t) (es : list Event.t) (lhs : list pystr).
Context (Hwf : audit_wf st) (Hmade : checkpoint_made n key st b es lhs).
Context (Hevents : events st' = events st)
  (Hbatches : audit_merkle_batches st' = <[AuditMerkleBatch.id b := b]> (audit_merkle_batches st))
  (Hrows : rows (audit_merkle_leaves st') ≡ₚ leaf_rows (AuditMerkleBatch.id b) es lhs ++ rows (audit_merkle_leaves st))
  (Htables : leaf_tables_ok (audit_merkle_leaves st')).

Local Abbreviation new_leaves := (leaf_rows (AuditMerkleBatch.id b) es lhs).

Lemma made_length : length lhs = length es.
Proof. pose proof (cm_leaves _ _ _ _ _ _ Hmade) as E. apply res_map_ok, Forall2_length in E. by rewrite length_fmap in E. Qed.

Lemma made_leaves_length : length new_leaves = length es.
Proof.
  destruct (leaf_rows_spec (AuditMerkleBatch.id b) es lhs made_length) as (_ & E & _).
  apply (f_equal length) in E. by rewrite !length_fmap in E.
Qed.

Lemma made_pending e : e ∈ es -> e ∈ pending_events st.
Proof. rewrite (cm_events _ _ _ _ _ _ Hmade). intros He. by eapply elem_of_take in He as (i & Hi%list_elem_of_lookup_2 & _). Qed.
Lemma made_stored e : e ∈ es -> e ∈ rows (events st) /\ events st !! Event.id e = Some e.
Proof.
  intros [He _]%made_pending%elem_of_pending. split; [done|]. apply elem_of_rows in He as [k Hk].
  by destruct (aw_events _ Hwf _ _ Hk) as [-> _].
Qed.

Lemma old_leaves_elsewhere : Forall (fun l => AuditMerkleLeaf.batch_id l <> AuditMerkleBatch.id b) (rows (audit_merkle_leaves st)).
Proof.
  apply Forall_forall. intros l Hl E. destruct (aw_owner _ Hwf l Hl) as [c Hc]. rewrite E in Hc.
  by rewrite (cm_fresh _ _ _ _ _ _ Hmade) in Hc.
Qed.

Lemma made_leaves : leaves_of (AuditMerkleBatch.id b) st' = new_leaves.
Proof.
  destruct (leaf_rows_spec (AuditMerkleBatch.id b) es lhs made_length) as (Hix & _ & _ & _ & Hid).
  eapply leaves_of_new; [done|exact Hrows|exact Hid|apply old_leaves_elsewhere|]. by rewrite made_leaves_length.
Qed.
Lemma old_leaves c : c ∈ rows (audit_merkle_batches st) -> leaves_of (AuditMerkleBatch.id c) st' = leaves_of (AuditMerkleBatch.id c) st.
Proof.
  intros [k Hk]%elem_of_rows. pose proof (aw_batches _ Hwf _ _ Hk) as Hid.
  destruct (leaf_rows_spec (AuditMerkleBatch.id b) es lhs made_length) as (_ & _ & _ & _ & Hnew).
  eapply leaves_of_added; [done|exact Hrows|]. eapply Forall_impl; [exact Hnew|]. cbn. intros l -> E.
  rewrite E, Hid in *. pose proof (cm_fresh _ _ _ _ _ _ Hmade) as Hf. rewrite E in Hf. congruence.
Qed.

(** The rows found for the leaves are the events of the batch. *)
Lemma made_found :
  length (List.filter (fun e => bool_decide (Event.id e ∈ Event.id <$> es)) (rows (events st))) = length es.
Proof.
  assert (Hn : NoDup (Event.id <$> es)).
  { rewrite (cm_events _ _ _ _ _ _ Hmade), fmap_take. eapply sublist_NoDup; [apply (pending_ids_nodup st Hwf)|apply sublist_take]. }
  pose proof (events_nodup st Hwf) as Hr.
  apply Permutation_length, NoDup_Permutation.
  - eapply sublist_NoDup; [|apply sublist_filter_bool]. by eapply NoDup_fmap_1.
  - by eapply NoDup_fmap_1.
  - intros e. rewrite elem_of_filter_bool, bool_decide_eq_true. split.
    + intros [He Hin]. apply list_elem_of_fmap in Hin as (x & Ex & Hx). destruct (made_stored x Hx) as [Hx' _].
      by rewrite (nodup_map_inj Event.id _ e x Hr He Hx' Ex).
    + intros He. split; [by apply made_stored|by apply list_elem_of_fmap_2].
Qed.

Lemma made_events_ok : Forall (leaf_event_ok st') new_leaves.
Proof.
  destruct (leaf_rows_spec (AuditMerkleBatch.id b) es lhs made_length) as (_ & Hid & Hh & _ & _).
  apply Forall_lookup_2. intros k l Hl.
  assert (Hk : (AuditMerkleLeaf.event_id <$> new_leaves) !! k = Some (AuditMerkleLeaf.event_id l)) by (by rewrite list_lookup_fmap, Hl).
  assert (Hk' : (AuditMerkleLeaf.event_hash <$> new_leaves) !! k = Some (AuditMerkleLeaf.event_hash l)) by (by rewrite list_lookup_fmap, Hl).
  rewrite Hid, list_lookup_fmap in Hk. rewrite Hh, list_lookup_fmap in Hk'. destruct (es !! k) as [e|] eqn:He; [|done].
  apply (inj Some) in Hk. apply (inj Some) in Hk'. pose proof (list_elem_of_lookup_2 _ _ _ He) as Hin.
  pose proof (Forall_lookup_1 _ _ _ _ (cm_hashes _ _ _ _ _ _ Hmade) He) as Eh. unfold hash_of in Hk'. rewrite Eh in Hk'. cbn in Hk'.
  exists e. rewrite Hevents, <-Hk, <-Hk', Eh. split; [by apply made_stored|done].
Qed.

Lemma made_verified : batch_verified st' (sk_public_keys key) b (leaves_of (AuditMerkleBatch.id b) st').
Proof.
  rewrite made_leaves. destruct (leaf_rows_spec (AuditMerkleBatch.id b) es lhs made_length) as (Hix & Hid & Hh & Hlh & _).
  destruct (sign_verify key _ _ (cm_key _ _ _ _ _ _ Hmade) (cm_signature _ _ _ _ _ _ Hmade)) as [Hsig _].
  split.
  - exact (cm_hash _ _ _ _ _ _ Hmade).
  - by rewrite (cm_signer _ _ _ _ _ _ Hmade).
  - by rewrite made_leaves_length, (cm_count _ _ _ _ _ _ Hmade).
  - by rewrite made_leaves_length.
  - destruct (cm_first _ _ _ _ _ _ Hmade) as (e & He & -> & ->).
    destruct new_leaves as [|l ls], es as [|e' es']; try done. cbn in He, Hid, Hh. injection He as ->. injection Hid as ? _. injection Hh as ? _.
    by exists l.
  - destruct (cm_last _ _ _ _ _ _ Hmade) as (e & He & -> & ->).
    apply (f_equal last) in Hid. apply (f_equal last) in Hh. rewrite !fmap_last, He in Hid. rewrite !fmap_last, He in Hh.
    destruct (last new_leaves) as [l|]; [|done]. cbn in Hid, Hh. injection Hid as ?. injection Hh as ?. by exists l.
  - exact (leaf_hashes_ok _ _ _ Hh Hlh (cm_leaves _ _ _ _ _ _ Hmade)).
  - rewrite Hlh. exact (cm_root _ _ _ _ _ _ Hmade).
  - by rewrite Hid, Hevents, made_found, made_leaves_length.
  - apply made_events_ok.
Qed.

Lemma old_verified c keys : c ∈ rows (audit_merkle_batches st) ->
  batch_verified st keys c (leaves_of (AuditMerkleBatch.id c) st) -> batch_verified st' keys c (leaves_of (AuditMerkleBatch.id c) st').
Proof.
  intros Hc. rewrite (old_leaves c Hc). intros [E1 E2 E3 E4 E5 E6 E7 E8 E9 E10]. split; try done; rewrite ?Hevents; [done|].
  eapply Forall_impl; [exact E10|]. intros l (e & He & ?). exists e. by rewrite Hevents.
Qed.
Context (Hchain : chained st (sk_public_keys key) 1 None (batches_by_sequence st)).

Lemma made_sequence : AuditMerkleBatch.sequence_no b = 1 + Z.of_nat (length (batches_by_sequence st)).
Proof.
  rewrite (cm_sequence _ _ _ _ _ _ Hmade), latest_batch_last by done.
  destruct (batches_by_sequence st) as [|c l _] eqn:E using rev_ind; [done|].
  apply chained_snoc in Hchain as (_ & Hs & _). rewrite last_snoc, Hs, length_app. cbn [length]. lia.
Qed.

Lemma old_sequences c : c ∈ rows (audit_merkle_batches st) -> AuditMerkleBatch.sequence_no c < AuditMerkleBatch.sequence_no b.
Proof.
  intros Hc. rewrite made_sequence. eapply chained_sequences; [exact Hchain|]. by apply elem_of_order_by.
Qed.

Lemma made_rows c : c ∈ rows (audit_merkle_batches st') <-> c = b \/ c ∈ rows (audit_merkle_batches st).
Proof. rewrite Hbatches, rows_insert by apply (cm_fresh _ _ _ _ _ _ Hmade). by rewrite elem_of_cons. Qed.

Lemma made_wf : audit_wf st'.
Proof.
  destruct Htables as [T1 T2]. split.
  - rewrite Hevents. apply (aw_events _ Hwf).
  - intros k c. rewrite Hbatches. destruct (decide (AuditMerkleBatch.id b = k)) as [<-|Hk].
    + rewrite lookup_insert_eq. by intros [= <-].
    + rewrite lookup_insert_ne by done. apply (aw_batches _ Hwf).
  - exact T1.
  - exact T2.
  - intros c d. rewrite !made_rows. intros [->|Hc] [->|Hd] E; [done|..|by apply (aw_sequence _ Hwf)].
    + pose proof (old_sequences d Hd). lia.
    + pose proof (old_sequences c Hc). lia.
  - intros l Hl. rewrite Hrows in Hl. apply elem_of_app in Hl as [Hl|Hl]; rewrite Hbatches.
    + destruct (leaf_rows_spec (AuditMerkleBatch.id b) es lhs made_length) as (_ & _ & _ & _ & Hid).
      rewrite Forall_forall in Hid. rewrite (Hid l Hl), lookup_insert_eq. by eexists.
    + destruct (aw_owner _ Hwf l Hl) as [c Hc]. destruct (decide (AuditMerkleBatch.id b = AuditMerkleLeaf.batch_id l)) as [->|Hk].
      * rewrite lookup_insert_eq. by eexists.
      * rewrite lookup_insert_ne by done. by exists c.
Qed.

Lemma made_batches : batches_by_sequence st' = batches_by_sequence st ++ [b].
Proof.
  apply order_by_unique.
  - intros x y Hx Hy [= E]. by apply (aw_sequence _ made_wf).
  - apply StronglySorted_snoc; [apply order_by_sorted|]. apply Forall_forall. intros c Hc%elem_of_order_by.
    unfold key_le, lex_le. apply lex_leb_cons. left. by apply old_sequences.
  - unfold batches_by_sequence. rewrite order_by_perm, Hbatches, rows_insert by apply (cm_fresh _ _ _ _ _ _ Hmade).
    by rewrite Permutation_app_comm.
Qed.

Lemma made_chain : chained st' (sk_public_keys key) 1 None (batches_by_sequence st').
Proof.
  rewrite made_batches, chained_snoc. split_and!.
  - eapply chained_impl; [|exact Hchain]. intros c Hc%elem_of_order_by. by apply old_verified.
  - apply made_sequence.
  - rewrite (cm_previous _ _ _ _ _ _ Hmade), latest_batch_last by done. unfold tip_hash. by destruct (last _).
  - apply made_verified.
Qed.

(** The events of the batch leave the queue, and no other. *)
Lemma made_pending_rest : pending_events st' = drop (Z.to_nat n) (pending_events st).
Proof.
  assert (Hinj : forall x y, x ∈ rows (events st) -> y ∈ rows (events st) -> event_key x = event_key y -> x = y)
    by (intros x y; apply event_key_inj, audit_ids, Hwf).
  assert (Hleaf : forall e, has_leaf st' e = has_leaf st e || bool_decide (Event.id e ∈ Event.id <$> es)).
  { intros e. apply eq_true_iff_eq. rewrite orb_true_iff, !has_leaf_true, bool_decide_eq_true. setoid_rewrite Hrows.
    destruct (leaf_rows_spec (AuditMerkleBatch.id b) es lhs made_length) as (_ & Hid & _). rewrite <-Hid, list_elem_of_fmap.
    setoid_rewrite elem_of_app. split.
    - intros (l & [Hl|Hl] & El); [right|left]; exists l; done.
    - intros [(l & Hl & El)|(l & El & Hl)]; exists l; auto. }
  unfold pending_events at 1. rewrite Hevents.
  rewrite (filter_ext (fun e => negb (has_leaf st' e) && valid_event_metadata e)
    (fun e => negb (bool_decide (Event.id e ∈ Event.id <$> es)) && (negb (has_leaf st e) && valid_event_metadata e))).
  2: { intros e. rewrite Hleaf. by destruct (has_leaf st e), (bool_decide _), (valid_event_metadata e). }
  rewrite filter_and, order_by_filter by (intros x y [Hx _]%elem_of_filter_bool [Hy _]%elem_of_filter_bool; by apply Hinj).
  fold (pending_events st).
  pose proof (pending_ids_nodup st Hwf) as Hn. apply filter_take_drop.
  - rewrite <-(cm_events _ _ _ _ _ _ Hmade). intros e He. apply negb_false_iff, bool_decide_eq_true. by apply list_elem_of_fmap_2.
  - intros e He. apply negb_true_iff, bool_decide_eq_false. intros Hin.
    rewrite <-(take_drop (Z.to_nat n) (pending_events st)), fmap_app, <-(cm_events _ _ _ _ _ _ Hmade) in Hn.
    apply NoDup_app in Hn as (_ & Hd & _). apply (Hd _ Hin). by apply list_elem_of_fmap_2.
Qed.

Lemma made_count : AuditMerkleBatch.leaf_count b = Z.min n (Z.of_nat (length (pending_events st))).
Proof.
  rewrite (cm_count _ _ _ _ _ _ Hmade), (cm_events _ _ _ _ _ _ Hmade), length_take.
  pose proof (cm_size _ _ _ _ _ _ Hmade). lia.
Qed.
End Extending.

(** ** The cycle *)

Lemma total_leaves_snoc l b : total_leaves (l ++ [b]) = total_leaves l + AuditMerkleBatch.leaf_count b.
Proof. induction l as [|x l IH]; [cbn; lia|]. cbn [app]. rewrite !total_leaves_cons, IH. lia. Qed.

Section CycleProofs.
Context `{World} `{Ed25519Laws} `{ConversionLaws}.
Context (Hclock : forall i, datetime_ok (clock i) = true).

(** A database whose checkpoints all verify under the keys of the signer. *)
Definition audit_ok (key : SigningKey) (st : Store) : Prop :=
  audit_wf st /\ chained st (sk_public_keys key) 1 None (batches_by_sequence st).

(** The effect of a new batch on the database. *)
Record extends (n : Z) (key : SigningKey) (st st' : Store) (b : AuditMerkleBatch.t) : Prop := {
  ex_ok : audit_ok key st';
  ex_events : events st' = events st;
  ex_batches : batches_by_sequence st' = batches_by_sequence st ++ [b];
  ex_pending : pending_events st' = drop (Z.to_nat n) (pending_events st);
  ex_count : AuditMerkleBatch.leaf_count b = Z.min n (Z.of_nat (length (pending_events st)));
  ex_size : 1 <= AuditMerkleBatch.leaf_count b
}.

Lemma create_checkpoint_extends n key s b s' :
  audit_ok key (work s) -> create_checkpoint n key s = (inr (Some b), s') ->
  extends n key (work s) (work s') b /\ durable s' = durable s.
Proof.
  intros [Hwf Hc] Hr. apply (create_checkpoint_ok Hclock) in Hr as (es & lhs & s1 & Hmade & Hw & Hd & Hins).
  apply insert_leaves_ok in Hins as (Hp & Ht & He & Hb & Hd'). rewrite Hw in Hp, Ht, He, Hb. cbn in Hp, Ht, He, Hb.
  assert (Htab : leaf_tables_ok (audit_merkle_leaves (work s'))) by (apply Ht; split; [apply (aw_leaves _ Hwf)|apply (aw_unique _ Hwf)]).
  split; [|congruence]. split.
  - split; [by eapply made_wf|by eapply made_chain].
  - done.
  - by eapply made_batches.
  - by eapply made_pending_rest.
  - by eapply made_count.
  - rewrite (cm_count _ _ _ _ _ _ Hmade). destruct (cm_first _ _ _ _ _ _ Hmade) as (e & Hf & _). destruct es; [done|]. cbn [length]. lia.
Qed.

(** [create_checkpoint] extends a database whose checkpoints verify to one
    whose checkpoints verify: the chain gets the new batch at its end and
    nothing else changes in it, the events are untouched, the batch covers the
    oldest [max_leaves] pending events, which are pending no longer, and
    [verify_database] confirms all of it, the new batch being the latest
    checkpoint. *)
Theorem checkpoint_extends_a_verified_chain n key s b s' v :
  audit_wf (work s) -> verify_database (sk_public_keys key) None false (work s) = inr v -> dv_valid v = true ->
  create_checkpoint n key s = (inr (Some b), s') ->
  audit_wf (work s') /\ events (work s') = events (work s) /\ durable s' = durable s
  /\ batches_by_sequence (work s') = batches_by_sequence (work s) ++ [b]
  /\ pending_events (work s') = drop (Z.to_nat n) (pending_events (work s))
  /\ exists v', verify_database (sk_public_keys key) None false (work s') = inr v' /\ dv_valid v' = true
       /\ dv_batch_count v' = dv_batch_count v + 1
       /\ dv_checked_events v' = dv_checked_events v + Z.min n (Z.of_nat (length (pending_events (work s))))
       /\ dv_latest_checkpoint_hash v' = Some (AuditMerkleBatch.checkpoint_hash b).
Proof.
  intros Hwf Hdb Hvalid Hr. destruct (verify_database_valid _ _ _ Hdb Hvalid) as (Hc & Hev & Hbc).
  destruct (create_checkpoint_extends n key s b s' (conj Hwf Hc) Hr) as [[[Hwf' Hc'] He Hb Hp Hn _] Hd].
  destruct (verify_database_chained _ _ Hc') as (v' & Hv' & Hval' & Hbc' & Hev' & Hlast).
  split_and!; [done..|]. exists v'. rewrite Hb in Hbc', Hev', Hlast.
  rewrite Hbc', Hev', Hlast, Hbc, Hev, last_snoc, <-Hn, length_app, total_leaves_snoc. cbn [length]. split_and!; [done..|lia|lia|done].
Qed.

(** One turn of the cycle. *)
Lemma checkpoint_turn_ok n key s r s' :
  durable s = work s -> audit_ok key (work s) -> checkpoint_turn n key s = (r, s') ->
  durable s' = work s'
  /\ match r with
     | inl _ => work s' = work s
     | inr None => work s' = work s /\ pending_events (work s) = []
     | inr (Some c) => exists b, extends n key (work s) (work s') b /\ cb_leaf_count c = AuditMerkleBatch.leaf_count b
     end.
Proof.
  intros Hclean Hok Hr. unfold checkpoint_turn, try_except in Hr.
  destruct ((batch ← create_checkpoint n key; _) s) as [[e|x] s1] eqn:E in Hr.
  - assert (Hd : durable s1 = durable s).
    { apply bind_run in E as [(e' & _ & E)|(batch & s2 & E & E2)].
      - eapply (atomic_same (create_checkpoint n key)); [|exact E]. unfold create_checkpoint, lock_checkpoint, insert_batch, insert_leaf, insert_row. pres.
      - assert (Hs : durable s2 = durable s).
        { assert (Hp : preserves (same unit_part) (create_checkpoint n key)).
          { unfold create_checkpoint, lock_checkpoint, insert_batch, insert_leaf, insert_row. pres. }
          specialize (Hp s). rewrite E in Hp. apply Hp. }
        destruct batch; [|done]. apply (atomic_then_ret commit) in E2; [congruence|apply atomic_commit_unit]. }
    rewrite (bind_step _ _ s1 tt (s1 <| work := durable s1 |>)) in Hr by done. injection Hr as <- <-. cbn. split; [done|]. congruence.
  - injection Hr as <- <-. apply bind_ok in E as (batch & s2 & Hcr & E). destruct batch as [b|].
    + destruct (create_checkpoint_extends n key s b s2 Hok Hcr) as [Hex Hd].
      apply bind_ok in E as (y & s3 & (Hw3 & Hd3 & _)%commit_ok & [-> ->]%ret_ok). split; [congruence|].
      exists b. by rewrite Hw3.
    + apply (create_checkpoint_ok Hclock) in Hcr as (_ & Hp & Hw & Hd).
      apply bind_ok in E as (y & s3 & (Hw3 & Hd3 & _)%rollback_ok & [-> ->]%ret_ok). split; [congruence|].
      split; [congruence|done].
Qed.

Definition total_created (l : list CheckpointBatchResult) : Z := foldr (fun c n => cb_leaf_count c + n) 0 l.

Lemma total_created_snoc l c : total_created (l ++ [c]) = total_created l + cb_leaf_count c.
Proof. induction l as [|x l IH]; cbn in *; [lia|]. unfold total_created in *. lia. Qed.

Lemma checkpoint_loop_ok fuel n key created s r s' :
  durable s = work s -> audit_ok key (work s) -> (length (pending_events (work s)) < fuel)%nat ->
  checkpoint_loop fuel n key true created s = (r, s') ->
  durable s' = work s' /\ audit_ok key (work s') /\ events (work s') = events (work s) /\ r <> inr None
  /\ forall all, r = inr (Some all) -> pending_events (work s') = []
       /\ total_created all = total_created created + Z.of_nat (length (pending_events (work s))).
Proof.
  revert created s. induction fuel as [|fuel IH]; intros created s Hclean Hok Hf Hr; [lia|]. cbn [checkpoint_loop] in Hr.
  apply bind_run in Hr as [(e & -> & Ht)|(x & s1 & Ht & Hr)]; apply (checkpoint_turn_ok n key _ _ _ Hclean Hok) in Ht as [Hd1 Ht].
  - rewrite Ht. split_and!; [congruence|done..].
  - destruct x as [c|].
    + destruct Ht as (b & [Hok1 He1 Hb1 Hp1 Hn1 Hs1] & Hc).
      destruct (IH _ s1 Hd1 Hok1 ltac:(rewrite Hp1, length_drop; lia) Hr) as (Hd & Hok' & He & Hne & Hall).
      split_and!; [done|done|congruence|done|]. intros all Eall. destruct (Hall all Eall) as [Hp Ht]. split; [done|].
      rewrite Ht, total_created_snoc, Hc, Hp1, Hn1, length_drop. lia.
    + injection Hr as <- <-. destruct Ht as [Hw Hp]. rewrite Hw. split_and!; [congruence|done|done|discriminate|].
      intros all [= <-]. rewrite Hp. cbn. split; [done|lia].
Qed.
(** C7. The checkpoint cycle terminates and leaves nothing behind.  Started on
    a database whose checkpoints verify, with one unit of fuel per pending event
    and one more the loop never runs out; whether it ends or fails part of the
    way, the committed database verifies and its events are unchanged.  When it
    ends, no event is pending, the reported batches add up to the events that
    were, and every event with integrity metadata has a proof bundle that
    verifies. *)
Theorem checkpoint_cycle_covers_every_event n key s r s' v :
  durable s = work s -> audit_wf (work s) ->
  verify_database (sk_public_keys key) None false (work s) = inr v -> dv_valid v = true ->
  checkpoint_pending_events n key true s = (r, s') ->
  r <> inr None /\ events (durable s') = events (durable s)
  /\ (exists v', verify_database (sk_public_keys key) None false (durable s') = inr v' /\ dv_valid v' = true)
  /\ forall all, r = inr (Some all) ->
       pending_events (durable s') = [] /\ total_created all = Z.of_nat (length (pending_events (durable s)))
       /\ forall e, e ∈ rows (events (durable s')) -> valid_event_metadata e = true ->
            exists d, proof_for_event (Event.id e) (sk_public_keys key) (durable s') = inr d
                      /\ verify_proof_bundle (PDict d) (sk_public_keys key) = inr (bundle_result 4 None).
Proof.
  intros Hclean Hwf Hdb Hvalid Hr. destruct (verify_database_valid _ _ _ Hdb Hvalid) as (Hc & _ & _).
  destruct (checkpoint_loop_ok _ n key [] s r s' Hclean (conj Hwf Hc) (Nat.lt_succ_diag_r _) Hr) as (Hd & [Hwf' Hc'] & He & Hne & Hall).
  rewrite Hd, Hclean. split_and!; [done..| |].
  - destruct (verify_database_chained _ _ Hc') as (v' & Hv' & Hval' & _). eauto.
  - intros all Eall. destruct (Hall all Eall) as [Hp Ht]. split_and!; [done..|]. intros e Hin Hmeta.
    destruct (has_leaf (work s') e) eqn:Hleaf.
    + apply has_leaf_true in Hleaf as (l & Hl & <-). by apply proof_exported.
    + assert (Hpe : e ∈ pending_events (work s')) by (by apply elem_of_pending). rewrite Hp in Hpe. by apply elem_of_nil in Hpe.
Qed.
End CycleProofs.

(** ** A concrete instance *)

(** A signature scheme over SHA-256 that has the laws (and no secrets). *)
Definition toy_public (seed : bytes) : bytes := (fun c => c mod 256) <$> seed.
Definition toy_sign (seed m : bytes) : bytes := toy_public seed ++ sha256 (toy_public seed ++ m).
Definition toy_ed25519 : Ed25519 :=
  {| ed_public := toy_public; ed_sign := toy_sign;
     ed_verify := fun pub sig m => bool_decide (sig = pub ++ sha256 (pub ++ m)) |}.

Lemma toy_ed25519_laws : @Ed25519Laws toy_ed25519.
Proof.
  assert (Hp : forall seed, length seed = 32%nat -> length (toy_public seed) = 32%nat /\ Forall is_byte (toy_public seed)).
  { intros seed Hs. unfold toy_public. rewrite length_fmap. split; [done|]. apply Forall_fmap, Forall_true.
    intros c. unfold is_byte, compose. pose proof (Z.mod_pos_bound c 256). lia. }
  split; cbn; [done| |].
  - intros seed m Hs. destruct (Hp seed Hs) as [H1 H2]. unfold toy_sign. rewrite length_app, H1, length_sha256.
    split; [done|]. apply Forall_app. split; [done|apply sha256_byte].
  - intros seed m _. by apply bool_decide_eq_true.
Qed.

(** [fromisoformat] of the texts that [isoformat] prints. *)
Definition days_of_civil (y m d : Z) : Z :=
  let y' := if m <=? 2 then y - 1 else y in
  let yoe := y' mod 400 in
  let mp := if m <=? 2 then m + 9 else m - 3 in
  y' / 400 * 146097 + (yoe * 365 + yoe / 4 - yoe / 100) + ((153 * mp + 2) / 5 + d - 1) - 719468.

Lemma days_of_civil_of_days days : let '(y, m, d) := civil_of_days days in days_of_civil y m d = days.
Proof.
  pose proof (civil_of_days_eq days) as Ec. cbv zeta in Ec.
  pose proof (Z_div_mod_eq_full (days + 719468) 146097) as Da.
  pose proof (era_fields_range _ (Z.mod_pos_bound (days + 719468) 146097 eq_refl)) as R. unfold era_fields_ok in R.
  set (doe := (days + 719468) mod 146097) in *. destruct (era_fields doe) as [[yoe doy] mp] eqn:F.
  assert (Hd : doe = doy + (365 * yoe + yoe / 4 - yoe / 100)) by (unfold era_fields in F; injection F as <- <- <-; lia).
  rewrite Ec. set (era := (days + 719468) / 146097) in *. clearbody era doe. unfold days_of_civil.
  assert (Hy : 0 <= yoe < 400) by lia.
  assert (E1 : (yoe + era * 400) / 400 = era) by (rewrite Z.div_add, Z.div_small by lia; lia).
  assert (E2 : (yoe + era * 400) mod 400 = yoe) by (rewrite Z.mod_add, Z.mod_small by lia; lia).
  destruct (Z.ltb_spec mp 10).
  - destruct (Z.leb_spec (mp + 3) 2); [lia|]. replace (mp + 3 - 3) with mp by lia. rewrite E1, E2. lia.
  - destruct (Z.leb_spec (mp - 9) 2); [|lia]. replace (mp - 9 + 9) with mp by lia.
    replace (yoe + era * 400 + 1 - 1) with (yoe + era * 400) by lia. rewrite E1, E2. lia.
Qed.

Fixpoint read_fields (seps : list Z) (s : pystr) : option (list Z * pystr) :=
  match seps with
  | [] => Some ([], s)
  | c :: seps =>
      match break_at (fun x => negb (is_digit x)) s with
      | (digits, x :: rest) =>
          if x =? c then '(l, rest) ← read_fields seps rest; Some (dec_val digits :: l, rest) else None
      | _ => None
      end
  end.
Definition read_iso (s : pystr) : option (option Z * Z) :=
  match read_fields [45; 45; 84; 58; 58; 46; 43] s with
  | Some ([y; m; d; hh; mm; ss; us], rest) =>
      if str_eqb rest (py "00:00")
      then Some (Some 0, days_of_civil y m d * us_per_day + ((hh * 60 + mm) * 60 + ss) * 1000000 + us) else None
  | _ => None
  end.

Lemma read_field n a c seps s : 0 <= a -> is_digit c = false ->
  read_fields (c :: seps) (zpad n (str_of_Z a) ++ [c] ++ s)
  = ('(l, rest) ← read_fields seps s; Some (a :: l, rest)).
Proof.
  intros Ha Hc. cbn [read_fields app]. rewrite break_at_app.
  - by rewrite Z.eqb_refl, dec_val_zpad, dec_val_str.
  - eapply forallb_weaken; [|by apply zpad_digits]. intros x Hx. by rewrite Hx.
  - by rewrite Hc.
Qed.

Lemma read_iso_us t : instant_ok t -> read_iso (iso_us t ++ py "+00:00") = Some (Some 0, t).
Proof.
  intros Ht. unfold iso_us, read_iso. unfold instant_ok, us_per_day in *.
  assert (Dt : -719468 <= t / 86400000000) by (apply Z.div_le_lower_bound; lia).
  pose proof (days_of_civil_of_days (t / 86400000000)) as Hd.
  destruct (civil_of_days (t / 86400000000)) as [[y m] d] eqn:Et.
  destruct (civil_of_days_nonneg _ _ _ _ Dt Et) as (? & ? & ?).
  pose proof (Z.mod_pos_bound t 86400000000 eq_refl) as Rt. pose proof (Z_div_mod_eq_full t 86400000000) as Dm.
  set (r := t mod 86400000000) in *. clearbody r.
  change (py "-") with [45]. change (py "T") with [84]. change (py ":") with [58]. change (py ".") with [46].
  change (py "+00:00") with ([43] ++ py "00:00"). rewrite <-!app_assoc.
  rewrite !read_field; [|first [done|apply Z.div_pos; lia|apply Z.mod_pos_bound; lia]..].
  cbn [read_fields mbind option_bind]. rewrite (proj2 (str_eqb_true _ _) eq_refl), Hd. do 2 f_equal.
  clear Hd Et. Z.to_euclidean_division_equations. lia.
Qed.

Definition toy_conversions : Conversions :=
  {| float_trunc := fun r => if str_eqb r (py "inf") then inl (OverflowError "cannot convert float infinity to integer")
                             else inl (ValueError "float");
     float_is := fun _ _ => false; unicode_decimal := fun _ => None; fromisoformat := read_iso |}.
Lemma toy_conversion_laws : @ConversionLaws toy_conversions.
Proof. split. intros t Ht. by apply read_iso_us, datetime_instant. Qed.

Definition ok_or {A} (dflt : A) (r : res A) : A := match r with inr x => x | inl _ => dflt end.

Section Demo.
Local Existing Instances still_world toy_ed25519 toy_ed25519_laws toy_conversions toy_conversion_laws.

Definition demo_signing_key : SigningKey :=
  {| sk_id := py "k1"; sk_private := b64encode (replicate 32 7); sk_public_keys := [(py "k1", b64encode (replicate 32 7))] |}.

(** Three audit events, none of them checkpointed. *)
Definition demo_audit_store : Store :=
  let log payload s := (log_event (py "user.registered") (PDict [(py "n", PInt payload)]) None None s).2 in
  work (log 3 (log 2 (log 1 (open_session empty_store tt)))).
Definition demo_audit_session : Session := open_session demo_audit_store tt.

Lemma audit_wf_no_checkpoints st :
  audit_merkle_batches st = ∅ -> audit_merkle_leaves st = ∅ ->
  forallb (fun ke => bool_decide (Event.id ke.2 = ke.1) && (ke.1 <? 2 ^ 128)%N) (map_to_list (events st)) = true ->
  audit_wf st.
Proof.
  intros Eb El He. split; rewrite ?Eb, ?El; unfold rows; rewrite ?map_to_list_empty; cbn.
  - intros k e Hk%elem_of_map_to_list%list_elem_of_In. rewrite forallb_forall in He. specialize (He _ Hk). cbn in He.
    apply andb_prop in He as [Hid%bool_decide_eq_true Hu]. split; [done|]. by apply N.ltb_lt in Hu.
  - intros k b. by rewrite lookup_empty.
  - intros k l. by rewrite lookup_empty.
  - intros l l' Hl. by apply elem_of_nil in Hl.
  - intros l l' Hl. by apply elem_of_nil in Hl.
  - intros l Hl. by apply elem_of_nil in Hl.
Qed.

Lemma demo_audit_wf : audit_wf demo_audit_store.
Proof. apply audit_wf_no_checkpoints; vm_compute; reflexivity. Qed.
Lemma demo_clock (i : nat) : datetime_ok (clock i) = true.
Proof. reflexivity. Qed.
Lemma demo_clean : durable demo_audit_session = work demo_audit_session.
Proof. unfold demo_audit_session, open_session. cbn [durable work]. reflexivity. Qed.
Lemma demo_audit_ok : audit_ok demo_signing_key demo_audit_store.
Proof. split; [apply demo_audit_wf|]. replace (batches_by_sequence demo_audit_store) with (@nil AuditMerkleBatch.t); [done|]. vm_compute. reflexivity. Qed.

(** The database after the first checkpoint, of two events. *)
Definition demo_checkpoint : res (option AuditMerkleBatch.t) * Session := create_checkpoint 2 demo_signing_key demo_audit_session.
Definition demo_batch : option AuditMerkleBatch.t := ok_or None demo_checkpoint.1.

Definition demo_checkpointed : Store := work demo_checkpoint.2.
Definition demo_keys : list (list Z * list Z) := sk_public_keys demo_signing_key.
Definition demo_leaf : AuditMerkleLeaf.t :=
  default (AuditMerkleLeaf.Row 0 0 0 [] []) (head (rows (audit_merkle_leaves demo_checkpointed))).
Definition demo_bundle : list (list Z * pyval) :=
  ok_or [] (proof_for_event (AuditMerkleLeaf.event_id demo_leaf) demo_keys demo_checkpointed).
Definition verdict (st : Store) : bool :=
  match verify_database demo_keys None false st with inr v => dv_valid v | inl _ => false end.

Lemma verdict_ok st : verdict st = true -> exists v, verify_database demo_keys None false st = inr v /\ dv_valid v = true.
Proof. unfold verdict. destruct (verify_database _ _ _ st) as [|v]; [done|]. eauto. Qed.

Lemma demo_checkpoint_run : exists b, demo_checkpoint = (inr (Some b), demo_checkpoint.2).
Proof.
  destruct demo_checkpoint as [r s'] eqn:E. assert (Hb : bool_decide (is_Some demo_batch) = true) by (vm_compute; reflexivity).
  unfold demo_batch in Hb. rewrite E in Hb. clear E. destruct r as [e|[b|]]; [discriminate Hb|exists b; reflexivity|discriminate Hb].
Qed.
Lemma demo_checkpointed_ok : audit_ok demo_signing_key demo_checkpointed.
Proof.
  destruct demo_checkpoint_run as [b E].
  destruct (create_checkpoint_extends demo_clock 2 demo_signing_key demo_audit_session b _ demo_audit_ok E) as [Hex _].
  apply (ex_ok _ _ _ _ _ Hex).
Qed.

Lemma checkpoint_extends_a_verified_chain_witness :
  exists b v v', create_checkpoint 2 demo_signing_key demo_audit_session = (inr (Some b), demo_checkpoint.2)
    /\ verify_database demo_keys None false demo_audit_store = inr v
    /\ verify_database demo_keys None false demo_checkpointed = inr v'
    /\ dv_valid v' = true /\ dv_checked_events v' = dv_checked_events v + 2.
Proof.
  destruct demo_checkpoint_run as [b E].
  destruct (verdict_ok demo_audit_store) as (v & Ev & Hv); [vm_compute; reflexivity|].
  destruct (checkpoint_extends_a_verified_chain demo_clock 2 demo_signing_key demo_audit_session b _ v demo_audit_wf Ev Hv E)
    as (_ & _ & _ & _ & _ & v' & Hv' & Hval & _ & Hn & _).
  exists b, v, v'. refine (conj E (conj Ev (conj Hv' (conj Hval _)))). rewrite Hn. vm_compute. reflexivity.
Defined.

Lemma checkpoint_cycle_covers_every_event_witness :
  exists all s', checkpoint_pending_events 2 demo_signing_key true demo_audit_session = (inr (Some all), s')
    /\ pending_events (durable s') = [] /\ total_created all = 3.
Proof.
  destruct (checkpoint_pending_events 2 demo_signing_key true demo_audit_session) as [r s'] eqn:E.
  destruct (verdict_ok demo_audit_store) as (v & Ev & Hv); [vm_compute; reflexivity|].
  destruct (checkpoint_cycle_covers_every_event demo_clock 2 demo_signing_key demo_audit_session r s' v demo_clean demo_audit_wf Ev Hv E)
    as (Hne & _ & _ & Hall).
  assert (Hr : is_ok (checkpoint_pending_events 2 demo_signing_key true demo_audit_session).1 = true) by (vm_compute; reflexivity).
  rewrite E in Hr. destruct r as [e|[all|]]; [discriminate Hr| |by destruct Hne].
  destruct (Hall all eq_refl) as (Hp & Ht & _). exists all, s'. split_and!; [done..|]. rewrite Ht. vm_compute. reflexivity.
Defined.

Lemma demo_leaf_stored : demo_leaf ∈ rows (audit_merkle_leaves demo_checkpointed).
Proof.
  unfold demo_leaf. destruct (rows (audit_merkle_leaves demo_checkpointed)) as [|l ls] eqn:E; [|constructor].
  assert (X : length (rows (audit_merkle_leaves demo_checkpointed)) = 2%nat) by (vm_compute; reflexivity). by rewrite E in X.
Qed.

Lemma checkpointed_event_has_a_proof_witness :
  exists d, proof_for_event (AuditMerkleLeaf.event_id demo_leaf) demo_keys demo_checkpointed = inr d
    /\ verify_proof_bundle (PDict d) demo_keys = inr (bundle_result 4 None).
Proof.
  destruct (verdict_ok demo_checkpointed) as (v & Ev & Hv); [vm_compute; reflexivity|].
  exact (checkpointed_event_has_a_proof demo_checkpointed demo_keys v demo_leaf (proj1 demo_checkpointed_ok) Ev Hv demo_leaf_stored).
Defined.

Lemma accepted_bundle_is_about_a_stored_event_witness :
  exists b, b ∈ rows (audit_merkle_batches demo_checkpointed)
    /\ ((exists l e, l ∈ leaves_of (AuditMerkleBatch.id b) demo_checkpointed
           /\ int_of (get "leaf_index" (PInt (-1)) demo_bundle) = inr (AuditMerkleLeaf.leaf_index l)
           /\ events demo_checkpointed !! AuditMerkleLeaf.event_id l = Some e
           /\ Event.event_hash e = Some (get_str "event_hash" demo_bundle)
           /\ compute_event_hash e = get_str "event_hash" demo_bundle)
         \/ exists x y, x ∈ bundle_preimages demo_bundle /\ y ∈ batch_preimages demo_checkpointed b /\ sha_collision x y).
Proof.
  destruct (verdict_ok demo_checkpointed) as (v & Ev & Hv); [vm_compute; reflexivity|].
  assert (X : (ok_or false (r ← verify_proof_bundle (PDict demo_bundle) demo_keys; mret (bv_valid r))
    && forallb (fun b => str_eqb (AuditMerkleBatch.checkpoint_hash b) (get_str "checkpoint_hash" demo_bundle))
         (rows (audit_merkle_batches demo_checkpointed))
    && (length (rows (audit_merkle_batches demo_checkpointed)) =? 1)%nat) = true) by (vm_compute; reflexivity).
  apply andb_prop in X as [[Xr Xh]%andb_prop Xl].
  destruct (verify_proof_bundle (PDict demo_bundle) demo_keys) as [e|r] eqn:Er; [discriminate Xr|].
  destruct (rows (audit_merkle_batches demo_checkpointed)) as [|b bs] eqn:Eb; [discriminate Xl|].
  cbn [forallb] in Xh. apply andb_prop in Xh as [Xh%str_eqb_true _]. exists b. split; [constructor|].
  refine (accepted_bundle_is_about_a_stored_event demo_checkpointed demo_keys demo_bundle b v r Ev Hv _ Xh Er Xr).
  rewrite Eb. constructor.
Defined.
End Demo.

(** ** Limits of the offline check *)

Section Limits.
Context `{Ed25519} `{ConversionLaws}.

Lemma assoc_set_ne k k' v d : k <> k' -> assoc k (dict_set d k' v) = assoc k d.
Proof.
  intros Hk. induction d as [|[j w] d IH]; cbn; unfold str_eqb; [by rewrite bool_decide_false|].
  destruct (bool_decide (k' = j)) eqn:E; cbn; unfold str_eqb.
  - apply bool_decide_eq_true in E as <-. by rewrite bool_decide_false.
  - by destruct (bool_decide (k = j)).
Qed.
Lemma assoc_set_eq k v d : assoc k (dict_set d k v) = Some v.
Proof.
  induction d as [|[j w] d IH]; cbn; unfold str_eqb; [by rewrite bool_decide_true|].
  destruct (bool_decide (k = j)) eqn:E; cbn; unfold str_eqb; by rewrite E.
Qed.

(** The identifier of the event is not covered by the proof: an accepted bundle
    is accepted with any other well-formed identifier in its place. *)
Lemma bundle_event_id_is_not_bound d keys u :
  verify_proof_bundle (PDict d) keys = inr (bundle_result 4 None) -> uuid_ok u ->
  verify_proof_bundle (PDict (dict_set d (py "event_id") (PStr (uuid_str u)))) keys = inr (bundle_result 4 None).
Proof.
  set (d' := dict_set d (py "event_id") (PStr (uuid_str u))). intros E Hu.
  assert (Hg : forall name dflt, py name <> py "event_id" -> get name dflt d' = get name dflt d)
    by (intros name dflt Hn; unfold get, d'; by rewrite assoc_set_ne).
  unfold verify_proof_bundle, verify_inclusion, get_str in *.
  rewrite !(Hg "proof_version"), !(Hg "checkpoint"), !(Hg "checkpoint_hash"), !(Hg "signature"), !(Hg "event_hash"),
    !(Hg "leaf_hash"), !(Hg "leaf_index"), !(Hg "leaf_count"), !(Hg "batch_sequence"), !(Hg "merkle_root"), !(Hg "siblings")
    by (vm_compute; discriminate).
  replace (get "event_id" (PStr []) d') with (PStr (uuid_str u)) by (unfold get, d'; by rewrite assoc_set_eq).
  rewrite uuid_of_str_ok by done.
  apply attempt_valid in E as (n & -> & E); [|done|lia]. cbn [attempt]. destruct (n =? 1); [|done]. cbn [negb] in *.
  destruct (get "checkpoint" PNone d); try done.
  apply attempt_valid in E as (cp & -> & E); [|done|lia]. cbn [attempt].
  apply attempt_valid in E as (h & -> & E); [|done|lia]. cbn [attempt].
  destruct (str_eqb _ _) in E |- *; [|done]. cbn [negb] in *. destruct (verify_checkpoint_signature _ _ _ _); [done|].
  apply attempt_valid in E as (u' & _ & E); [|done|lia]. cbn [attempt].
  apply attempt_valid in E as (h' & Hh' & E); [|done|lia]. rewrite Hh'. cbn [attempt].
  destruct (str_eqb h' _) in E |- *; [|done]. cbn [negb] in *.
  apply attempt_valid in E as (i & -> & E); [|done|lia]. cbn [attempt].
  apply attempt_valid in E as (j & -> & E); [|done|lia]. cbn [attempt].
  apply attempt_valid in E as (k & -> & E); [|done|lia]. cbn [attempt].
  destruct (str_eqb (uuid_str u) []) eqn:Eu; [by apply str_eqb_true, uuid_str_nonempty in Eu|].
  rewrite orb_false_r. destruct (str_eqb (uuid_str u') []); [rewrite orb_true_r in E; discriminate E|].
  rewrite orb_false_r in E. exact E.
Qed.

(** [int(float("inf"))] raises [OverflowError], which the handler does not
    catch: a malformed bundle is not always answered with a result. *)
Lemma infinite_version_escapes keys e :
  float_trunc (py "inf") = inl (OverflowError e) ->
  verify_proof_bundle (PDict [(py "proof_version", PFloat (py "inf"))]) keys = inl (OverflowError e).
Proof.
  intros E. unfold verify_proof_bundle.
  replace (get "proof_version" (PInt 0) _) with (PFloat (py "inf")) by reflexivity. cbn [int_of]. by rewrite E.
Qed.
End Limits.

(** ** Status *)

Section StatusProofs.
Context `{Ed25519} `{ConversionLaws}.

(** The status of a database that verifies: the latest checkpoint is the end of
    the chain, its signature is good, and no reason is given. *)
Lemma status_of_verified st keys v :
  audit_wf st -> verify_database keys None false st = inr v -> dv_valid v = true ->
  exists s, status keys st = inr s /\ cs_checkpoint_chain_valid s = true /\ cs_latest s = last (batches_by_sequence st)
    /\ (is_Some (cs_latest s) -> cs_latest_signature_valid s = Some true)
    /\ (forall b, cs_latest s = Some b -> AuditMerkleBatch.sequence_no b = cs_batch_count s).
Proof.
  intros Hwf Hdb Hv. unfold status. rewrite Hdb, latest_batch_last by done. cbn [mbind res_bind].
  destruct (verify_database_valid _ _ _ Hdb Hv) as (Hc & _ & _). eexists. split; [done|]. cbn.
  assert (Hlen : length (rows (audit_merkle_batches st)) = length (batches_by_sequence st)) by (unfold batches_by_sequence; by rewrite order_by_perm).
  rewrite Hlen. destruct (batches_by_sequence st) as [|b l _] using rev_ind.
  - split_and!; [done|done|by intros [? [=]]|done].
  - apply chained_snoc in Hc as (_ & Hs & _ & Hb). rewrite last_snoc. split_and!; [done|done| |].
    + intros _. cbn. by rewrite (bv_signature _ _ _ _ Hb), bool_decide_true.
    + intros c [= <-]. rewrite Hs, length_app. cbn [length]. lia.
Qed.
End StatusProofs.
