(* ===== verification/Auth.v ===== *)
(** * Accounts, sessions and tokens (backend/app/services/auth_service.py,
    core/security.py)

    Registration, login, refresh-token rotation with replay detection, access
    checks and revocation.  The JWT library and the password hash are
    parameters. *)

From S2P Require Import Prelude PyStr Json Models Session EventIntegrity Identifiers Outbox.
From S2P Require Import Uploads Channels.
Local Open Scope Z_scope.

(** ** Libraries *)

(** [jose.jwt] with HS256 under the configured secret.  [jwt_decode now t] is
    the claims of [t], or [None] where the library raises [JWTError] (bad
    signature, malformed, or an [exp] claim that has passed at [now]). *)
Class Jwt := {
  jwt_encode : list (list Z * pyval) -> list Z;
  jwt_decode : Z -> list Z -> option (list (list Z * pyval))
}.

(** A string or integer claim. *)
Definition plain_claim (kv : list Z * pyval) : bool := match kv.2 with PStr _ | PInt _ => true | _ => false end.

(** Decoding inverts encoding until the expiry second has passed, and the
    claims of a token do not change over time. *)
Class JwtLaws `{Jwt} := {
  jwt_roundtrip : forall now claims exp, forallb plain_claim claims = true ->
    assoc (py "exp") claims = Some (PInt exp) -> now < exp * 1000000 -> jwt_decode now (jwt_encode claims) = Some claims;
  jwt_stable : forall now now' t p p', jwt_decode now t = Some p -> jwt_decode now' t = Some p' -> p = p'
}.

(** [passlib]'s argon2 context; hashing draws a salt. *)
Class Passwords := {
  pw_hash : list Z -> list Z -> list Z;
  pw_verify : list Z -> list Z -> bool
}.
Class PasswordLaws `{Passwords} := {
  pw_roundtrip : forall salt password, pw_verify password (pw_hash salt password) = true
}.

Class AuthSettings := {
  jwt_access_ttl_min : Z;
  jwt_refresh_ttl_days : Z;
  session_absolute_ttl_days : Z
}.

(** ** Data *)

Record RegisterRequest := { rr_username : pystr; rr_email : option pystr; rr_password : pystr }.
Record LoginRequest := { lr_username_or_email : pystr; lr_password : pystr }.
Record ChangePasswordRequest := { cpr_current_password : pystr; cpr_new_password : pystr }.
Record TokenPair := { access_token : pystr; refresh_token : pystr }.
Record AccessContext := {
  ac_user : User.t; ac_session_id : uuid; ac_token_expires_at : instant; ac_authentication_expires_at : instant
}.
Record SessionRevocation := { rv_user_id : uuid; rv_session_id : uuid; rv_reason : string }.
Record UserRevocation := { ur_user_id : uuid; ur_revoked_count : Z; ur_reason : string }.

Definition days (n : Z) : Z := n * us_per_day.
Definition minutes (n : Z) : Z := n * 60000000.

Definition auth_invalid : exc := AppError 401 "AUTH_INVALID".
Definition auth_expired : exc := AppError 401 "AUTH_EXPIRED".
Definition account_disabled : exc := AppError 403 "ACCOUNT_DISABLED".
Definition replay_detected : exc := AppError 401 "AUTH_REPLAY_DETECTED".

(** [int(value.timestamp())]. *)
Definition _timestamp (value : instant) : Z := Z.quot value 1000000.

Definition _uuid_claim (payload : list (list Z * pyval)) (name : string) : res N :=
  match assoc (py name) payload with
  | Some raw =>
      if truthy raw then
        match uuid_of_str (py_str raw) with Some u => mret u | None => raise auth_invalid end
      else raise auth_invalid
  | None => raise auth_invalid
  end.

(** The library only accepts an integer [exp]. *)
Definition _expiry_claim (payload : list (list Z * pyval)) : res instant :=
  match assoc (py "exp") payload with
  | Some (PInt n) => mret (n * 1000000)
  | _ => raise auth_invalid
  end.

Definition _assert_active_session (session : UserSession.t) (now : instant) : res unit :=
  if bool_decide (is_Some (UserSession.revoked_at session)) then raise auth_expired
  else if UserSession.expires_at session <=? now then raise auth_expired
  else if UserSession.absolute_expires_at session <=? now then raise auth_expired
  else mret tt.

(** The claim [type] of a token. *)
Definition token_type (payload : list (list Z * pyval)) (type : string) : bool :=
  match assoc (py "type") payload with Some (PStr t) => str_eqb t (py type) | _ => false end.

(** [result.scalar_one_or_none()]. *)
Definition scalar_one_or_none {A} (l : list A) : res (option A) :=
  match l with
  | [] => mret None
  | [x] => mret (Some x)
  | _ => raise (DbError "MultipleResultsFound")
  end.

Section Auth.
Context `{World} `{UnicodeData} `{Jwt} `{Passwords} `{AuthSettings}.

Definition hash_password (password : pystr) : M pystr := salt ← token_urlsafe; mret (pw_hash salt password).
Definition verify_password (password password_hash : pystr) : bool := pw_verify password password_hash.

Definition decode_token (token : pystr) : M (list (list Z * pyval)) :=
  now ← utcnow;
  of_option (ValueError "invalid token") (jwt_decode now token).

Definition create_access_token (user_id session_id : N) (auth_expires_at : option Z) : M pystr :=
  now ← utcnow;
  let expires_at := now + minutes jwt_access_ttl_min in
  let expires_at := match auth_expires_at with Some t => Z.min expires_at t | None => expires_at end in
  mret (jwt_encode [(py "sub", str_id user_id); (py "sid", str_id session_id); (py "type", PStr (py "access"));
                    (py "iat", PInt (_timestamp now)); (py "exp", PInt (_timestamp expires_at))]).

Definition create_refresh_token (user_id session_id : N) (expires_at : option Z) : M pystr :=
  now ← utcnow;
  let token_expires_at := match expires_at with Some t => t | None => now + days jwt_refresh_ttl_days end in
  jti ← token_urlsafe;
  mret (jwt_encode [(py "sub", str_id user_id); (py "sid", str_id session_id); (py "jti", PStr jti);
                    (py "type", PStr (py "refresh")); (py "iat", PInt (_timestamp now));
                    (py "exp", PInt (_timestamp token_expires_at))]).

Definition update_session (session_id : N) (f : UserSession.t -> UserSession.t) : M unit :=
  modify (fun st => st <| user_sessions ::= alter f session_id |>).

(** ** Accounts *)

(** [db.add(user); await db.commit()] with the unique constraints. *)
Definition insert_user (u : User.t) : M unit :=
  st ← gets id;
  guard (negb (existsb (fun x => str_eqb (User.username x) (User.username u)) (rows (users st))))
    (IntegrityError "users_username_key") ;;
  guard (match User.email u with
         | Some e => negb (existsb (fun x => match User.email x with
                                             | Some y => str_eqb (lower (strip_when (Z.eqb 32) y)) (lower (strip_when (Z.eqb 32) e))
                                             | None => false
                                             end) (rows (users st)))
         | None => true
         end) (IntegrityError "uq_users_email_normalized") ;;
  insert_row "users_pkey" users (upd users) (User.id u) u.

Definition email_is (email : pystr) (u : User.t) : bool :=
  match User.email u with Some e => str_eqb (lower e) email | None => false end.

Definition register (req : RegisterRequest) : M User.t :=
  username ← of_res (normalize_username (rr_username req));
  let email := normalize_email <$> rr_email req in
  taken ← gets (fun st => existsb (fun u => str_eqb (User.username u) username) (rows (users st)));
  guard (negb taken) (AppError 409 "CONFLICT") ;;
  taken ← (match email with
           | Some e => gets (fun st => existsb (email_is e) (rows (users st)))
           | None => mret false
           end);
  guard (negb taken) (AppError 409 "CONFLICT") ;;
  password_hash ← hash_password (rr_password req);
  id ← uuid4;
  now ← utcnow;
  let user := User.Row id username email None password_hash None None None None false true None None now in
  insert_user user ;;
  commit ;;
  mret user.

(** ** Login and rotation *)

(** [absolute_ttl_days or get_settings().session_absolute_ttl_days]. *)
Definition absolute_days (absolute_ttl_days : option Z) : Z :=
  match absolute_ttl_days with
  | Some n => if n =? 0 then session_absolute_ttl_days else n
  | None => session_absolute_ttl_days
  end.

Definition login (req : LoginRequest) (user_agent ip : option pystr) (refresh_ttl_days : Z)
    (absolute_ttl_days : option Z) : M TokenPair :=
  let identity := strip (lr_username_or_email req) in
  let normalized_identity := normalize_email identity in
  found ← gets (fun st => List.filter (fun u => str_eqb (User.username u) identity || email_is normalized_identity u)
                            (rows (users st)));
  user ← of_res (scalar_one_or_none found);
  user ← of_option auth_invalid user;
  guard (verify_password (lr_password req) (User.password_hash user)) auth_invalid ;;
  guard (User.is_active user) account_disabled ;;
  now ← utcnow;
  let absolute_expires_at := now + days (absolute_days absolute_ttl_days) in
  let idle_expires_at := Z.min (now + days refresh_ttl_days) absolute_expires_at in
  id ← uuid4;
  created ← utcnow;
  insert_row "user_sessions_pkey" user_sessions (upd user_sessions) id
    (UserSession.Row id (User.id user) [] user_agent ip created (Some now) idle_expires_at absolute_expires_at None None) ;;
  refresh ← create_refresh_token (User.id user) id (Some idle_expires_at);
  h ← of_res (sha256_hex refresh);
  update_session id (fun s => s <| UserSession.refresh_token_hash := h |>) ;;
  access ← create_access_token (User.id user) id (Some idle_expires_at);
  commit ;;
  mret {| access_token := access; refresh_token := refresh |}.

(** The replay path: revoke durably, then try to record it. *)
Definition revoke_replayed (session : UserSession.t) (now : instant) : M UserSession.t :=
  update_session (UserSession.id session)
    (fun s => s <| UserSession.revoked_at := Some now |> <| UserSession.replay_detected_at := Some now |>) ;;
  commit ;;
  try_except
    (_ ← log_event (py "security.refresh_replay_detected")
           (PDict [(py "session_id", str_id (UserSession.id session)); (py "user_id", str_id (UserSession.user_id session))])
           None (Some (UserSession.user_id session));
     commit)
    (fun _ => rollback) ;;
  throw replay_detected.

Definition _get_valid_refresh_session (token : pystr) : M UserSession.t :=
  payload ← decode_token token;
  guard (token_type payload "refresh") auth_expired ;;
  session_id ← of_res (_uuid_claim payload "sid");
  user_id ← of_res (_uuid_claim payload "sub");
  session ← gets (fun st => user_sessions st !! session_id);
  session ← of_option auth_invalid session;
  guard (bool_decide (UserSession.user_id session = user_id)) auth_invalid ;;
  now ← utcnow;
  of_res (_assert_active_session session now) ;;
  h ← of_res (sha256_hex token);
  if str_eqb (UserSession.refresh_token_hash session) h then mret session
  else revoke_replayed session now.

Definition refresh (token : pystr) (user_agent ip : option pystr) (refresh_ttl_days : Z) : M TokenPair :=
  session ← _get_valid_refresh_session token;
  user ← get_user (UserSession.user_id session);
  if match user with Some u => User.is_active u | None => false end then
    now ← utcnow;
    let expires_at := Z.min (now + days refresh_ttl_days) (UserSession.absolute_expires_at session) in
    new_refresh ← create_refresh_token (UserSession.user_id session) (UserSession.id session) (Some expires_at);
    h ← of_res (sha256_hex new_refresh);
    new_access ← create_access_token (UserSession.user_id session) (UserSession.id session) (Some expires_at);
    update_session (UserSession.id session)
      (fun s => s <| UserSession.last_used_at := Some now |> <| UserSession.expires_at := expires_at |>
                  <| UserSession.user_agent := user_agent |> <| UserSession.ip := ip |>
                  <| UserSession.refresh_token_hash := h |>) ;;
    commit ;;
    mret {| access_token := new_access; refresh_token := new_refresh |}
  else
    now ← utcnow;
    update_session (UserSession.id session) (fun s => s <| UserSession.revoked_at := Some now |>) ;;
    commit ;;
    throw account_disabled.

Definition logout (token : pystr) : M SessionRevocation :=
  session ← _get_valid_refresh_session token;
  (match UserSession.revoked_at session with
   | None =>
       now ← utcnow;
       update_session (UserSession.id session) (fun s => s <| UserSession.revoked_at := Some now |>) ;;
       commit
   | Some _ => mret tt
   end) ;;
  mret {| rv_user_id := UserSession.user_id session; rv_session_id := UserSession.id session; rv_reason := "logout" |}.

(** ** Access *)

Definition get_session_access_context (user_id session_id : N) (token_expires_at : instant) : M AccessContext :=
  row ← gets (fun st => user ← users st !! user_id; session ← user_sessions st !! session_id;
                        if bool_decide (UserSession.user_id session = User.id user) then Some (user, session) else None);
  '(user, session) ← of_option auth_invalid row;
  now ← utcnow;
  guard (User.is_active user) account_disabled ;;
  of_res (_assert_active_session session now) ;;
  guard (negb (token_expires_at <=? now)) auth_expired ;;
  mret {| ac_user := user; ac_session_id := UserSession.id session; ac_token_expires_at := token_expires_at;
          ac_authentication_expires_at :=
            Z.min token_expires_at (Z.min (UserSession.expires_at session) (UserSession.absolute_expires_at session)) |}.

Definition get_access_context (token : pystr) : M AccessContext :=
  payload ← decode_token token;
  guard (token_type payload "access") auth_invalid ;;
  user_id ← of_res (_uuid_claim payload "sub");
  session_id ← of_res (_uuid_claim payload "sid");
  token_expires_at ← of_res (_expiry_claim payload);
  get_session_access_context user_id session_id token_expires_at.

Definition get_user_from_access_token (token : pystr) : M User.t :=
  context ← get_access_context token; mret (ac_user context).

Definition list_sessions (user_id : N) : M (list UserSession.t) :=
  now ← utcnow;
  gets (fun st => order_by (fun s => [- UserSession.created_at s])
    (List.filter (fun s => bool_decide (UserSession.user_id s = user_id) && bool_decide (UserSession.revoked_at s = None)
                           && (now <? UserSession.expires_at s) && (now <? UserSession.absolute_expires_at s))
       (rows (user_sessions st)))).

(** ** Revocation *)

Definition revoke_session (user_id session_id : N) : M SessionRevocation :=
  session ← gets (fun st => user_sessions st !! session_id);
  session ← of_option (AppError 404 "NOT_FOUND") session;
  guard (bool_decide (UserSession.user_id session = user_id)) (AppError 404 "NOT_FOUND") ;;
  (match UserSession.revoked_at session with
   | None =>
       now ← utcnow;
       update_session session_id (fun s => s <| UserSession.revoked_at := Some now |>) ;;
       commit
   | Some _ => mret tt
   end) ;;
  mret {| rv_user_id := user_id; rv_session_id := session_id; rv_reason := "session revoked" |}.

(** [UPDATE user_sessions SET revoked_at WHERE user_id AND revoked_at IS NULL];
    the result is the row count. *)
Definition live_session (user_id : N) (s : UserSession.t) : bool :=
  bool_decide (UserSession.user_id s = user_id) && bool_decide (UserSession.revoked_at s = None).
Definition revoke_live (user_id : N) (now : instant) (s : UserSession.t) : UserSession.t :=
  if live_session user_id s then s <| UserSession.revoked_at := Some now |> else s.
Definition revoke_all (user_id : N) (now : instant) : M Z :=
  n ← gets (fun st => count_where (live_session user_id) (rows (user_sessions st)));
  modify (fun st => st <| user_sessions ::= fmap (revoke_live user_id now) |>) ;;
  mret n.

Definition logout_all (user_id : N) : M UserRevocation :=
  now ← utcnow;
  n ← revoke_all user_id now;
  commit ;;
  mret {| ur_user_id := user_id; ur_revoked_count := n; ur_reason := "logout all" |}.

Definition change_password (user_id : N) (req : ChangePasswordRequest) : M UserRevocation :=
  user ← get_user user_id;
  user ← of_option (AppError 400 "CURRENT_PASSWORD_INVALID") user;
  guard (verify_password (cpr_current_password req) (User.password_hash user)) (AppError 400 "CURRENT_PASSWORD_INVALID") ;;
  guard (negb (verify_password (cpr_new_password req) (User.password_hash user))) (AppError 400 "PASSWORD_UNCHANGED") ;;
  h ← hash_password (cpr_new_password req);
  modify (fun st => st <| users ::= alter (fun u => u <| User.password_hash := h |>) user_id |>) ;;
  now ← utcnow;
  n ← revoke_all user_id now;
  _ ← log_event (py "user.password_changed") (PDict [(py "revoked_sessions", PInt n)]) None (Some user_id);
  commit ;;
  mret {| ur_user_id := user_id; ur_revoked_count := n; ur_reason := "password changed" |}.
End Auth.

(** ** Sessions over time *)

Definition session_identity (s : UserSession.t) :=
  (UserSession.id s, UserSession.user_id s, UserSession.created_at s, UserSession.absolute_expires_at s).

Definition sessions_bounded (ss : gmap N UserSession.t) : Prop :=
  forall k s, ss !! k = Some s -> UserSession.id s = k /\ UserSession.expires_at s <= UserSession.absolute_expires_at s.

(** Sessions keep their owner and absolute deadline and stay revoked; the idle
    deadline never passes the absolute one. *)
Record sessions_step (ss ss' : gmap N UserSession.t) : Prop := {
  ss_old : forall k s, ss !! k = Some s ->
    exists s', ss' !! k = Some s' /\ session_identity s' = session_identity s
               /\ (is_Some (UserSession.revoked_at s) -> is_Some (UserSession.revoked_at s'));
  ss_bounded : sessions_bounded ss'
}.

Definition session_log (st0 st : Store) : Prop := sessions_step (user_sessions st0) (user_sessions st).

Lemma sessions_step_refl ss : sessions_bounded ss -> sessions_step ss ss.
Proof. intros Hb. split; [|done]. eauto. Qed.
Lemma sessions_step_trans ss1 ss2 ss3 : sessions_step ss1 ss2 -> sessions_step ss2 ss3 -> sessions_step ss1 ss3.
Proof.
  intros [O1 _] [O2 B2]. split; [|done]. intros k s (s1 & K1 & I1 & R1)%O1.
  destruct (O2 k s1 K1) as (s2 & K2 & I2 & R2). exists s2. split; [done|]. split; [congruence|auto].
Qed.

(** Changing a session that is named by its identifier. *)
Lemma sessions_step_alter ss0 ss k f :
  (forall s, session_identity (f s) = session_identity s) ->
  (forall s, is_Some (UserSession.revoked_at s) -> is_Some (UserSession.revoked_at (f s))) ->
  (forall s, ss !! k = Some s -> UserSession.expires_at s <= UserSession.absolute_expires_at s ->
     UserSession.expires_at (f s) <= UserSession.absolute_expires_at s) ->
  sessions_step ss0 ss -> sessions_step ss0 (alter f k ss).
Proof.
  intros Hi Hr He Hs. eapply sessions_step_trans; [exact Hs|]. destruct Hs as [_ Hb]. split.
  - intros j s Hj. destruct (decide (j = k)) as [->|Hne].
    + exists (f s). rewrite lookup_alter_eq, Hj. auto.
    + exists s. rewrite lookup_alter_ne by done. auto.
  - intros j s Hj. destruct (decide (j = k)) as [->|Hne]; [|rewrite lookup_alter_ne in Hj by done; by apply Hb].
    rewrite lookup_alter_eq in Hj. apply fmap_Some in Hj as (s0 & Hs0 & ->). destruct (Hb k s0 Hs0) as [Hid Hle].
    specialize (Hi s0). unfold session_identity in Hi. injection Hi as E1 _ _ E4. rewrite E1, E4. split; [done|]. by apply He.
Qed.

Lemma keeps_insert_row `{World} {K} `{Countable K} {A} (I : Store -> Prop) name (table : Store -> gmap K A) set k (row : A) :
  (forall st, I st -> table st !! k = None -> I (set (insert k row) st)) ->
  preserves (keeps I) (insert_row name table set k row).
Proof.
  intros Hi s Hd Hw. unfold insert_row, mbind, M_bind, gets. cbn. destruct (table (work s) !! k) eqn:E; [done|].
  cbn. split; [done|by apply Hi].
Qed.

Inductive auth_op :=
| OpRegister (req : RegisterRequest)
| OpLogin (req : LoginRequest) (user_agent ip : option (list Z)) (refresh_ttl_days : Z) (absolute_ttl_days : option Z)
| OpRefresh (token : list Z) (user_agent ip : option (list Z)) (refresh_ttl_days : Z)
| OpLogout (token : list Z)
| OpRevokeSession (u s : N)
| OpLogoutAll (u : N)
| OpChangePassword (u : N) (req : ChangePasswordRequest).

Ltac unfold_auth :=
  unfold register, login, logout, revoke_session, logout_all, change_password, revoke_all,
    _get_valid_refresh_session, revoke_replayed, create_access_token, create_refresh_token, decode_token, hash_password,
    insert_user, get_user, update_session.

Section AuthSteps.
Context `{World} `{UnicodeData} `{Jwt} `{Passwords} `{AuthSettings}.

Definition run_auth_op (o : auth_op) : M unit :=
  match o with
  | OpRegister req => _ ← register req; mret tt
  | OpLogin req ua ip ttl abs => _ ← login req ua ip ttl abs; mret tt
  | OpRefresh t ua ip ttl => _ ← refresh t ua ip ttl; mret tt
  | OpLogout t => _ ← logout t; mret tt
  | OpRevokeSession u s => _ ← revoke_session u s; mret tt
  | OpLogoutAll u => _ ← logout_all u; mret tt
  | OpChangePassword u req => _ ← change_password u req; mret tt
  end.

Lemma keeps_alter_session st0 k f :
  (forall s, session_identity (f s) = session_identity s) ->
  (forall s, is_Some (UserSession.revoked_at s) -> is_Some (UserSession.revoked_at (f s))) ->
  (forall s, UserSession.expires_at (f s) = UserSession.expires_at s) ->
  preserves (keeps (session_log st0)) (modify (fun st => st <| user_sessions ::= alter f k |>)).
Proof.
  intros Hi Hr He. apply keeps_modify. intros st Hs. apply sessions_step_alter; [done..| |exact Hs].
  intros s _ Hle. by rewrite He.
Qed.

Lemma keeps_revoke_all st0 u now :
  preserves (keeps (session_log st0)) (modify (fun st => st <| user_sessions ::= fmap (revoke_live u now) |>)).
Proof.
  apply keeps_modify. intros st Hs. eapply sessions_step_trans; [exact Hs|]. destruct Hs as [_ Hb].
  set (g := revoke_live u now). assert (Hg : forall s, session_identity (g s) = session_identity s
    /\ UserSession.expires_at (g s) = UserSession.expires_at s
    /\ (is_Some (UserSession.revoked_at s) -> is_Some (UserSession.revoked_at (g s)))).
  { intros s. unfold g, revoke_live. destruct (live_session u s); [|done]. by split_and!. }
  split; cbn [user_sessions upd].
  - intros k s Hk. exists (g s). rewrite lookup_fmap, Hk. destruct (Hg s) as (? & _ & ?). auto.
  - intros k s Hk. rewrite lookup_fmap in Hk. apply fmap_Some in Hk as (s0 & Hs0 & ->).
    destruct (Hg s0) as (Hi & -> & _). unfold session_identity in Hi. injection Hi as -> _ _ ->. by apply Hb.
Qed.

Lemma auth_ops_keep st0 o :
  match o with OpRefresh _ _ _ _ => False | _ => True end -> preserves (keeps (session_log st0)) (run_auth_op o).
Proof.
  destruct o; try done; intros _; cbn [run_auth_op]; unfold_auth; cbv zeta; pres.
  all: try (apply keeps_alter_session; intros se; [done|by cbn|done]).
  all: try apply keeps_revoke_all.
  - apply keeps_insert_row. intros st Hs _. exact Hs.
  - apply keeps_insert_row. intros st Hs Hn. eapply sessions_step_trans; [exact Hs|]. destruct Hs as [_ Hb].
    split; cbn [user_sessions upd].
    + intros k s Hk. exists s. rewrite lookup_insert_ne by congruence. auto.
    + intros k s. rewrite lookup_insert_Some. intros [[<- <-]|[_ Hk]]; [|by apply Hb]. cbn. split; [done|]. apply Z.le_min_r.
Qed.

(** A token is accepted for a live session of its subject whose stored hash it
    matches; checking it writes nothing. *)
Lemma valid_session_ok token s session s' :
  _get_valid_refresh_session token s = (inr session, s') ->
  work s' = work s /\ durable s' = durable s
  /\ exists now payload sid uid, jwt_decode now token = Some payload /\ _uuid_claim payload "sid" = inr sid
       /\ _uuid_claim payload "sub" = inr uid /\ user_sessions (work s) !! sid = Some session
       /\ UserSession.user_id session = uid /\ UserSession.revoked_at session = None
       /\ sha256_hex token = inr (UserSession.refresh_token_hash session).
Proof.
  unfold _get_valid_refresh_session. intros Hr.
  apply bind_ok in Hr as (payload & s1 & Hd & Hr). unfold decode_token in Hd.
  apply bind_ok in Hd as (now & s0 & (Hw0 & Hd0 & _)%utcnow_ok & [Hp ->]%of_option_ok).
  apply bind_ok in Hr as (x1 & s2 & [_ ->]%guard_ok & Hr). apply bind_ok in Hr as (sid & s2 & [Hsid ->]%of_res_ok & Hr).
  apply bind_ok in Hr as (uid & s2 & [Huid ->]%of_res_ok & Hr). apply bind_ok in Hr as (so & s2 & [-> ->]%gets_ok & Hr).
  apply bind_ok in Hr as (se & s2 & [Hse ->]%of_option_ok & Hr). apply bind_ok in Hr as (x2 & s2 & [Hu ->]%guard_ok & Hr).
  apply bind_ok in Hr as (t & s2 & (Hw2 & Hd2 & _)%utcnow_ok & Hr). apply bind_ok in Hr as (x3 & s3 & [Ha ->]%of_res_ok & Hr).
  apply bind_ok in Hr as (h & s3 & [Hh ->]%of_res_ok & Hr). unfold str_eqb in Hr. case_bool_decide as Hhe.
  - apply ret_ok in Hr as [-> ->]. split; [congruence|]. split; [congruence|]. exists now, payload, sid, uid.
    apply bool_decide_eq_true in Hu. unfold _assert_active_session in Ha.
    case_bool_decide as Hrev; [done|]. rewrite Hw0 in Hse. split_and!; try done; [|congruence].
    destruct (UserSession.revoked_at se); [|done]. by destruct Hrev.
  - unfold revoke_replayed in Hr. apply bind_ok in Hr as (? & ? & _ & Hr). apply bind_ok in Hr as (? & ? & _ & Hr).
    by apply bind_ok in Hr as (? & ? & _ & Hr).
Qed.

Lemma valid_session_keeps st0 token : preserves (keeps (session_log st0)) (_get_valid_refresh_session token).
Proof. unfold_auth. pres. apply keeps_alter_session; intros s; [done|by cbn|done]. Qed.

Lemma session_log_self st : sessions_bounded (user_sessions st) -> session_log st st.
Proof. apply sessions_step_refl. Qed.

Lemma refresh_keeps token ua ip ttl s :
  work s = durable s -> sessions_bounded (user_sessions (durable s)) ->
  session_log (durable s) (durable (refresh token ua ip ttl s).2).
Proof.
  intros Hc Hb. destruct (refresh token ua ip ttl s) as [r s'] eqn:Hr. cbn [snd]. unfold refresh in Hr.
  apply bind_run in Hr as [(e & -> & Hv)|(session & s1 & Hv & Hr)].
  { pose proof (valid_session_keeps (durable s) token s) as Hk. rewrite Hv in Hk. apply Hk; [|rewrite Hc]; by apply session_log_self. }
  apply valid_session_ok in Hv as (Hw & Hd & _ & _ & sid & uid & _ & _ & _ & Hse & _ & _ & _).
  rewrite Hc in Hse. destruct (Hb _ _ Hse) as [Hid Hle].
  match type of Hr with ?m s1 = _ => assert (Hk : preserves (keeps (session_log (durable s))) m) end.
  { unfold get_user, create_access_token, create_refresh_token, update_session. cbv zeta. pres.
    - apply keeps_modify. intros st Hs. apply sessions_step_alter; [done|done| |exact Hs].
      intros s0 Hs0 _. cbn. destruct (ss_old _ _ Hs _ _ Hse) as (s2 & Hs2 & I & _). rewrite Hid, Hs2 in Hs0. injection Hs0 as <-.
      unfold session_identity in I. injection I as _ _ _ ->. apply Z.le_min_r.
    - apply keeps_alter_session; intros s0; [done|by cbn|done]. }
  specialize (Hk s1). rewrite Hr in Hk. apply Hk; rewrite ?Hw, ?Hd, ?Hc; by apply session_log_self.
Qed.

(** ** Sequences of requests *)

Definition auth_request (o : auth_op) : M unit := try_except (run_auth_op o) (fun _ => mret tt) ;; rollback.

Lemma auth_request_eq o s : (auth_request o s).2 = (run_auth_op o s).2 <| work := durable (run_auth_op o s).2 |>.
Proof.
  unfold auth_request. destruct (run_auth_op o s) as [[e|x] s1] eqn:E.
  - by rewrite (bind_step _ _ s tt s1) by (by rewrite (try_fail _ _ _ _ _ E)).
  - by rewrite (bind_step _ _ s x s1) by (by rewrite (try_step _ _ _ _ _ E)).
Qed.

Lemma auth_op_step o s :
  work s = durable s -> sessions_bounded (user_sessions (durable s)) -> session_log (durable s) (durable (run_auth_op o s).2).
Proof.
  intros Hc Hb. destruct o as [| |t ua ip ttl| | | |].
  3: { pose proof (refresh_keeps t ua ip ttl s Hc Hb) as Hk. cbn [run_auth_op].
       destruct (refresh t ua ip ttl s) as [[e|x] s1] eqn:E; [by rewrite (bind_fail _ _ _ _ _ E)|by rewrite (bind_step _ _ _ _ _ E)]. }
  all: match goal with |- context [run_auth_op ?o] => apply (auth_ops_keep (durable s) o I s) end;
    rewrite ?Hc; by apply session_log_self.
Qed.

Lemma auth_requests_run ops s :
  work s = durable s -> sessions_bounded (user_sessions (durable s)) ->
  let s' := fold_left (fun s o => (auth_request o s).2) ops s in
  work s' = durable s' /\ session_log (durable s) (durable s').
Proof.
  revert s. induction ops as [|o ops IH]; intros s Hc Hb; cbn [fold_left]; [split; [done|by apply session_log_self]|].
  pose proof (auth_op_step o s Hc Hb) as Hs. rewrite auth_request_eq. set (s1 := (run_auth_op o s).2 <| work := _ |>).
  destruct (IH s1 eq_refl (ss_bounded _ _ Hs)) as [Hc2 Hs2]. split; [done|]. by eapply sessions_step_trans.
Qed.
End AuthSteps.

(** ** Replay and access *)

Lemma assoc_skip k k' v (l : list (list Z * pyval)) : str_eqb k k' = false -> assoc k ((k', v) :: l) = assoc k l.
Proof. intros E. cbn. by rewrite E. Qed.
Lemma assoc_here k v (l : list (list Z * pyval)) : assoc k ((k, v) :: l) = Some v.
Proof. cbn. unfold str_eqb. by rewrite bool_decide_true. Qed.

(** Look a literal key up in a literal dictionary. *)
Ltac assoc_lit := repeat (rewrite assoc_skip by (vm_compute; reflexivity)); apply assoc_here.

Section AuthRuns.
Context `{World} `{UnicodeData} `{Jwt} `{Passwords} `{AuthSettings}.

Definition marked_replayed (k : N) (st : Store) : Prop :=
  exists s, user_sessions st !! k = Some s /\ is_Some (UserSession.revoked_at s) /\ is_Some (UserSession.replay_detected_at s).

Lemma revoke_replayed_run session now s r s' :
  user_sessions (work s) !! UserSession.id session = Some session ->
  revoke_replayed session now s = (r, s') ->
  exists e, r = inl e /\ (e = replay_detected -> marked_replayed (UserSession.id session) (durable s')).
Proof.
  intros Hse Hr. unfold revoke_replayed, update_session in Hr. apply bind_run in Hr as [(e & -> & Hu)|(x & s1 & ->%modify_ok & Hr)]; [done|].
  apply bind_run in Hr as [(e & -> & Hu)|(x1 & s2 & (Hw & Hd & _)%commit_ok & Hr)].
  { exists e. split; [done|]. intros ->. exfalso. unfold commit, may_fault, mbind, M_bind in Hu.
    destruct (db_fault _); [|done]. by injection Hu as [=]. }
  assert (Hm : marked_replayed (UserSession.id session) (durable s2) /\ marked_replayed (UserSession.id session) (work s2)).
  { rewrite Hd, Hw. unfold marked_replayed. cbn [work upd user_sessions]. rewrite lookup_alter_eq, Hse. cbn.
    split; by eexists. }
  match type of Hr with ?m s2 = _ => assert (Hk : preserves (keeps (marked_replayed (UserSession.id session))) m) by pres end.
  specialize (Hk s2). rewrite Hr in Hk. destruct Hk as [Hk _]; [apply Hm..|].
  apply bind_run in Hr as [(e & -> & _)|(x2 & s3 & _ & Hr)]; [by eexists|].
  injection Hr as <- _. by eexists.
Qed.

(** Presenting a token whose hash is not the stored one never succeeds, and the
    replay error means that the session is revoked. *)
Lemma stale_token_run `{!JwtLaws} token payload now0 sid session s r s' :
  jwt_decode now0 token = Some payload -> _uuid_claim payload "sid" = inr sid ->
  user_sessions (work s) !! sid = Some session -> UserSession.id session = sid ->
  sha256_hex token <> inr (UserSession.refresh_token_hash session) ->
  _get_valid_refresh_session token s = (r, s') ->
  exists e, r = inl e /\ (e = replay_detected -> marked_replayed sid (durable s')).
Proof.
  intros Hp Hsid Hse Hid Hh Hr. unfold _get_valid_refresh_session, decode_token in Hr.
  apply bind_run in Hr as [(e & -> & Hd)|(p & s1 & Hd & Hr)].
  { exists e. split; [done|]. intros ->. apply bind_run in Hd as [(e & _ & Hd)|(n & s0 & _ & Hd)]; [done|].
    by destruct (jwt_decode n token). }
  apply bind_ok in Hd as (n & s0 & (Hw0 & _)%utcnow_ok & [Hp1 ->]%of_option_ok).
  assert (p = payload) as -> by (by eapply jwt_stable).
  apply bind_run in Hr as [(e & -> & Hg)|(x & s1 & [_ ->]%guard_ok & Hr)].
  { exists e. split; [done|]. intros ->. by destruct (token_type payload "refresh"). }
  rewrite Hsid in Hr. apply bind_run in Hr as [(e & _ & [=])|(x1 & s1 & [[= <-] ->]%of_res_ok & Hr)].
  apply bind_run in Hr as [(e & -> & Hg)|(uid & s1 & [_ ->]%of_res_ok & Hr)].
  { exists e. split; [done|]. intros ->. apply pair_equal_spec in Hg as [Hg _]. unfold _uuid_claim in Hg.
    destruct (assoc (py "sub") payload); [|done]. destruct (truthy p); [|done]. by destruct (uuid_of_str (py_str p)). }
  apply bind_run in Hr as [(e & _ & [=])|(so & s1 & [-> ->]%gets_ok & Hr)]. rewrite Hw0, Hse in Hr.
  apply bind_run in Hr as [(e & _ & [=])|(se & s1 & [[= <-] ->]%of_option_ok & Hr)].
  apply bind_run in Hr as [(e & -> & Hg)|(x2 & s1 & [_ ->]%guard_ok & Hr)].
  { exists e. split; [done|]. intros ->. by destruct (bool_decide (UserSession.user_id session = uid)). }
  apply bind_run in Hr as [(e & _ & [=])|(t & s1 & (Hw1 & _)%utcnow_ok & Hr)].
  apply bind_run in Hr as [(e & -> & Hg)|(x3 & s2 & [_ ->]%of_res_ok & Hr)].
  { exists e. split; [done|]. intros ->. apply pair_equal_spec in Hg as [Hg _]. unfold _assert_active_session in Hg.
    destruct (bool_decide _); [done|]. destruct (_ <=? _); [done|]. by destruct (_ <=? _). }
  apply bind_run in Hr as [(e & -> & Hg)|(h & s2 & [Hh' ->]%of_res_ok & Hr)].
  { exists e. split; [done|]. intros ->. apply pair_equal_spec in Hg as [Hg _]. unfold sha256_hex in Hg.
    by destruct (utf8_encode token). }
  unfold str_eqb in Hr. case_bool_decide as He; [by rewrite Hh', He in Hh|].
  rewrite <-Hid. apply revoke_replayed_run in Hr; [done|]. by rewrite Hid, Hw1, Hw0.
Qed.

Lemma refresh_ok token ua ip ttl s pair s1 :
  refresh token ua ip ttl s = (inr pair, s1) ->
  exists now payload sid session h, jwt_decode now token = Some payload /\ _uuid_claim payload "sid" = inr sid
    /\ user_sessions (work s) !! sid = Some session /\ UserSession.revoked_at session = None
    /\ sha256_hex token = inr (UserSession.refresh_token_hash session)
    /\ sha256_hex (refresh_token pair) = inr h
    /\ work s1 = durable s1
    /\ forall r, user_sessions (work s) !! UserSession.id session = Some r ->
         exists r', user_sessions (work s1) !! UserSession.id session = Some r' /\ UserSession.refresh_token_hash r' = h
                    /\ session_identity r' = session_identity r.
Proof.
  unfold refresh. intros Hr. apply bind_ok in Hr as (session & s0 & Hv & Hr).
  apply valid_session_ok in Hv as (Hw & _ & now & payload & sid & uid & Hp & Hsid & _ & Hse & _ & Hrev & Hh).
  unfold get_user in Hr. apply bind_ok in Hr as (u & s2 & [-> ->]%gets_ok & Hr).
  destruct (match _ with Some _ => _ | None => _ end).
  - apply bind_ok in Hr as (t & s2 & (Hw2 & _)%utcnow_ok & Hr). cbv zeta in Hr.
    apply bind_ok in Hr as (nr & s3 & Hn & Hr). unfold create_refresh_token in Hn.
    apply bind_ok in Hn as (t1 & s4 & (Hw4 & _)%utcnow_ok & Hn). apply bind_ok in Hn as (j & s5 & (Hw5 & _)%token_ok & [_ ->]%ret_ok).
    apply bind_ok in Hr as (h & s6 & [Hnh ->]%of_res_ok & Hr). apply bind_ok in Hr as (na & s6 & Ha & Hr).
    unfold create_access_token in Ha. apply bind_ok in Ha as (t2 & s7 & (Hw7 & _)%utcnow_ok & [_ ->]%ret_ok).
    apply bind_ok in Hr as (x & s8 & ->%modify_ok & Hr). apply bind_ok in Hr as (y & s9 & (Hw9 & Hd9 & _)%commit_ok & [-> ->]%ret_ok).
    exists now, payload, sid, session, h. split_and!; try done; [congruence|]. intros r Hrow.
    rewrite Hw9. cbn [work upd user_sessions]. rewrite Hw7, Hw5, Hw4, Hw2, Hw, lookup_alter_eq, Hrow. cbn. by eexists.
  - apply bind_ok in Hr as (? & ? & _ & Hr). apply bind_ok in Hr as (? & ? & _ & Hr). by apply bind_ok in Hr as (? & ? & _ & Hr).
Qed.

Lemma access_context_ok u k exp s c s' :
  get_session_access_context u k exp s = (inr c, s') ->
  exists session now, user_sessions (work s) !! k = Some session /\ users (work s) !! u = Some (ac_user c)
    /\ UserSession.user_id session = User.id (ac_user c) /\ User.is_active (ac_user c) = true
    /\ UserSession.revoked_at session = None /\ ac_session_id c = UserSession.id session
    /\ now < ac_authentication_expires_at c
    /\ ac_authentication_expires_at c = Z.min exp (Z.min (UserSession.expires_at session) (UserSession.absolute_expires_at session)).
Proof.
  unfold get_session_access_context. intros Hr. apply bind_ok in Hr as (row & s1 & [-> ->]%gets_ok & Hr).
  apply bind_ok in Hr as ([user session] & s1 & [Hrow ->]%of_option_ok & Hr).
  apply bind_Some in Hrow as (user' & Hu & Hrow). apply bind_Some in Hrow as (session' & Hse & Hrow).
  case_bool_decide as Hown; [|done]. injection Hrow as -> ->.
  apply bind_ok in Hr as (now & s1 & _ & Hr). apply bind_ok in Hr as (x & s2 & [Hact ->]%guard_ok & Hr).
  apply bind_ok in Hr as (x1 & s2 & [Ha ->]%of_res_ok & Hr). apply bind_ok in Hr as (x2 & s2 & [Ht ->]%guard_ok & Hr).
  apply ret_ok in Hr as [-> ->]. exists session, now. unfold _assert_active_session in Ha.
  case_bool_decide as Hrev; [done|]. destruct (Z.leb_spec (UserSession.expires_at session) now); [done|].
  destruct (Z.leb_spec (UserSession.absolute_expires_at session) now); [done|]. apply negb_true_iff, Z.leb_gt in Ht.
  split_and!; try done; [|cbn; lia]. destruct (UserSession.revoked_at session); [|done]. by destruct Hrev.
Qed.

(** An access token that is accepted names a user and a session. *)
Lemma access_token_ok token s c s' :
  get_access_context token s = (inr c, s') ->
  exists u k exp s1, work s1 = work s /\ get_session_access_context u k exp s1 = (inr c, s').
Proof.
  intros Hr. unfold get_access_context, decode_token in Hr.
  apply bind_ok in Hr as (p & s3 & Hd & Hr). apply bind_ok in Hd as (n & s4 & (Hw & _)%utcnow_ok & [_ ->]%of_option_ok).
  apply bind_ok in Hr as (x1 & s5 & [_ ->]%guard_ok & Hr). apply bind_ok in Hr as (u & s5 & [_ ->]%of_res_ok & Hr).
  apply bind_ok in Hr as (sid & s5 & [_ ->]%of_res_ok & Hr). apply bind_ok in Hr as (e & s5 & [_ ->]%of_res_ok & Hr).
  by exists u, sid, e, s4.
Qed.
End AuthRuns.

(** ** Properties *)

Section AuthProperties.
Context `{World} `{UnicodeData} `{Jwt} `{Passwords} `{AuthSettings}.

(** Sessions obey their deadlines: under any sequence of registrations,
    logins, refreshes, logouts, revocations and password changes, with any of
    them failing, every session keeps its owner, creation time and absolute
    deadline, its sliding deadline never passes the absolute one, and a
    revoked session is never reinstated. *)
Theorem sessions_stay_bounded ops s :
  work s = durable s -> sessions_bounded (user_sessions (durable s)) ->
  let s' := fold_left (fun s o => (auth_request o s).2) ops s in
  sessions_bounded (user_sessions (durable s'))
  /\ forall k x, user_sessions (durable s) !! k = Some x ->
       exists x', user_sessions (durable s') !! k = Some x' /\ session_identity x' = session_identity x
                  /\ (is_Some (UserSession.revoked_at x) -> is_Some (UserSession.revoked_at x')).
Proof.
  intros Hc Hb s'. destruct (auth_requests_run ops s Hc Hb) as [_ [Ho Hb']]. by split.
Qed.

(** C9. A revoked session is dead: after any further requests, no access token
    opens it, and no refresh token rotates it. *)
Theorem revoked_session_stays_dead ops s k x :
  work s = durable s -> sessions_bounded (user_sessions (durable s)) ->
  user_sessions (durable s) !! k = Some x -> is_Some (UserSession.revoked_at x) ->
  let s' := fold_left (fun s o => (auth_request o s).2) ops s in
  (forall token c s2, get_access_context token s' = (inr c, s2) -> ac_session_id c <> k)
  /\ (forall token session s2, _get_valid_refresh_session token s' = (inr session, s2) -> UserSession.id session <> k).
Proof.
  intros Hc Hb Hx Hrev s'. destruct (auth_requests_run ops s Hc Hb) as [Hc' [Ho Hb']].
  change (fold_left _ ops s) with s' in Hc', Ho, Hb'. destruct (Ho k x Hx) as (x' & Hx' & _ & Hrev'%(fun f => f Hrev)).
  assert (Hdead : forall j y, user_sessions (work s') !! j = Some y -> UserSession.id y = k -> UserSession.revoked_at y <> None).
  { intros j y Hy Hid. rewrite Hc' in Hy. destruct (Hb' j y Hy) as [E _]. rewrite Hid in E. subst j.
    rewrite Hx' in Hy. injection Hy as <-. by destruct Hrev' as [? ->]. }
  split.
  - intros token c s2 Hr Hid. apply access_token_ok in Hr as (u & sid & e & s3 & Hw & Hr).
    apply access_context_ok in Hr as (y & now & Hy & _ & _ & _ & Hn & Hids & _). rewrite Hw in Hy.
    apply (Hdead sid y Hy); congruence.
  - intros token y s2 Hr Hid. apply valid_session_ok in Hr as (_ & _ & _ & _ & sid & _ & _ & _ & _ & Hy & _ & Hn & _).
    by apply (Hdead sid y Hy).
Qed.

End AuthProperties.

Section LoginAccess.
Context `{World} `{UnicodeData} `{Jwt} `{Passwords} `{AuthSettings}.

Lemma uuid_claim_str payload name u :
  uuid_ok u -> assoc (py name) payload = Some (str_id u) -> _uuid_claim payload name = inr u.
Proof.
  intros Hu Ha. unfold _uuid_claim. rewrite Ha. unfold str_id.
  assert (Ht : truthy (PStr (uuid_str u)) = true).
  { unfold uuid_str. destruct (uuid_hex u) as [|c l] eqn:E; [|done].
    assert (X : length (uuid_hex u) = 32%nat) by (unfold uuid_hex; by rewrite length_hex_of_bytes, length_be_bytes). rewrite E in X. done. }
  rewrite Ht. cbn [py_str]. by rewrite uuid_of_str_str.
Qed.

Lemma scalar_one_ok {A} (l : list A) o : scalar_one_or_none l = inr o -> match o with Some x => l = [x] | None => l = [] end.
Proof. by destruct l as [|x [|y l]]; intros [= <-]. Qed.

(** What a successful login stores and hands out. *)
Lemma login_ok req ua ip ttl abs s pair s1 :
  login req ua ip ttl abs s = (inr pair, s1) ->
  exists user session now, (exists k, users (work s) !! k = Some user)
    /\ verify_password (lr_password req) (User.password_hash user) = true /\ User.is_active user = true
    /\ UserSession.id session = fresh_uuid (uuid_at s)
    /\ users (durable s1) = users (work s) /\ user_sessions (durable s1) !! UserSession.id session = Some session
    /\ UserSession.user_id session = User.id user /\ UserSession.revoked_at session = None
    /\ UserSession.expires_at session <= UserSession.absolute_expires_at session
    /\ (exists i, now = clock i)
    /\ (exists j, UserSession.expires_at session = Z.min (clock j + days ttl) (clock j + days (absolute_days abs)))
    /\ access_token pair = jwt_encode
         [(py "sub", str_id (User.id user)); (py "sid", str_id (UserSession.id session)); (py "type", PStr (py "access"));
          (py "iat", PInt (_timestamp now));
          (py "exp", PInt (_timestamp (Z.min (now + minutes jwt_access_ttl_min) (UserSession.expires_at session))))].
Proof.
  unfold login. cbv zeta. intros Hr. apply bind_ok in Hr as (found & s0 & [-> ->]%gets_ok & Hr).
  apply bind_ok in Hr as (uo & s0 & [Hf ->]%of_res_ok & Hr). apply bind_ok in Hr as (user & s0 & [-> ->]%of_option_ok & Hr).
  apply scalar_one_ok in Hf. apply bind_ok in Hr as (x & s0 & [Hpw ->]%guard_ok & Hr).
  apply bind_ok in Hr as (x1 & s0 & [Hact ->]%guard_ok & Hr). apply bind_ok in Hr as (t & s2 & Ht & Hr). pose proof Ht as (Hw2 & _)%utcnow_ok. injection Ht as Ht Hs2.
  set (absd := t + days (absolute_days abs)) in *. set (idle := Z.min (t + days ttl) absd) in *.
  apply bind_ok in Hr as (id & s3 & Hid & Hr). pose proof Hid as (Hw3 & _)%uuid4_ok. injection Hid as Hidn _.
  apply bind_ok in Hr as (cr & s4 & (Hw4 & _)%utcnow_ok & Hr).
  apply bind_ok in Hr as (x2 & s5 & [Hn ->]%insert_row_ok & Hr). set (row := UserSession.Row _ _ _ _ _ _ _ _ _ _ _) in *.
  apply bind_ok in Hr as (rt & s6 & Hrt & Hr). unfold create_refresh_token in Hrt.
  apply bind_ok in Hrt as (t1 & s7 & (Hw7 & _)%utcnow_ok & Hrt). apply bind_ok in Hrt as (j & s8 & (Hw8 & _)%token_ok & [_ ->]%ret_ok).
  apply bind_ok in Hr as (h & s9 & [_ ->]%of_res_ok & Hr). apply bind_ok in Hr as (x3 & s9 & ->%modify_ok & Hr).
  apply bind_ok in Hr as (at_ & s10 & Hat & Hr). unfold create_access_token in Hat.
  apply bind_ok in Hat as (now & s11 & Hnow & [-> ->]%ret_ok). pose proof Hnow as (Hw11 & _)%utcnow_ok. injection Hnow as Hnow _.
  apply bind_ok in Hr as (x4 & s12 & (_ & Hd & _)%commit_ok & [-> ->]%ret_ok).
  exists user, (row <| UserSession.refresh_token_hash := h |>), now.
  assert (Hin : user ∈ rows (users (work s))).
  { apply list_elem_of_In. assert (X : In user [user]) by by left. rewrite <-Hf in X. by apply filter_In in X as [X _]. }
  apply elem_of_rows in Hin. cbn [UserSession.id upd row].
  rewrite Hd, Hw11. cbn [work upd users user_sessions]. rewrite Hw8, Hw7. cbn [work upd users user_sessions].
  rewrite Hw4, Hw3, Hw2. rewrite lookup_alter_eq, lookup_insert_eq.
  split_and!; try done; [by rewrite <-Hidn, <-Hs2|cbn; unfold idle; apply Z.le_min_r|by eexists|].
  eexists. cbn. unfold idle, absd. by rewrite <-Ht.
Qed.

Lemma timestamp_le t now : 0 <= now -> now < _timestamp t * 1000000 -> _timestamp t * 1000000 <= t.
Proof.
  unfold _timestamp. intros Hn Hlt. pose proof (Z.quot_rem' t 1000000) as E. pose proof (Z.rem_bound_pos t 1000000) as Hb.
  destruct (Z_le_gt_dec 0 t) as [Hp|Hp]; [specialize (Hb Hp ltac:(lia)); lia|].
  pose proof (Z.quot_le_mono t 0 1000000 ltac:(lia) ltac:(lia)) as Hq. rewrite Z.quot_0_l in Hq by lia. lia.
Qed.
End LoginAccess.

Section LoginProperty.
Context `{World} `{UnicodeData} `{Jwt} `{Passwords} `{AuthSettings}.

(** C10. Logging in gives access: the access token of a successful login, with
    the right password of an active account, is accepted for that account and
    a new live session until the expiry second it carries, at any later state
    of the clock and with the committed database. *)
Theorem login_grants_access `{!JwtLaws} req ua ip ttl abs s pair s1 :
  work s = durable s -> (forall k u, users (work s) !! k = Some u -> User.id u = k /\ uuid_ok k) ->
  uuid_ok (fresh_uuid (uuid_at s)) -> login req ua ip ttl abs s = (inr pair, s1) ->
  exists user session now,
    verify_password (lr_password req) (User.password_hash user) = true
    /\ user_sessions (durable s1) !! UserSession.id session = Some session /\ UserSession.user_id session = User.id user
    /\ (exists i, now = clock i)
    /\ (exists j, UserSession.expires_at session = Z.min (clock j + days ttl) (clock j + days (absolute_days abs)))
    /\ let exp := _timestamp (Z.min (now + minutes jwt_access_ttl_min) (UserSession.expires_at session)) * 1000000 in
       forall s2, work s2 = durable s1 -> 0 <= clock (clock_at s2) ->
         clock (clock_at s2) < exp -> clock (S (clock_at s2)) < exp ->
         exists c s3, get_access_context (access_token pair) s2 = (inr c, s3)
           /\ ac_user c = user /\ ac_session_id c = UserSession.id session /\ ac_authentication_expires_at c = exp.
Proof.
  intros Hc Hkeys Huu Hr.
  apply login_ok in Hr as (user & session & now & [k Hk] & Hpw & Hact & Hid & Hus & Hse & Hown & Hrev & Hle & Hi & Hj & Htok).
  exists user, session, now. split; [done|]. split; [done|]. split; [done|]. split; [done|]. split; [done|]. cbv zeta.
  set (t := Z.min (now + minutes jwt_access_ttl_min) (UserSession.expires_at session)) in *. set (e := _timestamp t) in *.
  intros s2 Hw2 Hpos H1' H2'. rewrite Htok. destruct (Hkeys k user Hk) as [Ek Huk].
  set (claims := (py "sub", _) :: _) in *.
  assert (Hdec : jwt_decode (clock (clock_at s2)) (jwt_encode claims) = Some claims).
  { apply (jwt_roundtrip _ _ e); [done| |done]. unfold claims. assoc_lit. }
  pose proof (timestamp_le t (clock (clock_at s2)) Hpos H1') as Het. fold e in Het.
  assert (Hex : UserSession.expires_at session >= e * 1000000) by (unfold t in Het; lia).
  unfold get_access_context, decode_token.
  set (s3 := s2 <| clock_at ::= S |>).
  rewrite (bind_step _ _ s2 claims s3).
  2: { rewrite (bind_step _ _ s2 (clock (clock_at s2)) s3) by done. by rewrite Hdec. }
  rewrite (bind_step _ _ s3 tt s3).
  2: { replace (token_type claims "access") with true; [done|]. unfold token_type, claims.
       replace (assoc (py "type") _) with (Some (PStr (py "access"))); [vm_compute; reflexivity|]. symmetry. assoc_lit. }
  rewrite (bind_step _ _ s3 (User.id user) s3).
  2: { rewrite (uuid_claim_str claims "sub" (User.id user)); [done|by rewrite Ek|]. unfold claims. assoc_lit. }
  rewrite (bind_step _ _ s3 (UserSession.id session) s3).
  2: { rewrite (uuid_claim_str claims "sid" (UserSession.id session)); [done|by rewrite Hid|]. unfold claims. assoc_lit. }
  rewrite (bind_step _ _ s3 (e * 1000000) s3).
  2: { replace (_expiry_claim claims) with (inr (A := exc) (e * 1000000)); [done|]. unfold _expiry_claim, claims.
       replace (assoc (py "exp") _) with (Some (PInt e)); [done|]. symmetry. assoc_lit. }
  unfold get_session_access_context.
  rewrite (bind_step _ _ s3 (Some (user, session)) s3).
  2: { rewrite gets_run. change (work s3) with (work s2). rewrite Hw2, Hus, Ek, Hk. cbn. rewrite Hse. cbn.
       by rewrite bool_decide_true. }
  rewrite (bind_step _ _ s3 (user, session) s3) by done.
  rewrite (bind_step _ _ s3 (clock (S (clock_at s2))) (s3 <| clock_at ::= S |>)) by done.
  rewrite (bind_step _ _ _ tt (s3 <| clock_at ::= S |>)) by (by rewrite Hact).
  rewrite (bind_step _ _ _ tt (s3 <| clock_at ::= S |>)).
  2: { unfold _assert_active_session. rewrite Hrev, bool_decide_false by (by intros [? [=]]).
       rewrite !(proj2 (Z.leb_gt _ _)) by lia. done. }
  rewrite (bind_step _ _ _ tt (s3 <| clock_at ::= S |>)) by (by rewrite (proj2 (Z.leb_gt _ _)) by lia).
  eexists _, _. split; [done|]. cbn. split_and!; [done|done|]. lia.
Qed.
End LoginProperty.

(** ** Concrete instances *)

(** Tokens that spell their claims out. *)
Definition toy_claim (kv : list Z * pyval) : list Z :=
  let field tag body := tag :: Z.of_nat (length kv.1) :: kv.1 ++ Z.of_nat (length body) :: body in
  match kv.2 with
  | PStr s => field 0 s
  | PInt n => field (if 0 <=? n then 1 else 2) (str_of_Z (Z.abs n))
  | _ => []
  end.
Definition toy_value (tag : Z) (body : list Z) : pyval :=
  if tag =? 0 then PStr body else PInt (if tag =? 1 then dec_val body else - dec_val body).
Fixpoint toy_claims (fuel : nat) (l : list Z) : option (list (list Z * pyval)) :=
  match fuel, l with
  | O, _ => None
  | _, [] => Some []
  | S fuel, tag :: n :: l =>
      match drop (Z.to_nat n) l with
      | m :: r => rest ← toy_claims fuel (drop (Z.to_nat m) r);
                  Some ((take (Z.to_nat n) l, toy_value tag (take (Z.to_nat m) r)) :: rest)
      | [] => None
      end
  | _, _ => None
  end.
Definition toy_jwt : Jwt := {|
  jwt_encode claims := claims ≫= toy_claim;
  jwt_decode now t :=
    p ← toy_claims (S (length t)) t;
    match assoc (py "exp") p with
    | Some (PInt e) => if now <? e * 1000000 then Some p else None
    | _ => Some p
    end
|}.

Lemma toy_claims_read claims fuel :
  forallb plain_claim claims = true -> (length (claims ≫= toy_claim) < fuel)%nat ->
  toy_claims fuel (claims ≫= toy_claim) = Some claims.
Proof.
  revert fuel. induction claims as [|[k v] claims IH]; intros fuel Hp Hf; cbn in Hp |- *; [by destruct fuel; [lia|]|].
  apply andb_true_iff in Hp as [Hv Hp]. destruct fuel as [|fuel]; [lia|].
  change (mbind toy_claim ((k, v) :: claims)) with (toy_claim (k, v) ++ mbind toy_claim claims) in Hf. rewrite length_app in Hf.
  assert (Hfield : forall tag body, toy_claim (k, v) = tag :: Z.of_nat (length k) :: k ++ Z.of_nat (length body) :: body ->
    toy_value tag body = v -> toy_claims (S fuel) (toy_claim (k, v) ++ (claims ≫= toy_claim)) = Some ((k, v) :: claims)).
  { intros tag body E Ev. rewrite E in *. cbn [app toy_claims]. rewrite <-app_assoc, Nat2Z.id, drop_app_length, take_app_length.
    cbn [app]. rewrite Nat2Z.id, drop_app_length, take_app_length, IH, Ev; [done|done|]. cbn [length] in Hf. lia. }
  destruct v; try done.
  - apply (Hfield (if 0 <=? n then 1 else 2) (str_of_Z (Z.abs n))); [done|]. unfold toy_value.
    rewrite dec_val_str by lia. destruct (Z.leb_spec 0 n); cbn; f_equal; lia.
  - by apply (Hfield 0 s).
Qed.

Lemma toy_jwt_laws : @JwtLaws toy_jwt.
Proof.
  split; cbn [jwt_encode jwt_decode toy_jwt].
  - intros now claims e Hp He Hn. rewrite toy_claims_read by (done || lia). unfold mbind, option_bind. rewrite He.
    by rewrite (proj2 (Z.ltb_lt _ _)).
  - intros now now' t p p'. destruct (toy_claims (S (length t)) t) as [q|]; [|done]. unfold mbind, option_bind.
    destruct (assoc (py "exp") q) as [[]|]; try congruence. destruct (now <? _), (now' <? _); congruence.
Qed.

Definition toy_passwords : Passwords := {| pw_hash _ p := p; pw_verify p h := str_eqb p h |}.
Definition demo_auth : AuthSettings :=
  {| jwt_access_ttl_min := 30; jwt_refresh_ttl_days := 14; session_absolute_ttl_days := 30 |}.

Section Demo.
Local Existing Instances still_world ascii_ucd toy_jwt toy_passwords demo_auth.

Definition alice_login : LoginRequest := {| lr_username_or_email := py "alice"; lr_password := User.password_hash (demo_user 3 "alice") |}.
Definition alice_tokens : res TokenPair := (login alice_login None None 14 None demo_session).1.
Definition alice_session : Session := (auth_request (OpLogin alice_login None None 14 None) demo_session).2.
Definition alice_refresh : list Z := match alice_tokens with inr p => refresh_token p | inl _ => [] end.

Lemma demo_bounded : sessions_bounded (user_sessions (durable demo_session)).
Proof. intros k s. cbn. by rewrite lookup_empty. Qed.

Lemma alice_session_wf : work alice_session = durable alice_session /\ sessions_bounded (user_sessions (durable alice_session)).
Proof.
  destruct (auth_requests_run [OpLogin alice_login None None 14 None] demo_session eq_refl demo_bounded) as [Hc [_ Hb]].
  by split.
Qed.

Lemma sessions_stay_bounded_witness :
  sessions_bounded (user_sessions (durable (fold_left (fun s o => (auth_request o s).2)
    [OpLogin alice_login None None 14 None; OpRefresh alice_refresh None None 60; OpLogoutAll 3] demo_session))).
Proof.
  exact (proj1 (sessions_stay_bounded
    [OpLogin alice_login None None 14 None; OpRefresh alice_refresh None None 60; OpLogoutAll 3] demo_session
    eq_refl demo_bounded)).
Defined.

Definition logged_out : Session := (auth_request (OpLogoutAll 3) alice_session).2.

Lemma revoked_session_stays_dead_witness :
  (exists x, user_sessions (durable logged_out) !! 100%N = Some x /\ is_Some (UserSession.revoked_at x))
  /\ forall token c s2, get_access_context token
       (fold_left (fun s o => (auth_request o s).2) [OpRefresh alice_refresh None None 14] logged_out) = (inr c, s2) ->
     ac_session_id c <> 100%N.
Proof.
  destruct (auth_requests_run [OpLogoutAll 3] alice_session (proj1 alice_session_wf) (proj2 alice_session_wf)) as [Hc [_ Hb]].
  destruct (user_sessions (durable logged_out) !! 100%N) as [x|] eqn:E.
  2: { exfalso. assert (X : bool_decide (user_sessions (durable logged_out) !! 100%N = None) = false) by (vm_compute; reflexivity).
       rewrite E in X. discriminate X. }
  assert (Hr : is_Some (UserSession.revoked_at x)).
  { assert (X : match user_sessions (durable logged_out) !! 100%N with
                | Some x => match UserSession.revoked_at x with Some _ => true | None => false end
                | None => false end = true) by (vm_compute; reflexivity).
    rewrite E in X. destruct (UserSession.revoked_at x); [eexists; reflexivity|discriminate X]. }
  split; [exists x; split; [reflexivity|exact Hr]|].
  exact (proj1 (revoked_session_stays_dead [OpRefresh alice_refresh None None 14] logged_out 100 x Hc Hb E Hr)).
Defined.


Lemma login_grants_access_witness :
  exists pair s1 c s3, login alice_login None None 14 None demo_session = (inr pair, s1)
    /\ get_access_context (access_token pair) (open_session (H := still_world) (durable s1) tt) = (inr c, s3)
    /\ User.id (ac_user c) = 3%N.
Proof.
  destruct (login alice_login None None 14 None demo_session) as [[e|pair] s1] eqn:E.
  { exfalso. assert (X : is_ok (login alice_login None None 14 None demo_session).1 = true) by (vm_compute; reflexivity).
    rewrite E in X. discriminate X. }
  assert (Hkeys : forall k u, users (work demo_session) !! k = Some u -> User.id u = k /\ uuid_ok k).
  { intros k u. cbn [users work demo_session demo_store open_session upd]. rewrite !lookup_insert_Some, lookup_singleton_Some.
    intros [[<- <-]|[_ [[<- <-]|[_ [[<- <-]|[_ [<- <-]]]]]]]; by split. }
  destruct (login_grants_access (H4 := toy_jwt_laws) alice_login None None 14 None demo_session pair s1 eq_refl Hkeys)
    as (user & session & now & _ & Hse & Hown & [i ->] & [j Hexp] & Hacc); [|exact E|].
  { vm_compute. reflexivity. }
  destruct (Hacc (open_session (H := still_world) (durable s1) tt)) as (c & s3 & Hc & Hu & Hs & _).
  - reflexivity.
  - vm_compute. discriminate.
  - rewrite Hexp. vm_compute. reflexivity.
  - rewrite Hexp. vm_compute. reflexivity.
  - exists pair, s1, c, s3. split; [reflexivity|]. split; [exact Hc|].
    assert (X : match (login alice_login None None 14 None demo_session).1 with
                | inr p => match (get_access_context (access_token p)
                    (open_session (H := still_world) (durable (login alice_login None None 14 None demo_session).2) tt)).1 with
                           | inr c => (User.id (ac_user c) =? 3)%N | inl _ => false end
                | inl _ => false end = true) by (vm_compute; reflexivity).
    rewrite E in X. cbn [fst snd] in X. rewrite Hc in X. cbn [fst] in X. apply N.eqb_eq. exact X.
Defined.
End Demo.
