(* ===== verification/Limits.v ===== *)
(** * Admission limits (backend/app/services/download_service.py,
    rate_limit_service.py)

    The in-process limiter of concurrent downloads with its leases, and the
    rate limiter: a fixed window in Redis with a bounded per-process fallback. *)

From S2P Require Import Prelude PyStr Models Session.
Local Open Scope Z_scope.

(** ** Concurrent downloads *)

Module Download.

Record DownloadConcurrencyLimiter := MkLimiter {
  _active_by_user : gmap N Z;
  _active_by_ip : gmap (list Z) Z;
  _active_global : Z
}.
Global Instance eta_Limiter : Eta DownloadConcurrencyLimiter := fun l =>
  MkLimiter (_active_by_user l) (_active_by_ip l) (_active_global l).

Record DownloadLease := MkLease { _user_id : N; _client_ip : list Z; _released : bool }.
Global Instance eta_Lease : Eta DownloadLease := fun l => MkLease (_user_id l) (_client_ip l) (_released l).

Definition new_limiter : DownloadConcurrencyLimiter := MkLimiter ∅ ∅ 0.

(** [str(client_ip)[:64] or "unknown"]. *)
Definition normalized_ip (client_ip : pystr) : pystr :=
  match take 64 client_ip with [] => py "unknown" | ip => ip end.

Definition try_acquire (user_id : N) (client_ip : pystr) (per_user_limit per_ip_limit global_limit : Z)
    (l : DownloadConcurrencyLimiter) : option DownloadLease * DownloadConcurrencyLimiter :=
  let normalized_ip := normalized_ip client_ip in
  let user_limit := Z.max 1 per_user_limit in
  let ip_limit := Z.max 1 per_ip_limit in
  let process_limit := Z.max 1 global_limit in
  let user_active := default 0 (_active_by_user l !! user_id) in
  let ip_active := default 0 (_active_by_ip l !! normalized_ip) in
  if (user_limit <=? user_active) || (ip_limit <=? ip_active) || (process_limit <=? _active_global l) then (None, l)
  else
    (Some (MkLease user_id normalized_ip false),
     l <| _active_by_user ::= <[user_id := user_active + 1]> |>
       <| _active_by_ip ::= <[normalized_ip := ip_active + 1]> |>
       <| _active_global ::= Z.succ |>).

(** One counter of [_release]. *)
Definition decrement {K} `{Countable K} (k : K) (m : gmap K Z) : gmap K Z :=
  let active := default 0 (m !! k) in
  if active <=? 1 then delete k m else <[k := active - 1]> m.

Definition _release (user_id : N) (client_ip : pystr) (l : DownloadConcurrencyLimiter) : DownloadConcurrencyLimiter :=
  l <| _active_by_user ::= decrement user_id |>
    <| _active_by_ip ::= decrement client_ip |>
    <| _active_global ::= fun n => if 0 <? n then n - 1 else n |>.

(** [DownloadLease.release]: releasing twice has no effect. *)
Definition release (lease : DownloadLease) (l : DownloadConcurrencyLimiter) : DownloadLease * DownloadConcurrencyLimiter :=
  if _released lease then (lease, l)
  else (lease <| _released := true |>, _release (_user_id lease) (_client_ip lease) l).

Definition active_for (user_id : N) (l : DownloadConcurrencyLimiter) : Z := default 0 (_active_by_user l !! user_id).
Definition active_for_ip (client_ip : pystr) (l : DownloadConcurrencyLimiter) : Z :=
  default 0 (_active_by_ip l !! normalized_ip client_ip).
Definition state_sizes (l : DownloadConcurrencyLimiter) : Z * Z :=
  (Z.of_nat (size (_active_by_user l)), Z.of_nat (size (_active_by_ip l))).

(** The process: the limiter and the lease objects handed out so far. *)
Record Process := MkProcess { limiter : DownloadConcurrencyLimiter; leases : list DownloadLease }.

Inductive op :=
| OpAcquire (user_id : N) (client_ip : list Z) (per_user_limit per_ip_limit global_limit : Z)
| OpRelease (lease : nat).

Definition run_op (p : Process) (o : op) : Process :=
  match o with
  | OpAcquire u ip a b c =>
      match try_acquire u ip a b c (limiter p) with
      | (Some lease, l) => MkProcess l (leases p ++ [lease])
      | (None, l) => MkProcess l (leases p)
      end
  | OpRelease i =>
      match leases p !! i with
      | Some lease => let '(lease, l) := release lease (limiter p) in MkProcess l (<[i := lease]> (leases p))
      | None => p
      end
  end.

(** *** Counters count leases *)

Definition live (lease : DownloadLease) : bool := negb (_released lease).
Definition count (p : DownloadLease -> bool) (l : list DownloadLease) : Z := Z.of_nat (length (List.filter p l)).

(** A table of counters holds exactly the positive counts. *)
Definition counts {K} `{Countable K} (key : DownloadLease -> K) (m : gmap K Z) (l : list DownloadLease) : Prop :=
  forall k, let n := count (fun x => live x && bool_decide (key x = k)) l in
    m !! k = if 0 <? n then Some n else None.

Record counted (p : Process) : Prop := {
  ct_user : counts _user_id (_active_by_user (limiter p)) (leases p);
  ct_ip : counts _client_ip (_active_by_ip (limiter p)) (leases p);
  ct_global : _active_global (limiter p) = count live (leases p)
}.

Lemma count_nonneg p l : 0 <= count p l.
Proof. unfold count. lia. Qed.
Lemma count_app p l1 l2 : count p (l1 ++ l2) = count p l1 + count p l2.
Proof. unfold count. rewrite List.filter_app, length_app. lia. Qed.
Lemma count_cons p x l : count p (x :: l) = (if p x then 1 else 0) + count p l.
Proof. unfold count. cbn. destruct (p x); cbn [length]; lia. Qed.

(** Replacing one element changes the count by its contribution. *)
Lemma count_insert p l i x y : l !! i = Some x ->
  count p (<[i := y]> l) = count p l - (if p x then 1 else 0) + (if p y then 1 else 0).
Proof.
  revert i. induction l as [|z l IH]; intros [|i] Hi; try done; cbn in Hi.
  - injection Hi as ->. change (<[0%nat:=y]> (x :: l)) with (y :: l). rewrite !count_cons. lia.
  - change (<[S i:=y]> (z :: l)) with (z :: <[i:=y]> l). rewrite !count_cons, (IH _ Hi). lia.
Qed.

Lemma counts_default {K} `{Countable K} (key : DownloadLease -> K) m l k : counts key m l ->
  default 0 (m !! k) = count (fun x => live x && bool_decide (key x = k)) l.
Proof.
  intros Hm. rewrite Hm. cbv zeta. pose proof (count_nonneg (fun x => live x && bool_decide (key x = k)) l).
  destruct (Z.ltb_spec 0 (count (fun x => live x && bool_decide (key x = k)) l)); cbn; lia.
Qed.

Lemma counts_acquire {K} `{Countable K} (key : DownloadLease -> K) m l x : counts key m l -> live x = true ->
  counts key (<[key x := default 0 (m !! key x) + 1]> m) (l ++ [x]).
Proof.
  intros Hm Hx k. cbv zeta. rewrite count_app, count_cons, Hx. change (count _ []) with 0. cbn [andb].
  rewrite (counts_default key m l (key x) Hm).
  pose proof (count_nonneg (fun y => live y && bool_decide (key y = k)) l).
  destruct (decide (key x = k)) as [<-|Hne].
  - rewrite bool_decide_true, lookup_insert_eq by done. replace (0 <? _) with true by lia; f_equal; lia.
  - rewrite bool_decide_false, lookup_insert_ne by done. rewrite Hm. cbv zeta. by rewrite !Z.add_0_r.
Qed.

Lemma counts_release {K} `{Countable K} (key : DownloadLease -> K) m l i x : counts key m l ->
  l !! i = Some x -> live x = true -> (forall b, key (x <| _released := b |>) = key x) ->
  counts key (decrement (key x) m) (<[i := x <| _released := true |>]> l).
Proof.
  intros Hm Hi Hx Hkey k. cbv zeta. rewrite (count_insert _ l i x) by done. rewrite Hx, Hkey. cbn [live _released upd negb andb].
  unfold decrement. rewrite (counts_default key m l (key x) Hm).
  assert (Hpos : 1 <= count (fun y => live y && bool_decide (key y = key x)) l).
  { pose proof (count_insert (fun y => live y && bool_decide (key y = key x)) l i x x Hi) as E.
    pose proof (count_nonneg (fun y => live y && bool_decide (key y = key x)) (<[i := x <| _released := true |>]> l)) as P.
    rewrite (count_insert _ l i x) in P by done. rewrite Hx, bool_decide_true in P by done. cbn in P. lia. }
  pose proof (count_nonneg (fun y => live y && bool_decide (key y = k)) l).
  destruct (decide (key x = k)) as [<-|Hne].
  - rewrite bool_decide_true by done. destruct (Z.leb_spec (count (fun y => live y && bool_decide (key y = key x)) l) 1).
    + rewrite lookup_delete_eq. by replace (0 <? _) with false by lia.
    + rewrite lookup_insert_eq. replace (0 <? _) with true by lia; f_equal; lia.
  - rewrite bool_decide_false by done. rewrite Z.sub_0_r, Z.add_0_r.
    destruct (_ <=? 1); [rewrite lookup_delete_ne by done|rewrite lookup_insert_ne by done]; by rewrite Hm.
Qed.

Lemma counted_new : counted (MkProcess new_limiter []).
Proof. by split. Qed.

Lemma counted_step p o : counted p -> counted (run_op p o).
Proof.
  intros [Hu Hip Hg]. destruct o as [u ip a b c|i]; cbn [run_op].
  - unfold try_acquire. destruct (_ || _); [by split|].
    set (x := MkLease u (normalized_ip ip) false). split; cbn.
    + by apply (counts_acquire _user_id _ _ x).
    + by apply (counts_acquire _client_ip _ _ x).
    + rewrite Hg, count_app. by rewrite Z.add_1_r.
  - destruct (leases p !! i) as [x|] eqn:Ei; [|by split]. unfold release. destruct (_released x) eqn:Er.
    { split; cbn; by rewrite list_insert_id. }
    assert (Hx : live x = true) by (unfold live; by rewrite Er). split; cbn.
    + by apply (counts_release _user_id).
    + by apply (counts_release _client_ip).
    + rewrite (count_insert live _ i x) by done. rewrite Hx. cbn.
      assert (Hpos : 1 <= count live (leases p)).
      { pose proof (count_nonneg live (<[i := x <| _released := true |>]> (leases p))) as P.
        rewrite (count_insert live _ i x) in P by done. rewrite Hx in P. cbn in P. lia. }
      rewrite Hg. replace (0 <? _) with true by lia. lia.
Qed.

Lemma counted_run ops p : counted p -> counted (fold_left run_op ops p).
Proof. revert p. induction ops as [|o ops IH]; intros p Hp; [done|]. cbn. by apply IH, counted_step. Qed.

(** *** Limits *)

(** The operation asks for these limits. *)
Definition uses (a b c : Z) (o : op) : Prop :=
  match o with OpAcquire _ _ a' b' c' => a' = a /\ b' = b /\ c' = c | OpRelease _ => True end.

Record bounded (a b c : Z) (l : DownloadConcurrencyLimiter) : Prop := {
  bd_user : forall u, default 0 (_active_by_user l !! u) <= Z.max 1 a;
  bd_ip : forall ip, default 0 (_active_by_ip l !! ip) <= Z.max 1 b;
  bd_global : _active_global l <= Z.max 1 c
}.

Lemma default_insert_le {K} `{Countable K} (m : gmap K Z) k v n k' :
  v <= n -> default 0 (m !! k') <= n -> default 0 (<[k := v]> m !! k') <= n.
Proof. intros Hv Hm. destruct (decide (k = k')) as [<-|]; [by rewrite lookup_insert_eq|by rewrite lookup_insert_ne]. Qed.

Lemma default_decrement_le {K} `{Countable K} (m : gmap K Z) k n k' :
  0 <= n -> default 0 (m !! k') <= n -> default 0 (decrement k m !! k') <= n.
Proof.
  intros Hn Hm. unfold decrement. destruct (_ <=? 1).
  - destruct (decide (k = k')) as [<-|]; [by rewrite lookup_delete_eq|by rewrite lookup_delete_ne].
  - destruct (decide (k = k')) as [<-|]; [rewrite lookup_insert_eq; cbn; lia|by rewrite lookup_insert_ne].
Qed.

Lemma bounded_step a b c p o : uses a b c o -> bounded a b c (limiter p) -> bounded a b c (limiter (run_op p o)).
Proof.
  intros Ho [Hu Hip Hg]. destruct o as [u ip a' b' c'|i]; cbn [run_op].
  - destruct Ho as (-> & -> & ->). unfold try_acquire. destruct (_ || _) eqn:E; [by split|].
    apply orb_false_iff in E as [E E3]. apply orb_false_iff in E as [E1 E2]. apply Z.leb_gt in E1, E2, E3.
    split; cbn; [intros k; apply default_insert_le; [lia|done]..|lia].
  - destruct (leases p !! i) as [x|]; [|by split]. unfold release. destruct (_released x); [by split|].
    split; cbn; [intros k; apply default_decrement_le; [lia|done]..|]. destruct (0 <? _); lia.
Qed.

(** C29. Download admission: under any interleaving of acquisitions and
    releases, also repeated ones, the counters are exactly the live leases of
    each user, address and of the process, none exceeds its limit, and the
    tables hold no entry for anyone without a live lease. *)
Theorem download_limits_hold a b c ops :
  Forall (uses a b c) ops ->
  let p := fold_left run_op ops (MkProcess new_limiter []) in
  (forall u, active_for u (limiter p) = count (fun x => live x && bool_decide (_user_id x = u)) (leases p)
             /\ active_for u (limiter p) <= Z.max 1 a)
  /\ (forall ip, active_for_ip ip (limiter p) = count (fun x => live x && bool_decide (_client_ip x = normalized_ip ip)) (leases p)
             /\ active_for_ip ip (limiter p) <= Z.max 1 b)
  /\ (_active_global (limiter p) = count live (leases p) /\ _active_global (limiter p) <= Z.max 1 c)
  /\ (count live (leases p) = 0 -> limiter p = new_limiter).
Proof.
  intros Hops p. pose proof (counted_run ops _ counted_new) as [Hu Hip Hg]. fold p in Hu, Hip, Hg.
  assert (Hb : bounded a b c (limiter p)).
  { subst p. assert (B : bounded a b c (limiter (MkProcess new_limiter []))) by (split; cbn; intros; rewrite ?lookup_empty; cbn; lia).
    revert B. generalize (MkProcess new_limiter []). clear -Hops. induction Hops as [|o ops Ho _ IH]; intros p Hp; [done|].
    cbn. by apply IH, bounded_step. }
  destruct Hb as [B1 B2 B3]. split_and!.
  - intros u. unfold active_for. by rewrite (counts_default _ _ _ u Hu) at 1.
  - intros ip. unfold active_for_ip. by rewrite (counts_default _ _ _ (normalized_ip ip) Hip) at 1.
  - done.
  - done.
  - intros H0. assert (Hz : forall q, count (fun x => live x && q x) (leases p) = 0).
    { intros q. unfold count in *. assert (Hn : List.filter live (leases p) = []) by (destruct (List.filter _ _); cbn in H0; [done|lia]).
      assert (Hf : List.filter (fun x => live x && q x) (leases p) = []); [|by rewrite Hf].
      destruct (List.filter (fun x => live x && q x) (leases p)) as [|x l] eqn:E; [done|]. exfalso.
      assert (Hx : x ∈ List.filter (fun x => live x && q x) (leases p)) by (rewrite E; constructor).
      apply elem_of_filter_bool in Hx as [Hin [Hl _]%andb_prop].
      assert (Hx : x ∈ List.filter live (leases p)) by (by apply elem_of_filter_bool). rewrite Hn in Hx. by apply elem_of_nil in Hx. }
    destruct (limiter p) as [mu mi g] eqn:El. cbn in *. unfold new_limiter. f_equal.
    + apply map_eq. intros k. rewrite Hu, lookup_empty. cbv zeta. by rewrite Hz.
    + apply map_eq. intros k. rewrite Hip, lookup_empty. cbv zeta. by rewrite Hz.
    + by rewrite Hg, H0.
Qed.

Lemma download_limits_hold_witness :
  Forall (uses 2 3 10) [OpAcquire 3 (py "10.0.0.1") 2 3 10; OpAcquire 3 (py "10.0.0.1") 2 3 10;
                        OpAcquire 3 (py "10.0.0.1") 2 3 10; OpRelease 0; OpRelease 0]
  /\ active_for 3 (limiter (fold_left run_op [OpAcquire 3 (py "10.0.0.1") 2 3 10; OpAcquire 3 (py "10.0.0.1") 2 3 10;
       OpAcquire 3 (py "10.0.0.1") 2 3 10; OpRelease 0; OpRelease 0] (MkProcess new_limiter []))) <= 2.
Proof.
  assert (Hu : Forall (uses 2 3 10) [OpAcquire 3 (py "10.0.0.1") 2 3 10; OpAcquire 3 (py "10.0.0.1") 2 3 10;
    OpAcquire 3 (py "10.0.0.1") 2 3 10; OpRelease 0; OpRelease 0]) by (repeat constructor).
  split; [exact Hu|]. exact (proj2 (proj1 (download_limits_hold 2 3 10 _ Hu) 3%N)).
Defined.
End Download.

(** ** Rate limiting

    Readings of [time.monotonic()] are whole microseconds here; the source has
    floating-point seconds. *)

Module RateLimit.

Definition second : Z := 1000000.
(** [math.ceil(t)] of a duration in seconds. *)
Definition ceil_seconds (t : Z) : Z := - ((- t) / second).

Inductive Backend := Redis | Local | Bypassed.
Record RateLimitResult := MkResult { retry_after_seconds : option Z; backend : Backend }.
Inductive FailurePolicy := policy_local | policy_allow.

(** [_local_windows] and [_local_expiries].  The heap is the sorted list of its
    entries: the code only reads its minimum, pushes and pops. *)
Record LocalState := MkLocal { _local_windows : gmap (list Z) (Z * Z); _local_expiries : list (Z * list Z) }.

Definition heap_key (e : Z * list Z) : list Z := e.1 :: e.2.
Fixpoint heappush (x : Z * list Z) (h : list (Z * list Z)) : list (Z * list Z) :=
  match h with
  | [] => [x]
  | y :: h => if lex_leb (heap_key x) (heap_key y) then x :: y :: h else y :: heappush x h
  end.

(** [while _local_expiries and _local_expiries[0][0] <= now: ...]. *)
Fixpoint purge_loop (now : Z) (windows : gmap (list Z) (Z * Z)) (expiries : list (Z * list Z)) : LocalState :=
  match expiries with
  | (expires_at, key) :: rest =>
      if expires_at <=? now then
        purge_loop now
          (match windows !! key with
           | Some (e, _) => if e =? expires_at then delete key windows else windows
           | None => windows
           end) rest
      else MkLocal windows expiries
  | [] => MkLocal windows []
  end.
Definition _purge_expired_local_windows (now : Z) (l : LocalState) : LocalState :=
  purge_loop now (_local_windows l) (_local_expiries l).

Definition over (limit count expires_at now : Z) : option Z :=
  if limit <? count then Some (Z.max 1 (ceil_seconds (expires_at - now))) else None.

Definition _hit_local (max_keys : Z) (key : pystr) (limit window_seconds now : Z) (l : LocalState) : RateLimitResult * LocalState :=
  let l := _purge_expired_local_windows now l in
  match _local_windows l !! key with
  | None =>
      if max_keys <=? Z.of_nat (size (_local_windows l)) then
        let next_expiry := match _local_expiries l with (e, _) :: _ => e | [] => now + window_seconds * second end in
        (MkResult (Some (Z.max 1 (ceil_seconds (next_expiry - now)))) Local, l)
      else
        let expires_at := now + window_seconds * second in
        (MkResult (over limit 1 expires_at now) Local,
         MkLocal (<[key := (expires_at, 1)]> (_local_windows l)) (heappush (expires_at, key) (_local_expiries l)))
  | Some (expires_at, count) =>
      let count := count + 1 in
      (MkResult (over limit count expires_at now) Local,
       MkLocal (<[key := (expires_at, count)]> (_local_windows l)) (_local_expiries l))
  end.

(** [evaluated] is what the Redis script returned, count and remaining seconds,
    or [None] where the call raised. *)
Definition hit (evaluated : option (Z * Z)) (max_keys : Z) (key : pystr) (limit window_seconds : Z)
    (failure_policy : FailurePolicy) (now : Z) (l : LocalState) : RateLimitResult * LocalState :=
  match evaluated with
  | Some (count, ttl) =>
      if limit <? count then (MkResult (Some (if 0 <? ttl then ttl else 1)) Redis, l) else (MkResult None Redis, l)
  | None =>
      match failure_policy with
      | policy_allow => (MkResult None Bypassed, l)
      | policy_local => _hit_local max_keys key limit window_seconds now l
      end
  end.

(** *** Reference: windows without the heap *)

Definition live_windows (now : Z) (m : gmap (list Z) (Z * Z)) : gmap (list Z) (Z * Z) :=
  filter (fun kv => now < kv.2.1) m.

Definition reference_hit (max_keys : Z) (key : pystr) (limit window_seconds now : Z) (m : gmap (list Z) (Z * Z))
    : bool * gmap (list Z) (Z * Z) :=
  let m := live_windows now m in
  match m !! key with
  | Some (expires_at, count) => (count + 1 <=? limit, <[key := (expires_at, count + 1)]> m)
  | None =>
      if max_keys <=? Z.of_nat (size m) then (false, m)
      else (1 <=? limit, <[key := (now + window_seconds * second, 1)]> m)
  end.
Definition admitted (r : RateLimitResult) : bool := bool_decide (retry_after_seconds r = None).

(** The heap has one entry per window and is in order. *)
Definition entries (m : gmap (list Z) (Z * Z)) : list (Z * list Z) := (fun kv => (kv.2.1, kv.1)) <$> map_to_list m.
Record heap_ok (l : LocalState) : Prop := {
  hp_perm : _local_expiries l ≡ₚ entries (_local_windows l);
  hp_sorted : StronglySorted (key_le heap_key) (_local_expiries l)
}.

Lemma heappush_perm x h : heappush x h ≡ₚ x :: h.
Proof. induction h as [|y h IH]; cbn [heappush]; [done|]. destruct (lex_leb _ _); [reflexivity|]. rewrite IH. apply Permutation_swap. Qed.

Lemma heappush_sorted x h : StronglySorted (key_le heap_key) h -> StronglySorted (key_le heap_key) (heappush x h).
Proof.
  induction 1 as [|y h Hs IH Hy]; cbn [heappush]; [by repeat constructor|]. destruct (lex_leb _ _) eqn:E.
  - constructor; [by constructor|]. constructor; [done|]. eapply Forall_impl; [exact Hy|].
    intros z Hz. by transitivity y.
  - constructor; [done|]. apply Forall_forall. intros z Hz. rewrite heappush_perm in Hz.
    apply elem_of_cons in Hz as [->|Hz]; [|by eapply Forall_forall in Hy].
    destruct (total (key_le heap_key) x y) as [Hxy|]; [|done]. unfold key_le, lex_le in Hxy. congruence.
Qed.

Lemma entries_lookup m e k : (e, k) ∈ entries m <-> exists c, m !! k = Some (e, c).
Proof.
  unfold entries. rewrite list_elem_of_fmap. split.
  - intros ([k' [e' c]] & [= -> ->] & Hin%elem_of_map_to_list). eauto.
  - intros [c Hm]. exists (k, (e, c)). split; [done|]. by apply elem_of_map_to_list.
Qed.

Lemma entries_delete m k e c : m !! k = Some (e, c) -> entries m ≡ₚ (e, k) :: entries (delete k m).
Proof. intros Hm. unfold entries. by rewrite <-(map_to_list_delete m k (e, c)). Qed.

(** Popping from the heap removes exactly the expired windows. *)
Lemma purge_ok now l : heap_ok l ->
  let l' := _purge_expired_local_windows now l in
  heap_ok l' /\ _local_windows l' = live_windows now (_local_windows l).
Proof.
  destruct l as [m h]. intros [Hp Hs]. cbn in Hp, Hs. unfold _purge_expired_local_windows. cbn.
  revert m Hp. induction Hs as [|[e k] h Hs IH Hy]; intros m Hp; cbn [purge_loop].
  - assert (Hm : m = ∅).
    { apply map_to_list_empty_iff. apply Permutation_nil_l in Hp. unfold entries in Hp. symmetry in Hp. by apply fmap_nil_inv in Hp. }
    subst m. split; [split; [done|constructor]|]. cbn. unfold live_windows. by rewrite map_filter_empty.
  - assert (Hk : exists c, m !! k = Some (e, c)) by (apply entries_lookup; rewrite <-Hp; constructor).
    destruct Hk as [c Hk]. destruct (Z.leb_spec e now) as [Hle|Hgt].
    + rewrite Hk, Z.eqb_refl. destruct (IH (delete k m)) as [H1 H2].
      { apply Permutation_cons_inv with (e, k). by rewrite Hp, <-entries_delete. }
      split; [done|]. rewrite H2. unfold live_windows. rewrite map_filter_delete, delete_id; [done|].
      apply map_lookup_filter_None. right. intros x Hx. rewrite Hk in Hx. injection Hx as <-. cbn. lia.
    + split; [split; [done|by constructor]|]. cbn. unfold live_windows. symmetry. apply map_filter_id.
      intros k' [e' c'] Hk'. cbn. assert (Hin : (e', k') ∈ (e, k) :: h) by (rewrite Hp; apply entries_lookup; eauto).
      apply elem_of_cons in Hin as [[= -> ->]|Hin]; [done|]. eapply Forall_forall in Hy; [|exact Hin].
      unfold key_le, lex_le, heap_key in Hy. apply lex_leb_cons in Hy as [?|[? _]]; cbn in *; lia.
Qed.

Lemma entries_insert m k e c : m !! k = None -> entries (<[k := (e, c)]> m) ≡ₚ (e, k) :: entries m.
Proof. intros Hm. unfold entries. by rewrite map_to_list_insert. Qed.

Lemma entries_recount m k e c c' : m !! k = Some (e, c) -> entries (<[k := (e, c')]> m) ≡ₚ entries m.
Proof.
  intros Hm. rewrite (entries_delete m k e c Hm), <-insert_delete_eq. apply entries_insert. apply lookup_delete_eq.
Qed.

Lemma admitted_over limit count e now b : admitted (MkResult (over limit count e now) b) = (count <=? limit).
Proof. unfold admitted, over. cbn. destruct (Z.ltb_spec limit count); case_bool_decide; (done || lia || (symmetry; lia)). Qed.

Lemma hit_local_reference max_keys key limit w now l : heap_ok l ->
  let '(r, l') := _hit_local max_keys key limit w now l in
  heap_ok l' /\ (admitted r, _local_windows l') = reference_hit max_keys key limit w now (_local_windows l).
Proof.
  intros Hok. destruct (purge_ok now l Hok) as [Hok' Hw]. unfold _hit_local, reference_hit. rewrite <-Hw.
  destruct (_purge_expired_local_windows now l) as [m h] eqn:El. cbn [_local_windows _local_expiries] in *.
  destruct Hok' as [Hp Hs]. cbn in Hp, Hs.
  destruct (m !! key) as [[e c]|] eqn:Ek.
  - rewrite admitted_over. split; [|done]. split; cbn; [|done]. by rewrite (entries_recount m key e c).
  - destruct (_ <=? _).
    + split; [by split|done].
    + rewrite admitted_over. split; [|done]. split; cbn.
      * by rewrite heappush_perm, entries_insert, Hp.
      * by apply heappush_sorted.
Qed.

Definition fresh_state : LocalState := MkLocal ∅ [].
Lemma fresh_ok : heap_ok fresh_state.
Proof. split; [done|constructor]. Qed.

(** One call during an outage of Redis. *)
Record call := MkCall { c_key : list Z; c_limit : Z; c_window : Z; c_now : Z }.
Definition run_call (max_keys : Z) (l : LocalState) (c : call) : LocalState :=
  (_hit_local max_keys (c_key c) (c_limit c) (c_window c) (c_now c) l).2.
Definition reference_call (max_keys : Z) (m : gmap (list Z) (Z * Z)) (c : call) : gmap (list Z) (Z * Z) :=
  (reference_hit max_keys (c_key c) (c_limit c) (c_window c) (c_now c) m).2.

Lemma run_calls_ok max_keys calls l : heap_ok l ->
  heap_ok (fold_left (run_call max_keys) calls l)
  /\ _local_windows (fold_left (run_call max_keys) calls l) = fold_left (reference_call max_keys) calls (_local_windows l).
Proof.
  revert l. induction calls as [|c calls IH]; intros l Hl; [done|]. cbn [fold_left].
  pose proof (hit_local_reference max_keys (c_key c) (c_limit c) (c_window c) (c_now c) l Hl) as Hr.
  destruct (_hit_local _ _ _ _ _ l) as [r l'] eqn:E. destruct Hr as [Hl' Hr].
  assert (Hc : run_call max_keys l c = l') by (unfold run_call; by rewrite E).
  assert (Hm : reference_call max_keys (_local_windows l) c = _local_windows l') by (unfold reference_call; by rewrite <-Hr).
  rewrite Hc, Hm. by apply IH.
Qed.

(** C30. The local fallback, with its heap of expiries, decides every call of any
    sequence exactly like the reference that keeps the unexpired windows. *)
Theorem local_limiter_equivalent max_keys calls key limit w now :
  let l := fold_left (run_call max_keys) calls fresh_state in
  let '(r, l') := _hit_local max_keys key limit w now l in
  (admitted r, _local_windows l')
  = reference_hit max_keys key limit w now (fold_left (reference_call max_keys) calls ∅).
Proof.
  cbv zeta. destruct (run_calls_ok max_keys calls fresh_state fresh_ok) as [Hl Hw].
  pose proof (hit_local_reference max_keys key limit w now _ Hl) as Hr.
  destruct (_hit_local _ _ _ _ _ _) as [r l']. rewrite Hw in Hr. apply Hr.
Qed.

Lemma live_size now m : (size (live_windows now m) <= size m)%nat.
Proof. apply map_subseteq_size, map_filter_subseteq. Qed.

Lemma reference_size max_keys m c : 0 <= max_keys -> Z.of_nat (size m) <= max_keys ->
  Z.of_nat (size (reference_call max_keys m c)) <= max_keys.
Proof.
  intros Hmax Hm. unfold reference_call, reference_hit. pose proof (live_size (c_now c) m).
  destruct (live_windows (c_now c) m !! c_key c) as [[e n]|] eqn:Ek; cbn.
  - rewrite map_size_insert_Some by eauto. lia.
  - destruct (Z.leb_spec max_keys (Z.of_nat (size (live_windows (c_now c) m)))); cbn; [lia|].
    rewrite map_size_insert_None by done. lia.
Qed.

(** Memory of the fallback is bounded: whatever keys are tried, neither the
    windows nor the heap ever hold more than the configured number of keys. *)
Theorem local_limiter_is_bounded max_keys calls :
  0 <= max_keys ->
  let l := fold_left (run_call max_keys) calls fresh_state in
  Z.of_nat (size (_local_windows l)) <= max_keys /\ Z.of_nat (length (_local_expiries l)) <= max_keys.
Proof.
  intros Hmax l. destruct (run_calls_ok max_keys calls fresh_state fresh_ok) as [[Hp _] Hw]. fold l in Hp, Hw.
  assert (Hs : Z.of_nat (size (_local_windows l)) <= max_keys).
  { rewrite Hw. cbn [fresh_state _local_windows]. assert (Hz : Z.of_nat (size (∅ : gmap (list Z) (Z * Z))) <= max_keys) by (by rewrite map_size_empty).
    revert Hz. generalize (∅ : gmap (list Z) (Z * Z)). clear -Hmax.
    induction calls as [|c calls IH]; intros m Hm; [done|]. cbn. by apply IH, reference_size. }
  split; [done|]. rewrite Hp. unfold entries. by rewrite length_fmap, length_map_to_list.
Qed.

Lemma local_limiter_is_bounded_witness :
  0 <= 2 /\ Z.of_nat (size (_local_windows (fold_left (run_call 2)
    [MkCall (py "a") 1 60 0; MkCall (py "b") 1 60 1; MkCall (py "c") 1 60 2] fresh_state))) <= 2.
Proof.
  split; [lia|]. exact (proj1 (local_limiter_is_bounded 2 [MkCall (py "a") 1 60 0; MkCall (py "b") 1 60 1; MkCall (py "c") 1 60 2]
    ltac:(lia))).
Defined.
End RateLimit.
