(* ===== verification/Policies.v ===== *)
(** * Input policies (backend/app/core/password_policy.py, payload_limits.py)

    The rules for new passwords and the size and depth limits on message
    bodies.  Reactions are in [Messages]. *)

From S2P Require Import Prelude PyStr Json Models Session Identifiers Encryption.
Local Open Scope Z_scope.

(** ** Passwords *)

Definition PASSWORD_MIN_LENGTH : Z := 12.
Definition PASSWORD_MAX_LENGTH : Z := 256.

Definition is_upper (c : Z) : bool := (65 <=? c) && (c <=? 90).
Definition is_lower (c : Z) : bool := (97 <=? c) && (c <=? 122).
(** [[!@#$%^&*()_+\-=\[\]{}|;:,.<>?]]. *)
Definition is_special (c : Z) : bool := bool_decide (c ∈ py "!@#$%^&*()_+-=[]{}|;:,.<>?").

Definition password_policy_errors (password : pystr) : list string :=
  let n := Z.of_nat (length password) in
  (if n <? PASSWORD_MIN_LENGTH then ["contain at least 12 characters"%string] else [])
  ++ (if PASSWORD_MAX_LENGTH <? n then ["contain at most 256 characters"%string] else [])
  ++ (if existsb is_upper password then [] else ["contain an uppercase letter"%string])
  ++ (if existsb is_lower password then [] else ["contain a lowercase letter"%string])
  ++ (if existsb is_digit password then [] else ["contain a number"%string])
  ++ (if existsb is_special password then [] else ["contain a special character"%string])
  ++ (if existsb isspace password then ["not contain whitespace"%string] else []).

Definition validate_new_password (password : pystr) : res pystr :=
  match password_policy_errors password with
  | [] => mret password
  | _ => raise (ValueError "Password must satisfy the policy")
  end.

(** ** Message bodies *)

Class PayloadSettings := {
  message_text_max_bytes : Z;
  message_json_max_depth : Z;
  message_json_max_bytes : Z
}.

(** The children that the walk pushes: values of a dictionary, items of a list. *)
Definition children (v : pyval) : list pyval :=
  match v with
  | PDict kvs => snd <$> kvs
  | PList l => l
  | _ => []
  end.

Fixpoint node_count (v : pyval) : nat :=
  match v with
  | PList l => S (foldr (fun x n => node_count x + n)%nat 0%nat l)
  | PDict kvs => S (foldr (fun kv n => node_count kv.2 + n)%nat 0%nat kvs)
  | _ => 1%nat
  end.

(** [while stack: current, depth = stack.pop(); ...]; the stack grows at the
    end of the list. *)
Fixpoint depth_loop (fuel : nat) (max_depth : Z) (stack : list (pyval * Z)) : option Z :=
  match rev stack with
  | [] => Some max_depth
  | (current, depth) :: below =>
      match fuel with
      | O => None
      | S fuel => depth_loop fuel (Z.max max_depth depth) (rev below ++ ((fun item => (item, depth + 1)) <$> children current))
      end
  end.
(** Every node is popped once. *)
Definition _json_depth (value : pyval) : option Z := depth_loop (node_count value) 1 [(value, 1)].

(** [json.dumps(allow_nan=False)] refuses these. *)
Fixpoint has_nan (v : pyval) : bool :=
  match v with
  | PFloat r => bool_decide (r ∈ [py "nan"; py "inf"; py "-inf"])
  | PList l => existsb has_nan l
  | PDict kvs => existsb (fun kv => has_nan kv.2) kvs
  | _ => false
  end.

Section Bodies.
Context `{PayloadSettings}.

(** [value.encode("utf-8")] raises [UnicodeEncodeError], a [ValueError]. *)
Definition validate_message_text (value : option pystr) : res (option pystr) :=
  match value with
  | None => mret None
  | Some s =>
      match utf8_encode s with
      | None => raise (ValueError "surrogates not allowed")
      | Some bs =>
          if message_text_max_bytes <? Z.of_nat (length bs) then raise (ValueError "content_text exceeds") else mret value
      end
  end.

Definition validate_message_json (value : option pyval) : res (option pyval) :=
  match value with
  | None => mret None
  | Some v =>
      if match _json_depth v with Some d => message_json_max_depth <? d | None => true end
      then raise (ValueError "content_json exceeds maximum nesting depth")
      else if has_nan v then raise (ValueError "content_json must contain finite JSON values")
      else
        match utf8_encode (json_dumps_raw v) with
        | None => raise (ValueError "content_json must contain finite JSON values")
        | Some bs =>
            if message_json_max_bytes <? Z.of_nat (length bs) then raise (ValueError "content_json exceeds bytes") else mret value
        end
  end.
End Bodies.

(** ** The walk computes the nesting depth *)

Fixpoint nesting (v : pyval) : Z :=
  match v with
  | PList l => 1 + foldr (fun x m => Z.max (nesting x) m) 0 l
  | PDict kvs => 1 + foldr (fun kv m => Z.max (nesting kv.2) m) 0 kvs
  | _ => 1
  end.

Definition stack_nodes (stack : list (pyval * Z)) : nat := foldr (fun x n => node_count x.1 + n)%nat 0%nat stack.
Definition stack_depth (stack : list (pyval * Z)) (m : Z) : Z := foldr (fun x m => Z.max (x.2 + nesting x.1 - 1) m) m stack.

Lemma stack_nodes_app s t : stack_nodes (s ++ t) = (stack_nodes s + stack_nodes t)%nat.
Proof. unfold stack_nodes. induction s as [|x s IH]; [done|]. cbn. rewrite IH. lia. Qed.
Lemma stack_depth_app s t m : stack_depth (s ++ t) m = stack_depth s (stack_depth t m).
Proof. unfold stack_depth. by rewrite foldr_app. Qed.
Lemma stack_depth_max s m n : stack_depth s (Z.max m n) = Z.max (stack_depth s m) n.
Proof. unfold stack_depth. induction s as [|x s IH]; cbn; [done|]. rewrite IH. lia. Qed.

Lemma nesting_pos v : 1 <= nesting v.
Proof.
  assert (H : forall A (f : A -> Z) l, 0 <= foldr (fun x m => Z.max (f x) m) 0 l) by (intros A f l; induction l; cbn; lia).
  destruct v; cbn; try lia; [specialize (H _ nesting l)|specialize (H _ (fun kv => nesting kv.2) kvs)]; lia.
Qed.

(** A node costs one pop and its children follow one level deeper. *)
Lemma children_nodes v d : stack_nodes ((fun item => (item, d)) <$> children v) = pred (node_count v).
Proof.
  unfold stack_nodes. destruct v as [| | | | | | | |l|l|kvs]; cbn; try done.
  - induction l as [|x l IH]; cbn; [done|]. by rewrite IH.
  - induction kvs as [|x l IH]; cbn; [done|]. by rewrite IH.
Qed.

Lemma children_depth v d m :
  Z.max (stack_depth ((fun item => (item, d + 1)) <$> children v) m) d = Z.max (d + nesting v - 1) m.
Proof.
  assert (H : forall A (f : A -> pyval) l,
    Z.max (stack_depth ((fun x => (f x, d + 1)) <$> l) m) d
    = Z.max (d + (1 + foldr (fun x m => Z.max (nesting (f x)) m) 0 l) - 1) m).
  { intros A f l. unfold stack_depth. induction l as [|x l IH]; cbn; [lia|]. pose proof (nesting_pos (f x)). lia. }
  destruct v as [| | | | | | | |l|l|kvs]; cbn [children nesting]; try (cbn; lia).
  - apply (H pyval (fun x => x)).
  - rewrite <-list_fmap_compose. apply (H _ snd).
Qed.

Lemma depth_loop_ok fuel m stack : (stack_nodes stack <= fuel)%nat -> depth_loop fuel m stack = Some (stack_depth stack m).
Proof.
  revert m stack. induction fuel as [|fuel IH]; intros m stack Hf; cbn [depth_loop].
  - destruct (rev stack) as [|[v d] below] eqn:E; [by rewrite <-(rev_involutive stack), E|].
    exfalso. rewrite <-(rev_involutive stack), E in Hf. cbn in Hf. rewrite stack_nodes_app in Hf. cbn in Hf.
    destruct v; cbn in Hf; lia.
  - destruct (rev stack) as [|[v d] below] eqn:E; [by rewrite <-(rev_involutive stack), E|].
    assert (Hs : stack = rev below ++ [(v, d)]) by (rewrite <-(rev_involutive stack), E; done).
    rewrite IH.
    + by rewrite Hs, !stack_depth_app, (stack_depth_max (_ <$> _)), children_depth.
    + rewrite Hs, stack_nodes_app in Hf. rewrite stack_nodes_app, children_nodes. cbn in Hf.
      assert (node_count v <> 0%nat) by (destruct v; cbn; lia). lia.
Qed.

(** The iterative depth check always ends, and computes the nesting depth of
    the value: an accepted JSON body is never nested deeper than the limit, and
    its serialization never longer. *)
Theorem json_body_within_limits `{PayloadSettings} v :
  _json_depth v = Some (nesting v)
  /\ (validate_message_json (Some v) = inr (Some v) <->
      nesting v <= message_json_max_depth /\ has_nan v = false
      /\ exists bs, utf8_encode (json_dumps_raw v) = Some bs /\ Z.of_nat (length bs) <= message_json_max_bytes).
Proof.
  assert (E : _json_depth v = Some (nesting v)).
  { unfold _json_depth. rewrite depth_loop_ok by (cbn; lia). cbn. f_equal. pose proof (nesting_pos v). lia. }
  split; [done|]. unfold validate_message_json. rewrite E.
  destruct (Z.ltb_spec message_json_max_depth (nesting v)); [split; [done|lia]|].
  destruct (has_nan v); [split; [done|by intros (_ & ? & _)]|].
  destruct (utf8_encode (json_dumps_raw v)) as [bs|]; [|split; [done|by intros (_ & _ & ? & ? & _)]].
  destruct (Z.ltb_spec message_json_max_bytes (Z.of_nat (length bs))).
  - split; [done|]. intros (_ & _ & bs' & [= <-] & ?). lia.
  - split; [|done]. intros _. split_and!; [done|done|]. by exists bs.
Qed.
