(* ===== verification/Admin.v ===== *)
(** * Administration (backend/app/services/admin_service.py,
    superadmin_bootstrap_service.py, core/password_policy.py)

    The supervisor's dashboard: searches over users, channels and audit events,
    activation and deactivation of accounts, revocation of sessions, restoring
    a deleted channel, and the creation of the first superadmin.  [LIKE] is
    PostgreSQL's; the folding of its case-insensitive variant is the class
    [Collation]. *)

From S2P Require Import Prelude PyStr Sha256 Json Models Session EventIntegrity Identifiers Rbac Outbox Encryption.
From S2P Require Import Uploads Channels Auth Policies.
Local Open Scope Z_scope.

(** ** LIKE *)

(** The database's lower-casing of a character: the metacharacters of [LIKE]
    are no letters. *)
Class Collation := { fold_char : Z -> Z }.
Class CollationLaws `{Collation} := {
  fold_meta : forall c m, m = 92 \/ m = 37 \/ m = 95 -> (fold_char c = m <-> c = m)
}.

Definition BACKSLASH : Z := 92.
Definition PERCENT : Z := 37.
Definition UNDERSCORE : Z := 95.

(** [s LIKE p ESCAPE '\\']; a pattern that ends in the escape is refused by the
    server and matches nothing here. *)
Fixpoint like (p s : pystr) : bool :=
  match p with
  | [] => bool_decide (s = [])
  | c :: p' =>
      if c =? BACKSLASH then
        match p' with
        | [] => false
        | d :: p'' => match s with x :: s' => (x =? d) && like p'' s' | [] => false end
        end
      else if c =? PERCENT then
        (fix any (s : pystr) : bool := like p' s || match s with [] => false | _ :: s' => any s' end) s
      else
        match s with
        | [] => false
        | x :: s' => ((c =? UNDERSCORE) || (x =? c)) && like p' s'
        end
  end.

(** [value.replace(c, by)] of a one-character string. *)
Definition replace_char (c : Z) (by_ : pystr) (s : pystr) : pystr := s ≫= fun x => if x =? c then by_ else [x].

Definition _escape_like (value : pystr) : pystr :=
  replace_char UNDERSCORE [BACKSLASH; UNDERSCORE]
    (replace_char PERCENT [BACKSLASH; PERCENT] (replace_char BACKSLASH [BACKSLASH; BACKSLASH] value)).

(** ** Details of audit events *)

Definition SAFE_EVENT_DETAIL_KEYS_BY_PREFIX : list (list Z * list (list Z)) :=
  [(py "channel", py <$> ["channel_id"; "channel_slug"; "join_mode"; "name"; "requested_slug"; "resolved_slug";
                          "superadmin_override"; "visibility"]);
   (py "message", py <$> ["attachment_count"; "channel_id"; "content_type"; "message_id"; "reason"; "seq_id"]);
   (py "membership", py <$> ["channel_id"; "role"; "target_user_id"; "user_id"]);
   (py "member", py <$> ["channel_id"; "role"; "target_user_id"]);
   (py "invite", py <$> ["channel_id"; "invite_id"; "target_user_id"; "user_id"]);
   (py "upload", py <$> ["actual_size_bytes"; "content_type"; "expected_size_bytes"; "filename"; "has_checksum"; "reason";
                         "size_bytes"; "upload_id"]);
   (py "security", py <$> ["channel_id"; "identity"; "reason"; "upload_id"]);
   (py "broker", py <$> ["attempt_count"; "channel_id"; "manual_retry"; "max_attempts"; "outbox_id";
                         "previous_attempt_count"; "previous_status"; "reason"; "retry_in_seconds"]);
   (py "superadmin", py <$> ["channel_id"; "channel_slug"; "revoked_sessions"; "target_user_id"; "target_username";
                             "user_id"; "username"]);
   (py "user", py <$> ["user_id"; "username"])].

Definition EVENT_CATEGORY_PREFIXES : list (list Z * list (list Z)) :=
  [(py "security", py <$> ["security."]); (py "channels", py <$> ["channel."]); (py "messages", py <$> ["message."]);
   (py "memberships", py <$> ["membership."; "member."; "invite."]); (py "uploads", py <$> ["upload."]);
   (py "delivery", py <$> ["broker."]); (py "administration", py <$> ["superadmin."]);
   (py "system", py <$> ["system."; "user."])].

(** A Python [dict]: its entries in order of insertion. *)
Abbreviation dict := (list (list Z * pyval)) (only parsing).

(** [isinstance(value, (str, int, bool)) or value is None and key in payload],
    and the value that is shown. *)
Definition shown (payload : dict) (key : pystr) : option pyval :=
  match assoc key payload with
  | Some (PStr s) => Some (PStr (take 160 s))
  | Some (PInt n) => Some (PInt n)
  | Some (PBool b) => Some (PBool b)
  | Some PNone => Some PNone
  | _ => None
  end.

(** [payload.get(a) or payload.get(b)]. *)
Definition get_or (a b : pystr) (payload : dict) : option pyval :=
  match assoc a payload with Some v => if truthy v then Some v else assoc b payload | None => assoc b payload end.

Definition enabled_permissions (permissions : dict) : list pystr :=
  order_by (fun k => k) (fst <$> List.filter (fun kv => match kv.2 with PBool true => true | _ => false end) permissions).

(** The whitelist is a set: the order of its keys here is not significant. *)
Definition _safe_event_details (event_type : pystr) (payload : dict) : dict :=
  let prefix := fst (break_at (Z.eqb 46) event_type) in
  let allowed_keys := default [] (assoc prefix SAFE_EVENT_DETAIL_KEYS_BY_PREFIX) in
  let projected := omap (fun key => (fun v => (key, v)) <$> shown payload key) allowed_keys in
  let projected :=
    if startswith (py "message.") event_type then
      let projected :=
        match get_or (py "message_id") (py "id") payload with
        | Some (PStr message_id) => dict_set projected (py "message_id") (PStr (take 160 message_id))
        | _ => projected
        end in
      match assoc (py "attachments") payload with
      | Some (PList attachments) => dict_set projected (py "attachment_count") (PInt (Z.of_nat (length attachments)))
      | _ => projected
      end
    else projected in
  match assoc (py "admin_permissions") payload with
  | Some (PDict permissions) =>
      if str_eqb prefix (py "member") then
        let enabled := enabled_permissions permissions in
        dict_set projected (py "permissions")
          (PStr (match enabled with [] => py "none" | _ => take 160 (join (py ", ") enabled) end))
      else projected
  | _ => projected
  end.

Fixpoint _payload_uuid (payload : dict) (keys : list pystr) : option N :=
  match keys with
  | [] => None
  | key :: keys =>
      match assoc key payload with
      | None | Some PNone => _payload_uuid payload keys
      | Some value =>
          match uuid_of_str (py_str value) with Some u => Some u | None => _payload_uuid payload keys end
      end
  end.

(** ** Searches *)

Record AdminOverviewResponse := {
  total_users : Z; active_users : Z; total_channels : Z; active_channels : Z; total_messages : Z; total_events : Z;
  delivery_failures : Z
}.
(** The items of the listings, without [updated_at]. *)
Record AdminUserItem := {
  au_user : User.t; au_active_session_count : Z
}.
Record AdminChannelItem := {
  ach_channel : Channel.t; ach_owner_username : pystr; ach_member_count : Z; ach_message_count : Z
}.
Record AdminEventItem := {
  ae_id : N; ae_channel_id : option N; ae_channel_name : option pystr; ae_channel_slug : option pystr;
  ae_actor_user_id : option N; ae_actor_username : option pystr; ae_event_type : pystr; ae_details : dict;
  ae_created_at : instant; ae_event_hash : option pystr; ae_integrity_scope : option pystr; ae_merkle_checkpointed : bool
}.

(** [.offset(offset).limit(limit)]. *)
Definition page {A} (offset limit : Z) (l : list A) : list A := take (Z.to_nat limit) (drop (Z.to_nat offset) l).

(** [term[1:] if term.startswith(("#", "@")) else term]. *)
Definition identifier_of (term : pystr) : pystr :=
  match term with c :: rest => if (c =? 35) || (c =? 64) then rest else term | [] => term end.

(** A parameter [str | None] used as a condition. *)
Definition given (q : option pystr) : option pystr := match q with Some ((_ :: _) as s) => Some s | _ => None end.

Section Queries.
Context `{World} `{UnicodeData} `{Collation}.

(** [column.ilike(p, escape="\\")]; a NULL column does not match. *)
Definition ilike (p s : pystr) : bool := like (fold_char <$> p) (fold_char <$> s).
Definition ilike_opt (p : pystr) (s : option pystr) : bool := match s with Some s => ilike p s | None => false end.
(** [func.lower(column) == value]. *)
Definition lower_is (s value : pystr) : bool := str_eqb (fold_char <$> s) value.

Definition substring_pattern (term : pystr) : pystr := [PERCENT] ++ _escape_like term ++ [PERCENT].
Definition prefix_pattern (term : pystr) : pystr := _escape_like term ++ [PERCENT].

(** [CASE WHEN c0 THEN 0 WHEN c1 THEN 1 ... ELSE n]. *)
Fixpoint case_rank (n : Z) (conditions : list bool) : Z :=
  match conditions with
  | [] => n
  | c :: rest => if c then n else case_rank (n + 1) rest
  end.

Definition delivery_failure_statuses : list OutboxStatus := [failed; retry_scheduled; dead_lettered].

Definition overview : M AdminOverviewResponse :=
  gets (fun st => {|
    total_users := count_where (fun _ => true) (rows (users st));
    active_users := count_where User.is_active (rows (users st));
    total_channels := count_where (fun _ => true) (rows (channels st));
    active_channels := count_where (fun c => bool_decide (Channel.deleted_at c = None)) (rows (channels st));
    total_messages := count_where (fun _ => true) (rows (messages st));
    total_events := count_where (fun _ => true) (rows (events st));
    delivery_failures := count_where (fun o => bool_decide (Outbox.status o ∈ delivery_failure_statuses)) (rows (outbox st)) |}).

(** *** Users *)

Definition user_matches (q : option pystr) (is_active : option bool) (u : User.t) : bool :=
  match given q with
  | Some q =>
      let pattern := substring_pattern (removeprefix (py "@") (strip q)) in
      ilike pattern (User.username u) || ilike_opt pattern (User.email u) || ilike_opt pattern (User.display_name u)
  | None => true
  end
  && match is_active with Some b => Bool.eqb (User.is_active u) b | None => true end.

Definition user_order (q : option pystr) (u : User.t) : list Z :=
  let tail := [- User.created_at u; - Z.of_N (User.id u)] in
  match given (strip <$> given q) with
  | Some stripped =>
      let term := removeprefix (py "@") stripped in
      let prefix := prefix_pattern term in
      case_rank 0 [lower_is (User.username u) (lower term); ilike prefix (User.username u);
                   ilike_opt prefix (User.display_name u); ilike_opt prefix (User.email u)] :: tail
  | None => tail
  end.

Definition active_session (now1 now2 : instant) (user_id : N) (s : UserSession.t) : bool :=
  bool_decide (UserSession.user_id s = user_id) && bool_decide (UserSession.revoked_at s = None)
  && (now1 <? UserSession.expires_at s) && (now2 <? UserSession.absolute_expires_at s).

Definition list_users (q : option pystr) (is_active : option bool) (offset limit : Z) : M (list AdminUserItem * Z) :=
  now1 ← utcnow;
  now2 ← utcnow;
  gets (fun st =>
    let found := List.filter (user_matches q is_active) (rows (users st)) in
    ((fun u => {| au_user := u;
                  au_active_session_count := count_where (active_session now1 now2 (User.id u)) (rows (user_sessions st)) |})
       <$> page offset limit (order_by (user_order q) found),
     Z.of_nat (length found))).

(** *** Channels *)

Definition channel_owner (st : Store) (c : Channel.t) : option (Channel.t * pystr) :=
  (fun u => (c, User.username u)) <$> users st !! Channel.owner_user_id c.

Definition channel_matches (q : option pystr) (include_deleted : bool) (state visibility : option pystr)
    (cu : Channel.t * pystr) : bool :=
  let '(c, owner_username) := cu in
  (if bool_decide (state = Some (py "active")) || (negb include_deleted && bool_decide (state = None))
   then bool_decide (Channel.deleted_at c = None)
   else if bool_decide (state = Some (py "suspended")) then negb (bool_decide (Channel.deleted_at c = None))
   else true)
  && match given visibility with Some v => str_eqb (visibility_value (Channel.visibility c)) v | None => true end
  && match given q with
     | Some q =>
         let term := strip q in
         let pattern := substring_pattern term in
         let identifier_pattern := substring_pattern (identifier_of term) in
         ilike pattern (Channel.name c) || ilike identifier_pattern (Channel.channel_slug c)
         || ilike identifier_pattern owner_username
     | None => true
     end.

Definition channel_order (q : option pystr) (cu : Channel.t * pystr) : list Z :=
  let '(c, owner_username) := cu in
  let tail := [- Channel.created_at c; - Z.of_N (Channel.id c)] in
  match given (strip <$> given q) with
  | Some term =>
      let identifier_term := identifier_of term in
      case_rank 0 [lower_is (Channel.channel_slug c) (lower identifier_term); lower_is (Channel.name c) (lower term);
                   ilike (prefix_pattern identifier_term) (Channel.channel_slug c); ilike (prefix_pattern term) (Channel.name c);
                   ilike (prefix_pattern identifier_term) owner_username] :: tail
  | None => tail
  end.

Definition list_channels (q : option pystr) (include_deleted : bool) (state visibility : option pystr) (offset limit : Z)
  : M (list AdminChannelItem * Z) :=
  gets (fun st =>
    let found := List.filter (channel_matches q include_deleted state visibility) (omap (channel_owner st) (rows (channels st))) in
    ((fun cu => {| ach_channel := cu.1; ach_owner_username := cu.2;
                   ach_member_count := count_where (fun m => bool_decide (ChannelMembership.channel_id m = Channel.id cu.1)
                     && approved (ChannelMembership.role m)) (rows (channel_memberships st));
                   ach_message_count := count_where (fun m => bool_decide (Message.channel_id m = Channel.id cu.1))
                     (rows (messages st)) |})
       <$> page offset limit (order_by (channel_order q) found),
     Z.of_nat (length found))).
End Queries.

(** ** The channel of an audit event *)

(** The three dictionaries of events waiting for a referenced row. *)
Record EventRefs := MkRefs {
  resolved : gmap N N;
  message_refs : list (N * N);
  outbox_refs : list (N * N);
  upload_refs : list (N * N)
}.
Global Instance eta_EventRefs : Eta EventRefs := fun r =>
  MkRefs (resolved r) (message_refs r) (outbox_refs r) (upload_refs r).

Definition payload_dict (e : Event.t) : dict := match Event.payload e with PDict kvs => kvs | _ => [] end.

(** One event of the first loop; a reference is a pair of the row's id and the
    event's. *)
Definition collect_ref (r : EventRefs) (e : Event.t) : EventRefs :=
  match Event.channel_id e with
  | Some c => r <| resolved ::= <[Event.id e := c]> |>
  | None =>
      let payload := payload_dict e in
      match _payload_uuid payload [py "channel_id"] with
      | Some c => r <| resolved ::= <[Event.id e := c]> |>
      | None =>
          match _payload_uuid payload [py "message_id"; py "id"], _payload_uuid payload [py "outbox_id"],
                _payload_uuid payload [py "upload_id"] with
          | Some m, _, _ => r <| message_refs ::= fun l => l ++ [(m, Event.id e)] |>
          | None, Some o, _ => r <| outbox_refs ::= fun l => l ++ [(o, Event.id e)] |>
          | None, None, Some u => r <| upload_refs ::= fun l => l ++ [(u, Event.id e)] |>
          | None, None, None => r
          end
      end
  end.

(** [for row in rows: for event_id in refs.get(row.id, []): resolved[event_id] = ...]. *)
Definition resolve_refs (refs : list (N * N)) (channel_of : N -> option N) (m : gmap N N) : gmap N N :=
  foldl (fun m ref => match channel_of ref.1 with Some c => <[ref.2 := c]> m | None => m end) m refs.

(** The channels of the messages that attach an upload: the query keeps the
    messages whose attachments, as text, contain one of the identifiers. *)
Definition attachment_files (attachments : pyval) : list N :=
  match attachments with
  | PList l => omap (fun a => match a with PDict kvs => _payload_uuid kvs [py "file_id"] | _ => None end) l
  | _ => []
  end.
Definition upload_channels (upload_ids : list N) (upload_id : N) (st : Store) : list N :=
  remove_dups (Message.channel_id <$>
    List.filter (fun m =>
      match Message.attachments m with PNone => false | _ => true end
      && existsb (fun u => contains (uuid_str u) (json_dumps_raw (Message.attachments m))) upload_ids
      && bool_decide (upload_id ∈ attachment_files (Message.attachments m))) (rows (messages st))).
Definition upload_channel (upload_ids : list N) (st : Store) (upload_id : N) : option N :=
  match upload_channels upload_ids upload_id st with [c] => Some c | _ => None end.

Definition _resolve_event_channel_ids (es : list Event.t) (st : Store) : gmap N N :=
  let r := foldl collect_ref (MkRefs ∅ [] [] []) es in
  let m := resolve_refs (message_refs r) (fun id => Message.channel_id <$> messages st !! id) (resolved r) in
  let m := resolve_refs (outbox_refs r) (fun id => Outbox.channel_id <$> outbox st !! id) m in
  resolve_refs (upload_refs r) (upload_channel (fst <$> upload_refs r) st) m.

Section Events.
Context `{World} `{UnicodeData} `{Collation}.

Record event_row := { er_event : Event.t; er_username : option pystr; er_channel : option Channel.t }.
Definition event_joins (st : Store) (e : Event.t) : event_row :=
  {| er_event := e; er_username := User.username <$> (Event.actor_user_id e ≫= fun u => users st !! u);
     er_channel := Event.channel_id e ≫= fun c => channels st !! c |}.

Definition event_matches (q event_type category : option pystr) (channel_id actor_user_id : option N) (r : event_row) : bool :=
  let e := er_event r in
  match given event_type with Some t => lower_is (Event.event_type e) (lower (strip t)) | None => true end
  && match given category with
     | Some c =>
         match assoc c EVENT_CATEGORY_PREFIXES with
         | Some prefixes => existsb (fun p => startswith p (Event.event_type e)) prefixes
         | None => true
         end
     | None => true
     end
  && match channel_id with Some c => bool_decide (Event.channel_id e = Some c) | None => true end
  && match actor_user_id with Some a => bool_decide (Event.actor_user_id e = Some a) | None => true end
  && match given q with
     | Some q =>
         let term := strip q in
         let identifier_pattern := substring_pattern (identifier_of term) in
         ilike (substring_pattern term) (Event.event_type e) || ilike_opt identifier_pattern (er_username r)
         || ilike_opt identifier_pattern (Channel.name <$> er_channel r)
     | None => true
     end.

Definition event_order (q : option pystr) (r : event_row) : list Z :=
  let e := er_event r in
  let tail := [- Event.created_at e; - Z.of_N (Event.id e)] in
  match given (strip <$> given q) with
  | Some term =>
      let identifier_prefix := prefix_pattern (identifier_of term) in
      case_rank 0 [lower_is (Event.event_type e) (lower term); ilike (prefix_pattern term) (Event.event_type e);
                   ilike_opt identifier_prefix (er_username r); ilike_opt identifier_prefix (Channel.name <$> er_channel r)] :: tail
  | None => tail
  end.

Definition event_item (st : Store) (resolved : gmap N N) (r : event_row) : res AdminEventItem :=
  let e := er_event r in
  details ← match Event.payload e with
            | PDict payload => mret (_safe_event_details (Event.event_type e) payload)
            | _ => raise (AttributeError "get")
            end;
  let context := resolved !! Event.id e ≫= fun c => channels st !! c in
  let named := match context with Some c => Some c | None => er_channel r end in
  mret {| ae_id := Event.id e; ae_channel_id := resolved !! Event.id e;
     ae_channel_name := Channel.name <$> named; ae_channel_slug := Channel.channel_slug <$> named;
     ae_actor_user_id := Event.actor_user_id e; ae_actor_username := er_username r; ae_event_type := Event.event_type e;
     ae_details := details;
     ae_created_at := Event.created_at e; ae_event_hash := Event.event_hash e; ae_integrity_scope := Event.integrity_scope e;
     ae_merkle_checkpointed := existsb (fun l => bool_decide (AuditMerkleLeaf.event_id l = Event.id e))
                                 (rows (audit_merkle_leaves st)) |}.

Definition list_events (q event_type category : option pystr) (channel_id actor_user_id : option N) (offset limit : Z)
  : M (list AdminEventItem * Z) :=
  st ← gets id;
  let found := List.filter (event_matches q event_type category channel_id actor_user_id)
                 (event_joins st <$> rows (events st)) in
  let shown := page offset limit (order_by (event_order q) found) in
  let resolved := _resolve_event_channel_ids (er_event <$> shown) st in
  items ← of_res (res_map (event_item st resolved) shown);
  mret (items, Z.of_nat (length found)).
End Events.

(** ** Accounts and channels *)

Section AdminActions.
Context `{World} `{UnicodeData} `{BackendSettings}.

Definition user_not_found : exc := AppError 404 "USER_NOT_FOUND".
Definition protected_superadmin : exc := AppError 403 "PROTECTED_SUPERADMIN".

Definition set_user_active (actor_id target_user_id : N) (is_active : bool) : M Z :=
  target ← get_user target_user_id;
  target ← of_option user_not_found target;
  guard (negb (bool_decide (User.id target = actor_id))) (AppError 409 "SELF_ADMIN_ACTION") ;;
  guard (negb (User.is_superadmin target)) protected_superadmin ;;
  if Bool.eqb (User.is_active target) is_active then mret 0
  else
    deactivated_at ← (if is_active then mret None else now ← utcnow; mret (Some now));
    modify (fun st => st <| users ::= alter (fun u =>
      u <| User.is_active := is_active |> <| User.deactivated_at := deactivated_at |>
        <| User.deactivated_by_user_id := if is_active then None else Some actor_id |>) target_user_id |>) ;;
    revoked_count ← (if is_active then mret 0 else now ← utcnow; revoke_all (User.id target) now);
    _ ← log_event (if is_active then py "superadmin.user_reactivated" else py "superadmin.user_deactivated")
          (PDict [(py "target_user_id", str_id (User.id target)); (py "target_username", PStr (User.username target));
                  (py "revoked_sessions", PInt revoked_count)]) None (Some actor_id);
    commit ;;
    mret revoked_count.

Definition revoke_user_sessions (actor_id target_user_id : N) : M Z :=
  target ← get_user target_user_id;
  target ← of_option user_not_found target;
  guard (negb (User.is_superadmin target && negb (bool_decide (User.id target = actor_id)))) protected_superadmin ;;
  now ← utcnow;
  n ← revoke_all (User.id target) now;
  _ ← log_event (py "superadmin.user_sessions_revoked")
        (PDict [(py "target_user_id", str_id (User.id target)); (py "target_username", PStr (User.username target));
                (py "revoked_sessions", PInt n)]) None (Some actor_id);
  commit ;;
  mret n.

Definition restore_channel (actor_id channel_id : N) : M unit :=
  channel ← get_channel channel_id;
  channel ← of_option not_found channel;
  guard (negb (bool_decide (Channel.deleted_at channel = None))) (AppError 409 "CONFLICT") ;;
  put_channel channel_id (channel <| Channel.deleted_at := None |>) ;;
  _ ← enqueue_channel_event_outbox channel_id channel_id (py "channel_restored")
        [(py "type", PStr (py "channel_restored")); (py "channel_id", str_id channel_id)];
  _ ← bump_channel_membership_generation channel_id;
  rebind_members channel_id (py "bind") ;;
  _ ← log_event (py "superadmin.channel_restored")
        (PDict [(py "channel_id", str_id channel_id); (py "channel_slug", PStr (Channel.channel_slug channel))])
        (Some channel_id) (Some actor_id);
  commit.
End AdminActions.

(** ** The first superadmin *)

Section Bootstrap.
Context `{World} `{UnicodeData} `{Passwords}.

Definition ensure (username password : pystr) (email : option pystr) : M (User.t * bool) :=
  validated ← of_res (validate_username username);
  normalized_username ← of_res (normalize_username validated);
  of_res (match validate_new_password password with
          | inl (ValueError _) => raise (RuntimeError "SUPERADMIN_PASSWORD is invalid")
          | r => r
          end) ;;
  let normalized_email := match given email with
                          | Some e => match strip e with [] => None | _ => Some (normalize_email e) end
                          | None => None
                          end in
  found ← gets (fun st => List.filter (fun u => str_eqb (User.username u) normalized_username) (rows (users st)));
  existing ← of_res (scalar_one_or_none found);
  match existing with
  | Some u =>
      guard (User.is_superadmin u) (RuntimeError "refusing to auto-promote an existing normal user") ;;
      mret (u, false)
  | None =>
      (match given normalized_email with
       | Some e =>
           owners ← gets (fun st => List.filter (email_is e) (rows (users st)));
           owner ← of_res (scalar_one_or_none owners);
           guard (bool_decide (owner = None)) (RuntimeError "SUPERADMIN_EMAIL already belongs to another account")
       | None => mret tt
       end) ;;
      password_hash ← hash_password password;
      id ← uuid4;
      now ← utcnow;
      let user := User.Row id normalized_username normalized_email None password_hash None None None None true true None None now in
      insert_user user ;;
      _ ← log_event (py "superadmin.bootstrapped")
            (PDict [(py "user_id", str_id id); (py "username", PStr normalized_username)]) None (Some id);
      commit ;;
      mret (user, true)
  end.
End Bootstrap.

(** ** Searching is literal *)

Lemma escape_like_char value :
  _escape_like value = value ≫= fun c => if (c =? BACKSLASH) || (c =? PERCENT) || (c =? UNDERSCORE) then [BACKSLASH; c] else [c].
Proof.
  unfold _escape_like, replace_char. induction value as [|c s IH]; [done|].
  cbn [mbind list_bind]. rewrite <-IH. clear IH.
  destruct (Z.eqb_spec c BACKSLASH) as [->|H1]; [done|].
  destruct (Z.eqb_spec c PERCENT) as [->|H2]; [done|].
  destruct (Z.eqb_spec c UNDERSCORE) as [->|H3]; [done|]. cbn [orb].
  rewrite !bind_app. cbn. rewrite !bind_app. cbn.
  destruct (Z.eqb_spec c PERCENT) as [|_]; [done|]. cbn. by destruct (Z.eqb_spec c UNDERSCORE) as [|_].
Qed.

Section Search.
Context `{Collation} `{!CollationLaws}.

(** An escaped term matches itself and leaves the rest to the rest of the pattern. *)
Lemma like_escaped t p s :
  like ((fold_char <$> _escape_like t) ++ p) s
  = startswith (fold_char <$> t) s && like p (drop (length t) s).
Proof.
  rewrite escape_like_char. revert s. induction t as [|c t IH]; intros s; [done|].
  cbn [mbind list_bind]. rewrite fmap_app, <-app_assoc.
  assert (Hm : forall m, m = 92 \/ m = 37 \/ m = 95 -> (fold_char c =? m) = (c =? m)).
  { intros m Hm. destruct (Z.eqb_spec c m) as [E|E]; [apply Z.eqb_eq|apply Z.eqb_neq]; by rewrite fold_meta. }
  assert (Hcase : like ((fold_char <$> (if (c =? BACKSLASH) || (c =? PERCENT) || (c =? UNDERSCORE) then [BACKSLASH; c] else [c]))
      ++ (fold_char <$> (t ≫= fun c => if (c =? BACKSLASH) || (c =? PERCENT) || (c =? UNDERSCORE) then [BACKSLASH; c] else [c])) ++ p) s
    = match s with x :: s' => (x =? fold_char c)
        && like ((fold_char <$> (t ≫= fun c => if (c =? BACKSLASH) || (c =? PERCENT) || (c =? UNDERSCORE) then [BACKSLASH; c] else [c])) ++ p) s'
      | [] => false end).
  { assert (M92 : fold_char 92 = 92) by (apply fold_meta; auto).
    unfold BACKSLASH, PERCENT, UNDERSCORE. rewrite <-!(Hm 92), <-!(Hm 37), <-!(Hm 95) by auto.
    destruct ((fold_char c =? 92) || (fold_char c =? 37) || (fold_char c =? 95)) eqn:E; cbn [fmap list_fmap app].
    - rewrite M92. done.
    - apply orb_false_iff in E as [E E3]. apply orb_false_iff in E as [E1 E2].
      cbn [like]. unfold BACKSLASH, PERCENT, UNDERSCORE. rewrite E1, E2, E3. done. }
  rewrite Hcase. clear Hcase. destruct s as [|x s]; [done|]. rewrite IH. cbn. rewrite andb_assoc. f_equal. f_equal.
  apply Z.eqb_sym.
Qed.

Lemma like_percent p s : like (PERCENT :: p) s = existsb (fun n => like p (drop n s)) (seq 0 (S (length s))).
Proof.
  cbn [like]. change (PERCENT =? BACKSLASH) with false. change (PERCENT =? PERCENT) with true. cbn iota.
  induction s as [|x s IH]; [by cbn; rewrite orb_false_r|].
  rewrite IH. clear IH. change (seq 0 (S (length (x :: s)))) with (0%nat :: seq 1 (S (length s))).
  rewrite <-(fmap_S_seq 0). cbn [existsb drop]. f_equal.
  generalize (seq 0 (S (length s))). intros l. induction l as [|n l IHl]; [done|]. cbn. by rewrite IHl.
Qed.

(** Python's [needle in s] as a choice of a position. *)
Lemma contains_positions needle s : contains needle s = existsb (fun n => startswith needle (drop n s)) (seq 0 (S (length s))).
Proof.
  induction s as [|x s IH]; [by cbn; rewrite !orb_false_r|].
  cbn [contains]. rewrite IH. clear IH. change (seq 0 (S (length (x :: s)))) with (0%nat :: seq 1 (S (length s))).
  rewrite <-(fmap_S_seq 0). cbn [existsb drop]. f_equal.
  generalize (seq 0 (S (length s))). intros l. induction l as [|n l IHl]; [done|]. cbn. by rewrite IHl.
Qed.

Lemma like_any s : like [PERCENT] s = true.
Proof. rewrite like_percent. apply existsb_exists. exists (length s). rewrite in_seq, drop_all. split; [lia|done]. Qed.

(** C27. A search term is matched literally: the escaped patterns of the admin
    searches match a column exactly when the term, wildcards included, occurs
    in it (respectively starts it) up to the database's case folding. *)
Theorem admin_search_is_literal term s :
  ilike (substring_pattern term) s = contains (fold_char <$> term) (fold_char <$> s)
  /\ ilike (prefix_pattern term) s = startswith (fold_char <$> term) (fold_char <$> s).
Proof.
  assert (MP : fold_char PERCENT = PERCENT) by (apply fold_meta; auto).
  unfold ilike, substring_pattern, prefix_pattern. cbn [app fmap list_fmap]. rewrite !fmap_app. cbn [fmap list_fmap].
  rewrite !MP. split.
  - rewrite like_percent, contains_positions. generalize (seq 0 (S (length (fold_char <$> s)))). intros l.
    induction l as [|n l IH]; [done|]. cbn [existsb]. rewrite IH, like_escaped, like_any. by rewrite andb_true_r.
  - rewrite like_escaped, like_any. apply andb_true_r.
Qed.
End Search.

Definition ascii_collation : Collation := {| fold_char c := if (65 <=? c) && (c <=? 90) then c + 32 else c |}.
Lemma ascii_collation_laws : @CollationLaws ascii_collation.
Proof.
  split. intros c m Hm. cbn. destruct ((65 <=? c) && (c <=? 90)) eqn:E; [|done]. lia.
Qed.

Example search_example :
  ilike (H1 := ascii_collation) (substring_pattern (py "50%_")) (py "get 50%_OFF") = true
  /\ ilike (H1 := ascii_collation) (substring_pattern (py "50%_")) (py "get 50 xOFF") = false.
Proof. vm_compute. by split. Qed.

Lemma admin_search_is_literal_witness :
  ilike (H1 := ascii_collation) (substring_pattern (py "A_b%")) (py "xa_B%y")
  = contains (fold_char (Collation := ascii_collation) <$> py "A_b%") (fold_char (Collation := ascii_collation) <$> py "xa_B%y").
Proof. exact (proj1 (@admin_search_is_literal ascii_collation ascii_collation_laws (py "A_b%") (py "xa_B%y"))). Defined.

(** ** What the event listing reveals *)

(** The values of a displayed detail: nothing, a flag, a number or a short text. *)
Definition displayable (v : pyval) : bool :=
  match v with
  | PNone | PBool _ | PInt _ => true
  | PStr s => (length s <=? 160)%nat
  | _ => false
  end.

(** The keys that may be displayed for an event type. *)
Definition detail_keys (event_type : pystr) : list pystr :=
  let prefix := fst (break_at (Z.eqb 46) event_type) in
  default [] (assoc prefix SAFE_EVENT_DETAIL_KEYS_BY_PREFIX)
  ++ (if startswith (py "message.") event_type then [py "message_id"; py "attachment_count"] else [])
  ++ (if str_eqb prefix (py "member") then [py "permissions"] else []).

Definition details_ok (keys : list pystr) (d : dict) : Prop :=
  Forall (fun kv => kv.1 ∈ keys /\ displayable kv.2 = true) d.

Lemma details_set keys d k v : details_ok keys d -> k ∈ keys -> displayable v = true -> details_ok keys (dict_set d k v).
Proof.
  intros Hd Hk Hv. induction Hd as [|[k' v'] d [H1 H2] Hd IH]; cbn; [by repeat constructor|].
  destruct (str_eqb k k') eqn:E; constructor; auto.
Qed.

Lemma take_160 (s : pystr) : (length (take 160 s) <=? 160)%nat = true.
Proof. apply Nat.leb_le. rewrite length_take. lia. Qed.

Lemma shown_displayable payload k v : shown payload k = Some v -> displayable v = true.
Proof.
  unfold shown. destruct (assoc k payload) as [[]|]; try done; intros [= <-]; try done. apply take_160.
Qed.

(** C28. Typing of the dashboard's event details: whatever an audit payload
    contains, the projection shows only whitelisted keys of the event's kind,
    and under them only null, booleans, integers and texts of at most 160
    characters; nested or secret values never get through. *)
Theorem safe_event_details_typed event_type payload :
  details_ok (detail_keys event_type) (_safe_event_details event_type payload).
Proof.
  unfold _safe_event_details, detail_keys. set (prefix := fst (break_at (Z.eqb 46) event_type)).
  set (allowed := default [] (assoc prefix SAFE_EVENT_DETAIL_KEYS_BY_PREFIX)). set (keys := allowed ++ _).
  assert (H0 : details_ok keys (omap (fun key => (fun v => (key, v)) <$> shown payload key) allowed)).
  { apply Forall_forall. intros [k v] Hin. apply list_elem_of_omap in Hin as (k' & Hk & E).
    destruct (shown payload k') as [v'|] eqn:Es; [|done]. injection E as -> ->. cbn. split.
    - unfold keys. set_solver.
    - by eapply shown_displayable. }
  set (projected := omap _ _) in *. clearbody projected.
  assert (H1 : details_ok keys (if startswith (py "message.") event_type then
    match assoc (py "attachments") payload with
    | Some (PList attachments) =>
        dict_set (match get_or (py "message_id") (py "id") payload with
                  | Some (PStr message_id) => dict_set projected (py "message_id") (PStr (take 160 message_id))
                  | _ => projected end) (py "attachment_count") (PInt (Z.of_nat (length attachments)))
    | _ => match get_or (py "message_id") (py "id") payload with
           | Some (PStr message_id) => dict_set projected (py "message_id") (PStr (take 160 message_id))
           | _ => projected end
    end else projected)).
  { destruct (startswith (py "message.") event_type) eqn:Em; [|done].
    assert (H1 : details_ok keys (match get_or (py "message_id") (py "id") payload with
                  | Some (PStr message_id) => dict_set projected (py "message_id") (PStr (take 160 message_id))
                  | _ => projected end)).
    { destruct (get_or _ _ _) as [[]|]; try done. apply details_set; [done| |apply take_160]. unfold keys. set_solver. }
    destruct (assoc (py "attachments") payload) as [[]|]; try done. apply details_set; [done| |done]. unfold keys. set_solver. }
  destruct (assoc (py "admin_permissions") payload) as [[| | | | | | | | | |perms]|]; try exact H1.
  destruct (str_eqb prefix (py "member")) eqn:Ep; [|exact H1]. apply details_set; [exact H1| |].
  - unfold keys. set_solver.
  - destruct (enabled_permissions perms); [done|]. apply take_160.
Qed.

(** ** Locking an account *)

Section Accounts.
Context `{World} `{UnicodeData} `{Jwt} `{Passwords} `{AuthSettings}.

(** An access token opens only the account of an active row. *)
Lemma access_is_active token s c s' :
  get_access_context token s = (inr c, s') -> exists k, users (work s) !! k = Some (ac_user c) /\ User.is_active (ac_user c) = true.
Proof.
  intros (u & k & e & s1 & Hw & Hr)%access_token_ok.
  apply access_context_ok in Hr as (y & now & _ & Hu & _ & Ha & _). rewrite Hw in Hu. by exists u.
Qed.

Lemma revoke_all_ok u now s n s' :
  revoke_all u now s = (inr n, s') ->
  n = count_where (live_session u) (rows (user_sessions (work s)))
  /\ s' = s <| work ::= fun st => st <| user_sessions ::= fmap (revoke_live u now) |> |>.
Proof. unfold revoke_all. intros Hr. run_inv. by split. Qed.

Lemma revoke_live_dead u now (ss : gmap N UserSession.t) k x :
  (revoke_live u now <$> ss) !! k = Some x -> live_session u x = false.
Proof.
  rewrite lookup_fmap. intros (y & _ & ->)%fmap_Some. unfold revoke_live.
  destruct (live_session u y) eqn:E; [|done]. unfold live_session. cbn. by rewrite andb_false_r.
Qed.

(** C26. Deactivation locks an account out: when it succeeds, the target was
    neither the acting supervisor nor a superadmin, the stored account is
    inactive and every other account is as it was; an account that was active
    has no live session left, the returned number being that of the sessions it
    had; and no access token opens the account any more. *)
Theorem deactivation_locks_out actor_id target s n s1 :
  work s = durable s -> (forall k u, users (durable s) !! k = Some u -> User.id u = k) ->
  set_user_active actor_id target false s = (inr n, s1) ->
  (exists u, users (durable s) !! target = Some u /\ target <> actor_id /\ User.is_superadmin u = false
     /\ (User.is_active u = true ->
           n = count_where (live_session target) (rows (user_sessions (durable s)))
           /\ forall k x, user_sessions (durable s1) !! k = Some x -> live_session target x = false))
  /\ (forall k, k <> target -> users (durable s1) !! k = users (durable s) !! k)
  /\ (exists u, users (durable s1) !! target = Some u /\ User.is_active u = false)
  /\ forall token s2 c s3, work s2 = durable s1 -> get_access_context token s2 = (inr c, s3) -> User.id (ac_user c) <> target.
Proof.
  intros Hs Hkeys Hr.
  assert (Hmain : exists u, users (durable s) !! target = Some u /\ target <> actor_id /\ User.is_superadmin u = false
     /\ (User.is_active u = true ->
           n = count_where (live_session target) (rows (user_sessions (durable s)))
           /\ forall k x, user_sessions (durable s1) !! k = Some x -> live_session target x = false)
     /\ exists f, users (durable s1) = alter f target (users (durable s)) /\ User.is_active (f u) = false /\ User.id (f u) = target).
  { unfold set_user_active, get_user in Hr.
    apply bind_ok in Hr as (o & s2 & [-> ->]%gets_ok & Hr). apply bind_ok in Hr as (u & s2 & [Hu ->]%of_option_ok & Hr).
    apply bind_ok in Hr as (x1 & s2 & [Hself ->]%guard_ok & Hr). apply bind_ok in Hr as (x2 & s2 & [Hsup ->]%guard_ok & Hr).
    rewrite Hs in Hu. pose proof (Hkeys _ _ Hu) as Hid. apply negb_true_iff, bool_decide_eq_false in Hself.
    apply negb_true_iff in Hsup. rewrite Hid in Hself. exists u. split; [done|]. split; [done|]. split; [done|].
    destruct (User.is_active u) eqn:Eact; cbn [Bool.eqb] in Hr.
    - apply bind_ok in Hr as (d & s2 & Hnow & Hr). apply bind_ok in Hnow as (now & s3 & (Hw & Hd & _)%utcnow_ok & [-> ->]%ret_ok).
      apply bind_ok in Hr as (x3 & s4 & ->%modify_ok & Hr). apply bind_ok in Hr as (m & s5 & Hrev & Hr).
      apply bind_ok in Hrev as (now2 & s6 & (Hw2 & Hd2 & _)%utcnow_ok & [Hn Hs5]%revoke_all_ok).
      apply bind_ok in Hr as (ev & s7 & Hlog & Hr). apply bind_ok in Hr as (x4 & s8 & (_ & Hd8 & _)%commit_ok & [-> ->]%ret_ok).
      pose proof (same_run users _ _ _ _ (same_log_event users _ _ _ _ (fun _ _ => eq_refl)) Hlog) as [Eu _].
      pose proof (same_run user_sessions _ _ _ _ (same_log_event user_sessions _ _ _ _ (fun _ _ => eq_refl)) Hlog) as [Es _].
      rewrite Hd8. rewrite Hs5 in Eu, Es. cbn [work upd users user_sessions] in Eu, Es, Hw2. rewrite Hw2 in Hn, Eu, Es.
      cbn [users user_sessions upd] in Hn, Eu, Es. rewrite Hw, Hs, Hid in *. split.
      + intros _. split; [exact Hn|]. intros k x. rewrite Es. apply revoke_live_dead.
      + eexists. split; [exact Eu|]. by split.
    - apply ret_ok in Hr as [-> ->]. split; [done|]. exists (fun u => u). split; [|by split].
      apply map_eq. intros k. rewrite lookup_alter. case_decide; [|done]. subst. by destruct (_ !! _). }
  destruct Hmain as (u & Hu & Hne & Hsup & Hact & f & Eu & Hf & Hfid). split; [by exists u|]. split; [|split].
  - intros k Hk. rewrite Eu. by rewrite lookup_alter_ne.
  - exists (f u). split; [|done]. rewrite Eu, lookup_alter_eq, Hu. done.
  - intros token s2 c s3 Hw Hc Hcid. apply access_is_active in Hc as (k & Hk & Ha). rewrite Hw, Eu in Hk.
    destruct (decide (k = target)) as [->|Hk'].
    + rewrite lookup_alter_eq, Hu in Hk. injection Hk as E. rewrite <-E, Hf in Ha. done.
    + rewrite lookup_alter_ne in Hk by done. apply Hkeys in Hk. congruence.
Qed.
End Accounts.

(** ** Creating the first superadmin *)

Section BootstrapProperties.
Context `{World} `{UnicodeData} `{Passwords}.

Lemma ensure_atomic username password email : atomic (ensure username password email).
Proof.
  unfold ensure, hash_password, insert_user, insert_row. cbv zeta. atomic.
Qed.

Lemma username_unused name st :
  List.filter (fun u => str_eqb (User.username u) name) (rows (users st)) = [] ->
  forall k u, users st !! k = Some u -> User.username u <> name.
Proof.
  intros Hn k u Hk E. assert (Hin : u ∈ List.filter (fun u => str_eqb (User.username u) name) (rows (users st))).
  { apply elem_of_filter_bool. split; [apply elem_of_rows; eauto|by apply bool_decide_eq_true]. }
  rewrite Hn in Hin. by apply not_elem_of_nil in Hin.
Qed.

(** The bootstrap promotes nobody: an existing account of the configured
    name is accepted only when it is a superadmin already, and nothing is
    written for it; otherwise one new superadmin account is added, with a name
    nobody had and a password that meets the policy, and every existing account
    is as it was.  A failed bootstrap changes nothing. *)
Theorem bootstrap_promotes_nobody username password email s r s' :
  work s = durable s -> ensure username password email s = (r, s') ->
  match r with
  | inl _ => durable s' = durable s
  | inr (u, false) =>
      durable s' = durable s /\ User.is_superadmin u = true /\ exists k, users (durable s) !! k = Some u
  | inr (u, true) =>
      users (durable s') = <[User.id u := u]> (users (durable s)) /\ users (durable s) !! User.id u = None
      /\ User.is_superadmin u = true /\ User.is_active u = true /\ password_policy_errors password = []
      /\ forall k v, users (durable s) !! k = Some v -> User.username v <> User.username u
  end.
Proof.
  intros Hs Hr. destruct r as [e|[u created]]; [by apply (ensure_atomic _ _ _ _ _ _ Hr)|].
  unfold ensure in Hr. cbv zeta in Hr.
  apply bind_ok in Hr as (v & s1 & [_ ->]%of_res_ok & Hr). apply bind_ok in Hr as (name & s1 & [_ ->]%of_res_ok & Hr).
  apply bind_ok in Hr as (p & s1 & [Hp ->]%of_res_ok & Hr). apply bind_ok in Hr as (f & s1 & [-> ->]%gets_ok & Hr).
  apply bind_ok in Hr as (found & s1 & [Hf%scalar_one_ok ->]%of_res_ok & Hr). rewrite Hs in Hf.
  assert (Hpol : password_policy_errors password = []).
  { unfold validate_new_password in Hp. by destruct (password_policy_errors password). }
  destruct found as [x|].
  - apply bind_ok in Hr as (x1 & s1 & [Hsup ->]%guard_ok & Hr). apply ret_ok in Hr as [[= -> ->] ->].
    split; [done|]. split; [done|]. assert (Hin : x ∈ [x]) by set_solver. rewrite <-Hf in Hin.
    by apply elem_of_filter_bool in Hin as [Hin%elem_of_rows _].
  - apply bind_ok in Hr as (x1 & s1 & Ht & Hr). assert (s1 = s) as ->.
    { destruct (given _) in Ht; [|by apply ret_ok in Ht as [_ ->]]. by run_inv. }
    apply bind_ok in Hr as (h & s1 & Hh & Hr). apply bind_ok in Hh as (salt & s2 & (Hw2 & _)%token_ok & [-> ->]%ret_ok).
    apply bind_ok in Hr as (id & s3 & (Hw3 & _)%uuid4_ok & Hr). apply bind_ok in Hr as (now & s4 & (Hw4 & _)%utcnow_ok & Hr).
    apply bind_ok in Hr as (x2 & s5 & Hi & Hr). unfold insert_user in Hi. apply bind_ok in Hi as (st & s6 & [-> ->]%gets_ok & Hi).
    apply bind_ok in Hi as (x3 & s6 & [_ ->]%guard_ok & Hi). apply bind_ok in Hi as (x4 & s6 & [_ ->]%guard_ok & Hi).
    apply insert_row_ok in Hi as [Hfresh ->]. apply bind_ok in Hr as (ev & s7 & Hlog & Hr).
    apply bind_ok in Hr as (x5 & s8 & (_ & Hd8 & _)%commit_ok & [[= -> ->] ->]%ret_ok).
    pose proof (same_run users _ _ _ _ (same_log_event users _ _ _ _ (fun _ _ => eq_refl)) Hlog) as [Eu _].
    cbn [work upd users] in Eu. rewrite Hd8, Eu. rewrite Hw4, Hw3, Hw2, Hs in *.
    split_and!; try done. by apply username_unused.
Qed.
End BootstrapProperties.

Section AdminExamples.
Local Existing Instances still_world ascii_ucd toy_jwt toy_passwords demo_auth.

Definition strong_password : list Z := py "Correct-Horse-42".

Lemma deactivation_locks_out_witness :
  exists s1, set_user_active 6 3 false alice_session = (inr 1, s1)
    /\ (exists u, users (durable s1) !! 3%N = Some u /\ User.is_active u = false)
    /\ forall token s2 c s3, work s2 = durable s1 -> get_access_context token s2 = (inr c, s3) -> User.id (ac_user c) <> 3%N.
Proof.
  destruct (set_user_active 6 3 false alice_session) as [[e|n] s1] eqn:E.
  { exfalso. assert (X : is_ok (set_user_active 6 3 false alice_session).1 = true) by (vm_compute; reflexivity).
    rewrite E in X. discriminate X. }
  assert (Hn : n = 1).
  { assert (X : match (set_user_active 6 3 false alice_session).1 with inr n => n =? 1 | inl _ => false end = true)
      by (vm_compute; reflexivity). rewrite E in X. apply Z.eqb_eq. exact X. }
  assert (Hkeys : forall k u, users (durable alice_session) !! k = Some u -> User.id u = k).
  { assert (X : map_fold (fun k u b => b && (User.id u =? k)%N) true (users (durable alice_session)) = true) by (vm_compute; reflexivity).
    revert X. apply (map_fold_weak_ind (fun b m => b = true -> forall k u, m !! k = Some u -> User.id u = k)).
    - intros _ k u. rewrite lookup_empty. discriminate.
    - intros k u m b _ IH [Hb Hk]%andb_prop k' u'. rewrite lookup_insert_Some.
      intros [[<- <-]|[_ Hl]]; [by apply N.eqb_eq|by apply IH]. }
  destruct (deactivation_locks_out 6 3 alice_session n s1 (proj1 alice_session_wf) Hkeys E) as (_ & _ & Hu & Hacc).
  exists s1. rewrite Hn. split; [reflexivity|]. by split.
Defined.

Lemma bootstrap_promotes_nobody_witness :
  exists u s', ensure (py "root") strong_password None demo_session = (inr (u, true), s')
    /\ User.is_superadmin u = true /\ users (durable s') = <[User.id u := u]> (users (durable demo_session)).
Proof.
  destruct (ensure (py "root") strong_password None demo_session) as [[e|[u b]] s'] eqn:E.
  { exfalso. assert (X : is_ok (ensure (py "root") strong_password None demo_session).1 = true) by (vm_compute; reflexivity).
    rewrite E in X. discriminate X. }
  destruct b.
  2: { exfalso. assert (X : match (ensure (py "root") strong_password None demo_session).1 with inr (_, b) => b | inl _ => false end = true)
         by (vm_compute; reflexivity). rewrite E in X. discriminate X. }
  destruct (bootstrap_promotes_nobody (py "root") strong_password None demo_session (inr (u, true)) s' eq_refl E) as (Hu & _ & Hs & _).
  exists u, s'. split; [reflexivity|]. by split.
Defined.

Example bootstrap_refuses_normal_user :
  (ensure (py "alice") strong_password None demo_session).1 = inl (RuntimeError "refusing to auto-promote an existing normal user").
Proof. vm_compute. reflexivity. Qed.
End AdminExamples.
