(* ===== verification/EmailVerification.v ===== *)
(** * E-mail verification (backend/app/services/email_verification_service.py,
    core/email_identity.py)

    A user asks for a verification mail, which carries a one-time token whose
    hash is stored as a challenge; confirming the token verifies the address
    the user had when asking.  The mail transport is the class [Mailer]. *)

From S2P Require Import Prelude PyStr Sha256 Json Models Session EventIntegrity Identifiers Outbox.
From S2P Require Import Uploads Channels Auth.
Local Open Scope Z_scope.

(** [mailer.send_verification(email, url)]: whether it returned, and the
    outside world after it. *)
Class Mailer `{World} := send_verification : list Z -> list Z -> ext -> bool * ext.

Class EmailSettings := {
  email_verification_enabled : bool;
  email_verification_ttl_minutes : Z;
  (** [urlsplit(email_verification_public_url)]: scheme, host and path, which
      the configuration requires to be present. *)
  public_url_scheme : list Z;
  public_url_netloc : list Z;
  public_url_path : list Z
}.

(** ** The link *)

Definition url_safe (c : Z) : bool := safe_char c || (c =? 46) || (c =? 126).
(** Upper-case hexadecimal digits of [%XX]. *)
Definition hex_upper (d : Z) : Z := if d <? 10 then 48 + d else 55 + d.
(** [quote_plus] on one byte of the UTF-8 encoding. *)
Definition quote_byte (b : Z) : pystr :=
  if url_safe b then [b] else if b =? 32 then [43] else [37; hex_upper (b / 16); hex_upper (b mod 16)].
Definition urlencode_token (token : pystr) : pystr :=
  py "token=" ++ (default [] (utf8_encode token) ≫= quote_byte).

Section EmailVerification.
Context `{World} `{UnicodeData} `{!Mailer} `{EmailSettings}.

(** [urlunsplit((scheme, netloc, path, "", query))]. *)
Definition build_verification_url (token : pystr) : pystr :=
  public_url_scheme ++ py "://" ++ public_url_netloc
  ++ (match public_url_path with [] => [] | c :: _ => if c =? 47 then public_url_path else 47 :: public_url_path end)
  ++ py "?" ++ urlencode_token token.

Record VerificationRequestResult := { vr_status : string; vr_expires_at : option Z }.
Record VerificationConfirmationResult := { vc_status : string; vc_verified_at : Z }.

Definition HISTORY_RETENTION_DAYS : Z := 7.
Definition REQUEST_CLEANUP_LIMIT : nat := 100.

Definition verification_unavailable : exc := AppError 503 "EMAIL_VERIFICATION_UNAVAILABLE".
Definition verification_invalid : exc := AppError 400 "EMAIL_VERIFICATION_INVALID".

Abbreviation challenges := email_verification_challenges (only parsing).

(** [consumed_at IS NULL AND revoked_at IS NULL] for a user's challenges. *)
Definition active (c : EmailVerificationChallenge.t) : bool :=
  bool_decide (EmailVerificationChallenge.consumed_at c = None)
  && bool_decide (EmailVerificationChallenge.revoked_at c = None).
Definition active_of (user_id : N) (c : EmailVerificationChallenge.t) : bool :=
  bool_decide (EmailVerificationChallenge.user_id c = user_id) && active c.
Definition revoke_challenge (now : instant) (c : EmailVerificationChallenge.t) : EmailVerificationChallenge.t :=
  c <| EmailVerificationChallenge.revoked_at := Some now |>.

(** [UPDATE ... SET revoked_at = now WHERE ...]. *)
Definition revoke_where (p : EmailVerificationChallenge.t -> bool) (now : instant) : M unit :=
  modify (fun st => st <| email_verification_challenges ::= fmap (fun c => if p c then revoke_challenge now c else c) |>).

Definition update_challenge (id : N) (f : EmailVerificationChallenge.t -> EmailVerificationChallenge.t) : M unit :=
  modify (fun st => st <| email_verification_challenges ::= alter f id |>).

(** [db.add(challenge)] and its flush, with the unique constraint on the hash. *)
Definition insert_challenge (c : EmailVerificationChallenge.t) : M unit :=
  st ← gets id;
  guard (negb (existsb (fun x => str_eqb (EmailVerificationChallenge.token_hash x) (EmailVerificationChallenge.token_hash c))
                 (rows (challenges st)))) (IntegrityError "uq_email_verification_challenges_token_hash") ;;
  insert_row "email_verification_challenges_pkey" email_verification_challenges (upd email_verification_challenges)
    (EmailVerificationChallenge.id c) c.

Definition stale (user_id : N) (now : instant) (c : EmailVerificationChallenge.t) : bool :=
  bool_decide (EmailVerificationChallenge.user_id c = user_id)
  && (EmailVerificationChallenge.created_at c <? now - days HISTORY_RETENTION_DAYS)
  && ((EmailVerificationChallenge.expires_at c <? now)
      || bool_decide (is_Some (EmailVerificationChallenge.consumed_at c))
      || bool_decide (is_Some (EmailVerificationChallenge.revoked_at c))).

Definition _cleanup_user_history (user_id : N) (now : instant) : M Z :=
  stale_ids ← gets (fun st => EmailVerificationChallenge.id <$>
    take REQUEST_CLEANUP_LIMIT (order_by (fun c => [EmailVerificationChallenge.created_at c])
      (List.filter (stale user_id now) (rows (challenges st)))));
  modify (fun st => st <| email_verification_challenges ::= fun t => foldr delete t stale_ids |>) ;;
  mret (Z.of_nat (length stale_ids)).

(** The challenge is revoked durably before the audit event is tried. *)
Definition _record_delivery_failure (challenge_id user_id : N) : M unit :=
  challenge ← gets (fun st => challenges st !! challenge_id);
  (match challenge with
   | Some c =>
       if active c then now ← utcnow; update_challenge challenge_id (revoke_challenge now) else mret tt
   | None => mret tt
   end) ;;
  commit ;;
  try_except
    (_ ← log_event (py "email.verification_failed")
           (PDict [(py "user_id", str_id user_id); (py "reason", PStr (py "delivery_failed"))]) None (Some user_id);
     commit)
    (fun _ => rollback).

Definition mail (email url : pystr) : M bool := fun s =>
  let '(sent, x) := send_verification email url (outside s) in (inr sent, s <| outside := x |>).

Definition request_verification (user_id : N) : M VerificationRequestResult :=
  guard email_verification_enabled verification_unavailable ;;
  user ← get_user user_id;
  user ← of_option (AppError 404 "NOT_FOUND") user;
  address ← of_option (AppError 400 "EMAIL_REQUIRED") (User.email user);
  let email := normalize_email address in
  match User.email_verified_at user with
  | Some _ => rollback ;; mret {| vr_status := "already_verified"; vr_expires_at := None |}
  | None =>
      now ← utcnow;
      _ ← _cleanup_user_history user_id now;
      revoke_where (active_of user_id) now ;;
      raw_token ← token_urlsafe;
      let expires_at := now + minutes email_verification_ttl_minutes in
      token_hash ← of_res (sha256_hex raw_token);
      id ← uuid4;
      insert_challenge (EmailVerificationChallenge.Row id user_id email token_hash now expires_at None None) ;;
      _ ← log_event (py "email.verification_requested") (PDict [(py "user_id", str_id user_id)]) None (Some user_id);
      commit ;;
      sent ← mail email (build_verification_url raw_token);
      if sent : bool then mret {| vr_status := "sent"; vr_expires_at := Some expires_at |}
      else
        _record_delivery_failure id user_id ;;
        throw (AppError 503 "EMAIL_DELIVERY_FAILED")
  end.

Definition _raise_confirmation_failure {A} (user_id : N) (reason : string) (error : exc) : M A :=
  try_except
    (_ ← log_event (py "email.verification_failed")
           (PDict [(py "user_id", str_id user_id); (py "reason", PStr (py reason))]) None (Some user_id);
     commit)
    (fun _ => rollback) ;;
  throw error.

Definition challenges_with (token_hash : pystr) (st : Store) : list EmailVerificationChallenge.t :=
  List.filter (fun c => str_eqb (EmailVerificationChallenge.token_hash c) token_hash) (rows (challenges st)).

Definition confirm (user_id : N) (raw_token : pystr) : M VerificationConfirmationResult :=
  guard email_verification_enabled verification_unavailable ;;
  token_hash ← of_res (sha256_hex raw_token);
  owner ← gets (fun st => EmailVerificationChallenge.user_id <$> head (challenges_with token_hash st));
  match owner with
  | None => _raise_confirmation_failure user_id "invalid_token" verification_invalid
  | Some challenge_owner_id =>
      if negb (bool_decide (challenge_owner_id = user_id))
      then _raise_confirmation_failure user_id "user_mismatch" (AppError 403 "EMAIL_VERIFICATION_INVALID")
      else
        user ← get_user user_id;
        found ← gets (challenges_with token_hash);
        challenge ← of_res (scalar_one_or_none found);
        match user, challenge with
        | Some user, Some challenge =>
            if negb (bool_decide (EmailVerificationChallenge.user_id challenge = user_id))
            then _raise_confirmation_failure user_id "invalid_token" verification_invalid
            else
              now ← utcnow;
              if bool_decide (is_Some (EmailVerificationChallenge.consumed_at challenge))
              then _raise_confirmation_failure user_id "already_consumed" (AppError 409 "EMAIL_VERIFICATION_USED")
              else if bool_decide (is_Some (EmailVerificationChallenge.revoked_at challenge))
              then _raise_confirmation_failure user_id "revoked" verification_invalid
              else if EmailVerificationChallenge.expires_at challenge <=? now then
                update_challenge (EmailVerificationChallenge.id challenge) (revoke_challenge now) ;;
                _raise_confirmation_failure user_id "expired" (AppError 400 "EMAIL_VERIFICATION_EXPIRED")
              else if negb (bool_decide (normalize_email <$> User.email user = Some (EmailVerificationChallenge.email challenge)))
              then
                update_challenge (EmailVerificationChallenge.id challenge) (revoke_challenge now) ;;
                _raise_confirmation_failure user_id "email_changed" verification_invalid
              else
                update_challenge (EmailVerificationChallenge.id challenge)
                  (fun c => c <| EmailVerificationChallenge.consumed_at := Some now |>) ;;
                modify (fun st => st <| users ::= alter (fun u => u <| User.email_verified_at := Some now |>) user_id |>) ;;
                revoke_where (fun c => active_of user_id c
                  && negb (bool_decide (EmailVerificationChallenge.id c = EmailVerificationChallenge.id challenge))) now ;;
                _ ← log_event (py "email.verified") (PDict [(py "user_id", str_id user_id)]) None (Some user_id);
                commit ;;
                mret {| vc_status := "verified"; vc_verified_at := now |}
        | _, _ => _raise_confirmation_failure user_id "invalid_token" verification_invalid
        end
  end.
End EmailVerification.

(** ** The invariant of the challenges

    Rows are stored under their id, a token hash names one challenge, and a
    user has at most one challenge that can still be confirmed. *)
Record challenge_table_ok (t : gmap N EmailVerificationChallenge.t) : Prop := {
  ck_id : forall k c, t !! k = Some c -> EmailVerificationChallenge.id c = k;
  ck_hash : forall k1 k2 c1 c2, t !! k1 = Some c1 ->
    t !! k2 = Some c2 ->
    EmailVerificationChallenge.token_hash c1 = EmailVerificationChallenge.token_hash c2 -> k1 = k2;
  ck_active : forall k1 k2 c1 c2, t !! k1 = Some c1 ->
    t !! k2 = Some c2 -> active c1 = true -> active c2 = true ->
    EmailVerificationChallenge.user_id c1 = EmailVerificationChallenge.user_id c2 -> k1 = k2
}.
Definition challenges_ok (st : Store) : Prop := challenge_table_ok (email_verification_challenges st).

(** A change of a challenge that keeps its identity and activates nothing. *)
Record settles (f : EmailVerificationChallenge.t -> EmailVerificationChallenge.t) : Prop := {
  st_id : forall c, EmailVerificationChallenge.id (f c) = EmailVerificationChallenge.id c;
  st_hash : forall c, EmailVerificationChallenge.token_hash (f c) = EmailVerificationChallenge.token_hash c;
  st_user : forall c, EmailVerificationChallenge.user_id (f c) = EmailVerificationChallenge.user_id c;
  st_active : forall c, active (f c) = true -> active c = true
}.

Lemma settles_revoke now : settles (revoke_challenge now).
Proof. split; try done. intros c. unfold active. cbn. by rewrite andb_false_r. Qed.
Lemma settles_consume now : settles (fun c => c <| EmailVerificationChallenge.consumed_at := Some now |>).
Proof. split; try done. Qed.
Lemma settles_if (p : EmailVerificationChallenge.t -> bool) f : settles f -> settles (fun c => if p c then f c else c).
Proof. intros [H1 H2 H3 H4]. split; intros c; destruct (p c); auto. Qed.
Lemma settles_id : settles (fun c => c).
Proof. by split. Qed.
#[local] Hint Resolve settles_revoke settles_consume settles_if settles_id : core.

(** Challenges may disappear or settle. *)
Lemma challenges_ok_shrink st t f :
  challenges_ok st ->
  (forall k c, t !! k = Some c -> exists c0, email_verification_challenges st !! k = Some c0 /\ (c = c0 \/ c = f c0)) ->
  settles f -> challenges_ok (st <| email_verification_challenges := t |>).
Proof.
  intros [Hid Hh Ha] Ht [F1 F2 F3 F4]. split; cbn.
  - intros k c Hk. destruct (Ht k c Hk) as (c0 & Hc0 & [->| ->]); [by eapply Hid|]. rewrite F1. by eapply Hid.
  - intros k1 k2 c1 c2 H1 H2 E. destruct (Ht _ _ H1) as (d1 & D1 & E1), (Ht _ _ H2) as (d2 & D2 & E2).
    apply (Hh k1 k2 d1 d2 D1 D2). destruct E1 as [-> | ->], E2 as [-> | ->]; rewrite ?F2 in E; congruence.
  - intros k1 k2 c1 c2 H1 H2 A1 A2 E. destruct (Ht _ _ H1) as (d1 & D1 & E1), (Ht _ _ H2) as (d2 & D2 & E2).
    apply (Ha k1 k2 d1 d2 D1 D2); destruct E1 as [-> | ->], E2 as [-> | ->]; rewrite ?F3 in E; auto; congruence.
Qed.

Section EmailInvariant.
Context `{World} `{UnicodeData} `{!Mailer} `{EmailSettings}.

Lemma keeps_update_challenge id f : settles f -> preserves (keeps challenges_ok) (update_challenge id f).
Proof.
  intros Hf. apply keeps_modify. intros st Hok. apply (challenges_ok_shrink st _ f Hok); [|done].
  intros k c. rewrite lookup_alter_Some. intros [(-> & c0 & Hc0 & ->)|[_ Hc0]]; eauto.
Qed.

Lemma keeps_revoke_where p now : preserves (keeps challenges_ok) (revoke_where p now).
Proof.
  apply keeps_modify. intros st Hok. eapply (challenges_ok_shrink st _ (revoke_challenge now) Hok); [|auto].
  intros k c. rewrite lookup_fmap_Some. intros (c0 & <- & Hc0). exists c0. split; [done|]. destruct (p c0); auto.
Qed.

Lemma lookup_foldr_delete {A} (t : gmap N A) l k x : foldr delete t l !! k = Some x -> t !! k = Some x.
Proof. induction l as [|y l IH]; cbn; [done|]. rewrite lookup_delete_Some. tauto. Qed.

Lemma keeps_cleanup user_id now : preserves (keeps challenges_ok) (_cleanup_user_history user_id now).
Proof.
  unfold _cleanup_user_history. pres. apply keeps_modify. intros st Hok.
  apply (challenges_ok_shrink st _ (fun c => c) Hok); [|auto]. intros k c Hk%lookup_foldr_delete. eauto.
Qed.

Lemma keeps_mail email url : preserves (keeps challenges_ok) (mail email url).
Proof. intros s Hd Hw. unfold mail. by destruct (send_verification _ _ _). Qed.

Lemma keeps_log_failure {A} user_id reason e : preserves (keeps challenges_ok) (_raise_confirmation_failure (A:=A) user_id reason e).
Proof. unfold _raise_confirmation_failure. pres. Qed.

Hint Resolve keeps_update_challenge keeps_revoke_where keeps_cleanup keeps_mail keeps_log_failure : pres.
Hint Resolve settles_revoke settles_consume : pres.

Lemma keeps_confirm user_id token : preserves (keeps challenges_ok) (confirm user_id token).
Proof. unfold confirm, get_user. pres. Qed.

Lemma keeps_delivery_failure id user_id : preserves (keeps challenges_ok) (_record_delivery_failure id user_id).
Proof. unfold _record_delivery_failure. pres. Qed.
Hint Resolve keeps_delivery_failure : pres.

(** An invariant kept by a computation that starts where [P] holds. *)
Definition keeps_from {A} (I : Store -> Prop) (P : Store -> Prop) (m : M A) : Prop :=
  forall s, P (work s) -> keeps I s (m s).2.

Lemma keeps_from_weaken {A} I P (m : M A) : preserves (keeps I) m -> keeps_from I P m.
Proof. intros Hm s _. apply Hm. Qed.

Lemma keeps_from_bind {A B} (I P Q : Store -> Prop) (m : M A) (f : A -> M B) :
  keeps_from I P m -> (forall s a s', P (work s) -> m s = (inr a, s') -> Q (work s')) ->
  (forall a, keeps_from I Q (f a)) -> keeps_from I P (m ≫= f).
Proof.
  intros Hm HQ Hf s Hs. unfold mbind, M_bind. specialize (Hm s Hs). destruct (m s) as [[e|a] s1] eqn:E; [done|].
  etrans; [exact Hm|]. apply Hf. by eapply HQ.
Qed.

Definition no_active (user_id : N) (st : Store) : Prop :=
  forall k c, email_verification_challenges st !! k = Some c -> active_of user_id c = false.

Lemma revoke_where_no_active user_id now s a s' :
  revoke_where (active_of user_id) now s = (inr a, s') -> no_active user_id (work s').
Proof.
  intros ->%modify_ok k c. cbn. rewrite lookup_fmap_Some. intros (c0 & <- & _).
  destruct (active_of user_id c0) eqn:E; [|done]. unfold active_of, active. cbn. by rewrite !andb_false_r.
Qed.

Lemma insert_challenge_ok c s a s' : insert_challenge c s = (inr a, s') ->
  (forall k x, email_verification_challenges (work s) !! k = Some x ->
     EmailVerificationChallenge.token_hash x <> EmailVerificationChallenge.token_hash c)
  /\ email_verification_challenges (work s) !! EmailVerificationChallenge.id c = None
  /\ s' = s <| work ::= upd email_verification_challenges (insert (EmailVerificationChallenge.id c) c) |>.
Proof.
  unfold insert_challenge. intros (st & s1 & [-> ->]%gets_ok & Hi)%bind_ok.
  apply bind_ok in Hi as ([] & s1 & [Hg ->]%guard_ok & [Hn ->]%insert_row_ok).
  split_and!; [|done|done]. intros k x Hk Heq.
  apply negb_true_iff, not_true_iff_false in Hg. apply Hg. apply existsb_exists. exists x. split.
  - apply list_elem_of_In, elem_of_rows. eauto.
  - unfold str_eqb. by rewrite Heq, bool_decide_true.
Qed.

Lemma keeps_insert_challenge c :
  keeps_from challenges_ok (no_active (EmailVerificationChallenge.user_id c)) (insert_challenge c).
Proof.
  intros s Hna Hd Hw. destruct (insert_challenge c s) as [[e|[]] s'] eqn:E.
  - assert (Hs : s' = s); [|by subst].
    unfold insert_challenge, insert_row in E. unfold mbind, M_bind, gets, guard in E. cbn in E.
    destruct (negb _); [|by injection E as _ <-]. cbn in E. destruct (_ !! _); [by injection E as _ <-|done].
  - apply insert_challenge_ok in E as (Hfresh & Hnone & ->). split; [done|]. destruct Hw as [Hid Hh Ha].
    unfold no_active, active_of in Hna. split; cbn.
    + intros k x [[<- <-]|[_ Hk]]%lookup_insert_Some; [done|by eapply Hid].
    + intros k1 k2 c1 c2 [[<- <-]|[N1 K1]]%lookup_insert_Some [[<- <-]|[N2 K2]]%lookup_insert_Some E; [done| | |by eapply Hh].
      * by destruct (Hfresh _ _ K2).
      * by destruct (Hfresh _ _ K1).
    + intros k1 k2 c1 c2 [[<- <-]|[N1 K1]]%lookup_insert_Some [[<- <-]|[N2 K2]]%lookup_insert_Some A1 A2 E; [done| | |by eapply Ha].
      * apply Hna in K2. rewrite A2, bool_decide_true in K2 by done. done.
      * apply Hna in K1. rewrite A1, bool_decide_true in K1 by done. done.
Qed.

(** A step that leaves the challenges alone keeps the precondition. *)
Ltac keep_no_active u :=
  apply keeps_from_bind with (Q := no_active u);
    [apply keeps_from_weaken; solve [pres] | intros ? ? ? ? ?; run_inv; session_simpl; done | intros ?].

Lemma keeps_request user_id : preserves (keeps challenges_ok) (request_verification user_id).
Proof.
  unfold request_verification, get_user. do 4 (apply pres_bind; [apply _|pres|intros ?]).
  destruct (User.email_verified_at _); [pres|]. do 2 (apply pres_bind; [apply _|pres|intros ?]).
  intros s. refine (keeps_from_bind _ (fun _ => True) (no_active user_id) _ _ _ _ _ s I).
  { apply keeps_from_weaken. pres. }
  { intros s0 [] s' _ E. by apply revoke_where_no_active in E. }
  intros _. do 3 (keep_no_active user_id).
  apply keeps_from_bind with (Q := fun _ => True).
  - match goal with |- keeps_from _ _ (insert_challenge ?c) => exact (keeps_insert_challenge c) end.
  - done.
  - intros _. apply keeps_from_weaken. pres.
Qed.
End EmailInvariant.

(** ** What a confirmation does *)

Section Confirm.
Context `{World} `{UnicodeData} `{!Mailer} `{EmailSettings}.

Lemma failure_never_ok {A} user_id reason e s (a : A) s' :
  _raise_confirmation_failure user_id reason e s = (inr a, s') -> False.
Proof. unfold _raise_confirmation_failure. intros (x & s1 & _ & Ht)%bind_ok. by apply throw_ok in Ht. Qed.

(** A successful confirmation, step by step. *)
Lemma confirm_run user_id tok s r s' : confirm user_id tok s = (inr r, s') ->
  exists h c user, sha256_hex tok = inr h
    /\ challenges_with h (work s) = [c] /\ EmailVerificationChallenge.user_id c = user_id /\ active c = true
    /\ vc_verified_at r < EmailVerificationChallenge.expires_at c
    /\ users (work s) !! user_id = Some user
    /\ normalize_email <$> User.email user = Some (EmailVerificationChallenge.email c)
    /\ users (durable s') = alter (fun u => u <| User.email_verified_at := Some (vc_verified_at r) |>) user_id (users (work s))
    /\ email_verification_challenges (durable s')
       = (fun x => if active_of user_id x
                      && negb (bool_decide (EmailVerificationChallenge.id x = EmailVerificationChallenge.id c))
                   then revoke_challenge (vc_verified_at r) x else x)
         <$> alter (fun x => x <| EmailVerificationChallenge.consumed_at := Some (vc_verified_at r) |>)
               (EmailVerificationChallenge.id c) (email_verification_challenges (work s))
    /\ work s' = durable s'.
Proof.
  unfold confirm, get_user. intros ([] & s1 & [_ ->]%guard_ok & Hr)%bind_ok.
  apply bind_ok in Hr as (h & s1 & [Eh ->]%of_res_ok & Hr).
  apply bind_ok in Hr as (owner & s1 & [-> ->]%gets_ok & Hr).
  destruct (_ <$> head _) as [o|]; [|by apply failure_never_ok in Hr].
  destruct (negb _); [by apply failure_never_ok in Hr|].
  apply bind_ok in Hr as (user & s1 & [-> ->]%gets_ok & Hr).
  apply bind_ok in Hr as (found & s1 & [-> ->]%gets_ok & Hr).
  apply bind_ok in Hr as (found & s1 & [Ef ->]%of_res_ok & Hr).
  destruct (users (work s) !! user_id) as [user|] eqn:Eu; [|by apply failure_never_ok in Hr].
  destruct found as [c|]; [|by apply failure_never_ok in Hr].
  destruct (bool_decide (EmailVerificationChallenge.user_id c = user_id)) eqn:Eo; [|by apply failure_never_ok in Hr].
  apply bind_ok in Hr as (now & s1 & (Hw1 & _ & _)%utcnow_ok & Hr). cbn [negb] in Hr.
  destruct (bool_decide (is_Some (EmailVerificationChallenge.consumed_at c))) eqn:Ec; [by apply failure_never_ok in Hr|].
  destruct (bool_decide (is_Some (EmailVerificationChallenge.revoked_at c))) eqn:Er; [by apply failure_never_ok in Hr|].
  destruct (Z.leb_spec (EmailVerificationChallenge.expires_at c) now) as [|Hexp].
  { apply bind_ok in Hr as ([] & s2 & _ & Hr). by apply failure_never_ok in Hr. }
  destruct (negb _) eqn:Em.
  { apply bind_ok in Hr as ([] & s2 & _ & Hr). by apply failure_never_ok in Hr. }
  apply bind_ok in Hr as ([] & s2 & ->%modify_ok & Hr). apply bind_ok in Hr as ([] & s2 & ->%modify_ok & Hr).
  apply bind_ok in Hr as ([] & s2 & ->%modify_ok & Hr). apply bind_ok in Hr as (ev & s2 & El & Hr).
  apply bind_ok in Hr as ([] & s3 & (Hw3 & Hd & _)%commit_ok & [-> ->]%ret_ok).
  pose proof (same_run users _ _ _ _ (same_log_event users _ _ _ _ (fun _ _ => eq_refl)) El) as [Eusers _].
  pose proof (same_run email_verification_challenges _ _ _ _ (same_log_event email_verification_challenges _ _ _ _ (fun _ _ => eq_refl)) El)
    as [Echal _].
  rewrite <-Hd in Eusers, Echal. cbn [work upd users email_verification_challenges] in Eusers, Echal. rewrite Hw1 in Eusers, Echal.
  exists h, c, user. apply bool_decide_eq_true in Eo. apply negb_false_iff, bool_decide_eq_true in Em.
  split_and!; try done; [| |congruence].
  - destruct (challenges_with h (work s)) as [|c1 [|]]; try done. by injection Ef as ->.
  - unfold active. apply bool_decide_eq_false in Ec, Er. rewrite <-eq_None_not_Some in Ec, Er. by rewrite Ec, Er.
Qed.

Lemma challenges_with_spec h st c : challenges_ok st -> challenges_with h st = [c] ->
  email_verification_challenges st !! EmailVerificationChallenge.id c = Some c /\ EmailVerificationChallenge.token_hash c = h.
Proof.
  intros [Hid _ _] Hc. assert (Hin : c ∈ challenges_with h st) by (rewrite Hc; constructor).
  apply elem_of_filter_bool in Hin as [Hin Hh]. apply bool_decide_eq_true in Hh.
  apply elem_of_rows in Hin as [k Hk]. by rewrite (Hid k c Hk).
Qed.

Lemma challenges_with_unique h st k c : challenges_ok st -> email_verification_challenges st !! k = Some c ->
  EmailVerificationChallenge.token_hash c = h -> challenges_with h st = [c].
Proof.
  intros Hok Hk Hh. unfold challenges_with.
  assert (Hall : forall x, x ∈ challenges_with h st -> x = c).
  { intros x Hx. apply elem_of_filter_bool in Hx as [Hin Hx]. apply bool_decide_eq_true in Hx.
    apply elem_of_rows in Hin as [k' Hk']. assert (k' = k) as -> by (eapply ck_hash; [exact Hok|exact Hk'|exact Hk|congruence]).
    congruence. }
  assert (Hin : c ∈ challenges_with h st).
  { apply elem_of_filter_bool. split; [apply elem_of_rows; eauto|by apply bool_decide_eq_true]. }
  assert (Hnd : NoDup (challenges_with h st)).
  { eapply sublist_NoDup; [apply (NoDup_fmap_1 EmailVerificationChallenge.id), rows_keyed_nodup, (ck_id _ Hok)|].
    apply sublist_filter_bool. }
  unfold challenges_with in Hall, Hin, Hnd. destruct (List.filter _ _) as [|x [|y l]]; [by apply elem_of_nil in Hin|f_equal; apply Hall; constructor|].
  exfalso. assert (x = y) as ->; [|by apply NoDup_cons in Hnd as [[] _]; constructor].
  rewrite (Hall x), (Hall y); [done|by repeat constructor..].
Qed.

(** C24. A confirmation is authentic: it succeeds only for the owner of a
    challenge with this token that was neither used, revoked nor expired and
    whose address is still the user's; it then marks exactly this user's
    address verified, uses the challenge up and leaves the user no challenge
    that could be confirmed later. *)
Theorem confirmation_is_authentic user_id tok s r s' :
  challenges_ok (work s) -> confirm user_id tok s = (inr r, s') ->
  exists h k c user, sha256_hex tok = inr h /\ email_verification_challenges (work s) !! k = Some c
    /\ EmailVerificationChallenge.token_hash c = h /\ EmailVerificationChallenge.user_id c = user_id
    /\ active c = true /\ vc_verified_at r < EmailVerificationChallenge.expires_at c
    /\ users (work s) !! user_id = Some user
    /\ normalize_email <$> User.email user = Some (EmailVerificationChallenge.email c)
    /\ users (durable s') = <[user_id := user <| User.email_verified_at := Some (vc_verified_at r) |>]> (users (work s))
    /\ (exists c', email_verification_challenges (durable s') !! k = Some c'
          /\ EmailVerificationChallenge.consumed_at c' = Some (vc_verified_at r))
    /\ no_active user_id (durable s').
Proof.
  intros Hok (h & c & user & Eh & Ec & Eo & Ea & Ex & Eu & Em & Hu & Hc & _)%confirm_run.
  destruct (challenges_with_spec h (work s) c Hok Ec) as [Hk Hh].
  exists h, (EmailVerificationChallenge.id c), c, user. split_and!; try done.
  - rewrite Hu. apply map_eq. intros k. destruct (decide (k = user_id)) as [->|Hne].
    + by rewrite lookup_alter_eq, lookup_insert_eq, Eu.
    + by rewrite lookup_alter_ne, lookup_insert_ne.
  - rewrite Hc, lookup_fmap, lookup_alter_eq, Hk. cbn. rewrite bool_decide_true by done. rewrite andb_false_r. eauto.
  - unfold no_active. rewrite Hc. intros k x. rewrite lookup_fmap_Some. intros (y & <- & Hy).
    apply lookup_alter_Some in Hy as [(<- & z & Hz & ->)|[Hne Hy]]; cbn.
    + unfold active_of, active. cbn. rewrite andb_false_r. cbn. by rewrite andb_false_r.
    + destruct (active_of user_id y) eqn:Ey; cbn; [|done].
      rewrite bool_decide_false by (rewrite (ck_id _ Hok k y Hy); congruence). cbn.
      unfold active_of, active. cbn. by rewrite !andb_false_r.
Qed.

(** ** Single use *)

Definition spent (h : pystr) (st : Store) : Prop :=
  forall k c, email_verification_challenges st !! k = Some c -> EmailVerificationChallenge.token_hash c = h ->
    is_Some (EmailVerificationChallenge.consumed_at c).

Lemma keeps_spent_update h id f : settles f ->
  (forall c, is_Some (EmailVerificationChallenge.consumed_at c) -> is_Some (EmailVerificationChallenge.consumed_at (f c))) ->
  preserves (keeps (spent h)) (update_challenge id f).
Proof.
  intros Hf Hc. apply keeps_modify. intros st Hs k c. cbn. rewrite lookup_alter_Some.
  intros [(-> & c0 & Hk & ->)|[_ Hk]]; [rewrite (st_hash _ Hf); intros; apply Hc|]; by eapply Hs.
Qed.
Lemma keeps_spent_revoke h p now : preserves (keeps (spent h)) (revoke_where p now).
Proof.
  apply keeps_modify. intros st Hs k c. cbn. rewrite lookup_fmap_Some. intros (c0 & <- & Hk).
  destruct (p c0); cbn; by eapply Hs.
Qed.

Lemma keeps_spent_confirm h user_id tok : preserves (keeps (spent h)) (confirm user_id tok).
Proof.
  unfold confirm, _raise_confirmation_failure, get_user. pres; try apply keeps_spent_revoke.
  all: apply keeps_spent_update; [apply settles_revoke || apply settles_consume|intros c Hc; cbn; eauto].
Qed.

(** One attempt, as the route runs it: whatever happens, the session ends. *)
Definition attempt (a : N * list Z) : M unit :=
  try_except (_ ← confirm a.1 a.2; mret tt) (fun _ => mret tt) ;; rollback.

Lemma keeps_attempt I a : preserves (keeps I) (confirm a.1 a.2) -> preserves (keeps I) (attempt a).
Proof. intros Hc. unfold attempt. pres. Qed.

(** C25. A verification token is used once: after a successful confirmation and
    any further attempts by anyone, no attempt with this token succeeds. *)
Theorem verification_token_single_use user_id tok s r s1 attempts :
  challenges_ok (work s) -> confirm user_id tok s = (inr r, s1) ->
  let s2 := fold_left (fun s a => (attempt a s).2) attempts s1 in
  forall user_id' r' s3, confirm user_id' tok s2 = (inr r', s3) -> False.
Proof.
  intros Hok Hc s2 user_id' r' s3 Hc2. destruct (confirm_run _ _ _ _ _ Hc) as (h & c & user & Eh & Ec & _ & _ & _ & _ & _ & _ & Hd & Hw1).
  destruct (challenges_with_spec h (work s) c Hok Ec) as [Hk Hh].
  assert (Hs1 : spent h (durable s1)).
  { unfold spent. rewrite Hd. intros k x. rewrite lookup_fmap_Some. intros (y & <- & Hy).
    apply lookup_alter_Some in Hy as [(<- & z & Hz & ->)|[Hne Hy]]; [intros _; destruct (_ && _); cbn; eauto|].
    intros Hx. destruct Hne. symmetry. refine (ck_hash _ Hok _ _ y c Hy Hk _). rewrite Hh. by destruct (_ && _) in Hx. }
  assert (Hs2 : spent h (durable s2) /\ spent h (work s2)).
  { assert (Hw : spent h (work s1)) by (by rewrite Hw1). clear -Hs1 Hw. subst s2. revert s1 Hs1 Hw.
    induction attempts as [|a l IH]; intros s1 Hd Hw; [done|]. cbn [fold_left].
    pose proof (keeps_attempt (spent h) a (keeps_spent_confirm h _ _) s1 Hd Hw) as [H1' H2']. by apply IH. }
  apply confirm_run in Hc2 as (h' & c' & user' & Eh' & Ec' & _ & Ea' & _).
  rewrite Eh in Eh'. injection Eh' as <-.
  assert (Hin : c' ∈ challenges_with h (work s2)) by (rewrite Ec'; constructor).
  apply elem_of_filter_bool in Hin as [Hin Hx]. apply bool_decide_eq_true in Hx. apply elem_of_rows in Hin as [k Hk'].
  destruct (proj2 Hs2 k c' Hk' Hx) as [t Ht]. unfold active in Ea'. by rewrite Ht in Ea'.
Qed.

(** What an exception leaves committed. *)
Definition error_keeps {A} (I : Store -> Prop) (m : M A) : Prop :=
  forall s e s', I (durable s) -> I (work s) -> m s = (inl e, s') -> I (durable s').

Lemma error_keeps_pres {A} I (m : M A) : preserves (keeps I) m -> error_keeps I m.
Proof. intros Hm s e s' Hd Hw E. pose proof (Hm s Hd Hw) as [Hd' _]. by rewrite E in Hd'. Qed.
Lemma error_keeps_atomic {A} I (m : M A) : atomic m -> error_keeps I m.
Proof. intros Hm s e s' Hd _ E. by rewrite (Hm s e s' E). Qed.
Lemma error_keeps_bind {A B} I (m : M A) (f : A -> M B) :
  preserves (keeps I) m -> (forall a, error_keeps I (f a)) -> error_keeps I (m ≫= f).
Proof.
  intros Hm Hf s e s' Hd Hw E. destruct (Hm s Hd Hw) as [Hd1 Hw1].
  apply bind_run in E as [(e1 & _ & E)|(a & s1 & E & Hr)]; rewrite E in Hd1, Hw1; [done|]. by eapply Hf.
Qed.

Ltac error_step :=
  lazymatch goal with
  | |- forall _, _ => intros ?
  | |- error_keeps _ (match ?x with _ => _ end) => destruct x
  | |- error_keeps _ _ =>
      first [ apply error_keeps_pres; solve [pres] | apply error_keeps_atomic; solve [atomic]
            | apply error_keeps_bind; [solve [pres]|] ]
  end.

(** Errors verify nobody: a confirmation that raises, for whatever reason,
    leaves every committed account as it was. *)
Theorem failed_confirmation_verifies_nobody user_id tok s e s' :
  work s = durable s -> confirm user_id tok s = (inl e, s') -> users (durable s') = users (durable s).
Proof.
  intros Hs. assert (Hk : error_keeps (fun st => users st = users (durable s)) (confirm user_id tok)).
  { unfold confirm, _raise_confirmation_failure, get_user, update_challenge, revoke_where. repeat error_step. }
  apply Hk; [done|by rewrite Hs].
Qed.

(** ** Sequences of requests *)

Inductive email_op := OpRequest (user_id : N) | OpConfirm (user_id : N) (token : list Z).

Definition run_email_op (o : email_op) : M unit :=
  match o with
  | OpRequest u => _ ← request_verification u; mret tt
  | OpConfirm u t => _ ← confirm u t; mret tt
  end.
Definition email_request (o : email_op) : M unit := try_except (run_email_op o) (fun _ => mret tt) ;; rollback.

Lemma keeps_email_request o : preserves (keeps challenges_ok) (email_request o).
Proof. unfold email_request. pres. destruct o; cbn [run_email_op]; pres; [apply keeps_request|apply keeps_confirm]. Qed.

(** One live token: under any sequence of requests, failed mail deliveries,
    confirmations and database faults, token hashes stay unique and a user has
    at most one challenge that can still be confirmed. *)
Theorem one_live_challenge_per_user ops s :
  work s = durable s -> challenges_ok (durable s) ->
  let s' := fold_left (fun s o => (email_request o s).2) ops s in
  challenges_ok (durable s').
Proof.
  intros Hs Hok. assert (Hw : challenges_ok (work s)) by (by rewrite Hs). clear Hs. cbv zeta. revert s Hok Hw.
  induction ops as [|o ops IH]; intros s Hd Hw; [done|]. cbn [fold_left].
  destruct (keeps_email_request o s Hd Hw). by apply IH.
Qed.

(** ** Request, then confirm *)

Lemma log_event_succeeds ty p stored ch actor s :
  chain_ok (work s) -> db_fault (fault_at s) = None -> events (work s) !! fresh_uuid (uuid_at s) = None ->
  json_column p = Some stored ->
  exists ev s', log_event ty p ch actor s = (inr ev, s') /\ fault_at s' = S (fault_at s).
Proof.
  intros Hok Hf Hid Ep. unfold log_event, lock_scope, may_fault, mbind, M_bind, utcnow, uuid4, gets.
  rewrite Hf. cbn [clock_at uuid_at work upd]. rewrite Hid.
  set (event := Event.Row _ _ _ _ _ _ _ _ _ _ _). unfold flush_event at 1, of_option, mbind, M_bind.
  change (Event.payload event) with p. rewrite Ep. unfold modify at 1, mret at 1, M_ret at 1. set (s1 := _ <| work ::= _ |>).
  destruct (attach_integrity_run (fresh_uuid (uuid_at s)) ch actor ty p stored (clock (clock_at s)) (work s) s1)
    as [row Hatt]; [done..|]. fold event in Hatt. rewrite Hatt. set (ev := appended_row _ _ _ _ _ _ _).
  unfold flush_event, of_option, mbind, M_bind, mret, M_ret, modify.
  change (Event.payload ev) with p. rewrite Ep. by eexists _, _.
Qed.

(** A request that sent a mail. *)
Lemma verification_request_run user_id s r s1 expires : request_verification user_id s = (inr r, s1) -> vr_expires_at r = Some expires ->
  exists user tok h id now, email_verification_enabled = true /\ users (work s) !! user_id = Some user /\ sha256_hex tok = inr h
    /\ users (durable s1) = users (work s)
    /\ (exists email, normalize_email <$> User.email user = Some email
        /\ send_verification email (build_verification_url tok) (outside s) = (true, outside s1)
        /\ email_verification_challenges (durable s1) !! id
           = Some (EmailVerificationChallenge.Row id user_id email h now expires None None)).
Proof.
  unfold request_verification, get_user. intros ([] & s0 & [Hen ->]%guard_ok & Hr)%bind_ok Hx.
  apply bind_ok in Hr as (user & s0 & [-> ->]%gets_ok & Hr). apply bind_ok in Hr as (u & s0 & [Eu ->]%of_option_ok & Hr).
  apply bind_ok in Hr as (addr & s0 & [Ea ->]%of_option_ok & Hr).
  destruct (User.email_verified_at u); [by run_inv|].
  apply bind_ok in Hr as (now & s2 & (Hw & Hd & Ho)%utcnow_ok & Hr). apply bind_ok in Hr as (n & s3 & Hcl & Hr).
  unfold _cleanup_user_history in Hcl. apply bind_ok in Hcl as (ids & s4 & [-> ->]%gets_ok & Hcl).
  apply bind_ok in Hcl as ([] & s4 & ->%modify_ok & [-> ->]%ret_ok).
  apply bind_ok in Hr as ([] & s4 & ->%modify_ok & Hr).
  apply bind_ok in Hr as (tok & s4 & (Hw4 & Hd4 & Ho4)%token_ok & Hr).
  apply bind_ok in Hr as (h & s5 & [Eh ->]%of_res_ok & Hr).
  apply bind_ok in Hr as (id & s5 & (Hw5 & Hd5 & Ho5)%uuid4_ok & Hr).
  apply bind_ok in Hr as ([] & s6 & (_ & _ & ->)%insert_challenge_ok & Hr).
  apply bind_ok in Hr as (ev & s7 & El & Hr).
  apply bind_ok in Hr as ([] & s8 & (Hw8 & Hd8 & Ho8)%commit_ok & Hr). apply bind_ok in Hr as (sent & s9 & Hm & Hr).
  destruct sent; [|by apply bind_ok in Hr as (? & ? & _ & Hr)].
  apply ret_ok in Hr as [-> ->]. injection Hx as <-.
  pose proof (same_run users _ _ _ _ (same_log_event users _ _ _ _ (fun _ _ => eq_refl)) El) as [Eusers _].
  pose proof (same_run email_verification_challenges _ _ _ _
    (same_log_event email_verification_challenges _ _ _ _ (fun _ _ => eq_refl)) El) as [Echal _].
  unfold mail in Hm. destruct (send_verification _ _ _) as [b x] eqn:Es. injection Hm as -> <-.
  cbn in Eusers, Echal. rewrite Hw5, Hw4 in Eusers, Echal. cbn in Eusers, Echal.
  exists u, tok, h, id, now. split_and!; [done|done|done| |].
  { cbn. rewrite Hd8, Eusers. by rewrite Hw. }
  exists (normalize_email addr). rewrite Ea. split_and!; [done| |].
  - cbn. rewrite <-Es. f_equal. symmetry. rewrite Ho8, (log_event_outside _ _ _ _ _ _ _ El). cbn. rewrite Ho5, Ho4. cbn.
    by rewrite Ho.
  - cbn. rewrite Hd8, Echal. cbn. by rewrite lookup_insert_eq.
Qed.

Lemma keeps_chain_request user_id : preserves (keeps chain_ok) (request_verification user_id).
Proof.
  unfold request_verification, get_user, _cleanup_user_history, revoke_where, insert_challenge, insert_row,
    _record_delivery_failure, update_challenge. pres.
  all: first [apply keeps_modify; intros st; by apply chain_ok_events
             | intros s Hd Hw; unfold mail; destruct (send_verification _ _ (outside s)); by split].
Qed.

(** The confirmation of a live challenge on an undisturbed database. *)
Lemma confirm_succeeds user_id tok h s user c :
  email_verification_enabled = true -> sha256_hex tok = inr h -> challenges_with h (work s) = [c] ->
  EmailVerificationChallenge.user_id c = user_id -> active c = true ->
  clock (clock_at s) < EmailVerificationChallenge.expires_at c ->
  users (work s) !! user_id = Some user -> normalize_email <$> User.email user = Some (EmailVerificationChallenge.email c) ->
  chain_ok (work s) -> db_fault (fault_at s) = None -> db_fault (S (fault_at s)) = None ->
  events (work s) !! fresh_uuid (uuid_at s) = None ->
  exists r s', confirm user_id tok s = (inr r, s')
    /\ users (durable s') = alter (fun u => u <| User.email_verified_at := Some (clock (clock_at s)) |>) user_id (users (work s)).
Proof.
  intros Hen Eh Hc Ho Ha Hx Hu Hm Hch Hf1 Hf2 Hid. unfold active in Ha. apply andb_prop in Ha as [Hc1 Hc2].
  apply bool_decide_eq_true in Hc1, Hc2.
  unfold confirm, get_user. rewrite Hen, (bind_step _ _ s tt s) by done.
  rewrite (bind_step _ _ s h s) by (unfold of_res; by rewrite Eh).
  rewrite (bind_step _ _ s _ s (gets_run _ s)), Hc. cbn [head fmap option_fmap option_map].
  rewrite bool_decide_true by done. cbn [negb].
  rewrite (bind_step _ _ s _ s (gets_run _ s)), (bind_step _ _ s _ s (gets_run _ s)), Hc.
  rewrite (bind_step _ _ s (Some c) s) by done. rewrite Hu, bool_decide_true by done. cbn [negb].
  rewrite (bind_step _ _ s (clock (clock_at s)) (s <| clock_at ::= S |>)) by done.
  rewrite Hc1, Hc2, Hm, !(bool_decide_false (is_Some None)) by (by intros []).
  replace (_ <=? _) with false by lia. rewrite bool_decide_true by done. cbn [negb].
  do 3 (erewrite bind_step; [|reflexivity]). set (s3 := _ <| work ::= _ |>).
  destruct (log_event_succeeds (py "email.verified") (PDict [(py "user_id", str_id user_id)])
    (PDict [(py "user_id", str_id user_id)]) None (Some user_id) s3) as (ev & s4 & El & Hf4);
    [by apply (chain_ok_events (work s))|done..|].
  rewrite (bind_step _ _ _ _ _ El).
  pose proof (same_run users _ _ _ _ (same_log_event users _ _ _ _ (fun _ _ => eq_refl)) El) as [Eusers _].
  unfold commit, may_fault, persist, mbind, M_bind. rewrite Hf4. cbn [s3 fault_at upd]. rewrite Hf2.
  eexists _, _. split; [reflexivity|]. cbn. rewrite Eusers. done.
Qed.

(** Round trip: when a request reports that the mail was sent, the mail
    carried a token with which the same user, before the reported deadline and
    on an undisturbed database, verifies exactly the address it was sent to. *)
Theorem requested_token_verifies user_id s r s1 expires :
  work s = durable s -> challenges_ok (durable s) -> chain_ok (durable s) ->
  request_verification user_id s = (inr r, s1) -> vr_expires_at r = Some expires ->
  exists tok email, send_verification email (build_verification_url tok) (outside s) = (true, outside s1)
    /\ forall s2, work s2 = durable s1 -> durable s2 = durable s1 -> clock (clock_at s2) < expires ->
         db_fault (fault_at s2) = None -> db_fault (S (fault_at s2)) = None ->
         events (durable s1) !! fresh_uuid (uuid_at s2) = None ->
         exists r' s3 u, confirm user_id tok s2 = (inr r', s3) /\ users (durable s3) !! user_id = Some u
           /\ normalize_email <$> User.email u = Some email /\ User.email_verified_at u = Some (clock (clock_at s2)).
Proof.
  intros Hs Hok Hch Hr Hx.
  destruct (verification_request_run user_id s r s1 expires Hr Hx) as (user & tok & h & id & now & Hen & Eu & Eh & Hus & email & Em & Esent & Hc).
  pose proof (keeps_request user_id s) as Hk. pose proof (keeps_chain_request user_id s) as Hk2. rewrite Hr in Hk, Hk2.
  rewrite Hs in Eu, Hus. destruct Hk as [Hok1 _]; [done|by rewrite Hs|]. destruct Hk2 as [Hch1 _]; [done|by rewrite Hs|].
  cbn [snd] in Hok1, Hch1.
  exists tok, email. split; [done|]. intros s2 Hw2 Hd2 Hclock Hf1 Hf2 Hid.
  pose proof (challenges_with_unique h (durable s1) id _ Hok1 Hc eq_refl) as Hwith. rewrite <-Hw2 in Hwith.
  destruct (confirm_succeeds user_id tok h s2 user _ Hen Eh Hwith) as (r' & s3 & E & Hu);
    [done|done|done|by rewrite Hw2, Hus|done|by rewrite Hw2|done|done|by rewrite Hw2|].
  exists r', s3, (user <| User.email_verified_at := Some (clock (clock_at s2)) |>). split_and!; [done| |done|done].
  by rewrite Hu, Hw2, Hus, lookup_alter_eq, Eu.
Qed.
End Confirm.

(** ** Examples *)

Definition working_mailer : Mailer (H := still_world) := fun _ _ x => (true, x).
Definition demo_email_settings : EmailSettings := {|
  email_verification_enabled := true; email_verification_ttl_minutes := 30;
  public_url_scheme := py "https"; public_url_netloc := py "chat.example"; public_url_path := py "/en/verify-email" |}.

Section EmailExamples.
Local Existing Instances still_world ascii_ucd working_mailer demo_email_settings.

Example verification_url_example :
  build_verification_url (py "a_b-9") = py "https://chat.example/en/verify-email?token=a_b-9"
  /\ urlencode_token (py "a b+/") = py "token=a+b%2B%2F".
Proof. vm_compute. by split. Qed.

(** A user with an address, and the same after asking for a mail. *)
Definition mail_session : Session := open_session
  (demo_store <| users := {[3%N := demo_user 3 "alice" <| User.email := Some (py " Alice@Example.org") |>]} |>) tt.
Definition ended (s : Session) : Session := s <| work := durable s |>.
Definition asked_session : Session := ended (request_verification 3 mail_session).2.

Lemma mail_session_ok : challenges_ok (durable mail_session) /\ chain_ok (durable mail_session).
Proof. split; [by split|]. by apply (chain_ok_events empty_store), chain_ok_empty. Qed.

Lemma ended_work (s : Session) : work (ended s) = durable (ended s).
Proof. done. Qed.

Lemma ended_keeps {A} (I : Store -> Prop) (m : M A) s : preserves (keeps I) m -> I (durable s) -> I (work s) ->
  I (work (ended (m s).2)).
Proof. intros Hm Hd Hw. apply (Hm s Hd Hw). Qed.

Lemma asked_session_ok : challenges_ok (work asked_session).
Proof. exact (ended_keeps _ _ _ (keeps_request 3) (proj1 mail_session_ok) (proj1 mail_session_ok)). Qed.

Lemma confirmation_is_authentic_witness : exists r s' k c,
  confirm 3 (py "0") asked_session = (inr r, s') /\ email_verification_challenges (work asked_session) !! k = Some c
  /\ EmailVerificationChallenge.user_id c = 3%N /\ no_active 3 (durable s').
Proof.
  destruct (confirm 3 (py "0") asked_session) as [[e|r] s'] eqn:E.
  { exfalso. assert (X : is_ok (confirm 3 (py "0") asked_session).1 = true) by (vm_compute; reflexivity).
    rewrite E in X. discriminate X. }
  destruct (confirmation_is_authentic 3 (py "0") asked_session r s' asked_session_ok E)
    as (h & k & c & user & _ & Hk & _ & Ho & _ & _ & _ & _ & _ & _ & Hn).
  exists r, s', k, c. exact (conj eq_refl (conj Hk (conj Ho Hn))).
Defined.

Lemma verification_token_single_use_witness : exists r s1,
  confirm 3 (py "0") asked_session = (inr r, s1)
  /\ (forall user_id' r' s3, confirm user_id' (py "0") (fold_left (fun s a => (attempt a s).2) [(4%N, py "0")] s1) = (inr r', s3) -> False).
Proof.
  destruct (confirm 3 (py "0") asked_session) as [[e|r] s'] eqn:E.
  { exfalso. assert (X : is_ok (confirm 3 (py "0") asked_session).1 = true) by (vm_compute; reflexivity).
    rewrite E in X. discriminate X. }
  exists r, s'. split; [reflexivity|].
  exact (verification_token_single_use 3 (py "0") asked_session r s' [(4%N, py "0")] asked_session_ok E).
Defined.

Lemma failed_confirmation_verifies_nobody_witness : exists e s',
  confirm 4 (py "0") asked_session = (inl e, s') /\ users (durable s') = users (durable asked_session).
Proof.
  destruct (confirm 4 (py "0") asked_session) as [[e|r] s'] eqn:E.
  - exists e, s'. split; [reflexivity|].
    exact (failed_confirmation_verifies_nobody 4 (py "0") asked_session e s' (ended_work _) E).
  - exfalso. assert (X : is_ok (confirm 4 (py "0") asked_session).1 = false) by (vm_compute; reflexivity).
    rewrite E in X. discriminate X.
Defined.

Lemma one_live_challenge_per_user_witness :
  challenges_ok (durable (fold_left (fun s o => (email_request o s).2)
    [OpRequest 3; OpRequest 3; OpConfirm 3 (py "0"); OpConfirm 3 (py "1")] mail_session)).
Proof.
  exact (one_live_challenge_per_user [OpRequest 3; OpRequest 3; OpConfirm 3 (py "0"); OpConfirm 3 (py "1")]
    mail_session eq_refl (proj1 mail_session_ok)).
Defined.

Lemma requested_token_verifies_witness : exists r s1 tok email,
  request_verification 3 mail_session = (inr r, s1)
  /\ exists r' s3 u, confirm 3 tok (open_session (durable s1) tt) = (inr r', s3) /\ users (durable s3) !! 3%N = Some u
       /\ normalize_email <$> User.email u = Some email /\ User.email_verified_at u = Some (clock 0).
Proof.
  destruct (request_verification 3 mail_session) as [[e|r] s1] eqn:E.
  { exfalso. assert (X : is_ok (request_verification 3 mail_session).1 = true) by (vm_compute; reflexivity).
    rewrite E in X. discriminate X. }
  assert (Hx : vr_expires_at r = Some (clock 0 + minutes 30)).
  { assert (X : match (request_verification 3 mail_session).1 with inr r => vr_expires_at r | inl _ => None end
      = Some (clock 0 + minutes 30)) by (vm_compute; reflexivity). rewrite E in X. exact X. }
  destruct (requested_token_verifies 3 mail_session r s1 _ eq_refl (proj1 mail_session_ok) (proj2 mail_session_ok) E Hx)
    as (tok & email & _ & Hconf).
  assert (Hid : events (durable s1) !! fresh_uuid 0 = None).
  { assert (X : events (durable (request_verification 3 mail_session).2) !! fresh_uuid 0 = None) by (vm_compute; reflexivity).
    rewrite E in X. exact X. }
  exists r, s1, tok, email. split; [reflexivity|].
  exact (Hconf (open_session (durable s1) tt) eq_refl eq_refl eq_refl eq_refl eq_refl Hid).
Defined.
End EmailExamples.
