(* ===== verification/UploadCrypt.v ===== *)
(** * Encrypted upload files (backend/app/core/upload_encryption.py)

    The storage format of protected uploads: an authenticated header followed
    by one AES-256-GCM frame per 64 KiB of plaintext.  The module's functions
    run on a disk, a map from paths to contents; a generator is the list of
    the chunks it yields with the way it ends.

    AES-GCM is the class [Aead]; [AeadLaws] states that decryption inverts
    encryption, that the tag takes 16 bytes, and that decryption accepts only
    what encryption produces for the same key, nonce and associated data. *)

From S2P Require Import Prelude PyStr Sha256 Json Models Session Identifiers Encryption.
Local Open Scope Z_scope.

(** [len(s)]. *)
Abbreviation len s := (Z.of_nat (length s)) (only parsing).

(** ** Constants *)

Definition UPLOAD_V1_HKDF_INFO : bytes := py "MessagingSystem/upload/v1".
Definition UPLOAD_ENCRYPTION_MAGIC : bytes := py "MSGUPENC".
Definition UPLOAD_ENCRYPTION_VERSION : Z := 1.
Definition UPLOAD_ENCRYPTION_CHUNK_SIZE : Z := 64 * 1024.
Definition UPLOAD_ENCRYPTION_MAX_CHUNK_SIZE : Z := 1024 * 1024.
Definition UPLOAD_ENCRYPTION_MAX_PLAINTEXT_SIZE : Z := 1024 * 1024 * 1024 * 1024.
Definition UPLOAD_ENCRYPTION_TAG_SIZE : Z := 16.
Definition UPLOAD_ENCRYPTION_NONCE_PREFIX_SIZE : Z := 8.
Definition UPLOAD_ENCRYPTION_MAX_KEY_ID_SIZE : Z := 64.
Definition UPLOAD_ENCRYPTION_HEADER_NONCE_COUNTER : Z := 0xFFFFFFFF.
Definition UPLOAD_ENCRYPTION_MAX_CHUNK_COUNTER : Z := 0xFFFFFFFE.
Definition _HEADER_PREFIX_SIZE : Z := len UPLOAD_ENCRYPTION_MAGIC + 1 + 16 + 1.
Definition _HEADER_SUFFIX_WITHOUT_TAG_SIZE : Z := 8 + 4 + UPLOAD_ENCRYPTION_NONCE_PREFIX_SIZE.
Definition _FRAME_HEADER_SIZE : Z := 8.
Definition _CHUNK_AAD_DOMAIN : bytes := py "MessagingSystem/upload/v1/chunk" ++ [0].

(** ** AES-GCM *)

Class Aead := {
  (** [AESGCM(key).encrypt(nonce, data, associated_data)]. *)
  aes_encrypt : bytes -> bytes -> bytes -> bytes -> bytes;
  (** [AESGCM(key).decrypt(nonce, data, associated_data)]; [None] is [InvalidTag]. *)
  aes_decrypt : bytes -> bytes -> bytes -> bytes -> option bytes
}.

Class AeadLaws `{Aead} := {
  aead_opens : forall k n p a, Forall is_byte p -> aes_decrypt k n (aes_encrypt k n p a) a = Some p;
  aead_length : forall k n p a, Forall is_byte p -> length (aes_encrypt k n p a) = (length p + 16)%nat;
  aead_bytes : forall k n p a, Forall is_byte p -> Forall is_byte (aes_encrypt k n p a);
  aead_authentic : forall k n c a p, Forall is_byte c -> aes_decrypt k n c a = Some p ->
    Forall is_byte p /\ c = aes_encrypt k n p a
}.

(** ** Files

    Reading a file takes its whole content at [open]; what a writer has
    written appears when its [with] block closes the file, also when the block
    ends with an exception. *)

Record Disk := MkDisk {
  files : gmap (list Z) (list Z);
  unreadable : gset (list Z);
  unwritable : gset (list Z)
}.
Global Instance eta_Disk : Eta Disk := fun d => MkDisk (files d) (unreadable d) (unwritable d).

Definition file_not_found : exc := OSError "FileNotFoundError".
Definition file_exists : exc := OSError "FileExistsError".
Definition permission_denied : exc := OSError "PermissionError".

(** [path.open("rb")]. *)
Definition open_rb (path : pystr) (d : Disk) : res bytes :=
  match files d !! path with
  | None => raise file_not_found
  | Some content => if decide (path ∈ unreadable d) then raise permission_denied else mret content
  end.

(** [with path.open("xb") as destination: ...], where [body] gives what the
    block writes and how it ends. *)
Definition with_xb {A} (path : pystr) (body : Disk -> bytes * res A) (d : Disk) : res A * Disk :=
  match files d !! path with
  | Some _ => (raise file_exists, d)
  | None =>
      if decide (path ∈ unwritable d) then (raise permission_denied, d)
      else
        let '(written, outcome) := body (d <| files ::= <[path := []]> |>) in
        (outcome, d <| files ::= <[path := written]> |>)
  end.

(** [source.read(n)] and what is left. *)
Definition read (n : Z) (source : bytes) : bytes * bytes := (take (Z.to_nat n) source, drop (Z.to_nat n) source).

Definition _read_exact (source : bytes) (n : Z) : res (bytes * bytes) :=
  let '(data, rest) := read n source in
  if negb (len data =? n) then raise (UploadFormatError "truncated encrypted upload") else mret (data, rest).

(** [s[a:b]]. *)
Definition slice (a b : Z) (s : bytes) : bytes := take (Z.to_nat b - Z.to_nat a) (drop (Z.to_nat a) s).
(** [s[i]], for an index the caller has checked. *)
Definition byte_at (i : Z) (s : bytes) : Z := nth (Z.to_nat i) s 0.

(** [bs.decode("ascii")]. *)
Definition decode_ascii (bs : bytes) : option pystr :=
  if forallb (fun c => c <? 128) bs then Some bs else None.
Definition uuid_bytes (u : uuid) : bytes := be_bytes 16 (Z.of_N u).

(** ** The header *)

Record UploadEncryptionHeader := MkHeader {
  upload_id : N;
  key_id : list Z;
  plaintext_size : Z;
  chunk_size : Z;
  nonce_prefix : list Z;
  canonical_bytes : list Z;
  header_tag : list Z
}.

Definition encoded (h : UploadEncryptionHeader) : bytes := canonical_bytes h ++ header_tag h.
Definition digest (h : UploadEncryptionHeader) : bytes := sha256 (canonical_bytes h).

Definition _nonce (prefix : bytes) (counter : Z) : res bytes :=
  if negb (len prefix =? UPLOAD_ENCRYPTION_NONCE_PREFIX_SIZE) || negb ((0 <=? counter) && (counter <=? 0xFFFFFFFF))
  then raise (UploadFormatError "invalid encrypted upload nonce")
  else mret (prefix ++ be_bytes 4 counter).

Definition _chunk_aad (header : UploadEncryptionHeader) (index plaintext_length : Z) : bytes :=
  _CHUNK_AAD_DOMAIN ++ digest header ++ be_bytes 4 index ++ be_bytes 4 plaintext_length.

Definition parse_error {A} (what : string) : res A := raise (UploadFormatError what).

Section Format.
Context `{UnicodeData} `{Crypto} `{Aead} `{EncryptionSettings}.

Definition derive_upload_key (ring : DataEncryptionKeyRing) (key_id : pystr) (upload_id : uuid) : res bytes :=
  key ← master_key ring key_id false;
  mret (hkdf key (uuid_bytes upload_id) UPLOAD_V1_HKDF_INFO).

(** The key of the [AESGCM] object. *)
Definition _aesgcm_for_upload (ring : DataEncryptionKeyRing) (key_id : pystr) (upload_id : uuid) : res bytes :=
  match derive_upload_key ring key_id upload_id with
  | inl (AppError _ _) => raise (UploadKeyError "referenced upload encryption key is unavailable")
  | r => r
  end.

(** [ring or get_data_encryption_key_ring()]. *)
Definition selected_ring (ring : option DataEncryptionKeyRing) : res DataEncryptionKeyRing :=
  match ring with Some ring => mret ring | None => _build_key_ring end.

(** [urandom] is what [os.urandom(8)] returns when no nonce prefix is given. *)
Definition build_upload_encryption_header (upload_id : uuid) (key_id : pystr) (plaintext_size chunk_size : Z)
    (nonce_prefix : option bytes) (urandom : bytes) (ring : option DataEncryptionKeyRing) : res UploadEncryptionHeader :=
  if negb (key_id_ok key_id) then parse_error "invalid upload encryption key ID"
  else if negb ((0 <=? plaintext_size) && (plaintext_size <=? UPLOAD_ENCRYPTION_MAX_PLAINTEXT_SIZE))
  then parse_error "invalid encrypted upload plaintext size"
  else if negb (chunk_size =? UPLOAD_ENCRYPTION_CHUNK_SIZE) || (UPLOAD_ENCRYPTION_MAX_CHUNK_SIZE <? chunk_size)
  then parse_error "unsupported encrypted upload chunk size"
  else
    let key_bytes := key_id in
    if negb ((1 <=? len key_bytes) && (len key_bytes <=? UPLOAD_ENCRYPTION_MAX_KEY_ID_SIZE))
    then parse_error "invalid upload encryption key ID"
    else
      let selected_nonce_prefix := default urandom nonce_prefix in
      if negb (len selected_nonce_prefix =? UPLOAD_ENCRYPTION_NONCE_PREFIX_SIZE)
      then parse_error "invalid encrypted upload nonce prefix"
      else
        let canonical := UPLOAD_ENCRYPTION_MAGIC ++ be_bytes 1 UPLOAD_ENCRYPTION_VERSION ++ uuid_bytes upload_id
          ++ be_bytes 1 (len key_bytes) ++ key_bytes ++ be_bytes 8 plaintext_size ++ be_bytes 4 chunk_size
          ++ selected_nonce_prefix in
        ring ← selected_ring ring;
        aesgcm ← _aesgcm_for_upload ring key_id upload_id;
        nonce ← _nonce selected_nonce_prefix UPLOAD_ENCRYPTION_HEADER_NONCE_COUNTER;
        let tag := aes_encrypt aesgcm nonce [] canonical in
        if negb (len tag =? UPLOAD_ENCRYPTION_TAG_SIZE)
        then raise (UploadIntegrityError "invalid encrypted upload header authentication tag")
        else mret (MkHeader upload_id key_id plaintext_size chunk_size selected_nonce_prefix canonical tag).

(** The checks against the database record, and the header's own tag. *)
Definition authenticate_header (h : UploadEncryptionHeader) (expected_upload_id : option uuid)
    (expected_key_id : option pystr) (ring : option DataEncryptionKeyRing) : res UploadEncryptionHeader :=
  if match expected_upload_id with Some u => negb (bool_decide (upload_id h = u)) | None => false end
  then raise (UploadIntegrityError "encrypted upload UUID does not match its database record")
  else if match expected_key_id with Some k => negb (str_eqb (key_id h) k) | None => false end
  then raise (UploadIntegrityError "encrypted upload key ID does not match its database record")
  else
    ring ← selected_ring ring;
    aesgcm ← _aesgcm_for_upload ring (key_id h) (upload_id h);
    nonce ← _nonce (nonce_prefix h) UPLOAD_ENCRYPTION_HEADER_NONCE_COUNTER;
    match aes_decrypt aesgcm nonce (header_tag h) (canonical_bytes h) with
    | None => raise (UploadIntegrityError "encrypted upload header authentication failed")
    | Some plaintext =>
        if negb (str_eqb plaintext [])
        then raise (UploadIntegrityError "invalid encrypted upload header authentication result")
        else mret h
    end.

Definition _parse_upload_encryption_header_bytes (encoded : bytes) (expected_upload_id : option uuid)
    (expected_key_id : option pystr) (ring : option DataEncryptionKeyRing) : res UploadEncryptionHeader :=
  let minimum := _HEADER_PREFIX_SIZE + 1 + _HEADER_SUFFIX_WITHOUT_TAG_SIZE + UPLOAD_ENCRYPTION_TAG_SIZE in
  if negb ((minimum <=? len encoded) && (len encoded <=? minimum + UPLOAD_ENCRYPTION_MAX_KEY_ID_SIZE - 1))
  then parse_error "invalid encrypted upload header length"
  else
  let offset := len UPLOAD_ENCRYPTION_MAGIC in
  if negb (str_eqb (slice 0 offset encoded) UPLOAD_ENCRYPTION_MAGIC) then parse_error "invalid encrypted upload magic"
  else
  let version := byte_at offset encoded in
  let offset := offset + 1 in
  if negb (version =? UPLOAD_ENCRYPTION_VERSION) then parse_error "unsupported encrypted upload version"
  else
  let upload_id := Z.to_N (be_val (slice offset (offset + 16) encoded)) in
  let offset := offset + 16 in
  let key_id_length := byte_at offset encoded in
  let offset := offset + 1 in
  if negb ((1 <=? key_id_length) && (key_id_length <=? UPLOAD_ENCRYPTION_MAX_KEY_ID_SIZE))
  then parse_error "invalid encrypted upload key ID length"
  else
  let expected_total := _HEADER_PREFIX_SIZE + key_id_length + _HEADER_SUFFIX_WITHOUT_TAG_SIZE + UPLOAD_ENCRYPTION_TAG_SIZE in
  if negb (len encoded =? expected_total) then parse_error "invalid encrypted upload header length"
  else
  match decode_ascii (slice offset (offset + key_id_length) encoded) with
  | None => parse_error "invalid encrypted upload key ID"
  | Some key_id =>
      let offset := offset + key_id_length in
      if negb (key_id_ok key_id) then parse_error "invalid encrypted upload key ID"
      else
      let plaintext_size := be_val (slice offset (offset + 8) encoded) in
      let chunk_size := be_val (slice (offset + 8) (offset + 12) encoded) in
      let offset := offset + 12 in
      if UPLOAD_ENCRYPTION_MAX_PLAINTEXT_SIZE <? plaintext_size
      then parse_error "encrypted upload plaintext size exceeds format bound"
      else if negb (chunk_size =? UPLOAD_ENCRYPTION_CHUNK_SIZE) || (UPLOAD_ENCRYPTION_MAX_CHUNK_SIZE <? chunk_size)
      then parse_error "unsupported encrypted upload chunk size"
      else
      let nonce_prefix := slice offset (offset + UPLOAD_ENCRYPTION_NONCE_PREFIX_SIZE) encoded in
      let offset := offset + UPLOAD_ENCRYPTION_NONCE_PREFIX_SIZE in
      let canonical := slice 0 offset encoded in
      let tag := slice offset (offset + UPLOAD_ENCRYPTION_TAG_SIZE) encoded in
      authenticate_header (MkHeader upload_id key_id plaintext_size chunk_size nonce_prefix canonical tag)
        expected_upload_id expected_key_id ring
  end.

(** The header and the rest of the source. *)
Definition read_upload_encryption_header (source : bytes) (expected_upload_id : option uuid)
    (expected_key_id : option pystr) (ring : option DataEncryptionKeyRing) : res (UploadEncryptionHeader * bytes) :=
  '(prefix, source) ← _read_exact source _HEADER_PREFIX_SIZE;
  let key_id_length := byte_at (len prefix - 1) prefix in
  if negb ((1 <=? key_id_length) && (key_id_length <=? UPLOAD_ENCRYPTION_MAX_KEY_ID_SIZE))
  then parse_error "invalid encrypted upload key ID length"
  else
    '(remainder, source) ← _read_exact source
      (key_id_length + _HEADER_SUFFIX_WITHOUT_TAG_SIZE + UPLOAD_ENCRYPTION_TAG_SIZE);
    header ← _parse_upload_encryption_header_bytes (prefix ++ remainder) expected_upload_id expected_key_id ring;
    mret (header, source).

Definition read_upload_encryption_header_from_path (path : pystr) (expected_upload_id : option uuid)
    (expected_key_id : option pystr) (ring : option DataEncryptionKeyRing) (d : Disk) : res UploadEncryptionHeader :=
  match source ← open_rb path d; read_upload_encryption_header source expected_upload_id expected_key_id ring with
  | inl (OSError what) =>
      if String.eqb what "FileNotFoundError" then raise file_not_found
      else raise (UploadFormatError "unable to read encrypted upload header")
  | inl e => raise e
  | inr (header, _) => mret header
  end.

Definition file_has_encrypted_upload_magic (path : pystr) (d : Disk) : bool :=
  match open_rb path d with
  | inr source => str_eqb (read (len UPLOAD_ENCRYPTION_MAGIC) source).1 UPLOAD_ENCRYPTION_MAGIC
  | inl _ => false
  end.

(** ** Encrypting chunks *)

Record UploadChunkEncryptor := MkEncryptor {
  header : UploadEncryptionHeader;
  _aesgcm : list Z;
  _next_index : Z;
  _total_plaintext : Z
}.

(** [UploadChunkEncryptor(...)]. *)
Definition new_encryptor (upload_id : uuid) (key_id : pystr) (plaintext_size : Z) (urandom : bytes)
    (ring : option DataEncryptionKeyRing) : res UploadChunkEncryptor :=
  ring ← selected_ring ring;
  header ← build_upload_encryption_header upload_id key_id plaintext_size UPLOAD_ENCRYPTION_CHUNK_SIZE None urandom
    (Some ring);
  aesgcm ← _aesgcm_for_upload ring key_id upload_id;
  mret (MkEncryptor header aesgcm 0 0).

Definition encrypt_chunk (self : UploadChunkEncryptor) (chunk : bytes) : res (bytes * UploadChunkEncryptor) :=
  if bool_decide (chunk = []) || (chunk_size (header self) <? len chunk)
  then parse_error "invalid plaintext upload chunk length"
  else if UPLOAD_ENCRYPTION_MAX_CHUNK_COUNTER <? _next_index self
  then parse_error "encrypted upload chunk counter overflow"
  else if plaintext_size (header self) <? _total_plaintext self + len chunk
  then parse_error "plaintext upload exceeds declared size"
  else
    let index := _next_index self in
    nonce ← _nonce (nonce_prefix (header self)) index;
    let ciphertext := aes_encrypt (_aesgcm self) nonce chunk (_chunk_aad (header self) index (len chunk)) in
    mret (be_bytes 4 index ++ be_bytes 4 (len chunk) ++ ciphertext,
          MkEncryptor (header self) (_aesgcm self) (_next_index self + 1) (_total_plaintext self + len chunk)).

Definition finalize (self : UploadChunkEncryptor) : res unit :=
  if negb (_total_plaintext self =? plaintext_size (header self))
  then parse_error "plaintext upload does not match declared size" else mret tt.

(** The loop body of [encrypt_plaintext_file] and [reencrypt_upload_file] over
    the chunks it receives, with the running total and the hashed bytes; the
    first component is what reached the destination. *)
Fixpoint write_chunks (self : UploadChunkEncryptor) (total : Z) (hashed : bytes) (chunks : list bytes)
    : bytes * res (UploadChunkEncryptor * Z * bytes) :=
  match chunks with
  | [] => ([], mret (self, total, hashed))
  | chunk :: chunks =>
      let total := total + len chunk in
      let hashed := hashed ++ chunk in
      match encrypt_chunk self chunk with
      | inl e => ([], raise e)
      | inr (frame, self) =>
          let '(written, outcome) := write_chunks self total hashed chunks in (frame ++ written, outcome)
      end
  end.

(** [while True: chunk = source.read(n); if not chunk: break; ...]: the chunks
    the loop receives.  Each takes at least one byte, so the number of bytes
    is enough fuel. *)
Fixpoint read_loop (fuel : nat) (n : Z) (source : bytes) : list bytes :=
  match fuel with
  | O => []
  | S fuel =>
      let '(chunk, rest) := read n source in
      match chunk with [] => [] | _ => chunk :: read_loop fuel n rest end
  end.
Definition read_chunks (n : Z) (source : bytes) : list bytes := read_loop (length source) n source.

(** [if expected_checksum and checksum.lower() != expected_checksum.strip().lower()]. *)
Definition checksum_mismatch (expected_checksum : option pystr) (checksum : pystr) : bool :=
  match expected_checksum with
  | Some ((_ :: _) as expected) => negb (str_eqb (lower checksum) (lower (strip expected)))
  | _ => false
  end.

Definition encrypt_plaintext_file (source_path destination_path : pystr) (upload_id : uuid) (key_id : pystr)
    (plaintext_size : Z) (expected_checksum : option pystr) (urandom : bytes) (ring : option DataEncryptionKeyRing)
    (d : Disk) : res pystr * Disk :=
  match ring ← selected_ring ring; new_encryptor upload_id key_id plaintext_size urandom (Some ring) with
  | inl e => (raise e, d)
  | inr encryptor =>
      match open_rb source_path d with
      | inl e => (raise e, d)
      | inr source =>
          let '(outcome, d) := with_xb destination_path (fun _ =>
            let '(written, outcome) := write_chunks encryptor 0 [] (read_chunks (chunk_size (header encryptor)) source) in
            (encoded (header encryptor) ++ written,
             '(encryptor, total, hashed) ← outcome; _ ← finalize encryptor; mret (total, hashed))) d in
          (('(total, hashed) ← outcome;
            if negb (total =? plaintext_size)
            then raise (UploadIntegrityError "plaintext upload size does not match its database record")
            else
              let checksum := sha256_hexdigest hashed in
              if checksum_mismatch expected_checksum checksum
              then raise (UploadIntegrityError "plaintext upload checksum does not match its database record")
              else mret checksum), d)
      end
  end.

(** ** Decrypting frames

    A generator: the chunks yielded before it ends, and how it ends. *)
Definition generator : Type := list bytes * res unit.
Definition gen_raise (e : exc) : generator := ([], raise e).
Definition gen_yield (chunk : bytes) (g : generator) : generator := (chunk :: g.1, g.2).

(** The next frame of the source, decrypted, and the rest of the source. *)
Definition next_frame (aesgcm : bytes) (h : UploadEncryptionHeader) (source : bytes) (remaining expected_index : Z)
    : res (bytes * Z * bytes) :=
  if UPLOAD_ENCRYPTION_MAX_CHUNK_COUNTER <? expected_index then parse_error "encrypted upload chunk counter overflow"
  else
    '(frame_header, source) ← _read_exact source _FRAME_HEADER_SIZE;
    let index := be_val (slice 0 4 frame_header) in
    let plaintext_length := be_val (slice 4 8 frame_header) in
    let expected_length := Z.min (chunk_size h) remaining in
    if negb (index =? expected_index) || negb (plaintext_length =? expected_length)
    then parse_error "invalid encrypted upload frame ordering or length"
    else
      '(ciphertext, source) ← _read_exact source (plaintext_length + UPLOAD_ENCRYPTION_TAG_SIZE);
      nonce ← _nonce (nonce_prefix h) index;
      match aes_decrypt aesgcm nonce ciphertext (_chunk_aad h index plaintext_length) with
      | None => raise (UploadIntegrityError "encrypted upload chunk authentication failed")
      | Some plaintext =>
          if negb (len plaintext =? plaintext_length)
          then raise (UploadIntegrityError "invalid encrypted upload plaintext length")
          else mret (plaintext, plaintext_length, source)
      end.

(** [while remaining: ...]; an iteration takes a frame header from the source,
    so one unit of fuel more than the source has bytes is never used up. *)
Fixpoint frames_loop (fuel : nat) (aesgcm : bytes) (h : UploadEncryptionHeader) (source : bytes)
    (remaining expected_index : Z) : generator :=
  if remaining =? 0 then
    match (read 1 source).1 with
    | [] => ([], mret tt)
    | _ => gen_raise (UploadFormatError "encrypted upload contains trailing data")
    end
  else
    match fuel with
    | O => gen_raise (RuntimeError "fuel")
    | S fuel =>
        match next_frame aesgcm h source remaining expected_index with
        | inl e => gen_raise e
        | inr (plaintext, plaintext_length, source) =>
            gen_yield plaintext (frames_loop fuel aesgcm h source (remaining - plaintext_length) (expected_index + 1))
        end
    end.

Definition _iter_decrypted_frames (source : bytes) (h : UploadEncryptionHeader) (ring : DataEncryptionKeyRing) : generator :=
  match _aesgcm_for_upload ring (key_id h) (upload_id h) with
  | inl e => gen_raise e
  | inr aesgcm => frames_loop (S (length source)) aesgcm h source (plaintext_size h) 0
  end.

Definition size_mismatch (expected_plaintext_size : option Z) (h : UploadEncryptionHeader) : bool :=
  match expected_plaintext_size with Some n => negb (plaintext_size h =? n) | None => false end.

Definition iter_decrypted_upload_file (path : pystr) (expected_upload_id : uuid) (expected_key_id : option pystr)
    (expected_plaintext_size : option Z) (ring : option DataEncryptionKeyRing) (d : Disk) : generator :=
  match ring ← selected_ring ring;
        source ← open_rb path d;
        '(h, source) ← read_upload_encryption_header source (Some expected_upload_id) expected_key_id (Some ring);
        if size_mismatch expected_plaintext_size h
        then raise (UploadIntegrityError "encrypted upload size does not match its database record")
        else mret (ring, h, source) with
  | inl e => gen_raise e
  | inr (ring, h, source) => _iter_decrypted_frames source h ring
  end.

Definition validate_encrypted_upload_file (path : pystr) (expected_upload_id : uuid) (expected_key_id : option pystr)
    (expected_plaintext_size : option Z) (expected_checksum : option pystr) (ring : option DataEncryptionKeyRing)
    (d : Disk) : res (UploadEncryptionHeader * pystr) :=
  ring ← selected_ring ring;
  source ← open_rb path d;
  '(h, source) ← read_upload_encryption_header source (Some expected_upload_id) expected_key_id (Some ring);
  if size_mismatch expected_plaintext_size h
  then raise (UploadIntegrityError "encrypted upload size does not match its database record")
  else
    let '(chunks, outcome) := _iter_decrypted_frames source h ring in
    _ ← outcome;
    let hashed := concat chunks in
    let total := foldl (fun total chunk => total + len chunk) 0 chunks in
    if negb (total =? plaintext_size h)
    then raise (UploadIntegrityError "encrypted upload plaintext length mismatch")
    else
      let checksum := sha256_hexdigest hashed in
      if checksum_mismatch expected_checksum checksum
      then raise (UploadIntegrityError "encrypted upload checksum does not match its database record")
      else mret (h, checksum).

(** The destination is created before the generator opens the source. *)
Definition reencrypt_upload_file (source_path destination_path : pystr) (upload_id : uuid)
    (source_key_id : option pystr) (target_key_id : pystr) (plaintext_size : Z) (expected_checksum : option pystr)
    (urandom : bytes) (ring : option DataEncryptionKeyRing) (d : Disk) : res pystr * Disk :=
  match ring ← selected_ring ring;
        encryptor ← new_encryptor upload_id target_key_id plaintext_size urandom (Some ring);
        mret (ring, encryptor) with
  | inl e => (raise e, d)
  | inr (ring, encryptor) =>
      let '(outcome, d) := with_xb destination_path (fun d =>
        let '(chunks, ended) := iter_decrypted_upload_file source_path upload_id source_key_id (Some plaintext_size)
          (Some ring) d in
        let '(written, outcome) := write_chunks encryptor 0 [] chunks in
        (encoded (header encryptor) ++ written,
         '(encryptor, total, hashed) ← outcome; _ ← ended; _ ← finalize encryptor; mret (total, hashed))) d in
      (('(total, hashed) ← outcome;
        if negb (total =? plaintext_size)
        then raise (UploadIntegrityError "rotated upload plaintext length mismatch")
        else
          let checksum := sha256_hexdigest hashed in
          if checksum_mismatch expected_checksum checksum
          then raise (UploadIntegrityError "rotated upload checksum mismatch")
          else mret checksum), d)
  end.

(** ** The asynchronous reader *)

Definition _read_exact_async (source : bytes) (n : Z) : res (bytes * bytes) :=
  let '(data, rest) := read n source in
  if negb (len data =? n) then raise (UploadFormatError "truncated encrypted upload") else mret (data, rest).

Definition _read_upload_encryption_header_async (source : bytes) (expected_upload_id : uuid)
    (expected_key_id : option pystr) (ring : DataEncryptionKeyRing) : res (UploadEncryptionHeader * bytes) :=
  '(prefix, source) ← _read_exact_async source _HEADER_PREFIX_SIZE;
  let key_id_length := byte_at (len prefix - 1) prefix in
  if negb ((1 <=? key_id_length) && (key_id_length <=? UPLOAD_ENCRYPTION_MAX_KEY_ID_SIZE))
  then parse_error "invalid encrypted upload key ID length"
  else
    '(remainder, source) ← _read_exact_async source
      (key_id_length + _HEADER_SUFFIX_WITHOUT_TAG_SIZE + UPLOAD_ENCRYPTION_TAG_SIZE);
    header ← _parse_upload_encryption_header_bytes (prefix ++ remainder) (Some expected_upload_id) expected_key_id
      (Some ring);
    mret (header, source).

(** Neither the chunk counter nor the length of a decrypted chunk is checked here. *)
Definition next_frame_async (aesgcm : bytes) (h : UploadEncryptionHeader) (source : bytes)
    (remaining expected_index : Z) : res (bytes * Z * bytes) :=
  '(frame_header, source) ← _read_exact_async source _FRAME_HEADER_SIZE;
  let index := be_val (slice 0 4 frame_header) in
  let plaintext_length := be_val (slice 4 8 frame_header) in
  let expected_length := Z.min (chunk_size h) remaining in
  if negb (index =? expected_index) || negb (plaintext_length =? expected_length)
  then parse_error "invalid encrypted upload frame ordering or length"
  else
    '(ciphertext, source) ← _read_exact_async source (plaintext_length + UPLOAD_ENCRYPTION_TAG_SIZE);
    nonce ← _nonce (nonce_prefix h) index;
    match aes_decrypt aesgcm nonce ciphertext (_chunk_aad h index plaintext_length) with
    | None => raise (UploadIntegrityError "encrypted upload chunk authentication failed")
    | Some plaintext => mret (plaintext, plaintext_length, source)
    end.

Fixpoint frames_loop_async (fuel : nat) (aesgcm : bytes) (h : UploadEncryptionHeader) (source : bytes)
    (remaining expected_index : Z) : generator :=
  if remaining =? 0 then
    match (read 1 source).1 with
    | [] => ([], mret tt)
    | _ => gen_raise (UploadFormatError "encrypted upload contains trailing data")
    end
  else
    match fuel with
    | O => gen_raise (RuntimeError "fuel")
    | S fuel =>
        match next_frame_async aesgcm h source remaining expected_index with
        | inl e => gen_raise e
        | inr (plaintext, plaintext_length, source) =>
            gen_yield plaintext (frames_loop_async fuel aesgcm h source (remaining - plaintext_length) (expected_index + 1))
        end
    end.

Definition iter_decrypted_upload_async (path : pystr) (expected_upload_id : uuid) (expected_key_id : option pystr)
    (expected_plaintext_size : Z) (d : Disk) : generator :=
  match ring ← _build_key_ring;
        source ← open_rb path d;
        '(h, source) ← _read_upload_encryption_header_async source expected_upload_id expected_key_id ring;
        if negb (plaintext_size h =? expected_plaintext_size)
        then raise (UploadIntegrityError "encrypted upload size does not match its database record")
        else
          aesgcm ← _aesgcm_for_upload ring (key_id h) (upload_id h);
          mret (aesgcm, h, source) with
  | inl e => gen_raise e
  | inr (aesgcm, h, source) => frames_loop_async (S (length source)) aesgcm h source (plaintext_size h) 0
  end.
End Format.

(** ** A concrete cipher

    No secrecy: the plaintext, then the first 16 bytes of the SHA-256 of key,
    nonce, associated data and plaintext. *)
Definition toy_tag (k n p a : bytes) : bytes := take 16 (sha256 (k ++ n ++ a ++ p)).
Definition toy_aead : Aead := {|
  aes_encrypt k n p a := p ++ toy_tag k n p a;
  aes_decrypt k n c a :=
    let p := take (length c - 16) c in if str_eqb c (p ++ toy_tag k n p a) then Some p else None |}.

Lemma length_toy_tag k n p a : length (toy_tag k n p a) = 16%nat.
Proof. unfold toy_tag. rewrite length_take, length_sha256. done. Qed.

Lemma toy_aead_laws : @AeadLaws toy_aead.
Proof.
  split; cbn [aes_encrypt aes_decrypt toy_aead]; intros k n p a.
  - intros _. rewrite length_app, length_toy_tag, take_app_length' by lia. unfold str_eqb. by rewrite bool_decide_true.
  - intros _. by rewrite length_app, length_toy_tag.
  - intros Hp. apply Forall_app_2; [done|]. apply Forall_take, sha256_byte.
  - intros q Hc. destruct (str_eqb _ _) eqn:E; [|done]. intros [= <-].
    apply bool_decide_eq_true in E. split; [by apply Forall_take|done].
Qed.
