(* ===== verification/UploadCryptProps.v ===== *)
(** * Properties of the encrypted upload format

    Files written by the encryptor are read back exactly, also after a key
    rotation; every file a reader accepts is the encryptor's output for the
    plaintext it yields; the asynchronous reader of the download path agrees
    with the synchronous one although it checks less. *)

From S2P Require Import Prelude PyStr Sha256 Json Models Session Identifiers Encryption UploadCrypt.
Local Open Scope Z_scope.

(** ** Bytes and slices *)

Lemma be_val_range bs : Forall is_byte bs -> 0 <= be_val bs < 256 ^ len bs.
Proof.
  intros Hbs. induction Hbs as [|b bs Hb Hbs IH]; [cbn; lia|].
  rewrite be_val_app. cbn [length]. rewrite Nat2Z.inj_succ, Z.pow_succ_r by lia. unfold is_byte in Hb. nia.
Qed.

(** Digits above the ones written do not matter. *)
Lemma be_bytes_high n m b v : (n <= m)%nat -> be_bytes n (b * 256 ^ Z.of_nat m + v) = be_bytes n v.
Proof.
  revert m. induction n as [|n IHn]; intros m Hm; [done|]. cbn [be_bytes]. f_equal; [|apply IHn; lia].
  replace (256 ^ Z.of_nat m) with (256 * 256 ^ Z.of_nat (m - S n) * 256 ^ Z.of_nat n).
  2:{ rewrite <-Z.pow_succ_r, <-Z.pow_add_r by lia. f_equal. lia. }
  rewrite Z.mul_assoc, Z.add_comm, Z.div_add by lia.
  replace (b * (256 * 256 ^ Z.of_nat (m - S n))) with (b * 256 ^ Z.of_nat (m - S n) * 256) by lia.
  by rewrite Z.mod_add by lia.
Qed.

Lemma be_bytes_val bs : Forall is_byte bs -> be_bytes (length bs) (be_val bs) = bs.
Proof.
  intros Hb. induction Hb as [|b bs Hb Hbs IH]; [done|]. cbn [length be_bytes].
  pose proof (be_val_range bs Hbs) as R. rewrite be_val_app. f_equal.
  - rewrite Z.add_comm, Z.div_add by lia. rewrite Z.div_small by lia. apply Z.mod_small, Hb.
  - by rewrite be_bytes_high.
Qed.

Lemma be_bytes_of_val n bs : Forall is_byte bs -> length bs = n -> be_bytes n (be_val bs) = bs.
Proof. intros Hb <-. by apply be_bytes_val. Qed.

Lemma be_val_of_bytes n w : 0 <= w < 256 ^ Z.of_nat n -> be_val (be_bytes n w) = w.
Proof. intros Hw. rewrite be_val_bytes by lia. by apply Z.mod_small. Qed.

Lemma slice_skip i j (a r : bytes) : len a <= i -> slice i j (a ++ r) = slice (i - len a) (j - len a) r.
Proof.
  intros Ha. unfold slice. rewrite drop_app_ge by lia. f_equal; [lia|]. f_equal. lia.
Qed.

Lemma slice_here j (a r : bytes) : len a = j -> slice 0 j (a ++ r) = a.
Proof. intros <-. unfold slice. change (Z.to_nat 0) with 0%nat. rewrite Nat.sub_0_r, Nat2Z.id. apply take_app_length. Qed.

Lemma slice_all j (a : bytes) : len a = j -> slice 0 j a = a.
Proof. intros <-. unfold slice. change (Z.to_nat 0) with 0%nat. rewrite Nat.sub_0_r, Nat2Z.id. apply firstn_all. Qed.

Lemma byte_at_skip i (a r : bytes) : len a <= i -> byte_at i (a ++ r) = byte_at (i - len a) r.
Proof. intros Ha. unfold byte_at. rewrite app_nth2 by lia. f_equal. lia. Qed.

Lemma byte_at_here (b : Z) r : byte_at 0 ([b] ++ r) = b.
Proof. done. Qed.

Lemma read_exact_ok source n data rest :
  _read_exact source n = inr (data, rest) <-> source = data ++ rest /\ len data = n.
Proof.
  unfold _read_exact, read. destruct (Z.eqb_spec (len (take (Z.to_nat n) source)) n) as [E|E]; cbn.
  - split.
    + intros [= <- <-]. by rewrite take_drop.
    + intros [-> Hl]. rewrite <-Hl, Nat2Z.id, take_app_length, drop_app_length. done.
  - split; [done|]. intros [-> Hl]. destruct E. by rewrite <-Hl, Nat2Z.id, take_app_length.
Qed.

(** A list of known length splits at any position. *)
Lemma split_len n (l : bytes) : 0 <= n <= len l -> exists a r, l = a ++ r /\ len a = n.
Proof.
  intros Hn. exists (take (Z.to_nat n) l), (drop (Z.to_nat n) l).
  rewrite take_drop, length_take. split; [done|]. lia.
Qed.

(** ** The header *)

(** The bytes of a header before its tag. *)
Definition layout (u : uuid) (k : pystr) (size : Z) (nonce : bytes) : bytes :=
  UPLOAD_ENCRYPTION_MAGIC ++ [UPLOAD_ENCRYPTION_VERSION] ++ uuid_bytes u ++ [len k] ++ k
  ++ be_bytes 8 size ++ be_bytes 4 UPLOAD_ENCRYPTION_CHUNK_SIZE ++ nonce.

(** What the format requires of the fields of a header. *)
Record fields_ok (k : pystr) (size : Z) (nonce : bytes) : Prop := {
  ok_key : key_id_ok k = true;
  ok_size : 0 <= size <= UPLOAD_ENCRYPTION_MAX_PLAINTEXT_SIZE;
  ok_nonce : len nonce = UPLOAD_ENCRYPTION_NONCE_PREFIX_SIZE
}.

Lemma key_id_length k : key_id_ok k = true -> 1 <= len k <= 64.
Proof.
  unfold key_id_ok. intros E. apply andb_prop in E as [E _]. apply andb_prop in E as [E1 E2].
  apply Nat.leb_le in E1, E2. lia.
Qed.

Lemma safe_char_ascii c : safe_char c = true -> is_ascii c.
Proof.
  unfold safe_char, is_ascii, Identifiers.is_alnum, is_digit. intros E.
  repeat (apply orb_prop in E as [E|E]); try (apply andb_prop in E as [E1 E2]; lia); lia.
Qed.

Lemma key_id_ascii k : key_id_ok k = true -> Forall is_ascii k /\ decode_ascii k = Some k.
Proof.
  unfold key_id_ok. intros E. apply andb_prop in E as [_ E].
  assert (F : Forall is_ascii k).
  { apply Forall_forall. intros c Hc.
    apply safe_char_ascii. rewrite forallb_forall in E. apply E. by apply list_elem_of_In. }
  split; [done|]. unfold decode_ascii. rewrite (proj2 (forallb_forall _ _)); [done|].
  intros c Hc. rewrite Forall_forall in F. specialize (F c). unfold is_ascii in F.
  apply list_elem_of_In, F in Hc. lia.
Qed.

Lemma length_layout u k size nonce : len nonce = 8 -> len (layout u k size nonce) = 46 + len k.
Proof.
  intros Hn. unfold layout, uuid_bytes. rewrite !length_app, !length_be_bytes. cbn [length].
  change (length UPLOAD_ENCRYPTION_MAGIC) with 8%nat. lia.
Qed.

Lemma slice_piece bs i j a b c : bs = a ++ b ++ c -> len a = i -> len b = j - i -> slice i j bs = b.
Proof.
  intros -> Ha Hb. rewrite slice_skip by lia. replace (i - len a) with 0 by lia. apply slice_here. lia.
Qed.

Ltac pieces := first [by rewrite ?app_nil_r, <-?app_assoc | rewrite ?length_app; cbn [length]; lia].

Section Header.
Context `{UnicodeData} `{Crypto} `{Aead} `{EncryptionSettings}.

(** Parsing the pieces of a header, whatever they hold. *)
Lemma parse_pieces M v U kl K S C N T eu ek ring :
  len M = 8 -> len U = 16 -> len K = kl -> len S = 8 -> len C = 4 -> len N = 8 -> len T = 16 ->
  let bs := M ++ [v] ++ U ++ [kl] ++ K ++ S ++ C ++ N ++ T in
  1 <= kl <= 64 ->
  _parse_upload_encryption_header_bytes bs eu ek ring =
  if negb (str_eqb M UPLOAD_ENCRYPTION_MAGIC) then parse_error "invalid encrypted upload magic"
  else if negb (v =? 1) then parse_error "unsupported encrypted upload version"
  else match decode_ascii K with
       | None => parse_error "invalid encrypted upload key ID"
       | Some k =>
           if negb (key_id_ok k) then parse_error "invalid encrypted upload key ID"
           else if UPLOAD_ENCRYPTION_MAX_PLAINTEXT_SIZE <? be_val S
           then parse_error "encrypted upload plaintext size exceeds format bound"
           else if negb (be_val C =? UPLOAD_ENCRYPTION_CHUNK_SIZE) || (UPLOAD_ENCRYPTION_MAX_CHUNK_SIZE <? be_val C)
           then parse_error "unsupported encrypted upload chunk size"
           else authenticate_header (MkHeader (Z.to_N (be_val U)) k (be_val S) (be_val C) N
                  (M ++ [v] ++ U ++ [kl] ++ K ++ S ++ C ++ N) T) eu ek ring
       end.
Proof.
  intros HM HU HK HS HC HN HT bs Hkl. unfold _parse_upload_encryption_header_bytes.
  assert (Hlen : len bs = 62 + kl) by (unfold bs; rewrite !length_app; cbn [length]; lia).
  change (len UPLOAD_ENCRYPTION_MAGIC) with 8. unfold _HEADER_PREFIX_SIZE, _HEADER_SUFFIX_WITHOUT_TAG_SIZE,
    UPLOAD_ENCRYPTION_TAG_SIZE, UPLOAD_ENCRYPTION_MAX_KEY_ID_SIZE, UPLOAD_ENCRYPTION_NONCE_PREFIX_SIZE, UPLOAD_ENCRYPTION_VERSION.
  change (len UPLOAD_ENCRYPTION_MAGIC) with 8. rewrite Hlen.
  replace ((8 + 1 + 16 + 1 + 1 + (8 + 4 + 8) + 16 <=? 62 + kl) && (62 + kl <=? 8 + 1 + 16 + 1 + 1 + (8 + 4 + 8) + 16 + 64 - 1))
    with true by lia. cbn [negb].
  assert (Hcan : slice 0 (8 + 1 + 16 + 1 + kl + 12 + 8) bs = M ++ [v] ++ U ++ [kl] ++ K ++ S ++ C ++ N).
  { apply (slice_piece _ _ _ [] _ T); unfold bs; pieces. }
  assert (Bv : byte_at 8 bs = v).
  { unfold bs. rewrite byte_at_skip by lia. by replace (8 - len M) with 0 by lia. }
  assert (Bk : byte_at (8 + 1 + 16) bs = kl).
  { unfold bs. do 3 (rewrite byte_at_skip by (cbn [length]; lia)).
    replace (8 + 1 + 16 - len M - len [v] - len U) with 0 by (cbn [length]; lia). done. }
  rewrite Bv, Bk, Hcan.
  replace ((1 <=? kl) && (kl <=? 64)) with true by lia.
  replace (62 + kl =? 8 + 1 + 16 + 1 + kl + (8 + 4 + 8) + 16) with true by lia. cbn [negb].
  unfold bs. set (pre := M ++ [v] ++ U ++ [kl] ++ K ++ S ++ C ++ N).
  rewrite (slice_piece _ 0 8 [] M ([v] ++ U ++ [kl] ++ K ++ S ++ C ++ N ++ T)) by (done || (cbn; lia)).
  rewrite (slice_piece _ (8 + 1) (8 + 1 + 16) (M ++ [v]) U ([kl] ++ K ++ S ++ C ++ N ++ T)) by pieces.
  rewrite (slice_piece _ (8 + 1 + 16 + 1) (8 + 1 + 16 + 1 + kl) (M ++ [v] ++ U ++ [kl]) K (S ++ C ++ N ++ T)) by pieces.
  rewrite (slice_piece _ (8 + 1 + 16 + 1 + kl) (8 + 1 + 16 + 1 + kl + 8) (M ++ [v] ++ U ++ [kl] ++ K) S (C ++ N ++ T))
    by pieces.
  rewrite (slice_piece _ (8 + 1 + 16 + 1 + kl + 8) (8 + 1 + 16 + 1 + kl + 12) (M ++ [v] ++ U ++ [kl] ++ K ++ S) C (N ++ T))
    by pieces.
  rewrite (slice_piece _ (8 + 1 + 16 + 1 + kl + 12) (8 + 1 + 16 + 1 + kl + 12 + 8) (M ++ [v] ++ U ++ [kl] ++ K ++ S ++ C) N T)
    by pieces.
  rewrite (slice_piece _ (8 + 1 + 16 + 1 + kl + 12 + 8) (8 + 1 + 16 + 1 + kl + 12 + 8 + 16) pre T [])
    by (unfold pre; pieces).
  done.
Qed.

Lemma build_header_ok u k size chunk np urandom ring h :
  build_upload_encryption_header u k size chunk np urandom ring = inr h <->
  fields_ok k size (default urandom np) /\ chunk = UPLOAD_ENCRYPTION_CHUNK_SIZE /\
  exists r key, selected_ring ring = inr r /\ _aesgcm_for_upload r k u = inr key /\
    let nonce := default urandom np in
    let tag := aes_encrypt key (nonce ++ be_bytes 4 0xFFFFFFFF) [] (layout u k size nonce) in
    len tag = 16 /\ h = MkHeader u k size chunk nonce (layout u k size nonce) tag.
Proof.
  unfold build_upload_encryption_header. set (nonce := default urandom np).
  destruct (key_id_ok k) eqn:Ek; cbn [negb]; [|split; [done|intros ([? _ _] & _); congruence]].
  pose proof (key_id_length k Ek) as Hk.
  destruct ((0 <=? size) && _) eqn:Es; cbn [negb];
    [|split; [done|intros ([_ ? _] & _); exfalso; revert Es; rewrite andb_false_iff, !Z.leb_gt; lia]].
  apply andb_prop in Es as [Es1 Es2]. apply Z.leb_le in Es1, Es2.
  destruct (Z.eqb_spec chunk UPLOAD_ENCRYPTION_CHUNK_SIZE) as [->|Hc]; cbn [negb orb]; [|split; [done|tauto]].
  change (UPLOAD_ENCRYPTION_MAX_CHUNK_SIZE <? UPLOAD_ENCRYPTION_CHUNK_SIZE) with false. cbn iota.
  unfold UPLOAD_ENCRYPTION_MAX_KEY_ID_SIZE. replace ((1 <=? len k) && (len k <=? 64)) with true by lia. cbn [negb].
  destruct (Z.eqb_spec (len nonce) UPLOAD_ENCRYPTION_NONCE_PREFIX_SIZE) as [Hn|Hn]; cbn [negb];
    [|split; [done|intros ([_ _ ?] & _); congruence]].
  assert (HL : UPLOAD_ENCRYPTION_MAGIC ++ be_bytes 1 UPLOAD_ENCRYPTION_VERSION ++ uuid_bytes u ++ be_bytes 1 (len k)
    ++ k ++ be_bytes 8 size ++ be_bytes 4 UPLOAD_ENCRYPTION_CHUNK_SIZE ++ nonce = layout u k size nonce).
  { unfold layout. change (be_bytes 1 UPLOAD_ENCRYPTION_VERSION) with [UPLOAD_ENCRYPTION_VERSION].
    replace (be_bytes 1 (len k)) with [len k]; [done|]. cbn [be_bytes]. f_equal.
    change (256 ^ Z.of_nat 0) with 1. rewrite Z.div_1_r. symmetry. apply Z.mod_small. lia. }
  rewrite HL. clear HL.
  destruct (selected_ring ring) as [e|r] eqn:Er; cbn [mbind res_bind];
    [split; [done|by intros (_ & _ & ? & ? & [=] & _)]|].
  destruct (_aesgcm_for_upload r k u) as [e|key] eqn:Ea; cbn [mbind res_bind];
    [split; [done|intros (_ & _ & r' & key & [= <-] & E & _); congruence]|].
  unfold _nonce. rewrite Hn. change (negb (UPLOAD_ENCRYPTION_NONCE_PREFIX_SIZE =? UPLOAD_ENCRYPTION_NONCE_PREFIX_SIZE)
    || negb ((0 <=? UPLOAD_ENCRYPTION_HEADER_NONCE_COUNTER) && (UPLOAD_ENCRYPTION_HEADER_NONCE_COUNTER <=? 0xFFFFFFFF)))
    with false. cbn [mbind res_bind mret res_ret]. change UPLOAD_ENCRYPTION_HEADER_NONCE_COUNTER with 0xFFFFFFFF.
  unfold UPLOAD_ENCRYPTION_TAG_SIZE. split.
  - destruct (Z.eqb_spec (len (aes_encrypt key (nonce ++ be_bytes 4 0xFFFFFFFF) [] (layout u k size nonce))) 16)
      as [Ht|]; [|done]. intros [= <-]. split_and!; [by constructor|done|]. exists r, key. done.
  - intros (_ & _ & r' & key' & [= <-] & E & Ht & ->). rewrite Ea in E. injection E as <-. by rewrite Ht.
Qed.

(** The headers that exist under a key. *)
Record header_for (key : bytes) (h : UploadEncryptionHeader) : Prop := {
  hf_fields : fields_ok (key_id h) (plaintext_size h) (nonce_prefix h);
  hf_uuid : uuid_ok (upload_id h);
  hf_chunk : chunk_size h = UPLOAD_ENCRYPTION_CHUNK_SIZE;
  hf_canonical : canonical_bytes h = layout (upload_id h) (key_id h) (plaintext_size h) (nonce_prefix h);
  hf_tag : header_tag h = aes_encrypt key (nonce_prefix h ++ be_bytes 4 0xFFFFFFFF) [] (canonical_bytes h)
}.

Definition expects (eu : option uuid) (ek : option pystr) (h : UploadEncryptionHeader) : Prop :=
  match eu with Some u => upload_id h = u | None => True end
  /\ match ek with Some k => key_id h = k | None => True end.

Lemma authenticate_ok h eu ek ring h' :
  authenticate_header h eu ek ring = inr h' <->
  h' = h /\ expects eu ek h /\ exists r key nonce, selected_ring ring = inr r
    /\ _aesgcm_for_upload r (key_id h) (upload_id h) = inr key
    /\ _nonce (nonce_prefix h) UPLOAD_ENCRYPTION_HEADER_NONCE_COUNTER = inr nonce
    /\ aes_decrypt key nonce (header_tag h) (canonical_bytes h) = Some [].
Proof.
  unfold authenticate_header, expects.
  assert (D1 : match eu with Some u => negb (bool_decide (upload_id h = u)) | None => false end = false
    <-> match eu with Some u => upload_id h = u | None => True end).
  { destruct eu; [|done]. by rewrite negb_false_iff, bool_decide_eq_true. }
  assert (D2 : match ek with Some k => negb (str_eqb (key_id h) k) | None => false end = false
    <-> match ek with Some k => key_id h = k | None => True end).
  { destruct ek; [|done]. unfold str_eqb. by rewrite negb_false_iff, bool_decide_eq_true. }
  rewrite <-D1, <-D2. clear D1 D2.
  destruct (match eu with Some _ => _ | None => _ end); [split; [done|by intros (_ & [? _] & _)]|].
  destruct (match ek with Some _ => _ | None => _ end); [split; [done|by intros (_ & [_ ?] & _)]|].
  destruct (selected_ring ring) as [e|r]; cbn [mbind res_bind]; [split; [done|by intros (_ & _ & ? & ? & ? & [=] & _)]|].
  destruct (_aesgcm_for_upload r _ _) as [e|key] eqn:Ea; cbn [mbind res_bind];
    [split; [done|intros (_ & _ & r' & ? & ? & [= <-] & ? & _); congruence]|].
  destruct (_nonce _ _) as [e|nonce] eqn:En; cbn [mbind res_bind];
    [split; [done|by intros (_ & _ & ? & ? & ? & _ & _ & [=] & _)]|].
  split.
  - destruct (aes_decrypt key nonce _ _) as [[|]|] eqn:Ed; try done. intros [= <-]. split_and!; [done..|].
    by exists r, key, nonce.
  - intros (-> & _ & r' & key' & n' & [= <-] & E1 & [= <-] & Ed). rewrite Ea in E1. injection E1 as <-. by rewrite Ed.
Qed.

Lemma nonce_ok prefix i nonce : _nonce prefix i = inr nonce <->
  len prefix = 8 /\ 0 <= i <= 0xFFFFFFFF /\ nonce = prefix ++ be_bytes 4 i.
Proof.
  unfold _nonce, UPLOAD_ENCRYPTION_NONCE_PREFIX_SIZE. destruct (Z.eqb_spec (len prefix) 8) as [Hp|Hp]; cbn [negb orb].
  - destruct ((0 <=? i) && (i <=? 0xFFFFFFFF)) eqn:E; cbn [negb].
    + split; [intros [= <-]; split_and!; [done|lia|lia|done]|by intros (_ & _ & ->)].
    + split; [done|]. intros (_ & ? & _). lia.
  - split; [done|]. by intros (? & _).
Qed.

Lemma byte_at_last M v U kl : byte_at (len (M ++ [v] ++ U ++ [kl]) - 1) (M ++ [v] ++ U ++ [kl]) = kl.
Proof.
  rewrite !length_app. cbn [length]. do 3 (rewrite byte_at_skip by (cbn [length]; lia)).
  by replace (Z.of_nat _ - 1 - _ - _ - _) with 0 by (cbn [length]; lia).
Qed.

Lemma read_pieces source eu ek ring h rest :
  read_upload_encryption_header source eu ek ring = inr (h, rest) <->
  exists M v U kl K S C N T,
    source = (M ++ [v] ++ U ++ [kl] ++ K ++ S ++ C ++ N ++ T) ++ rest /\
    len M = 8 /\ len U = 16 /\ len K = kl /\ len S = 8 /\ len C = 4 /\ len N = 8 /\ len T = 16 /\ 1 <= kl <= 64 /\
    _parse_upload_encryption_header_bytes (M ++ [v] ++ U ++ [kl] ++ K ++ S ++ C ++ N ++ T) eu ek ring = inr h.
Proof.
  unfold read_upload_encryption_header, _HEADER_PREFIX_SIZE, _HEADER_SUFFIX_WITHOUT_TAG_SIZE,
    UPLOAD_ENCRYPTION_TAG_SIZE, UPLOAD_ENCRYPTION_MAX_KEY_ID_SIZE, UPLOAD_ENCRYPTION_NONCE_PREFIX_SIZE.
  change (len UPLOAD_ENCRYPTION_MAGIC + 1 + 16 + 1) with 26. split.
  - intros Hr. apply res_bind_ok in Hr as ([prefix src] & Hq1 & Hr). apply read_exact_ok in Hq1 as [-> Hp].
    destruct ((1 <=? _) && _) eqn:Ek; [|done]. cbn [negb] in Hr.
    apply res_bind_ok in Hr as ([remainder src'] & Hq3 & Hr). apply read_exact_ok in Hq3 as [-> Hm].
    apply res_bind_ok in Hr as (h' & Hparse & Hr). injection Hr as -> ->.
    destruct (split_len 8 prefix) as (M & p1 & -> & HM); [lia|]. rewrite length_app in Hp.
    destruct (split_len 1 p1) as ([|v [|]] & p2 & -> & Hv); [lia|done| |cbn in Hv; lia]. rewrite length_app in Hp.
    destruct (split_len 16 p2) as (U & p3 & -> & HU); [lia|]. rewrite length_app in Hp.
    assert (Hq3 : len p3 = 1) by lia. destruct p3 as [|kl [|]]; [done| |cbn in Hq3; lia]. clear Hq3 Hv.
    rewrite byte_at_last in Ek, Hm. apply andb_prop in Ek as [Ek1 Ek2]. apply Z.leb_le in Ek1, Ek2.
    destruct (split_len kl remainder) as (K & q1 & -> & HK); [lia|]. rewrite length_app in Hm.
    destruct (split_len 8 q1) as (S & q2 & -> & HS); [lia|]. rewrite length_app in Hm.
    destruct (split_len 4 q2) as (C & q3 & -> & HC); [lia|]. rewrite length_app in Hm.
    destruct (split_len 8 q3) as (N & T & -> & HN); [lia|]. rewrite length_app in Hm.
    exists M, v, U, kl, K, S, C, N, T. rewrite <-!app_assoc in Hparse |- *. split_and!; try done; try lia. by rewrite <-!app_assoc.
  - intros (M & v & U & kl & K & S & C & N & T & -> & HM & HU & HK & HS & HC & HN & HT & Hkl & Hparse).
    apply res_bind_ok. exists (M ++ [v] ++ U ++ [kl], (K ++ S ++ C ++ N ++ T) ++ rest). split.
    { apply read_exact_ok. rewrite <-!app_assoc, !length_app. cbn [length]. split; [done|lia]. }
    rewrite byte_at_last. replace ((1 <=? kl) && (kl <=? 64)) with true by lia. cbn [negb].
    apply res_bind_ok. exists (K ++ S ++ C ++ N ++ T, rest). split.
    { apply read_exact_ok. rewrite !length_app. split; [done|lia]. }
    rewrite <-!app_assoc, Hparse. done.
Qed.

Context `{!AeadLaws}.

(** A header that is read was made under the ring's key, byte for byte. *)
Lemma read_header_inv source eu ek ring h rest : Forall is_byte source ->
  read_upload_encryption_header source eu ek ring = inr (h, rest) ->
  source = encoded h ++ rest /\ expects eu ek h /\ exists r key,
    selected_ring ring = inr r /\ _aesgcm_for_upload r (key_id h) (upload_id h) = inr key /\ header_for key h.
Proof.
  intros Hb Hread. apply read_pieces in Hread.
  destruct Hread as (M & v & U & kl & K & S & C & N & T & -> & HM & HU & HK & HS & HC & HN & HT & Hkl & Hparse).
  rewrite parse_pieces in Hparse by done. rewrite !Forall_app in Hb.
  destruct Hb as ((BM & Bv & BU & Bkl & BK & BS & BC & BN & BT) & _).
  destruct (str_eqb M _) eqn:EM; [|done]. apply bool_decide_eq_true in EM as ->.
  destruct (Z.eqb_spec v 1) as [->|]; [|done]. cbn [negb] in Hparse.
  destruct (decode_ascii K) as [k|] eqn:EK; [|done].
  unfold decode_ascii in EK. destruct (forallb _ K); [|done]. injection EK as <-.
  destruct (key_id_ok K) eqn:Eok; [|done]. cbn [negb] in Hparse.
  destruct (Z.ltb_spec UPLOAD_ENCRYPTION_MAX_PLAINTEXT_SIZE (be_val S)) as [|Hsize]; [done|].
  destruct (Z.eqb_spec (be_val C) UPLOAD_ENCRYPTION_CHUNK_SIZE) as [Hchunk|]; [|done]. cbn [negb orb] in Hparse.
  destruct (_ <? be_val C); [done|].
  apply authenticate_ok in Hparse as (-> & Hexp & r & key & nonce & Hr & Hk & Hn & Hd).
  apply nonce_ok in Hn as (_ & _ & ->). apply aead_authentic in Hd as [_ Htag]; [|done]. cbn in Htag, Hk.
  pose proof (be_val_range S BS). pose proof (be_val_range U BU) as RU. rewrite HU in RU.
  split_and!; [unfold encoded; cbn [canonical_bytes header_tag]; by rewrite <-!app_assoc|done|]. exists r, key. split_and!; [done|done|].
  assert (HL : UPLOAD_ENCRYPTION_MAGIC ++ [1] ++ U ++ [kl] ++ K ++ S ++ C ++ N
    = layout (Z.to_N (be_val U)) K (be_val S) N).
  { unfold layout, uuid_bytes. rewrite Z2N.id by lia. rewrite <-Hchunk, !be_bytes_of_val by (done || lia).
    by rewrite HK. }
  split; cbn; [split; [done|lia|done]| | done|done|done].
  unfold uuid_ok. apply N2Z.inj_lt. rewrite Z2N.id by lia. change (Z.of_N (2 ^ 128)) with (256 ^ 16). lia.
Qed.

(** A header under a key is read back. *)
Lemma read_header_encoded eu ek ring h rest r key :
  expects eu ek h -> selected_ring ring = inr r -> _aesgcm_for_upload r (key_id h) (upload_id h) = inr key ->
  header_for key h -> read_upload_encryption_header (encoded h ++ rest) eu ek ring = inr (h, rest).
Proof.
  intros Hexp Hr Hk [[Fk Fs Fn] Hu Hc Hcan Htag]. apply read_pieces.
  destruct h as [u k size chunk N can T].
  cbn [upload_id key_id plaintext_size chunk_size nonce_prefix canonical_bytes header_tag] in *. subst chunk.
  assert (HT : len T = 16) by (rewrite Htag, aead_length by done; done).
  exists UPLOAD_ENCRYPTION_MAGIC, 1, (uuid_bytes u), (len k), k, (be_bytes 8 size), (be_bytes 4 UPLOAD_ENCRYPTION_CHUNK_SIZE), N, T.
  pose proof (key_id_length k Fk).
  split_and!; try (done || lia || by rewrite ?length_be_bytes || (unfold uuid_bytes; by rewrite ?length_be_bytes)).
  { unfold encoded. cbn [canonical_bytes header_tag]. rewrite Hcan. unfold layout. by rewrite <-!app_assoc. }
  rewrite parse_pieces; try (done || lia || by rewrite ?length_be_bytes || (unfold uuid_bytes; by rewrite ?length_be_bytes)).
  replace (str_eqb UPLOAD_ENCRYPTION_MAGIC UPLOAD_ENCRYPTION_MAGIC) with true by done. cbn [negb Z.eqb].
  destruct (key_id_ascii k Fk) as [_ ->]. rewrite Fk. cbn [negb].
  unfold UPLOAD_ENCRYPTION_MAX_PLAINTEXT_SIZE in Fs |- *. rewrite be_val_of_bytes by lia.
  replace (_ <? size) with false by lia. rewrite be_val_of_bytes by (unfold UPLOAD_ENCRYPTION_CHUNK_SIZE; lia).
  cbn [negb orb Z.eqb]. change (negb (_ =? _) || _) with false. cbn iota.
  assert (EU : Z.to_N (be_val (uuid_bytes u)) = u).
  { unfold uuid_bytes. rewrite be_val_of_bytes; [apply N2Z.id|]. unfold uuid_ok in Hu.
    change (256 ^ Z.of_nat 16) with (Z.of_N (2 ^ 128)). lia. }
  rewrite EU. assert (EL : UPLOAD_ENCRYPTION_MAGIC ++ [1] ++ uuid_bytes u ++ [len k] ++ k ++ be_bytes 8 size
    ++ be_bytes 4 UPLOAD_ENCRYPTION_CHUNK_SIZE ++ N = can) by (by rewrite Hcan).
  rewrite EL. apply authenticate_ok. split_and!; [done|done|]. exists r, key, (N ++ be_bytes 4 0xFFFFFFFF).
  split_and!; [done|done| |]; cbn.
  + apply nonce_ok. done.
  + rewrite Htag. by apply aead_opens.
Qed.
End Header.

(** ** Chunks

    [chunks_at r cs r']: with [r] bytes to come, [cs] are the next chunks and
    leave [r']; every chunk is full except perhaps the last of the file. *)
Inductive chunks_at : Z -> list bytes -> Z -> Prop :=
| chunks_nil r : 0 <= r -> chunks_at r [] r
| chunks_cons r c cs r' :
    0 < r -> len c = Z.min UPLOAD_ENCRYPTION_CHUNK_SIZE r -> Forall is_byte c ->
    chunks_at (r - len c) cs r' -> chunks_at r (c :: cs) r'.

Lemma chunks_at_length r cs r' : chunks_at r cs r' -> 0 <= r' /\ len (concat cs) = r - r'.
Proof.
  induction 1 as [r Hr|r c cs r' Hr Hc Hb Hcs IH]; [cbn; lia|]. cbn [concat]. rewrite length_app. lia.
Qed.

Lemma chunks_at_bytes r cs r' : chunks_at r cs r' -> Forall is_byte (concat cs).
Proof. induction 1; [done|]. cbn [concat]. by apply Forall_app_2. Qed.

(** The number of chunks, and so the chunk counter, is bounded by the size. *)
Lemma chunks_at_count r cs r' : chunks_at r cs r' -> len cs * UPLOAD_ENCRYPTION_CHUNK_SIZE < r + UPLOAD_ENCRYPTION_CHUNK_SIZE.
Proof.
  unfold UPLOAD_ENCRYPTION_CHUNK_SIZE. induction 1 as [r Hr|r c cs r' Hr Hc Hb Hcs IH]; [cbn; lia|].
  unfold UPLOAD_ENCRYPTION_CHUNK_SIZE in Hc. cbn [length]. rewrite Nat2Z.inj_succ.
  destruct (Z.le_gt_cases r (64 * 1024)) as [Hs|Hs]; [|lia].
  assert (E : r - len c = 0) by lia. rewrite E in Hcs. clear -Hcs Hr. inversion Hcs; subst; [cbn; lia|lia].
Qed.

Lemma chunks_at_app r cs r1 cs2 r2 : chunks_at r cs r1 -> chunks_at r1 cs2 r2 -> chunks_at r (cs ++ cs2) r2.
Proof. induction 1; [done|]. intros Hcs2. cbn. constructor; auto. Qed.

Lemma chunks_at_full cs r : 0 <= r -> Forall (fun c => len c = UPLOAD_ENCRYPTION_CHUNK_SIZE /\ Forall is_byte c) cs ->
  chunks_at (UPLOAD_ENCRYPTION_CHUNK_SIZE * len cs + r) cs r.
Proof.
  intros Hr Hcs. induction Hcs as [|c cs [Hc Hb] Hcs IH].
  - cbn [length]. rewrite Z.mul_0_r. by constructor.
  - cbn [length]. rewrite Nat2Z.inj_succ. assert (0 < UPLOAD_ENCRYPTION_CHUNK_SIZE) by done.
    constructor; [nia|rewrite Hc; nia|done|]. replace (_ - _) with (UPLOAD_ENCRYPTION_CHUNK_SIZE * len cs + r) by nia. done.
Qed.

Lemma chunks_at_total r cs r' t : chunks_at r cs r' -> foldl (fun total chunk => total + len chunk) t cs = t + (r - r').
Proof.
  intros Hcs. revert t. induction Hcs as [r Hr|r c cs r' Hr Hc Hb Hcs IH]; intros t; [cbn; lia|].
  cbn [foldl]. rewrite IH. lia.
Qed.

Lemma read_loop_chunks fuel source : (length source <= fuel)%nat -> Forall is_byte source ->
  chunks_at (len source) (read_loop fuel UPLOAD_ENCRYPTION_CHUNK_SIZE source) 0
  /\ concat (read_loop fuel UPLOAD_ENCRYPTION_CHUNK_SIZE source) = source.
Proof.
  revert source. induction fuel as [|fuel IH]; intros source Hf Hb; cbn [read_loop].
  { destruct source; [|cbn in Hf; lia]. split; [by constructor|done]. }
  unfold read. set (n := Z.to_nat UPLOAD_ENCRYPTION_CHUNK_SIZE).
  assert (Hn : Z.of_nat n = UPLOAD_ENCRYPTION_CHUNK_SIZE) by (by apply Z2Nat.id). clearbody n.
  assert (Hp : 0 < UPLOAD_ENCRYPTION_CHUNK_SIZE) by done.
  destruct (take n source) as [|b chunk] eqn:Et.
  { destruct source; [split; [by constructor|done]|]. destruct n; [lia|done]. }
  rewrite <-Et.
  assert (Hl : length (take n source) = S (length chunk)) by (by rewrite Et).
  rewrite length_take in Hl.
  destruct (IH (drop n source)) as [H1 H2]; [rewrite length_drop; lia|by apply Forall_drop|].
  split.
  - constructor; [lia|rewrite length_take; lia|by apply Forall_take|].
    rewrite length_drop in H1. rewrite length_take.
    replace (len source - Z.of_nat (n `min` length source)) with (Z.of_nat (length source - n)) by lia. done.
  - cbn [concat]. rewrite H2. apply take_drop.
Qed.

Lemma read_chunks_ok source : Forall is_byte source ->
  chunks_at (len source) (read_chunks UPLOAD_ENCRYPTION_CHUNK_SIZE source) 0
  /\ concat (read_chunks UPLOAD_ENCRYPTION_CHUNK_SIZE source) = source.
Proof. intros Hb. by apply read_loop_chunks. Qed.

(** A plaintext is cut into chunks in one way. *)
Lemma chunks_at_unique r cs cs' : chunks_at r cs 0 -> chunks_at r cs' 0 -> concat cs = concat cs' -> cs = cs'.
Proof.
  intros Hcs. remember 0 as z eqn:Hz. revert cs'. induction Hcs as [r Hr|r c cs r' Hr Hc Hb Hcs IH];
    intros cs' Hcs' Heq; subst; inversion Hcs' as [|? c' cs2 ? Hr2 Hc2 Hb2 Hcs2]; subst; try lia; [done|].
  cbn [concat] in Heq. apply app_inj_1 in Heq as [-> Heq]; [|lia]. f_equal. by apply IH.
Qed.

Section Frames.
Context `{UnicodeData} `{Crypto} `{Aead} `{EncryptionSettings} `{!AeadLaws}.

(** The frame of a chunk, and the frames of a list of chunks. *)
Definition frame (key : bytes) (h : UploadEncryptionHeader) (i : Z) (chunk : bytes) : bytes :=
  be_bytes 4 i ++ be_bytes 4 (len chunk)
  ++ aes_encrypt key (nonce_prefix h ++ be_bytes 4 i) chunk (_chunk_aad h i (len chunk)).
Fixpoint frames (key : bytes) (h : UploadEncryptionHeader) (i : Z) (chunks : list bytes) : bytes :=
  match chunks with
  | [] => []
  | chunk :: chunks => frame key h i chunk ++ frames key h (i + 1) chunks
  end.

Lemma frame_bytes key h i c : Forall is_byte c -> Forall is_byte (frame key h i c).
Proof. intros Hc. unfold frame. rewrite !Forall_app. split_and!; [apply be_bytes_byte..|by apply aead_bytes]. Qed.

Lemma frames_bytes key h i cs r r' : chunks_at r cs r' -> Forall is_byte (frames key h i cs).
Proof. intros Hcs. revert i. induction Hcs; intros i; [done|]. cbn [frames]. apply Forall_app_2; [by apply frame_bytes|done]. Qed.

Lemma next_frame_ok key h source r i p n rest : Forall is_byte source -> header_for key h -> 0 < r -> 0 <= i ->
  next_frame key h source r i = inr (p, n, rest) <->
  i <= UPLOAD_ENCRYPTION_MAX_CHUNK_COUNTER /\ source = frame key h i p ++ rest /\ n = len p
  /\ len p = Z.min UPLOAD_ENCRYPTION_CHUNK_SIZE r /\ Forall is_byte p.
Proof.
  intros Hb [[_ _ Hn] _ Hc _ _] Hr Hi. unfold next_frame. rewrite Hc.
  unfold UPLOAD_ENCRYPTION_MAX_CHUNK_COUNTER, UPLOAD_ENCRYPTION_CHUNK_SIZE, UPLOAD_ENCRYPTION_TAG_SIZE, _FRAME_HEADER_SIZE.
  destruct (Z.ltb_spec 0xFFFFFFFE i) as [Hbig|Hsmall]; [split; [done|lia]|]. split.
  - intros E. apply res_bind_ok in E as ([fh src] & E1 & E). apply read_exact_ok in E1 as [-> Hfh].
    destruct (split_len 4 fh) as (a & b & -> & Ha); [lia|]. rewrite length_app in Hfh.
    rewrite !Forall_app in Hb. destruct Hb as [[Ba Bb] Bs].
    rewrite (slice_piece _ 0 4 [] a b) in E by (done || lia).
    rewrite (slice_piece _ 4 8 a b []) in E by (rewrite ?app_nil_r; done || lia).
    destruct (Z.eqb_spec (be_val a) i) as [<-|]; [|done].
    destruct (Z.eqb_spec (be_val b) (Z.min (64 * 1024) r)) as [El|]; [|done]. cbn [negb orb] in E.
    apply res_bind_ok in E as ([ct src'] & E2 & E). apply read_exact_ok in E2 as [-> Hct].
    apply res_bind_ok in E as (nonce & En & E). apply nonce_ok in En as (_ & _ & ->).
    apply Forall_app in Bs as [Bct _].
    destruct (aes_decrypt _ _ _ _) as [q|] eqn:Ed; [|done].
    apply aead_authentic in Ed as [Hq Ect]; [|done].
    destruct (Z.eqb_spec (len q) (be_val b)) as [Hlq|]; [|done]. injection E as <- <- <-.
    split_and!; [done| |lia|lia|done].
    unfold frame. rewrite Hlq, <-Ect, !be_bytes_of_val by (done || lia). by rewrite <-!app_assoc.
  - intros (_ & -> & -> & Hl & Hp). apply res_bind_ok.
    exists (be_bytes 4 i ++ be_bytes 4 (len p),
      aes_encrypt key (nonce_prefix h ++ be_bytes 4 i) p (_chunk_aad h i (len p)) ++ rest). split.
    { apply read_exact_ok. unfold frame. rewrite <-!app_assoc, length_app, !length_be_bytes. done. }
    rewrite (slice_piece _ 0 4 [] (be_bytes 4 i) (be_bytes 4 (len p))) by (rewrite ?length_be_bytes; done).
    rewrite (slice_piece _ 4 8 (be_bytes 4 i) (be_bytes 4 (len p)) []) by (rewrite ?app_nil_r, ?length_be_bytes; done).
    rewrite !be_val_of_bytes by (change (256 ^ Z.of_nat 4) with 0x100000000; lia).
    rewrite <-Hl, !Z.eqb_refl. cbn [negb orb]. apply res_bind_ok.
    exists (aes_encrypt key (nonce_prefix h ++ be_bytes 4 i) p (_chunk_aad h i (len p)), rest). split.
    { apply read_exact_ok. rewrite aead_length by done. split; [done|lia]. }
    apply res_bind_ok. exists (nonce_prefix h ++ be_bytes 4 i). split.
    { apply nonce_ok. split_and!; [exact Hn|lia..|done]. }
    rewrite aead_opens by done. by rewrite Z.eqb_refl.
Qed.

Lemma frame_length key h i p : Forall is_byte p -> (length (frame key h i p) = length p + 24)%nat.
Proof. intros Hp. unfold frame. rewrite !length_app, !length_be_bytes, aead_length by done. lia. Qed.

(** The exceptions of a malformed or altered file. *)
Definition file_error (e : exc) : Prop :=
  match e with UploadFormatError _ | UploadIntegrityError _ => True | _ => False end.

Lemma read_exact_error source n e : _read_exact source n = inl e -> file_error e.
Proof. unfold _read_exact, read. destruct (negb _); [|done]. by intros [= <-]. Qed.

Lemma nonce_error prefix i e : _nonce prefix i = inl e -> file_error e.
Proof. unfold _nonce. destruct (_ || _); [|done]. by intros [= <-]. Qed.

Lemma next_frame_error key h source r i e : next_frame key h source r i = inl e -> file_error e.
Proof.
  unfold next_frame. destruct (_ <? i); [by intros [= <-]|].
  destruct (_read_exact source _) as [e1|[fh src]] eqn:E1; cbn [mbind res_bind].
  { intros [= <-]. by apply read_exact_error in E1. }
  destruct (_ || _); [by intros [= <-]|].
  destruct (_read_exact src _) as [e2|[ct src']] eqn:E2; cbn [mbind res_bind].
  { intros [= <-]. by apply read_exact_error in E2. }
  destruct (_nonce _ _) as [e3|nonce] eqn:E3; cbn [mbind res_bind].
  { intros [= <-]. by apply nonce_error in E3. }
  destruct (aes_decrypt _ _ _ _); [|by intros [= <-]]. destruct (negb _); [|done]. by intros [= <-].
Qed.

(** What the loop yields was sealed in order under the key, whether it ends
    well or not; it ends well only on the whole plaintext and the whole file,
    and otherwise with an error of the format, never for want of fuel. *)
Lemma frames_loop_inv fuel key h source r i : Forall is_byte source -> header_for key h -> 0 <= r -> 0 <= i ->
  (length source < fuel)%nat ->
  exists cs out rest r', frames_loop fuel key h source r i = (cs, out) /\ source = frames key h i cs ++ rest
    /\ chunks_at r cs r' /\ match out with inr _ => r' = 0 /\ rest = [] | inl e => file_error e end.
Proof.
  intros Hb Hh. revert source r i Hb. induction fuel as [|fuel IH]; intros source r i Hb Hr Hi Hf; [lia|].
  cbn [frames_loop]. destruct (Z.eqb_spec r 0) as [->|Hnz].
  { unfold read. destruct source as [|b source]; cbn.
    - exists [], (inr tt), [], 0. split_and!; [done|done|by constructor|done..].
    - exists [], (inl (UploadFormatError "encrypted upload contains trailing data")), (b :: source), 0.
      split_and!; [done|done|by constructor|done]. }
  destruct (next_frame key h source r i) as [e|[[p n] rest]] eqn:En.
  { exists [], (inl e), source, r. split_and!; [done|done|by constructor|by apply next_frame_error in En]. }
  apply next_frame_ok in En as (Hmax & -> & -> & Hl & Hp); [|done|done|lia|done].
  rewrite length_app, frame_length in Hf by done. apply Forall_app in Hb as [_ Hb].
  destruct (IH rest (r - len p) (i + 1)) as (cs & out & rest' & r' & E & -> & Hcs & Hout); [done|lia..|].
  rewrite E. exists (p :: cs), out, rest', r'. split_and!; [done|cbn [frames]; by rewrite app_assoc| |done].
  constructor; [lia|done..].
Qed.

Lemma frames_loop_ok fuel key h cs r i : header_for key h -> chunks_at r cs 0 -> 0 <= i ->
  i + len cs <= 0xFFFFFFFF -> (length (frames key h i cs) < fuel)%nat ->
  frames_loop fuel key h (frames key h i cs) r i = (cs, inr tt).
Proof.
  intros Hh Hcs. remember 0 as z eqn:Hz. revert fuel i.
  induction Hcs as [r Hr|r c cs r' Hr Hc Hb Hcs IH]; intros fuel i Hi Hmax Hf; subst; (destruct fuel; [lia|]).
  { done. }
  cbn [frames] in *. cbn [frames_loop length] in *. replace (r =? 0) with false by lia.
  rewrite length_app, frame_length in Hf by done.
  assert (En : next_frame key h (frame key h i c ++ frames key h (i + 1) cs) r i
    = inr (c, len c, frames key h (i + 1) cs)).
  { apply next_frame_ok; [|done|lia|done|].
    - apply Forall_app_2; [by apply frame_bytes|by eapply frames_bytes].
    - unfold UPLOAD_ENCRYPTION_MAX_CHUNK_COUNTER. split_and!; [lia|done..]. }
  rewrite En, IH by (done || lia). done.
Qed.

(** ** The writing side *)

Lemma encrypt_chunk_ok key h i t c : header_for key h -> 0 < len c <= UPLOAD_ENCRYPTION_CHUNK_SIZE ->
  0 <= i < 0xFFFFFFFF -> t + len c <= plaintext_size h ->
  encrypt_chunk (MkEncryptor h key i t) c = inr (frame key h i c, MkEncryptor h key (i + 1) (t + len c)).
Proof.
  intros [[_ _ Hn] _ Hch _ _] Hc Hi Ht. unfold encrypt_chunk. cbn. rewrite Hch.
  rewrite bool_decide_false by (intros ->; cbn in Hc; lia).
  replace (UPLOAD_ENCRYPTION_CHUNK_SIZE <? len c) with false by lia. cbn [orb].
  unfold UPLOAD_ENCRYPTION_MAX_CHUNK_COUNTER. replace (0xFFFFFFFE <? i) with false by lia.
  replace (plaintext_size h <? t + len c) with false by lia.
  rewrite (proj2 (nonce_ok (nonce_prefix h) i _)) by (split_and!; [exact Hn|lia|lia|done]). done.
Qed.

Lemma frames_snoc key h i cs c : frames key h i (cs ++ [c]) = frames key h i cs ++ frame key h (i + len cs) c.
Proof.
  revert i. induction cs as [|x cs IH]; intros i; cbn [frames app length].
  - change (Z.of_nat 0) with 0. by rewrite app_nil_r, Z.add_0_r.
  - rewrite IH, <-app_assoc. do 3 f_equal. lia.
Qed.

Lemma write_chunks_ok key h cs r i t total hashed : header_for key h -> chunks_at r cs 0 -> 0 <= i ->
  i + len cs <= 0xFFFFFFFF -> t + r = plaintext_size h ->
  write_chunks (MkEncryptor h key i t) total hashed cs =
    (frames key h i cs, inr (MkEncryptor h key (i + len cs) (t + r), total + r, hashed ++ concat cs)).
Proof.
  intros Hh Hcs. remember 0 as z eqn:Hz. revert i t total hashed.
  induction Hcs as [r Hr|r c cs r' Hr Hc Hb Hcs IH]; intros i t total hashed Hi Hmax Ht; subst; cbn [write_chunks frames concat].
  { cbn [length]. change (Z.of_nat 0) with 0. by rewrite app_nil_r, !Z.add_0_r. }
  cbn [length] in Hmax.
  pose proof (chunks_at_length _ _ _ Hcs).
  rewrite encrypt_chunk_ok, IH by (done || lia || (unfold UPLOAD_ENCRYPTION_CHUNK_SIZE in *; lia)). cbn [length].
  replace (i + 1 + len cs) with (i + Z.of_nat (S (length cs))) by lia.
  replace (t + len c + (r - len c)) with (t + r) by lia.
  replace (total + len c + (r - len c)) with (total + r) by lia. by rewrite <-app_assoc.
Qed.
End Frames.

(** ** Whole files *)

Section Files.
Context `{UnicodeData} `{Crypto} `{Aead} `{!AeadLaws}.

(** The file of a plaintext under a key and header. *)
Definition sealed (key : bytes) (h : UploadEncryptionHeader) (p : bytes) : bytes :=
  encoded h ++ frames key h 0 (read_chunks UPLOAD_ENCRYPTION_CHUNK_SIZE p).

Lemma aesgcm_ok r k u key : _aesgcm_for_upload r k u = inr key <->
  exists m, assoc k (ring_keys r) = Some m /\ key = hkdf m (uuid_bytes u) UPLOAD_V1_HKDF_INFO.
Proof.
  unfold _aesgcm_for_upload, derive_upload_key, master_key.
  destruct (assoc k (ring_keys r)) as [m|]; cbn; [|split; [done|by intros (? & [=] & _)]].
  split; [intros [= <-]; by exists m|]. by intros (m' & [= <-] & ->).
Qed.

Lemma header_size_small key h : header_for key h -> forall cs r', chunks_at (plaintext_size h) cs r' -> len cs <= 0xFFFFFFFF.
Proof.
  intros [[_ Hs _] _ _ _ _] cs r' Hcs. apply chunks_at_count in Hcs.
  unfold UPLOAD_ENCRYPTION_MAX_PLAINTEXT_SIZE, UPLOAD_ENCRYPTION_CHUNK_SIZE in *. lia.
Qed.

Lemma encoded_bytes key h : header_for key h -> Forall is_byte (nonce_prefix h) -> Forall is_byte (encoded h).
Proof.
  intros [[Fk _ _] _ _ Hcan Htag] Hn. unfold encoded. rewrite Htag. apply Forall_app_2; [|by apply aead_bytes].
  rewrite Hcan. unfold layout. pose proof (key_id_length _ Fk). destruct (key_id_ascii _ Fk) as [Ha _].
  assert (Hk : Forall is_byte (key_id h)) by (eapply Forall_impl; [exact Ha|unfold is_ascii, is_byte; intros; lia]).
  rewrite !Forall_app. split_and!; try apply be_bytes_byte; try done.
  - repeat constructor; done.
  - apply Forall_singleton. done.
  - apply Forall_singleton. unfold is_byte. lia.
Qed.

Lemma open_rb_ok path d content : files d !! path = Some content -> path ∉ unreadable d -> open_rb path d = inr content.
Proof. intros E Hr. unfold open_rb. rewrite E. by rewrite decide_False. Qed.

Lemma open_rb_inv path d content : open_rb path d = inr content -> files d !! path = Some content /\ path ∉ unreadable d.
Proof. unfold open_rb. destruct (files d !! path); [|done]. destruct (decide _); [done|]. by intros [= <-]. Qed.

Lemma with_xb_ok {A} path (body : Disk -> bytes * res A) d : files d !! path = None -> path ∉ unwritable d ->
  with_xb path body d =
    ((body (d <| files ::= <[path := []]> |>)).2,
     d <| files ::= <[path := (body (d <| files ::= <[path := []]> |>)).1]> |>).
Proof. intros E Hw. unfold with_xb. rewrite E, decide_False by done. by destruct (body _). Qed.

Section Reading.
Context `{EncryptionSettings}.

Lemma sealed_frames key h p : header_for key h -> Forall is_byte p -> len p = plaintext_size h ->
  let cs := read_chunks UPLOAD_ENCRYPTION_CHUNK_SIZE p in
  frames_loop (S (length (frames key h 0 cs))) key h (frames key h 0 cs) (plaintext_size h) 0 = (cs, inr tt).
Proof.
  intros Hh Hp Hl cs. subst cs. destruct (read_chunks_ok p Hp) as [Hcs _]. rewrite Hl in Hcs.
  apply frames_loop_ok; [done|done|done| |lia]. pose proof (header_size_small key h Hh _ _ Hcs). lia.
Qed.

(** Reading a sealed file. *)
Lemma sealed_file_reads path u ek ring r key h p d :
  files d !! path = Some (sealed key h p) -> path ∉ unreadable d ->
  header_for key h -> Forall is_byte p -> len p = plaintext_size h -> expects (Some u) ek h ->
  selected_ring ring = inr r -> _aesgcm_for_upload r (key_id h) (upload_id h) = inr key ->
  forall sz, size_mismatch sz h = false ->
  iter_decrypted_upload_file path u ek sz ring d = (read_chunks UPLOAD_ENCRYPTION_CHUNK_SIZE p, inr tt)
  /\ forall ck, checksum_mismatch ck (sha256_hexdigest p) = false ->
     validate_encrypted_upload_file path u ek sz ck ring d = inr (h, sha256_hexdigest p).
Proof.
  intros Hf Hu Hh Hp Hl Hexp Hr Hk sz Hsz.
  assert (Hread : read_upload_encryption_header (sealed key h p) (Some u) ek (Some r)
    = inr (h, frames key h 0 (read_chunks UPLOAD_ENCRYPTION_CHUNK_SIZE p))) by (by eapply read_header_encoded).
  destruct (read_chunks_ok p Hp) as [Hcs Hcat].
  split; [|intros ck Hck]; unfold iter_decrypted_upload_file, validate_encrypted_upload_file;
    rewrite Hr; cbn [mbind res_bind]; rewrite (open_rb_ok _ _ _ Hf Hu); cbn [mbind res_bind];
    rewrite Hread; cbn [mbind res_bind]; rewrite Hsz; cbn [mret res_ret]; unfold _iter_decrypted_frames;
    rewrite Hk, sealed_frames by done; [done|].
  cbn [mbind res_bind]. rewrite (chunks_at_total _ _ _ 0 Hcs), Hcat, Hck, Hl.
  by rewrite Z.sub_0_r, Z.add_0_l, Z.eqb_refl.
Qed.

(** A file that is read at all starts with a header under the ring's key and
    the frames of what is yielded; read to the end, it is a sealed file. *)
Lemma read_file_inv path u ek sz ring d content :
  files d !! path = Some content -> Forall is_byte content ->
  let '(cs, out) := iter_decrypted_upload_file path u ek sz ring d in
  (cs = [] /\ exists e, out = inl e) \/
  exists r h key rest r',
    selected_ring ring = inr r /\ open_rb path d = inr content
    /\ read_upload_encryption_header content (Some u) ek (Some r) = inr (h, frames key h 0 cs ++ rest)
    /\ size_mismatch sz h = false /\ _iter_decrypted_frames (frames key h 0 cs ++ rest) h r = (cs, out)
    /\ _aesgcm_for_upload r (key_id h) u = inr key /\ header_for key h /\ expects (Some u) ek h
    /\ content = encoded h ++ frames key h 0 cs ++ rest /\ chunks_at (plaintext_size h) cs r'
    /\ (out = inr tt -> r' = 0 /\ rest = []).
Proof.
  intros Hf Hb. unfold iter_decrypted_upload_file.
  destruct (selected_ring ring) as [e|r] eqn:Er; cbn [mbind res_bind gen_raise]; [left; split; [done|by exists e]|].
  destruct (open_rb path d) as [e|content'] eqn:Eo; cbn [mbind res_bind gen_raise]; [left; split; [done|by exists e]|].
  assert (content' = content) as -> by (apply open_rb_inv in Eo; destruct Eo; congruence).
  destruct (read_upload_encryption_header content (Some u) ek (Some r)) as [e|[h src]] eqn:Eh;
    cbn [mbind res_bind gen_raise]; [left; split; [done|by exists e]|].
  destruct (size_mismatch sz h) eqn:Es; cbn [mret res_ret]; [left; split; [done|by eexists]|].
  pose proof Eh as Eh'. apply read_header_inv in Eh' as (-> & Hexp & r' & key & [= <-] & Hk & Hh); [|done].
  assert (Eu : upload_id h = u) by apply Hexp.
  apply Forall_app in Hb as [_ Hb]. destruct (hf_fields _ _ Hh) as [_ Hs _].
  destruct (frames_loop_inv (S (length src)) key h src (plaintext_size h) 0 Hb Hh) as
    (cs & out & rest & r2 & E & -> & Hcs & Hout); [lia..|].
  assert (Ei : _iter_decrypted_frames (frames key h 0 cs ++ rest) h r = (cs, out)).
  { unfold _iter_decrypted_frames. by rewrite Hk. }
  rewrite Ei. right. exists r, h, key, rest, r2. rewrite <-Eu at 2.
  split_and!; try done; intros ->; by destruct Hout.
Qed.

(** The encryptor's header is the one the fields determine. *)
Lemma header_ext key h h' : header_for key h -> header_for key h' -> upload_id h = upload_id h' ->
  key_id h = key_id h' -> plaintext_size h = plaintext_size h' -> nonce_prefix h = nonce_prefix h' -> h = h'.
Proof.
  intros [_ _ C1 N1 T1] [_ _ C2 N2 T2] E1 E2 E3 E4. destruct h, h'. cbn in *. congruence.
Qed.

Lemma new_encryptor_ok u k size urandom ring r key : uuid_ok u -> fields_ok k size urandom ->
  selected_ring ring = inr r -> _aesgcm_for_upload r k u = inr key ->
  exists h, new_encryptor u k size urandom ring = inr (MkEncryptor h key 0 0) /\ header_for key h
    /\ upload_id h = u /\ key_id h = k /\ plaintext_size h = size /\ nonce_prefix h = urandom.
Proof.
  intros Hu Hf Hr Hk.
  set (h := MkHeader u k size UPLOAD_ENCRYPTION_CHUNK_SIZE urandom (layout u k size urandom)
    (aes_encrypt key (urandom ++ be_bytes 4 0xFFFFFFFF) [] (layout u k size urandom))).
  assert (Hb : build_upload_encryption_header u k size UPLOAD_ENCRYPTION_CHUNK_SIZE None urandom (Some r) = inr h).
  { apply build_header_ok. refine (conj Hf (conj eq_refl _)). exists r, key. cbv zeta. split_and!; [done|done| |done].
    by rewrite aead_length. }
  exists h. unfold new_encryptor. rewrite Hr. cbn [mbind res_bind]. rewrite Hb. cbn [mbind res_bind]. rewrite Hk.
  split_and!; try done.
Qed.

Lemma finalize_ok key h i : finalize (MkEncryptor h key i (plaintext_size h)) = inr tt.
Proof. unfold finalize. cbn. by rewrite Z.eqb_refl. Qed.

(** Sealing the chunks of a plaintext, as both writers do. *)
Lemma write_sealed key h p : header_for key h -> Forall is_byte p -> len p = plaintext_size h ->
  write_chunks (MkEncryptor h key 0 0) 0 [] (read_chunks UPLOAD_ENCRYPTION_CHUNK_SIZE p)
  = (frames key h 0 (read_chunks UPLOAD_ENCRYPTION_CHUNK_SIZE p),
     inr (MkEncryptor h key (len (read_chunks UPLOAD_ENCRYPTION_CHUNK_SIZE p)) (plaintext_size h), plaintext_size h, p)).
Proof.
  intros Hh Hp Hl. destruct (read_chunks_ok p Hp) as [Hcs Hcat]. rewrite Hl in Hcs.
  pose proof (header_size_small key h Hh _ _ Hcs).
  rewrite (write_chunks_ok key h _ (plaintext_size h)) by (done || lia). by rewrite Hcat.
Qed.

Lemma encrypt_file_ok src dst u k p ck urandom ring r key d :
  uuid_ok u -> fields_ok k (len p) urandom -> Forall is_byte p ->
  selected_ring ring = inr r -> _aesgcm_for_upload r k u = inr key ->
  files d !! src = Some p -> src ∉ unreadable d -> files d !! dst = None -> dst ∉ unwritable d ->
  checksum_mismatch ck (sha256_hexdigest p) = false ->
  exists h, header_for key h /\ upload_id h = u /\ key_id h = k /\ plaintext_size h = len p /\ nonce_prefix h = urandom
    /\ encrypt_plaintext_file src dst u k (len p) ck urandom ring d
       = (inr (sha256_hexdigest p), d <| files ::= <[dst := sealed key h p]> |>).
Proof.
  intros Hu Hf Hp Hr Hk Hs Hsr Hd Hdw Hck.
  destruct (new_encryptor_ok u k (len p) urandom (Some r) r key) as (h & Hn & Hh & E1 & E2 & E3 & E4); [done..|].
  exists h. split_and!; try done. unfold encrypt_plaintext_file. rewrite Hr. cbn [mbind res_bind]. rewrite Hn.
  rewrite (open_rb_ok _ _ _ Hs Hsr), with_xb_ok by done. cbn [header]. rewrite (hf_chunk _ _ Hh), write_sealed by done.
  cbn [fst snd mbind res_bind]. rewrite finalize_ok. cbn [mbind res_bind mret res_ret].
  by rewrite E3, Z.eqb_refl, Hck.
Qed.
End Reading.

(** What a successful validation says of the file. *)
Lemma validate_inv (E1 : EncryptionSettings) path u ek sz ck ring d content h c :
  files d !! path = Some content -> Forall is_byte content ->
  validate_encrypted_upload_file path u ek sz ck ring d = inr (h, c) ->
  exists r key p, selected_ring ring = inr r /\ _aesgcm_for_upload r (key_id h) u = inr key /\ header_for key h
    /\ expects (Some u) ek h /\ content = sealed key h p /\ Forall is_byte p /\ len p = plaintext_size h
    /\ c = sha256_hexdigest p /\ checksum_mismatch ck c = false /\ size_mismatch sz h = false /\ path ∉ unreadable d.
Proof.
  intros Hf Hb Hv. pose proof (read_file_inv path u ek sz ring d content Hf Hb) as Hinv.
  unfold iter_decrypted_upload_file in Hinv. unfold validate_encrypted_upload_file in Hv.
  apply res_bind_ok in Hv as (r & Er & Hv). rewrite Er in Hinv. cbn [mbind res_bind] in Hinv.
  apply res_bind_ok in Hv as (src & Eo & Hv). rewrite Eo in Hinv. cbn [mbind res_bind] in Hinv.
  apply res_bind_ok in Hv as ([h' body] & Eh & Hv). rewrite Eh in Hinv. cbn [mbind res_bind] in Hinv.
  destruct (size_mismatch sz h') eqn:Es; [done|]. cbn [mret res_ret] in Hinv.
  destruct (_iter_decrypted_frames body h' r) as [cs out] eqn:Ei.
  apply res_bind_ok in Hv as ([] & -> & Hv).
  destruct (negb _) eqn:Et; [done|]. destruct (checksum_mismatch _ _) eqn:Eck; [done|]. injection Hv as <- <-.
  destruct Hinv as [(_ & e & [=])|(r1 & h1 & key & rest & r' & [= <-] & [= ->] & Eh1 & _ & _ & Hk & Hh & Hexp & Hc & Hcs & Hend)].
  rewrite Eh in Eh1. injection Eh1 as -> ->. destruct (Hend eq_refl) as [-> ->].
  destruct (chunks_at_length _ _ _ Hcs) as [_ Hlen]. rewrite Z.sub_0_r in Hlen.
  pose proof (chunks_at_bytes _ _ _ Hcs) as Hbytes. destruct (read_chunks_ok _ Hbytes) as [Hcs2 Hcat].
  exists r, key, (concat cs). split_and!; try done; [|by apply open_rb_inv in Eo as [_ ?]].
  rewrite Hlen in Hcs2. unfold sealed. rewrite (chunks_at_unique _ _ _ Hcs2 Hcs Hcat). by rewrite Hc, app_nil_r.
Qed.

(** Reading a file depends on that file only. *)
Lemma iter_frame `{EncryptionSettings} path u ek sz ring d d2 :
  files d2 !! path = files d !! path -> unreadable d2 = unreadable d ->
  iter_decrypted_upload_file path u ek sz ring d2 = iter_decrypted_upload_file path u ek sz ring d.
Proof. intros Ef Eu. unfold iter_decrypted_upload_file, open_rb. by rewrite Ef, Eu. Qed.

(** ** The properties *)

(** C20. Round trip: sealing a plaintext file of admissible size under a key of the
    ring succeeds, changes no other file and returns the SHA-256 of the
    plaintext; afterwards any ring that still holds the same master key, in
    this process or a later one, validates the file and decrypts it to exactly
    the plaintext. *)
Theorem sealed_upload_round_trip (E1 : EncryptionSettings) src dst u k p ck urandom ring r m d :
  uuid_ok u -> key_id_ok k = true -> Forall is_byte p -> len p <= UPLOAD_ENCRYPTION_MAX_PLAINTEXT_SIZE ->
  len urandom = UPLOAD_ENCRYPTION_NONCE_PREFIX_SIZE ->
  selected_ring ring = inr r -> assoc k (ring_keys r) = Some m ->
  files d !! src = Some p -> src ∉ unreadable d ->
  files d !! dst = None -> dst ∉ unwritable d -> dst ∉ unreadable d ->
  checksum_mismatch ck (sha256_hexdigest p) = false ->
  exists d', encrypt_plaintext_file src dst u k (len p) ck urandom ring d = (inr (sha256_hexdigest p), d')
    /\ (forall path, path <> dst -> files d' !! path = files d !! path)
    /\ forall (E2 : EncryptionSettings) ring2 r2 ek,
         selected_ring ring2 = inr r2 -> assoc k (ring_keys r2) = Some m -> ek = None \/ ek = Some k ->
         (exists h, validate_encrypted_upload_file dst u ek (Some (len p)) ck ring2 d' = inr (h, sha256_hexdigest p))
         /\ exists cs, iter_decrypted_upload_file dst u ek (Some (len p)) ring2 d' = (cs, inr tt) /\ concat cs = p.
Proof.
  intros Hu Hk Hp Hmax Hn Hr Hm Hs Hsr Hd Hdw Hdr Hck.
  set (key := hkdf m (uuid_bytes u) UPLOAD_V1_HKDF_INFO).
  assert (Hkey : forall r, assoc k (ring_keys r) = Some m -> _aesgcm_for_upload r k u = inr key)
    by (intros r' Hr'; apply aesgcm_ok; by exists m).
  destruct (encrypt_file_ok src dst u k p ck urandom ring r key d) as (h & Hh & Eu & Ek & Es & En & E); try done.
  { split; [done|lia|done]. }
  { by apply Hkey. }
  eexists. split_and!; [exact E|intros path Hne; cbn; by rewrite lookup_insert_ne|].
  intros E2 ring2 r2 ek Hr2 Hm2 Hek.
  destruct (sealed_file_reads dst u ek ring2 r2 key h p (d <| files ::= <[dst := sealed key h p]> |>)) with (sz := Some (len p))
    as [Hi Hv]; try done.
  - cbn. by rewrite lookup_insert_eq.
  - split; [done|]. destruct Hek as [->| ->]; done.
  - rewrite Ek, Eu. by apply Hkey.
  - cbn. by rewrite Es, Z.eqb_refl.
  - split; [exists h; by apply Hv|]. eexists. split; [exact Hi|]. by apply read_chunks_ok.
Qed.

(** Tamper evidence: a file that validates is, byte for byte, what
    [encrypt_plaintext_file] writes for the plaintext with the returned
    checksum under the same key and nonce prefix; so no altered, reordered,
    truncated or extended file is accepted in its place. *)
Theorem valid_upload_is_canonical (E1 : EncryptionSettings) path u ek sz ck ring d content h c :
  files d !! path = Some content -> Forall is_byte content ->
  validate_encrypted_upload_file path u ek sz ck ring d = inr (h, c) ->
  exists p, c = sha256_hexdigest p /\ len p = plaintext_size h /\ upload_id h = u /\
    forall src dst d2, files d2 !! src = Some p -> src ∉ unreadable d2 -> files d2 !! dst = None -> dst ∉ unwritable d2 ->
      encrypt_plaintext_file src dst u (key_id h) (plaintext_size h) None (nonce_prefix h) ring d2
      = (inr c, d2 <| files ::= <[dst := content]> |>).
Proof.
  intros Hf Hb Hv.
  destruct (validate_inv E1 path u ek sz ck ring d content h c Hf Hb Hv)
    as (r & key & p & Hr & Hk & Hh & Hexp & -> & Hp & Hl & -> & _ & _ & _).
  assert (Eu : upload_id h = u) by apply Hexp.
  exists p. split_and!; [done|done|done|]. intros src dst d2 Hs Hsr Hd Hdw. rewrite <-Hl.
  destruct (encrypt_file_ok src dst u (key_id h) p None (nonce_prefix h) ring r key d2)
    as (h2 & Hh2 & Eu2 & Ek2 & Es2 & En2 & E); try done.
  { rewrite <-Eu. apply Hh. }
  { rewrite Hl. apply Hh. }
  rewrite E. by assert (h2 = h) as -> by (apply (header_ext key); (done || congruence || lia)).
Qed.

(** Key rotation: re-encrypting a file that validates, under any key of the ring,
    into a fresh destination succeeds with the same checksum, leaves the source
    as it was, and the new file validates under the new key and decrypts to the
    same plaintext. *)
Theorem rotation_preserves_plaintext (E1 : EncryptionSettings) src dst u sk tk size ck urandom ring r m d content h c :
  files d !! src = Some content -> Forall is_byte content ->
  validate_encrypted_upload_file src u sk (Some size) ck ring d = inr (h, c) ->
  selected_ring ring = inr r -> assoc tk (ring_keys r) = Some m -> key_id_ok tk = true ->
  len urandom = UPLOAD_ENCRYPTION_NONCE_PREFIX_SIZE ->
  files d !! dst = None -> dst ∉ unwritable d -> dst ∉ unreadable d ->
  exists d' h', reencrypt_upload_file src dst u sk tk size ck urandom ring d = (inr c, d')
    /\ files d' !! src = Some content
    /\ validate_encrypted_upload_file dst u (Some tk) (Some size) ck ring d' = inr (h', c)
    /\ iter_decrypted_upload_file dst u (Some tk) (Some size) ring d'
       = iter_decrypted_upload_file src u sk (Some size) ring d.
Proof.
  intros Hf Hb Hv Hr Hm Htk Hn Hd Hdw Hdr.
  destruct (validate_inv E1 src u sk (Some size) ck ring d content h c Hf Hb Hv)
    as (r' & key & p & Hr' & Hk & Hh & Hexp & -> & Hp & Hl & -> & Hck & Hsz & Hread).
  rewrite Hr in Hr'. injection Hr' as <-. assert (Eu : upload_id h = u) by apply Hexp.
  pose proof Hsz as Hsz'. unfold size_mismatch in Hsz'. apply negb_false_iff, Z.eqb_eq in Hsz' as <-.
  assert (Hiter : forall d2 ring2, files d2 !! src = files d !! src -> unreadable d2 = unreadable d ->
    selected_ring ring2 = inr r -> iter_decrypted_upload_file src u sk (Some (plaintext_size h)) ring2 d2
      = (read_chunks UPLOAD_ENCRYPTION_CHUNK_SIZE p, inr tt)).
  { intros d2 ring2 E2 E3 Hr2. rewrite (iter_frame src u sk _ ring2 d d2) by done.
    refine (proj1 (sealed_file_reads src u sk ring2 r key h p d _ _ _ _ _ _ _ _ _ _)); try done. by rewrite Eu. }
  set (key2 := hkdf m (uuid_bytes u) UPLOAD_V1_HKDF_INFO).
  assert (Hk2 : _aesgcm_for_upload r tk u = inr key2) by (apply aesgcm_ok; by exists m).
  destruct (new_encryptor_ok u tk (plaintext_size h) urandom (Some r) r key2)
    as (h2 & Hn2 & Hh2 & Eu2 & Ek2 & Es2 & En2); [by rewrite <-Eu; apply Hh|split; [done|apply Hh|done]|done|done|].
  assert (Hne : src <> dst) by (intros ->; congruence).
  exists (d <| files ::= <[dst := sealed key2 h2 p]> |>), h2.
  destruct (sealed_file_reads dst u (Some tk) ring r key2 h2 p (d <| files ::= <[dst := sealed key2 h2 p]> |>))
    with (sz := Some (plaintext_size h)) as [Hi Hv2]; try done.
  { cbn. by rewrite lookup_insert_eq. }
  { lia. }
  { by rewrite Ek2, Eu2. }
  { cbn. by rewrite Es2, Z.eqb_refl. }
  split_and!; [|cbn; by rewrite lookup_insert_ne|by apply Hv2|by rewrite Hi, Hiter].
  unfold reencrypt_upload_file. rewrite Hr. cbn [mbind res_bind]. rewrite Hn2. cbn [mbind res_bind mret res_ret].
  rewrite with_xb_ok, Hiter by (done || (cbn; by rewrite lookup_insert_ne)). rewrite write_sealed by (done || lia).
  cbn [fst snd mbind res_bind]. rewrite finalize_ok. cbn [mbind res_bind mret res_ret].
  by rewrite Es2, Z.eqb_refl, Hck.
Qed.

(** ** The asynchronous reader *)

Lemma next_frame_async_eq key h source r i :
  Forall is_byte source -> header_for key h -> 0 < r -> i <= UPLOAD_ENCRYPTION_MAX_CHUNK_COUNTER ->
  next_frame_async key h source r i = next_frame key h source r i.
Proof.
  intros Hb Hh Hr Hi. unfold next_frame, next_frame_async.
  replace (UPLOAD_ENCRYPTION_MAX_CHUNK_COUNTER <? i) with false by lia.
  change _read_exact_async with _read_exact.
  destruct (_read_exact source _) as [e|[fh src]] eqn:E1; cbn [mbind res_bind]; [done|].
  apply read_exact_ok in E1 as [-> _]. apply Forall_app in Hb as [_ Hb].
  destruct (_ || _); [done|].
  destruct (_read_exact src _) as [e|[ct src']] eqn:E2; cbn [mbind res_bind]; [done|].
  apply read_exact_ok in E2 as [-> Hct]. apply Forall_app in Hb as [Hb _].
  destruct (_nonce _ _) as [e|nonce]; cbn [mbind res_bind]; [done|].
  destruct (aes_decrypt _ _ _ _) as [p|] eqn:Ed; [|done].
  apply aead_authentic in Ed as [Hp Ect]; [|done]. apply (f_equal length) in Ect. rewrite aead_length in Ect by done.
  unfold UPLOAD_ENCRYPTION_TAG_SIZE in Hct. by replace (len p =? _) with true by lia.
Qed.

(** The missing checks never matter: the counter stays in range because the
    size is bounded, and the tag fixes the length of a decrypted chunk. *)
Lemma frames_loop_async_eq fuel key h source r i :
  Forall is_byte source -> header_for key h -> 0 <= r -> 0 <= i ->
  (r = 0 \/ i * UPLOAD_ENCRYPTION_CHUNK_SIZE + r <= UPLOAD_ENCRYPTION_MAX_PLAINTEXT_SIZE) ->
  frames_loop_async fuel key h source r i = frames_loop fuel key h source r i.
Proof.
  intros Hb Hh. revert source r i Hb. induction fuel as [|fuel IH]; intros source r i Hb Hr Hi Hbound;
    cbn [frames_loop frames_loop_async]; destruct (Z.eqb_spec r 0) as [|Hnz]; try done.
  assert (Hmax : i <= UPLOAD_ENCRYPTION_MAX_CHUNK_COUNTER).
  { unfold UPLOAD_ENCRYPTION_MAX_CHUNK_COUNTER, UPLOAD_ENCRYPTION_CHUNK_SIZE, UPLOAD_ENCRYPTION_MAX_PLAINTEXT_SIZE in *. lia. }
  rewrite next_frame_async_eq by (done || lia).
  destruct (next_frame key h source r i) as [|[[p n] rest]] eqn:En; [done|].
  apply next_frame_ok in En as (_ & -> & -> & Hlen & _); [|done|done|lia|done].
  apply Forall_app in Hb as [_ Hb]. f_equal. apply IH; [done|lia|lia|].
  unfold UPLOAD_ENCRYPTION_CHUNK_SIZE in *. lia.
Qed.

Lemma async_reader_eq (E1 : EncryptionSettings) path u ek size d :
  (forall content, files d !! path = Some content -> Forall is_byte content) ->
  iter_decrypted_upload_async path u ek size d = iter_decrypted_upload_file path u ek (Some size) None d.
Proof.
  intros Hb. unfold iter_decrypted_upload_async, iter_decrypted_upload_file, selected_ring.
  change _read_upload_encryption_header_async with
    (fun s u k r => read_upload_encryption_header s (Some u) k (Some r)). cbv beta.
  destruct _build_key_ring as [e|r]; cbn [mbind res_bind]; [done|].
  destruct (open_rb path d) as [e|source] eqn:Eo; cbn [mbind res_bind]; [done|].
  apply open_rb_inv in Eo as [Eo _]. apply Hb in Eo.
  destruct (read_upload_encryption_header _ _ _ _) as [e|[h body]] eqn:Eh; cbn [mbind res_bind]; [done|].
  apply read_header_inv in Eh as (-> & _ & r' & key & [= <-] & Hk & Hh); [|done]. apply Forall_app in Eo as [_ Eo].
  cbn [size_mismatch]. destruct (negb _); [done|]. unfold _iter_decrypted_frames.
  rewrite Hk. cbn [mbind res_bind mret res_ret]. rewrite Hk.
  destruct (hf_fields _ _ Hh) as [_ Hs _].
  apply frames_loop_async_eq; [done|done|lia|lia|]. unfold UPLOAD_ENCRYPTION_CHUNK_SIZE. lia.
Qed.

(** The download path's asynchronous reader is equivalent to the reference
    iterator on every disk and for every record: it yields the same chunks and
    ends the same way, although it omits the counter and length checks. *)
Theorem async_reader_equivalent (E1 : EncryptionSettings) path u ek size d :
  (forall content, files d !! path = Some content -> Forall is_byte content) ->
  iter_decrypted_upload_async path u ek size d = iter_decrypted_upload_file path u ek (Some size) None d.
Proof. apply async_reader_eq. Qed.

End Files.

(** ** Examples *)

Definition demo_disk : Disk := {|
  files := {[ py "/uploads/a.txt" := py "hello, sealed upload" ]}; unreadable := ∅; unwritable := ∅ |}.
Definition demo_ring : DataEncryptionKeyRing := {| active_key_id := py "k1"; ring_keys := [(py "k1", replicate 32 7)] |}.
Definition rotated_ring : DataEncryptionKeyRing :=
  {| active_key_id := py "k2"; ring_keys := [(py "k2", replicate 32 9); (py "k1", replicate 32 7)] |}.

Section Examples.
Local Existing Instances ascii_ucd toy_crypto toy_aead toy_aead_laws.

(** A sealed file on disk, under the key [k1]. *)
Definition demo_nonce : bytes := [1; 2; 3; 4; 5; 6; 7; 8].
Definition sealed_disk : Disk :=
  (encrypt_plaintext_file (H2 := demo_encryption) (py "/uploads/a.txt") (py "/uploads/a.enc") 7 (py "k1") 20 None demo_nonce
    (Some demo_ring) demo_disk).2.
Definition sealed_content : bytes := default [] (files sealed_disk !! py "/uploads/a.enc").
(** The same with one byte of the ciphertext changed. *)
Definition tampered_disk : Disk :=
  sealed_disk <| files ::= <[py "/uploads/a.enc" := <[75%nat := 0]> sealed_content]> |>.

Example sealed_example :
  length sealed_content = 108%nat
  /\ is_ok (validate_encrypted_upload_file (H2 := rotated_encryption) (py "/uploads/a.enc") 7 None (Some 20)
       (Some (sha256_hexdigest (py "hello, sealed upload"))) None sealed_disk) = true
  /\ validate_encrypted_upload_file (H2 := rotated_encryption) (py "/uploads/a.enc") 7 None None None None tampered_disk
     = inl (UploadIntegrityError "encrypted upload chunk authentication failed")
  /\ validate_encrypted_upload_file (H2 := rotated_encryption) (py "/uploads/a.enc") 8 None None None None sealed_disk
     = inl (UploadIntegrityError "encrypted upload UUID does not match its database record").
Proof. vm_compute. split_and!; reflexivity. Qed.

Lemma demo_plain_bytes : Forall is_byte (py "hello, sealed upload").
Proof. apply Forall_forall. intros c Hc. apply (proj1 (Forall_forall _ _)) with (2 := Hc). repeat constructor; done. Qed.

Lemma sealed_content_ok :
  forallb (fun c => (0 <=? c) && (c <? 256)) sealed_content = true
  /\ files sealed_disk !! py "/uploads/a.enc" = Some sealed_content.
Proof. vm_compute. by split. Qed.

Lemma sealed_content_bytes : Forall is_byte sealed_content.
Proof.
  apply Forall_forall. intros c Hc. destruct sealed_content_ok as [E _]. rewrite forallb_forall in E.
  apply list_elem_of_In, E in Hc. unfold is_byte. lia.
Qed.

Lemma demo_validates : exists h,
  validate_encrypted_upload_file (H2 := rotated_encryption) (py "/uploads/a.enc") 7 None (Some 20) None None sealed_disk
    = inr (h, sha256_hexdigest (py "hello, sealed upload")).
Proof. eexists. vm_compute. reflexivity. Qed.

Lemma sealed_upload_round_trip_witness : exists d' cs,
  encrypt_plaintext_file (H2 := demo_encryption) (py "/uploads/a.txt") (py "/uploads/a.enc") 7 (py "k1") 20 None
    demo_nonce None demo_disk = (inr (sha256_hexdigest (py "hello, sealed upload")), d')
  /\ iter_decrypted_upload_file (H2 := rotated_encryption) (py "/uploads/a.enc") 7 (Some (py "k1")) (Some 20) None d'
     = (cs, inr tt)
  /\ concat cs = py "hello, sealed upload".
Proof.
  destruct (sealed_upload_round_trip demo_encryption (py "/uploads/a.txt") (py "/uploads/a.enc") 7 (py "k1")
    (py "hello, sealed upload") None demo_nonce None demo_ring (replicate 32 7) demo_disk) as (d' & E & _ & R);
    [done|done|exact demo_plain_bytes|done|done|vm_compute; reflexivity|done|done|done|done|done|done|done|].
  destruct (R rotated_encryption None rotated_ring (Some (py "k1"))) as [_ (cs & Hi & Hc)];
    [vm_compute; reflexivity|done|by right|].
  exists d', cs. exact (conj E (conj Hi Hc)).
Defined.

Lemma valid_upload_is_canonical_witness : exists h p,
  validate_encrypted_upload_file (H2 := rotated_encryption) (py "/uploads/a.enc") 7 None (Some 20) None None sealed_disk
    = inr (h, sha256_hexdigest (py "hello, sealed upload"))
  /\ sha256_hexdigest (py "hello, sealed upload") = sha256_hexdigest p /\ upload_id h = 7%N.
Proof.
  destruct demo_validates as [h E].
  destruct (valid_upload_is_canonical rotated_encryption _ _ _ _ _ _ _ _ _ _ (proj2 sealed_content_ok) sealed_content_bytes E)
    as (p & Hp & _ & Hu & _).
  exists h, p. exact (conj E (conj Hp Hu)).
Defined.

Lemma sealed_disk_open : unwritable sealed_disk = ∅ /\ unreadable sealed_disk = ∅.
Proof. vm_compute. by split. Qed.

Lemma rotation_preserves_plaintext_witness : exists d' h',
  reencrypt_upload_file (H2 := rotated_encryption) (py "/uploads/a.enc") (py "/uploads/b.enc") 7 None (py "k2") 20 None
    demo_nonce None sealed_disk = (inr (sha256_hexdigest (py "hello, sealed upload")), d')
  /\ validate_encrypted_upload_file (H2 := rotated_encryption) (py "/uploads/b.enc") 7 (Some (py "k2")) (Some 20) None None d'
     = inr (h', sha256_hexdigest (py "hello, sealed upload")).
Proof.
  destruct demo_validates as [h E].
  destruct (rotation_preserves_plaintext rotated_encryption (py "/uploads/a.enc") (py "/uploads/b.enc") 7 None (py "k2") 20 None
    demo_nonce None rotated_ring (replicate 32 9) sealed_disk sealed_content h _ (proj2 sealed_content_ok) sealed_content_bytes E)
    as (d' & h' & Hr & _ & Hv & _);
    [vm_compute; reflexivity|done|done|done|vm_compute; reflexivity| | |].
  - rewrite (proj1 sealed_disk_open). apply not_elem_of_empty.
  - rewrite (proj2 sealed_disk_open). apply not_elem_of_empty.
  - exists d', h'. exact (conj Hr Hv).
Defined.

Lemma sealed_disk_bytes content : files sealed_disk !! py "/uploads/a.enc" = Some content -> Forall is_byte content.
Proof. destruct sealed_content_ok as [_ ->]. intros [= <-]. apply sealed_content_bytes. Qed.

Lemma async_reader_equivalent_witness :
  iter_decrypted_upload_async (H2 := rotated_encryption) (py "/uploads/a.enc") 7 None 20 sealed_disk
  = iter_decrypted_upload_file (H2 := rotated_encryption) (py "/uploads/a.enc") 7 None (Some 20) None sealed_disk.
Proof. apply (async_reader_equivalent rotated_encryption). exact sealed_disk_bytes. Defined.

Lemma demo_streams :
  iter_decrypted_upload_async (H2 := rotated_encryption) (py "/uploads/a.enc") 7 None 20 sealed_disk
  = ([py "hello, sealed upload"], inr tt).
Proof. vm_compute. reflexivity. Qed.

End Examples.
