(* ===== verification/UploadStore.v ===== *)
(** * Receiving upload content (the [store_upload_content] path of
    backend/app/services/message_service.py)

    The request body arrives as a stream of arbitrary pieces; it is hashed,
    re-cut into 64 KiB chunks, sealed into a temporary file and, when size and
    checksum agree with the record, linked to its final path.  The disk is part
    of the world outside the database. *)

From S2P Require Import Prelude PyStr Sha256 Json Models Session EventIntegrity Identifiers Rbac Outbox.
From S2P Require Import Encryption Uploads UploadCrypt UploadCryptProps.
Local Open Scope Z_scope.

(** ** Paths

    An absolute path is the list of its components; [Path.resolve] is
    normalisation, on a disk without symbolic links. *)

Fixpoint split_slash (s : pystr) : list pystr :=
  match s with
  | [] => [[]]
  | c :: s =>
      if c =? 47 then [] :: split_slash s
      else match split_slash s with [] => [[c]] | part :: parts => (c :: part) :: parts end
  end.

Definition resolve_part (dir : list pystr) (part : pystr) : list pystr :=
  if str_eqb part [] || str_eqb part (py ".") then dir
  else if str_eqb part (py "..") then removelast dir
  else dir ++ [part].

(** [(dir / path).resolve()]; an absolute [path] replaces [dir]. *)
Definition resolve (dir : list pystr) (path : pystr) : list pystr :=
  fold_left resolve_part (split_slash path) (if startswith (py "/") path then [] else dir).

Definition path_str (parts : list pystr) : pystr := py "/" ++ join (py "/") parts.

Class StorageSettings := { uploads_base_dir : list Z; working_directory : list (list Z) }.

(** The disk of the outside world. *)
Class HasDisk `{World} := { disk_of : ext -> Disk; put_disk : Disk -> ext -> ext }.
Class HasDiskLaws `{HasDisk} := { disk_of_put : forall d x, disk_of (put_disk d x) = d }.

(** The request body: the items of the stream ([None] for one that is not
    bytes), and the exception the stream ends with, if any. *)
Record upload_stream := { stream_items : list (option (list Z)); stream_error : option exc }.

(** The local variables of the receiving loop, with what was written to the
    temporary file so far. *)
Record Receiving := MkReceiving {
  total_size : Z;
  hashed : list Z;
  pending : list Z;
  encryptor : UploadChunkEncryptor;
  written : list Z;
  failure_reason : string
}.
Global Instance eta_Receiving : Eta Receiving := fun r =>
  MkReceiving (total_size r) (hashed r) (pending r) (encryptor r) (written r) (failure_reason r).

Definition payload_too_large : exc := AppError 413 "PAYLOAD_TOO_LARGE".
Definition upload_immutable : exc := AppError 409 "UPLOAD_IMMUTABLE".
Definition upload_invalid : exc := AppError 400 "VALIDATION_ERROR".
Definition upload_not_found : exc := AppError 404 "NOT_FOUND".
Definition upload_store_failed : exc := AppError 500 "UPLOAD_STORE_FAILED".

(** [_iter_upload_chunks] of a bytes object. *)
Definition _iter_upload_chunks (content : bytes) : upload_stream :=
  {| stream_items := Some <$> read_chunks (64 * 1024) content; stream_error := None |}.

Section Receive.
Context `{UnicodeData} `{Crypto} `{Aead} `{EncryptionSettings}.

(** Where a step of the loop stops: the state then, and the exception. *)
Definition step : Type := Receiving * option exc.
Definition stop (r : Receiving) (reason : string) (e : exc) : step := (r <| failure_reason := reason |>, Some e).

(** [while len(pending) >= UPLOAD_ENCRYPTION_CHUNK_SIZE: ...]; an iteration
    removes a chunk, so the number of pending bytes is enough fuel. *)
Fixpoint drain (fuel : nat) (r : Receiving) : step :=
  match fuel with
  | O => (r, None)
  | S fuel =>
      if UPLOAD_ENCRYPTION_CHUNK_SIZE <=? len (pending r) then
        let '(plaintext_chunk, rest) := read UPLOAD_ENCRYPTION_CHUNK_SIZE (pending r) in
        let r := r <| pending := rest |> in
        match encrypt_chunk (encryptor r) plaintext_chunk with
        | inl e => (r, Some e)
        | inr (frame, enc) => drain fuel (r <| encryptor := enc |> <| written ::= fun w => w ++ frame |>)
        end
      else (r, None)
  end.

Definition receive_chunk (configured_max expected_size : Z) (r : Receiving) (chunk : bytes) : step :=
  let next_total := total_size r + len chunk in
  if configured_max <? next_total then stop r "configured_size_exceeded" payload_too_large
  else if expected_size <? next_total then stop r "size_mismatch" upload_invalid
  else
    let r := r <| hashed ::= fun h => h ++ chunk |> <| pending ::= fun p => p ++ chunk |> in
    match drain (length (pending r)) r with
    | (r, Some e) => (r, Some e)
    | (r, None) => (r <| total_size := next_total |>, None)
    end.

Fixpoint receive_chunks (configured_max expected_size : Z) (r : Receiving) (chunks : list bytes) : step :=
  match chunks with
  | [] => (r, None)
  | chunk :: chunks =>
      match receive_chunk configured_max expected_size r chunk with
      | (r, None) => receive_chunks configured_max expected_size r chunks
      | stopped => stopped
      end
  end.

Fixpoint receive_items (configured_max expected_size : Z) (r : Receiving) (items : list (option bytes)) : step :=
  match items with
  | [] => (r, None)
  | None :: _ => stop r "invalid_stream_chunk" upload_invalid
  | Some view :: items =>
      match receive_chunks configured_max expected_size r (read_chunks UPLOAD_ENCRYPTION_CHUNK_SIZE view) with
      | (r, None) => receive_items configured_max expected_size r items
      | stopped => stopped
      end
  end.

(** After the stream: the size, the checksum, the last chunk. *)
Definition finish (expected_size : Z) (checksum : option pystr) (r : Receiving) : step :=
  if negb (total_size r =? expected_size) then stop r "size_mismatch" upload_invalid
  else if checksum_mismatch checksum (sha256_hexdigest (hashed r)) then stop r "checksum_mismatch" upload_invalid
  else
    let after :=
      match pending r with
      | [] => (r, None)
      | last_chunk =>
          match encrypt_chunk (encryptor r) last_chunk with
          | inl e => (r, Some e)
          | inr (frame, enc) =>
              (r <| encryptor := enc |> <| written ::= fun w => w ++ frame |> <| pending := [] |>, None)
          end
      end in
    match after with
    | (r, None) => match finalize (encryptor r) with inl e => (r, Some e) | inr _ => (r, None) end
    | stopped => stopped
    end.

(** The body of [async with open_file(temp_path, "xb")]. *)
Definition receive (configured_max expected_size : Z) (checksum : option pystr) (enc : UploadChunkEncryptor)
    (content : upload_stream) : step :=
  let r := MkReceiving 0 [] [] enc (encoded (header enc)) "storage_error" in
  match receive_items configured_max expected_size r (stream_items content) with
  | (r, None) => match stream_error content with Some e => (r, Some e) | None => finish expected_size checksum r end
  | stopped => stopped
  end.
End Receive.

(** ** The handler *)

Section Store.
Context `{World} `{UnicodeData} `{Crypto} `{Aead} `{EncryptionSettings} `{BackendSettings} `{StorageSettings} `{!HasDisk}.

Definition _resolve_upload_path (storage_path : pystr) : res (list pystr) :=
  let base_dir := resolve working_directory uploads_base_dir in
  let full_path := resolve base_dir storage_path in
  if bool_decide (base_dir `prefix_of` full_path) then mret full_path else raise upload_not_found.

(** [full_path.with_name(f".{full_path.name}.{uuid4()}.uploading")]. *)
Definition temp_path_for (full_path : list pystr) (id : N) : res (list pystr) :=
  match last full_path with
  | None => raise (ValueError "has an empty name")
  | Some name => mret (removelast full_path ++ [py "." ++ name ++ py "." ++ uuid_str id ++ py ".uploading"])
  end.

Definition unlink (path : pystr) (d : Disk) : Disk := d <| files ::= delete path |>.

(** [os.link(temp_path, full_path)]. *)
Definition link (temp_path full_path : pystr) (d : Disk) : res Disk :=
  match files d !! full_path with
  | Some _ => raise file_exists
  | None =>
      if decide (full_path ∈ unwritable d) then raise permission_denied
      else match files d !! temp_path with
           | None => raise file_not_found
           | Some content => mret (d <| files ::= <[full_path := content]> |>)
           end
  end.

(** A failure of the file part: the exception, [failure_reason] and [total_size]. *)
Record StoreFailure := { sf_error : exc; sf_reason : string; sf_total : Z }.

(** The file part of the [try] block, up to and including the removal of the
    temporary name; on success the result is the received size. *)
Definition stage (upload : Upload.t) (full_path temp_path : pystr) (enc : UploadChunkEncryptor) (content : upload_stream)
    (d : Disk) : (StoreFailure + Z) * Disk :=
  let expected_size := Upload.size_bytes upload in
  let configured_max := Z.max 1 upload_max_size_bytes in
  if nonempty (Upload.public_url upload) || bool_decide (is_Some (files d !! full_path))
  then (inl {| sf_error := upload_immutable; sf_reason := "already_stored"; sf_total := 0 |}, d)
  else if configured_max <? expected_size
  then (inl {| sf_error := payload_too_large; sf_reason := "configured_size_exceeded"; sf_total := 0 |}, d)
  else
    match with_xb temp_path (fun _ =>
      let '(r, e) := receive configured_max expected_size (Upload.checksum upload) enc content in
      (written r, mret (r, e))) d with
    | (inl e, d) => (inl {| sf_error := e; sf_reason := "storage_error"; sf_total := 0 |}, d)
    | (inr (r, Some e), d) => (inl {| sf_error := e; sf_reason := failure_reason r; sf_total := total_size r |}, d)
    | (inr (r, None), d) =>
        match link temp_path full_path d with
        | inr d => (inr (total_size r), unlink temp_path d)
        | inl e =>
            (inl (if bool_decide (is_Some (files d !! full_path))
                  then {| sf_error := upload_immutable; sf_reason := "already_stored"; sf_total := total_size r |}
                  else {| sf_error := e; sf_reason := failure_reason r; sf_total := total_size r |}), d)
        end
    end.

Definition on_disk {A} (f : Disk -> A * Disk) : M A := fun s =>
  let '(a, d) := f (disk_of (outside s)) in (inr a, s <| outside := put_disk d (outside s) |>).

(** [_safe_log_event(..., commit=True)] of an event outside any channel. *)
Definition log_store_failure (actor_user_id file_id : N) (reason : string) (expected actual : Z) : M unit :=
  try_except
    (_ ← log_event (py "upload.store_failed")
           (PDict [(py "upload_id", PStr (uuid_str file_id)); (py "reason", PStr (py reason));
                   (py "expected_size_bytes", PInt expected); (py "actual_size_bytes", PInt actual)])
           None (Some actor_user_id);
     commit)
    (fun _ => rollback).

(** The two [except] clauses and the [finally] clause. *)
Definition fail_store {A} (actor_user_id file_id : N) (expected_size : Z) (full_path temp_path : pystr)
    (finalized_here : bool) (f : StoreFailure) : M A :=
  on_disk (fun d => (tt, if finalized_here then unlink full_path d else d)) ;;
  rollback ;;
  log_store_failure actor_user_id file_id (sf_reason f) expected_size (sf_total f) ;;
  on_disk (fun d => (tt, unlink temp_path d)) ;;
  throw (match sf_error f with AppError status code => AppError status code | _ => upload_store_failed end).

(** [urandom] is what [os.urandom(8)] returns for the header. *)
Definition store_upload_content (actor_user_id file_id : N) (content : upload_stream) (urandom : bytes) : M Upload.t :=
  upload ← gets (fun st => uploads st !! file_id);
  upload ← of_option upload_not_found upload;
  guard (bool_decide (Upload.owner_user_id upload = actor_user_id)) upload_not_found ;;
  full_path ← of_res (_resolve_upload_path (Upload.storage_path upload));
  temp_id ← uuid4;
  temp_path ← of_res (temp_path_for full_path temp_id);
  let full_path := path_str full_path in
  let temp_path := path_str temp_path in
  let expected_size := Upload.size_bytes upload in
  ring ← of_res _build_key_ring;
  let key_id := active_key_id ring in
  enc ← of_res (new_encryptor (Upload.id upload) key_id expected_size urandom None);
  staged ← on_disk (stage upload full_path temp_path enc content);
  match staged with
  | inl f => fail_store actor_user_id file_id expected_size full_path temp_path false f
  | inr total =>
      try_except
        (modify (fun st => st <| uploads ::= alter (fun u =>
           u <| Upload.public_url := Some (upload_content_url (Upload.id upload)) |>
             <| Upload.storage_encryption_version := 1 |> <| Upload.storage_key_id := Some key_id |>) file_id |>) ;;
         _ ← log_event (py "upload.content_stored")
               (PDict [(py "upload_id", PStr (uuid_str (Upload.id upload))); (py "filename", PStr (Upload.filename upload));
                       (py "content_type", PStr (Upload.content_type upload)); (py "size_bytes", PInt expected_size)])
               None (Some actor_user_id);
         commit)
        (fun e => fail_store actor_user_id file_id expected_size full_path temp_path true
                    {| sf_error := e; sf_reason := "storage_error"; sf_total := total |}) ;;
      on_disk (fun d => (tt, unlink temp_path d)) ;;
      row ← gets (fun st => uploads st !! file_id);
      of_option upload_not_found row
  end.
End Store.

(** ** Receiving seals the concatenated stream *)

Section ReceiveProps.
Context `{UnicodeData} `{Crypto} `{Aead} `{!AeadLaws} `{EncryptionSettings}.
Context (key : bytes) (h : UploadEncryptionHeader) (Hh : header_for key h).

(** The loop has sealed the full chunks [cs] and holds the rest. *)
Record receiving (r : Receiving) (cs : list bytes) : Prop := {
  rc_hashed : hashed r = concat cs ++ pending r;
  rc_full : Forall (fun c => len c = UPLOAD_ENCRYPTION_CHUNK_SIZE /\ Forall is_byte c) cs;
  rc_bytes : Forall is_byte (pending r);
  rc_size : len (hashed r) <= plaintext_size h;
  rc_encryptor : encryptor r = MkEncryptor h key (len cs) (UPLOAD_ENCRYPTION_CHUNK_SIZE * len cs);
  rc_written : written r = encoded h ++ frames key h 0 cs
}.

Lemma length_concat_full cs : Forall (fun c => len c = UPLOAD_ENCRYPTION_CHUNK_SIZE /\ Forall is_byte c) cs ->
  len (concat cs) = UPLOAD_ENCRYPTION_CHUNK_SIZE * len cs.
Proof.
  induction 1 as [|c cs [Hc _] _ IH]; [cbn; lia|]. cbn [concat length]. rewrite length_app. lia.
Qed.

(** The chunk counter of a loop that respects the declared size is in range. *)
Lemma receiving_counter r cs : receiving r cs -> 0 <= len cs /\ UPLOAD_ENCRYPTION_CHUNK_SIZE * len cs + len (pending r) <= plaintext_size h
  /\ len cs < 0xFFFFFFFF.
Proof.
  intros [Hhash Hfull _ Hsize _ _]. rewrite Hhash, length_app in Hsize. pose proof (length_concat_full cs Hfull).
  destruct (hf_fields _ _ Hh) as [_ Hs _]. unfold UPLOAD_ENCRYPTION_MAX_PLAINTEXT_SIZE, UPLOAD_ENCRYPTION_CHUNK_SIZE in *. lia.
Qed.

(** Sealing one more chunk from the front of the pending bytes. *)
Lemma receiving_seal r cs c rest : receiving r cs -> pending r = c ++ rest -> len c = UPLOAD_ENCRYPTION_CHUNK_SIZE ->
  exists enc, encrypt_chunk (encryptor r) c = inr (frame key h (len cs) c, enc)
    /\ receiving (r <| pending := rest |> <| encryptor := enc |> <| written ::= fun w => w ++ frame key h (len cs) c |>) (cs ++ [c]).
Proof.
  intros Hr Hp Hc. destruct (receiving_counter r cs Hr) as (Hn & Hsz & Hmax). destruct Hr as [R1 R2 R3 R4 R5 R6].
  rewrite Hp, length_app in Hsz. rewrite Hp in R3. apply Forall_app in R3 as [Bc Br].
  assert (0 < UPLOAD_ENCRYPTION_CHUNK_SIZE) by done.
  eexists. rewrite R5. split; [apply encrypt_chunk_ok; (done || lia)|].
  split; cbn.
  - rewrite R1, Hp, concat_app. cbn. by rewrite app_nil_r, <-app_assoc.
  - apply Forall_app_2; [done|]. by apply Forall_singleton.
  - done.
  - done.
  - rewrite length_app. cbn [length]. f_equal; [lia|]. rewrite Hc. lia.
  - rewrite R6, frames_snoc, <-app_assoc. by rewrite Z.add_0_l.
Qed.

Lemma drain_ok fuel r cs : receiving r cs -> (length (pending r) <= fuel)%nat ->
  exists r' cs', drain fuel r = (r', None) /\ receiving r' cs' /\ len (pending r') < UPLOAD_ENCRYPTION_CHUNK_SIZE
    /\ hashed r' = hashed r /\ total_size r' = total_size r /\ failure_reason r' = failure_reason r.
Proof.
  revert r cs. assert (HCS : 0 < UPLOAD_ENCRYPTION_CHUNK_SIZE) by done.
  induction fuel as [|fuel IH]; intros r cs Hr Hf; cbn [drain].
  { exists r, cs. split_and!; try done. lia. }
  destruct (Z.leb_spec UPLOAD_ENCRYPTION_CHUNK_SIZE (len (pending r))) as [Hge|Hlt]; [|by exists r, cs].
  unfold read. destruct (split_len UPLOAD_ENCRYPTION_CHUNK_SIZE (pending r)) as (c & rest & Hp & Hc); [lia|].
  rewrite Hp. replace (Z.to_nat UPLOAD_ENCRYPTION_CHUNK_SIZE) with (length c) by lia.
  rewrite take_app_length, drop_app_length. cbn [encryptor upd].
  destruct (receiving_seal r cs c rest Hr Hp Hc) as (enc & E & Hr'). cbn [encryptor upd] in E. rewrite E.
  destruct (IH _ _ Hr') as (r' & cs' & E' & H1' & H2' & H3' & H4' & H5').
  { cbn. rewrite Hp, length_app in Hf. lia. }
  exists r', cs'. split_and!; done.
Qed.

(** Between two pieces of the stream. *)
Definition idle (r : Receiving) : Prop :=
  (exists cs, receiving r cs) /\ len (pending r) < UPLOAD_ENCRYPTION_CHUNK_SIZE /\ total_size r = len (hashed r).

Lemma receive_chunk_ok cm r chunk r' : idle r -> Forall is_byte chunk ->
  receive_chunk cm (plaintext_size h) r chunk = (r', None) -> idle r' /\ hashed r' = hashed r ++ chunk.
Proof.
  intros ((cs & Hr) & _ & Ht) Hb. unfold receive_chunk.
  destruct (cm <? _); [done|]. destruct (Z.ltb_spec (plaintext_size h) (total_size r + len chunk)) as [|Hle]; [done|].
  set (r1 := r <| hashed ::= _ |> <| pending ::= _ |>).
  assert (Hr1 : receiving r1 cs).
  { destruct Hr as [R1 R2 R3 R4 R5 R6]. split; cbn; try done.
    - by rewrite R1, <-app_assoc.
    - by apply Forall_app_2.
    - rewrite length_app. lia. }
  destruct (drain_ok (length (pending r1)) r1 cs Hr1) as (r2 & cs2 & E & Hr2 & Hlt & Hh2 & Ht2 & _); [lia|].
  rewrite E. intros [= <-]. split; [|by cbn; rewrite Hh2]. split_and!.
  - exists cs2. destruct Hr2 as [S1 S2 S3 S4 S5 S6]. split; assumption.
  - done.
  - cbn. rewrite Hh2. cbn. rewrite length_app. lia.
Qed.

Lemma receive_chunks_ok cm chunks r r' : idle r -> Forall (Forall is_byte) chunks ->
  receive_chunks cm (plaintext_size h) r chunks = (r', None) -> idle r' /\ hashed r' = hashed r ++ concat chunks.
Proof.
  revert r. induction chunks as [|c chunks IH]; intros r Hr Hb; cbn [receive_chunks concat].
  { intros [= <-]. by rewrite app_nil_r. }
  apply Forall_cons in Hb as [Hc Hb].
  destruct (receive_chunk _ _ _ _) as [r1 [|]] eqn:E; [done|]. intros Hrest.
  destruct (receive_chunk_ok cm r c r1 Hr Hc E) as [Hr1 Hh1].
  destruct (IH r1 Hr1 Hb Hrest) as [Hr2 Hh2]. split; [done|]. by rewrite Hh2, Hh1, <-app_assoc.
Qed.

Definition item_bytes (i : option bytes) : Prop := match i with Some view => Forall is_byte view | None => True end.
Definition stream_bytes (items : list (option bytes)) : bytes := concat (default [] <$> items).

Lemma receive_items_ok cm items r r' : idle r -> Forall item_bytes items ->
  receive_items cm (plaintext_size h) r items = (r', None) -> idle r' /\ hashed r' = hashed r ++ stream_bytes items.
Proof.
  unfold stream_bytes. revert r. induction items as [|[view|] items IH]; intros r Hr Hb; cbn [receive_items]; [|..|done].
  { intros [= <-]. cbn. by rewrite app_nil_r. }
  apply Forall_cons in Hb as [Hv Hb]. cbn in Hv. destruct (read_chunks_ok view Hv) as [Hcs Hcat].
  assert (Hbs : Forall (Forall is_byte) (read_chunks UPLOAD_ENCRYPTION_CHUNK_SIZE view)).
  { clear -Hcs. by induction Hcs; constructor. }
  destruct (receive_chunks _ _ _ _) as [r1 [|]] eqn:E; [done|]. intros Hrest.
  destruct (receive_chunks_ok cm _ r r1 Hr Hbs E) as [Hr1 Hh1].
  destruct (IH r1 Hr1 Hb Hrest) as [Hr2 Hh2]. split; [done|]. rewrite Hh2, Hh1, Hcat, <-app_assoc. done.
Qed.

(** The sealed chunks and the rest are the chunks of the plaintext. *)
Lemma receiving_chunks r cs tail : receiving r cs -> total_size r = len (hashed r) -> total_size r = plaintext_size h ->
  len (pending r) < UPLOAD_ENCRYPTION_CHUNK_SIZE -> (tail = [] /\ pending r = [] \/ tail = [pending r] /\ pending r <> []) ->
  read_chunks UPLOAD_ENCRYPTION_CHUNK_SIZE (hashed r) = cs ++ tail.
Proof.
  intros Hr Ht Hs Hlt Htail. assert (0 < UPLOAD_ENCRYPTION_CHUNK_SIZE) by done.
  pose proof (length_concat_full cs (rc_full _ _ Hr)) as Hl. destruct Hr as [R1 R2 R3 R4 R5 R6].
  assert (Hb : Forall is_byte (hashed r)).
  { rewrite R1. apply Forall_app_2; [|done]. clear -R2. induction R2 as [|c cs [_ Hc] _ IH]; [done|]. cbn. by apply Forall_app_2. }
  destruct (read_chunks_ok (hashed r) Hb) as [Hc Hcat].
  assert (Hlen : len (hashed r) = UPLOAD_ENCRYPTION_CHUNK_SIZE * len cs + len (pending r)) by (rewrite R1, length_app; lia).
  apply (chunks_at_unique (len (hashed r))); [done| |].
  - rewrite Hlen. eapply chunks_at_app; [apply chunks_at_full; [lia|done]|].
    destruct Htail as [[-> ->]|[-> Hne]]; [by constructor|].
    constructor; [destruct (pending r); [done|cbn; lia]|lia|done|]. rewrite Z.sub_diag. by constructor.
  - rewrite Hcat, R1, concat_app. destruct Htail as [[-> ->]|[-> _]]; cbn; by rewrite ?app_nil_r.
Qed.

Lemma finish_ok ck r r' : idle r -> finish (plaintext_size h) ck r = (r', None) ->
  len (hashed r) = plaintext_size h /\ checksum_mismatch ck (sha256_hexdigest (hashed r)) = false
  /\ written r' = sealed key h (hashed r) /\ total_size r' = plaintext_size h.
Proof.
  intros ((cs & Hr) & Hlt & Ht). unfold finish. destruct (Z.eqb_spec (total_size r) (plaintext_size h)) as [Hs|]; [|done].
  cbn [negb]. destruct (checksum_mismatch _ _) eqn:Eck; [done|].
  pose proof (receiving_chunks r cs) as Hchunks. destruct (receiving_counter r cs Hr) as (Hn & Hsz & Hmax).
  unfold sealed. destruct (pending r) as [|b p] eqn:Ep.
  - destruct (finalize _); [done|]. intros [= <-]. rewrite (Hchunks []) by (auto || done).
    rewrite app_nil_r, (rc_written _ _ Hr). split_and!; congruence.
  - assert (0 < len (b :: p)) by (cbn [length]; lia).
    rewrite (rc_encryptor _ _ Hr), encrypt_chunk_ok by (done || lia). cbn [encryptor upd].
    destruct (finalize _); [done|]. intros [= <-]. cbn [written total_size upd].
    rewrite (Hchunks [b :: p]) by (auto || done). rewrite frames_snoc, (rc_written _ _ Hr), <-app_assoc, Z.add_0_l.
    split_and!; congruence.
Qed.

Lemma receive_ok cm ck content r : Forall item_bytes (stream_items content) ->
  receive cm (plaintext_size h) ck (MkEncryptor h key 0 0) content = (r, None) ->
  let p := stream_bytes (stream_items content) in
  len p = plaintext_size h /\ checksum_mismatch ck (sha256_hexdigest p) = false
  /\ written r = sealed key h p /\ total_size r = plaintext_size h /\ stream_error content = None.
Proof.
  intros Hb. unfold receive. cbn [header].
  assert (Hidle : idle (MkReceiving 0 [] [] (MkEncryptor h key 0 0) (encoded h) "storage_error")).
  { destruct (hf_fields _ _ Hh) as [_ Hs _]. split_and!; [|done|done]. exists [].
    split; cbn; try done; [lia|by rewrite app_nil_r]. }
  destruct (receive_items _ _ _ _) as [r1 [|]] eqn:E; [done|].
  destruct (receive_items_ok cm _ _ r1 Hidle Hb E) as [Hr1 Hh1]. cbn in Hh1.
  destruct (stream_error content); [done|]. intros Hf. apply finish_ok in Hf; [|done]. rewrite Hh1 in Hf. tauto.
Qed.
End ReceiveProps.

(** ** The handler *)

Section StoreProps.
Context `{World} `{UnicodeData} `{Crypto} `{Aead} `{!AeadLaws} `{EncryptionSettings} `{BackendSettings} `{StorageSettings}.
Context `{!HasDisk} `{!HasDiskLaws}.

Lemma new_encryptor_inv u k size urandom ring enc : uuid_ok u -> new_encryptor u k size urandom ring = inr enc ->
  exists r key h, selected_ring ring = inr r /\ _aesgcm_for_upload r k u = inr key /\ enc = MkEncryptor h key 0 0
    /\ header_for key h /\ upload_id h = u /\ key_id h = k /\ plaintext_size h = size /\ nonce_prefix h = urandom.
Proof.
  intros Hu. unfold new_encryptor. intros (r & Hr & He)%res_bind_ok. apply res_bind_ok in He as (h & Hb & He).
  apply build_header_ok in Hb as (Hf & _ & r' & key & [= <-] & Hk & Ht & ->).
  apply res_bind_ok in He as (key' & Hk' & He). rewrite Hk in Hk'. injection Hk' as <-. injection He as <-.
  exists r, key. eexists. split_and!; try done.
Qed.

(** The file part: what it writes, and that it touches two names only. *)
Lemma stage_ok upload full temp enc content d total d' :
  stage upload full temp enc content d = (inr total, d') ->
  exists r, receive (Z.max 1 upload_max_size_bytes) (Upload.size_bytes upload) (Upload.checksum upload) enc content = (r, None)
    /\ nonempty (Upload.public_url upload) = false /\ files d !! full = None /\ files d !! temp = None /\ full <> temp
    /\ d' = d <| files := delete temp (<[full := written r]> (<[temp := written r]> (files d))) |> /\ total = total_size r.
Proof.
  unfold stage. destruct (nonempty _) eqn:En; [done|]. cbn [orb]. destruct (bool_decide (is_Some (files d !! full))) eqn:Ef; [done|].
  apply bool_decide_eq_false, eq_None_not_Some in Ef. destruct (_ <? _); [done|].
  unfold with_xb. destruct (files d !! temp) eqn:Et; [done|]. destruct (decide _); [done|].
  destruct (receive _ _ _ _ _) as [r [e|]]; [done|]. cbn [mret res_ret].
  unfold link. cbn [files upd unwritable].
  destruct (<[temp:=written r]> (files d) !! full) eqn:El; [done|].
  assert (Hne : full <> temp) by (intros ->; by rewrite lookup_insert_eq in El).
  destruct (decide _); [done|]. rewrite lookup_insert_eq. intros [= <- <-]. exists r. split_and!; done.
Qed.

Lemma stage_fail upload full temp enc content d f d' : stage upload full temp enc content d = (inl f, d') ->
  (forall p, p <> temp -> files d' !! p = files d !! p) /\ unreadable d' = unreadable d.
Proof.
  unfold stage. destruct (_ || _); [by intros [= _ <-]|]. destruct (_ <? _); [by intros [= _ <-]|].
  unfold with_xb. destruct (files d !! temp); [by intros [= _ <-]|]. destruct (decide _); [by intros [= _ <-]|].
  destruct (receive _ _ _ _ _) as [r [e|]]; cbn [mret res_ret].
  - intros [= _ <-]. cbn. split; [|done]. intros p Hp. by rewrite lookup_insert_ne.
  - destruct (link _ _ _); [|done]. intros [= _ <-]. cbn. split; [|done]. intros p Hp. by rewrite lookup_insert_ne.
Qed.

Lemma on_disk_ok {A} (f : Disk -> A * Disk) s a s' : on_disk f s = (inr a, s') ->
  work s' = work s /\ durable s' = durable s /\ exists d', f (disk_of (outside s)) = (a, d') /\ disk_of (outside s') = d'.
Proof.
  unfold on_disk. destruct (f _) as [b d'] eqn:E. intros [= <- <-]. cbn. split_and!; [done|done|]. exists d'. by rewrite disk_of_put.
Qed.

Lemma fail_store_never_ok {A} a fid size full temp b f s (x : A) s' :
  fail_store a fid size full temp b f s = (inr x, s') -> False.
Proof. unfold fail_store. intros E. repeat (apply bind_ok in E as (? & ? & _ & E)). by apply throw_ok in E. Qed.

Lemma sealed_bytes key h p : header_for key h -> Forall is_byte (nonce_prefix h) -> Forall is_byte p -> Forall is_byte (sealed key h p).
Proof.
  intros Hh Hn Hp. unfold sealed. apply Forall_app_2; [by eapply encoded_bytes|].
  eapply frames_bytes. by apply read_chunks_ok.
Qed.

(** A successful run, step by step. *)
Lemma store_run actor fid content urandom s u s' : store_upload_content actor fid content urandom s = (inr u, s') ->
  exists up full temp ring enc total d',
    uploads (work s) !! fid = Some up /\ Upload.owner_user_id up = actor
    /\ _resolve_upload_path (Upload.storage_path up) = inr full /\ _build_key_ring = inr ring
    /\ new_encryptor (Upload.id up) (active_key_id ring) (Upload.size_bytes up) urandom None = inr enc
    /\ stage up (path_str full) temp enc content (disk_of (outside s)) = (inr total, d')
    /\ disk_of (outside s') = unlink temp d'
    /\ u = up <| Upload.public_url := Some (upload_content_url (Upload.id up)) |>
              <| Upload.storage_encryption_version := 1 |> <| Upload.storage_key_id := Some (active_key_id ring) |>
    /\ uploads (durable s') = <[fid := u]> (uploads (work s)).
Proof.
  unfold store_upload_content. intros (row & s0 & [-> ->]%gets_ok & Hr)%bind_ok.
  apply bind_ok in Hr as (up & s0 & [Eu ->]%of_option_ok & Hr).
  apply bind_ok in Hr as ([] & s0 & [Ho ->]%guard_ok & Hr). apply bool_decide_eq_true in Ho.
  apply bind_ok in Hr as (full & s0 & [Ef ->]%of_res_ok & Hr).
  apply bind_ok in Hr as (tid & s1 & (W1 & D1 & O1)%uuid4_ok & Hr).
  apply bind_ok in Hr as (temp & s0 & [_ ->]%of_res_ok & Hr).
  apply bind_ok in Hr as (ring & s0 & [Er ->]%of_res_ok & Hr).
  apply bind_ok in Hr as (enc & s0 & [En ->]%of_res_ok & Hr).
  apply bind_ok in Hr as (staged & s2 & (W2 & D2 & d' & Es & Ed)%on_disk_ok & Hr). rewrite O1 in Es.
  destruct staged as [f|total]; [by apply fail_store_never_ok in Hr|].
  apply bind_ok in Hr as ([] & s3 & Htry & Hr). unfold try_except in Htry.
  destruct ((modify _ ≫= _) s2) as [[e|[]] s4] eqn:E; [by apply fail_store_never_ok in Htry|]. injection Htry as <-.
  apply bind_ok in E as ([] & s5 & ->%modify_ok & E). apply bind_ok in E as (ev & s6 & El & (W7 & D7 & O7)%commit_ok).
  pose proof (same_run uploads _ _ _ _ (same_log_event uploads _ _ _ _ (fun _ _ => eq_refl)) El) as [Eup _].
  apply log_event_outside in El. cbn in El. cbn [work upd uploads] in Eup.
  apply bind_ok in Hr as ([] & s8 & (W8 & D8 & d2 & E8 & Ed8)%on_disk_ok & Hr). injection E8 as <-.
  apply bind_ok in Hr as (row & s9 & [-> ->]%gets_ok & Hr). apply of_option_ok in Hr as [Hrow ->].
  assert (Hup : uploads (work s2) = uploads (work s)) by (by rewrite W2, W1).
  rewrite W8, W7, Eup, lookup_alter_eq, Hup, Eu in Hrow. injection Hrow as <-.
  exists up, full, (path_str temp), ring, enc, total, d'. split_and!; try done.
  - by rewrite Ed8, O7, El, Ed.
  - rewrite D8, D7, Eup, Hup. apply map_eq. intros k. destruct (decide (k = fid)) as [->|Hne].
    + by rewrite lookup_alter_eq, lookup_insert_eq, Eu.
    + by rewrite lookup_alter_ne, lookup_insert_ne.
Qed.

(** C22. What was received is what is downloaded: when storing the content of an
    upload succeeds, the caller owns the record, the received bytes have the
    declared size and checksum, the file did not exist before and no other
    file changed, the committed record names the key, and the download path
    later decrypts exactly the received bytes, however they were cut into
    pieces on the way in. *)
Theorem stored_upload_is_downloaded actor fid content urandom s u s' :
  (forall k x, uploads (work s) !! k = Some x -> Upload.id x = k) -> uuid_ok fid ->
  Forall item_bytes (stream_items content) -> Forall is_byte urandom ->
  store_upload_content actor fid content urandom s = (inr u, s') ->
  let p := stream_bytes (stream_items content) in
  exists parts, let path := path_str parts in _resolve_upload_path (Upload.storage_path u) = inr parts
    /\ Upload.owner_user_id u = actor /\ len p = Upload.size_bytes u
    /\ checksum_mismatch (Upload.checksum u) (sha256_hexdigest p) = false
    /\ uploads (durable s') !! fid = Some u /\ is_Some (Upload.storage_key_id u)
    /\ files (disk_of (outside s)) !! path = None
    /\ (forall q, q <> path -> files (disk_of (outside s')) !! q = files (disk_of (outside s)) !! q)
    /\ (path ∉ unreadable (disk_of (outside s)) ->
        exists cs, iter_decrypted_upload_async path fid (Upload.storage_key_id u) (Upload.size_bytes u) (disk_of (outside s'))
                   = (cs, inr tt) /\ concat cs = p).
Proof.
  intros Hids Hfid Hb Hur Hrun p. apply store_run in Hrun
    as (up & full & temp & ring & enc & total & d' & Eu & Ho & Ef & Er & En & Es & Ed & -> & Hup).
  pose proof (Hids _ _ Eu) as Hid. rewrite Hid in En.
  apply new_encryptor_inv in En as (r & key & h & Hr & Hk & -> & Hh & Eid & Ekey & Esz & Enon); [|done].
  cbn [selected_ring] in Hr. rewrite Er in Hr. injection Hr as <-.
  apply stage_ok in Es as (rec & Hrec & _ & Hnone & Htmp & Hne & -> & _). rewrite <-Esz in Hrec.
  apply (receive_ok key h Hh) in Hrec as (Hl & Hck & Hw & _ & _); [|done]. fold p in Hl, Hck, Hw.
  assert (Hp : Forall is_byte p).
  { unfold p, stream_bytes. clear -Hb. induction Hb as [|[v|] l Hv _ IH]; [done|cbn; by apply Forall_app_2|done]. }
  exists full. cbv zeta. cbn [Upload.storage_path Upload.owner_user_id Upload.size_bytes Upload.checksum Upload.storage_key_id upd].
  assert (Hfile : files (disk_of (outside s')) !! path_str full = Some (sealed key h p)).
  { rewrite Ed. cbn. rewrite !lookup_delete_ne by done. by rewrite lookup_insert_eq, Hw. }
  split_and!; try done; [congruence|by rewrite Hup, lookup_insert_eq| |].
  - intros q Hq. rewrite Ed. cbn. destruct (decide (q = temp)) as [->|Hqt].
    + by rewrite lookup_delete_eq.
    + by rewrite !lookup_delete_ne, !lookup_insert_ne.
  - intros Hread. eexists. rewrite async_reader_eq by (intros c Hc; rewrite Hfile in Hc; injection Hc as <-; apply sealed_bytes; congruence).
    split; [|by apply read_chunks_ok].
    refine (proj1 (sealed_file_reads (path_str full) fid _ None ring key h p _ Hfile _ Hh Hp Hl _ Er _ _ _)).
    + by rewrite Ed.
    + split; [done|]. cbn. congruence.
    + by rewrite Ekey, Eid.
    + cbn. by rewrite Esz, Z.eqb_refl.
Qed.

(** The failure event touches neither the uploads nor the disk, and never raises. *)
Lemma log_store_failure_run actor fid reason n m s : uploads (work s) = uploads (durable s) ->
  exists s', log_store_failure actor fid reason n m s = (inr tt, s') /\ outside s' = outside s
    /\ uploads (durable s') = uploads (durable s).
Proof.
  intros Hs. unfold log_store_failure, try_except. set (p := log_event _ _ _ _ ≫= _).
  destruct (p s) as [[e|[]] s1] eqn:E; subst p.
  - eexists. split; [reflexivity|]. cbn. apply bind_run in E as [(e1 & _ & E)|(ev & s2 & E & Ec)].
    + split; [by eapply log_event_outside|].
      eapply (same_run uploads) in E as [_ ->]; [done|by apply same_log_event].
    + pose proof (log_event_outside _ _ _ _ _ _ _ E) as Ho.
      eapply (same_run uploads) in E as [_ Hd]; [|by apply same_log_event].
      unfold commit, may_fault, mbind, M_bind in Ec. destruct (db_fault _); [|done]. injection Ec as _ <-. cbn.
      by rewrite Ho, Hd.
  - eexists. split; [reflexivity|]. apply bind_ok in E as (ev & s2 & E & (_ & -> & ->)%commit_ok).
    split; [by eapply log_event_outside|]. eapply (same_run uploads) in E as [-> _]; [done|by apply same_log_event].
Qed.

Lemma fail_store_run {A} actor fid size full temp b f s r s' : fail_store (A := A) actor fid size full temp b f s = (r, s') ->
  disk_of (outside s') = unlink temp (if b then unlink full (disk_of (outside s)) else disk_of (outside s))
  /\ uploads (durable s') = uploads (durable s).
Proof.
  unfold fail_store. intros E. erewrite bind_step in E by reflexivity. erewrite bind_step in E by reflexivity.
  match type of E with (log_store_failure _ _ ?re ?n ?m ≫= _) ?s0 = _ =>
    destruct (log_store_failure_run actor fid re n m s0 eq_refl) as (s1 & E1 & O1 & U1) end.
  rewrite (bind_step _ _ _ _ _ E1) in E. erewrite bind_step in E by reflexivity. injection E as _ <-. cbn in *.
  rewrite disk_of_put, O1, U1. cbn. by rewrite disk_of_put.
Qed.

(** The committed records, and every file but one, are as before. *)
Definition nothing_left (s s' : Session) : Prop :=
  uploads (durable s') = uploads (durable s)
  /\ exists temp, forall q, q <> temp -> files (disk_of (outside s')) !! q = files (disk_of (outside s)) !! q.

Lemma nothing_left_refl s : nothing_left s s.
Proof. split; [done|]. by exists []. Qed.

(** A step that only reads. *)
Ltac read_step Hr x E :=
  apply reads_bind in Hr as [(? & _ & ->)|(x & E & Hr)];
    [by apply nothing_left_refl| |by first [apply pres_gets, _|apply pres_of_option, _|apply pres_guard, _|apply pres_of_res, _]].

(** The database part that a failure interrupts has committed nothing. *)
Lemma record_stored_fail g ty p actor s e s' :
  (modify g ;; _ ← log_event ty p None actor; commit) s = (inl e, s') -> durable s' = durable s /\ outside s' = outside s.
Proof.
  intros E. split.
  - assert (Ha : atomic (modify g ;; _ ← log_event ty p None actor; commit)) by atomic. by apply Ha in E.
  - erewrite bind_step in E by reflexivity. apply bind_run in E as [(x & _ & E)|(ev & s1 & E & Ec)].
    + by apply log_event_outside in E.
    + apply log_event_outside in E. unfold commit, may_fault, mbind, M_bind in Ec. destruct (db_fault _); [|done].
      injection Ec as _ <-. cbn. by rewrite E.
Qed.

End StoreProps.

(** ** Examples *)

Definition disk_world : World := {|
  clock _ := 1735689600000000; fresh_uuid n := N.of_nat (n + 100); fresh_token n := str_of_Z (Z.of_nat n);
  db_fault _ := None; ext := Disk |}.
Definition own_disk : HasDisk (H := disk_world) := {| disk_of := (fun d => d) : @ext disk_world -> Disk; put_disk d _ := d |}.
Lemma own_disk_laws : HasDiskLaws (H0 := own_disk).
Proof. by split. Qed.
Definition demo_storage : StorageSettings := {| uploads_base_dir := py "/data/uploads"; working_directory := [] |}.

Section StoreExamples.
Local Existing Instances disk_world ascii_ucd toy_crypto toy_aead toy_aead_laws demo_encryption demo_settings demo_storage
  own_disk own_disk_laws.

Definition pending_upload : Upload.t :=
  Upload.Row 50 3 (py "a.txt") (py "text/plain") 20 None (py "3/50-a.txt") None 0 None 0.
Definition store_session : Session := open_session (demo_store <| uploads := {[50%N := pending_upload]} |>) (MkDisk ∅ ∅ ∅).
Definition demo_stream : upload_stream :=
  {| stream_items := [Some (py "hello, "); Some (py "sealed upload")]; stream_error := None |}.

Example resolve_example :
  is_ok (_resolve_upload_path (py "3/../../etc/passwd")) = false
  /\ _resolve_upload_path (py "3/50-a.txt") = inr [py "data"; py "uploads"; py "3"; py "50-a.txt"].
Proof. vm_compute. by split. Qed.

Lemma store_session_ids k x : uploads (work store_session) !! k = Some x -> Upload.id x = k.
Proof. cbn. rewrite lookup_singleton_Some. by intros [<- <-]. Qed.

Lemma demo_stream_bytes : Forall item_bytes (stream_items demo_stream).
Proof. repeat constructor; done. Qed.

Lemma stored_upload_is_downloaded_witness : exists u s' parts,
  store_upload_content 3 50 demo_stream demo_nonce store_session = (inr u, s')
  /\ _resolve_upload_path (Upload.storage_path u) = inr parts
  /\ exists cs, iter_decrypted_upload_async (path_str parts) 50 (Upload.storage_key_id u) (Upload.size_bytes u)
                  (disk_of (outside s')) = (cs, inr tt) /\ concat cs = stream_bytes (stream_items demo_stream).
Proof.
  destruct (store_upload_content 3 50 demo_stream demo_nonce store_session) as [[e|u] s'] eqn:E.
  { exfalso. assert (X : is_ok (store_upload_content 3 50 demo_stream demo_nonce store_session).1 = true) by (vm_compute; reflexivity).
    rewrite E in X. discriminate X. }
  destruct (stored_upload_is_downloaded 3 50 demo_stream demo_nonce store_session u s' store_session_ids eq_refl
    demo_stream_bytes ltac:(repeat constructor; done) E) as (parts & Hp & _ & _ & _ & _ & _ & _ & _ & Hd).
  exists u, s', parts. exact (conj eq_refl (conj Hp (Hd (not_elem_of_empty _)))).
Defined.

End StoreExamples.
