(* ===== verification/Delivery.v ===== *)
(** * Delivery monitoring and manual retry (backend/app/services/delivery_service.py)

    Owners, admins with member management and superadmins see the failed
    outbox rows of their channels and can hand them back to the worker. *)

From S2P Require Import Prelude PyStr Json Models Session EventIntegrity Identifiers Rbac Outbox Worker.
Local Open Scope Z_scope.

Definition MANUAL_RETRY_STATUSES : list OutboxStatus := [failed; retry_scheduled; dead_lettered].

Definition _status_value (status : OutboxStatus) : pystr :=
  match status with
  | pending => py "pending" | publishing => py "publishing" | published => py "published"
  | retry_scheduled => py "retry_scheduled" | failed => py "failed" | dead_lettered => py "dead_lettered"
  end.

Definition _can_manage_delivery (role : MembershipRole) (admin_permissions : pyval) : bool :=
  match role with
  | owner => true
  | admin => ap_manage_members (normalize_admin_permissions admin_permissions)
  | _ => false
  end.

Record DeliveryItem := {
  di_id : N; di_channel_id : N; di_channel_slug : pystr; di_message_id : option N;
  di_event_type : option pystr; di_payload_type : option pystr; di_routing_key : pystr; di_status : pystr;
  di_attempt_count : Z; di_max_attempts : Z; di_next_attempt_at : option Z; di_last_error : option pystr;
  di_created_at : Z; di_updated_at : Z; di_published_at : option Z; di_dead_lettered_at : option Z
}.

(** [outbox.type or outbox.aggregate_type]. *)
Definition _to_item (r : Outbox.t) (channel_slug : pystr) : DeliveryItem :=
  let is_message := str_eqb (Outbox.aggregate_type r) (py "message") in
  {| di_id := Outbox.id r; di_channel_id := Outbox.channel_id r; di_channel_slug := channel_slug;
     di_message_id := if is_message then Some (Outbox.aggregate_id r) else None;
     di_event_type :=
       if is_message then None
       else Some match Outbox.type r with Some ((_ :: _) as t) => t | _ => Outbox.aggregate_type r end;
     di_payload_type := Outbox.type r; di_routing_key := Outbox.routing_key r;
     di_status := _status_value (Outbox.status r); di_attempt_count := Outbox.attempts r;
     di_max_attempts := Outbox.max_attempts r; di_next_attempt_at := Outbox.next_retry_at r;
     di_last_error := Outbox.last_error r; di_created_at := Outbox.created_at r;
     di_updated_at := Outbox.updated_at r; di_published_at := Outbox.published_at r;
     di_dead_lettered_at := Outbox.dead_lettered_at r |}.

Record DeliveryStats := {
  ds_pending : Z; ds_publishing : Z; ds_published : Z; ds_retry_scheduled : Z; ds_failed : Z; ds_dead_lettered : Z
}.

Record RetryResponse := { rr_retried_count : Z; rr_items : list DeliveryItem }.

(** The reset itself, at the time the clock shows. *)
Definition reset_row (now : instant) (r : Outbox.t) : Outbox.t :=
  r <| Outbox.status := pending |> <| Outbox.attempts := 0 |> <| Outbox.next_retry_at := None |>
    <| Outbox.last_error := None |> <| Outbox.dead_lettered_at := None |> <| Outbox.updated_at := now |>.

(** Rows of the join of the outbox with its channel. *)
Definition joined (p : Outbox.t -> bool) (st : Store) : list (Outbox.t * pystr) :=
  omap (fun r => c ← channels st !! Outbox.channel_id r; Some (r, Channel.channel_slug c))
    (List.filter p (rows (outbox st))).

Definition in_channels (channel_ids : list N) (r : Outbox.t) : bool :=
  bool_decide (Outbox.channel_id r ∈ channel_ids).
Definition has_status (statuses : list OutboxStatus) (r : Outbox.t) : bool :=
  bool_decide (Outbox.status r ∈ statuses).

Definition manageable (m : ChannelMembership.t) : bool :=
  _can_manage_delivery (ChannelMembership.role m) (ChannelMembership.admin_permissions m).

(** The channels a user's memberships let him manage. *)
Definition managed_by_role (user_id : N) (st : Store) : list N :=
  ChannelMembership.channel_id <$>
    List.filter (fun m => bool_decide (ChannelMembership.user_id m = user_id)
                          && bool_decide (ChannelMembership.role m ∈ [owner; admin]) && manageable m)
      (rows (channel_memberships st)).

Definition retry_event_payload (r : Outbox.t) (previous_status : pystr) (previous_attempt_count : Z) : pyval :=
  PDict [(py "outbox_id", PStr (uuid_str (Outbox.id r))); (py "previous_status", PStr previous_status);
         (py "previous_attempt_count", PInt previous_attempt_count); (py "manual_retry", PBool true)].

Section Delivery.
Context `{World}.

Definition get_managed_channel_ids (actor_user_id : N) : M (list N) :=
  actor ← get_user actor_user_id;
  if match actor with Some u => User.is_superadmin u | None => false end then
    gets (fun st => Channel.id <$>
      List.filter (fun c => bool_decide (Channel.deleted_at c = None)) (rows (channels st)))
  else
    channel_ids ← gets (managed_by_role actor_user_id);
    guard (negb (bool_decide (channel_ids = []))) (AppError 403 "FORBIDDEN") ;;
    mret channel_ids.

Definition count_status (channel_ids : list N) (status : OutboxStatus) (st : Store) : Z :=
  Z.of_nat (length (List.filter (fun r => in_channels channel_ids r && has_status [status] r) (rows (outbox st)))).

Definition get_stats (actor_user_id : N) : M DeliveryStats :=
  channel_ids ← get_managed_channel_ids actor_user_id;
  gets (fun st =>
    {| ds_pending := count_status channel_ids pending st; ds_publishing := count_status channel_ids publishing st;
       ds_published := count_status channel_ids published st;
       ds_retry_scheduled := count_status channel_ids retry_scheduled st;
       ds_failed := count_status channel_ids failed st;
       ds_dead_lettered := count_status channel_ids dead_lettered st |}).

(** Ties of the ordering are broken by the identifier. *)
Definition _list_by_statuses (actor_user_id : N) (statuses : list OutboxStatus) (limit : nat) : M (list DeliveryItem) :=
  channel_ids ← get_managed_channel_ids actor_user_id;
  rows ← gets (fun st => take limit
    (order_by (fun p => [- Outbox.updated_at p.1; - Outbox.created_at p.1; Z.of_N (Outbox.id p.1)])
       (joined (fun r => in_channels channel_ids r && has_status statuses r) st)));
  mret ((fun p => _to_item p.1 p.2) <$> rows).

Definition list_failed (actor_user_id : N) (limit : nat) : M (list DeliveryItem) :=
  _list_by_statuses actor_user_id [retry_scheduled; failed] limit.
Definition list_dead_lettered (actor_user_id : N) (limit : nat) : M (list DeliveryItem) :=
  _list_by_statuses actor_user_id [dead_lettered] limit.

(** The reset and the UPDATE its flush issues. *)
Definition _reset_for_manual_retry (r : Outbox.t) : M Outbox.t :=
  now ← utcnow;
  update_outbox (Outbox.id r) (reset_row now) ;;
  mret (reset_row now r).

(** After the rollback of the last branch the row is read from the database
    again. *)
Definition retry_one (actor_user_id outbox_id : N) : M RetryResponse :=
  channel_ids ← get_managed_channel_ids actor_user_id;
  row ← gets (fun st => head (joined (fun r => bool_decide (Outbox.id r = outbox_id) && in_channels channel_ids r) st));
  '(r, channel_slug) ← of_option (AppError 404 "NOT_FOUND") row;
  if has_status MANUAL_RETRY_STATUSES r then
    r' ← _reset_for_manual_retry r;
    _ ← log_event (py "broker.manual_retry_requested")
          (retry_event_payload r (_status_value (Outbox.status r)) (Outbox.attempts r))
          (Some (Outbox.channel_id r)) (Some actor_user_id);
    commit ;;
    mret {| rr_retried_count := 1; rr_items := [_to_item r' channel_slug] |}
  else
    rollback ;;
    mret {| rr_retried_count := 0; rr_items := [_to_item r channel_slug] |}.

(** [str(uuid)] orders like the number it spells. *)
Definition retry_all (actor_user_id : N) (limit : nat) : M RetryResponse :=
  channel_ids ← get_managed_channel_ids actor_user_id;
  selected ← gets (fun st => take limit
    (order_by (fun p => [Outbox.updated_at p.1; Outbox.created_at p.1; Z.of_N (Outbox.id p.1)])
       (joined (fun r => in_channels channel_ids r && has_status MANUAL_RETRY_STATUSES r) st)));
  items ← map_each selected (fun p => r' ← _reset_for_manual_retry p.1; mret (_to_item r' p.2));
  for_each
    (order_by (fun r => [Z.of_N (Outbox.channel_id r); Z.of_N (Outbox.id r)]) selected.*1)
    (fun r =>
       _ ← log_event (py "broker.manual_retry_requested")
             (retry_event_payload r (_status_value (Outbox.status r)) (Outbox.attempts r))
             (Some (Outbox.channel_id r)) (Some actor_user_id);
       mret tt) ;;
  (if bool_decide (selected = []) then rollback else commit) ;;
  mret {| rr_retried_count := Z.of_nat (length selected); rr_items := items |}.

End Delivery.

(** ** Lemmas *)

(** Who may act on the deliveries of a channel. *)
Definition may_manage_delivery (actor_user_id channel_id : N) (st : Store) : Prop :=
  (exists u, users st !! actor_user_id = Some u /\ User.is_superadmin u = true
     /\ exists k c, channels st !! k = Some c /\ Channel.id c = channel_id /\ Channel.deleted_at c = None)
  \/ exists k m, channel_memberships st !! k = Some m /\ ChannelMembership.user_id m = actor_user_id
       /\ ChannelMembership.channel_id m = channel_id /\ manageable m = true.

Lemma elem_of_joined p st r slug :
  (r, slug) ∈ joined p st ->
  p r = true /\ (exists k, outbox st !! k = Some r)
  /\ exists c, channels st !! Outbox.channel_id r = Some c /\ slug = Channel.channel_slug c.
Proof.
  unfold joined. rewrite list_elem_of_omap. intros (x & [Hx%elem_of_rows Hp]%elem_of_filter_bool & Hc).
  destruct (channels st !! Outbox.channel_id x) as [c|] eqn:Ec; [|done]. cbn in Hc.
  injection Hc as -> <-. eauto.
Qed.

Lemma joined_intro p st k r c :
  outbox st !! k = Some r -> channels st !! Outbox.channel_id r = Some c -> p r = true ->
  (r, Channel.channel_slug c) ∈ joined p st.
Proof.
  intros Hr Hc Hp. apply list_elem_of_omap. exists r. split; [|by rewrite Hc].
  apply elem_of_filter_bool. split; [apply elem_of_rows; eauto|done].
Qed.

(** A query over the outbox lists no row twice. *)
Lemma joined_nodup p st : outbox_keyed (outbox st) -> NoDup ((fun x => Outbox.id x.1) <$> joined p st).
Proof.
  intros Hkey. eapply sublist_NoDup; [apply (rows_keyed_nodup Outbox.id (outbox st) Hkey)|].
  trans (Outbox.id <$> List.filter p (rows (outbox st))); [|apply fmap_sublist, sublist_filter_bool].
  unfold joined. generalize (List.filter p (rows (outbox st))). intros l.
  induction l as [|r l IH]; cbn; [constructor|]. destruct (channels st !! Outbox.channel_id r); by constructor.
Qed.

Definition status_eqb (a b : OutboxStatus) : bool := bool_decide (a = b).

Lemma has_status_single x r : has_status [x] r = status_eqb (Outbox.status r) x.
Proof. unfold has_status, status_eqb. apply bool_decide_ext. apply list_elem_of_singleton. Qed.

Section DeliveryLemmas.
Context `{World}.

Lemma managed_channels_ok a s ids s' :
  get_managed_channel_ids a s = (inr ids, s') ->
  s' = s /\ forall c, c ∈ ids -> may_manage_delivery a c (work s).
Proof.
  unfold get_managed_channel_ids, get_user. intros Hr. run_step. run_step.
  destruct (users (work s) !! a) as [u|] eqn:Eu; [destruct (User.is_superadmin u) eqn:Es|].
  - run_inv. split; [done|]. intros c (ch & -> & [(k & Hk)%elem_of_rows Hd%bool_decide_eq_true]%elem_of_filter_bool)%list_elem_of_fmap.
    left. eauto 10.
  - run_inv. split; [done|]. intros c (m & -> & [(k & Hk)%elem_of_rows Hm]%elem_of_filter_bool)%list_elem_of_fmap.
    right. apply andb_prop in Hm as [[Hu%bool_decide_eq_true _]%andb_prop Hm]. eauto 10.
  - run_inv. split; [done|]. intros c (m & -> & [(k & Hk)%elem_of_rows Hm]%elem_of_filter_bool)%list_elem_of_fmap.
    right. apply andb_prop in Hm as [[Hu%bool_decide_eq_true _]%andb_prop Hm]. eauto 10.
Qed.

Lemma reset_run r s :
  exists now s', _reset_for_manual_retry r s = (inr (reset_row now r), s')
    /\ work s' = work s <| outbox ::= alter (reset_row now) (Outbox.id r) |> /\ durable s' = durable s.
Proof. by eexists _, _. Qed.

(** The loop of [retry_all]: exactly the listed rows are reset. *)
Lemma reset_all_run (l : list (Outbox.t * pystr)) s :
  exists items s', map_each l (fun p => r' ← _reset_for_manual_retry p.1; mret (_to_item r' p.2)) s = (inr items, s')
    /\ durable s' = durable s /\ length items = length l
    /\ (NoDup ((fun p => Outbox.id p.1) <$> l) -> forall id,
        (id ∉ ((fun p => Outbox.id p.1) <$> l) -> outbox (work s') !! id = outbox (work s) !! id)
        /\ (id ∈ ((fun p => Outbox.id p.1) <$> l) ->
            exists now, outbox (work s') !! id = reset_row now <$> outbox (work s) !! id)).
Proof.
  revert s. induction l as [|[r slug] l IH]; intros s.
  - eexists _, s. split; [reflexivity|]. split_and!; [done|done|]. intros _ id. split; [done|].
    intros Hin. cbn in Hin. by apply elem_of_nil in Hin.
  - destruct (reset_run r s) as (now & s1 & Hr & Hw & Hd).
    destruct (IH s1) as (items & s2 & Hl & Hd2 & Hlen & Hspec).
    eexists _, s2. cbn [map_each fst snd]. split.
    { erewrite bind_step; [|rewrite (bind_step _ _ _ _ _ Hr); reflexivity].
      rewrite (bind_step _ _ _ _ _ Hl). reflexivity. }
    split; [congruence|]. split; [cbn; lia|]. rewrite !fmap_cons. intros [Hnin Hnd]%NoDup_cons id.
    destruct (Hspec Hnd id) as [Hs1 Hs2]. rewrite Hw in Hs1, Hs2. cbn [outbox upd fst] in *.
    rewrite not_elem_of_cons, elem_of_cons. split.
    + intros [Hne Hid]. rewrite Hs1 by done. by rewrite lookup_alter_ne.
    + intros [->|Hid].
      * exists now. rewrite Hs1 by done. by rewrite lookup_alter_eq.
      * destruct (Hs2 Hid) as [n Hn]. exists n. rewrite Hn, lookup_alter_ne; [done|].
        intros E. by subst id.
Qed.

Lemma row_ok_reset settings now r : row_ok settings (reset_row now r).
Proof. done. Qed.

Lemma outbox_ok_reset settings now id t : outbox_ok settings t -> outbox_ok settings (alter (reset_row now) id t).
Proof.
  intros Hok i r. rewrite lookup_alter_Some. intros [(-> & x & Hx & ->)|[_ Hr]]; [apply row_ok_reset|by eapply Hok].
Qed.

Lemma keeps_reset settings r :
  preserves (keeps (fun st => outbox_ok settings (outbox st))) (_reset_for_manual_retry r).
Proof.
  unfold _reset_for_manual_retry, update_outbox. pres.
  apply keeps_modify. intros st. apply outbox_ok_reset.
Qed.
End DeliveryLemmas.

(** ** Properties *)

Section DeliveryProperties.
Context `{World}.

(** A manual retry is authorized and precise: it succeeds only for a row
    of a channel the actor manages; a failed, rescheduled or dead-lettered
    row is committed as pending with its attempts cleared and every other row
    untouched, and any other row (a delivered one in particular) is left as
    it is. *)
Theorem retry_one_is_authorized a id s resp s' :
  outbox_keyed (outbox (work s)) ->
  retry_one a id s = (inr resp, s') ->
  exists r, outbox (work s) !! id = Some r /\ may_manage_delivery a (Outbox.channel_id r) (work s)
    /\ if has_status MANUAL_RETRY_STATUSES r
       then rr_retried_count resp = 1
            /\ exists now, outbox (durable s') = <[id := reset_row now r]> (outbox (work s))
       else rr_retried_count resp = 0 /\ durable s' = durable s /\ work s' = durable s.
Proof.
  intros Hkey Hr. unfold retry_one in Hr.
  apply bind_ok in Hr as (ids & s1 & [-> Hman]%managed_channels_ok & Hr).
  apply bind_ok in Hr as (row & s1 & [-> ->]%gets_ok & Hr).
  apply bind_ok in Hr as ([r slug] & s1 & [[l Hl]%head_Some ->]%of_option_ok & Hr).
  assert (Hin : (r, slug) ∈ joined (fun r => bool_decide (Outbox.id r = id) && in_channels ids r) (work s))
    by (rewrite Hl; constructor).
  apply elem_of_joined in Hin as ([Hid%bool_decide_eq_true Hch%bool_decide_eq_true]%andb_prop & [k Hk] & _).
  assert (k = id) as -> by (rewrite <-Hid; symmetry; by apply Hkey).
  exists r. split; [done|]. split; [by apply Hman|].
  destruct (has_status MANUAL_RETRY_STATUSES r).
  - destruct (reset_run r s) as (now & s2 & Hreset & Hw & Hd).
    rewrite (bind_step _ _ _ _ _ Hreset) in Hr.
    apply bind_ok in Hr as (ev & s3 & Hlog & Hr). apply (same_run outbox) in Hlog as [Ho _]; [|by apply same_log_event].
    apply bind_ok in Hr as (x & s4 & (_ & Hc & _)%commit_ok & [-> ->]%ret_ok).
    split; [done|]. exists now. rewrite Hc, Ho, Hw. cbn [outbox upd]. rewrite Hid. by apply alter_insert_row.
  - apply bind_ok in Hr as (x & s4 & (Hw & Hd & _)%rollback_ok & [-> ->]%ret_ok). done.
Qed.

(** Bulk retry is precise: on success there is a set of at most [limit]
    rows, all failed, rescheduled or dead-lettered and all in channels the
    actor manages, such that exactly these rows are committed as pending with
    their attempts cleared and every other row is as before; when the limit
    is not reached, no eligible row was forgotten. *)
Theorem retry_all_is_precise a limit s resp s' :
  outbox_keyed (outbox (work s)) -> work s = durable s ->
  retry_all a limit s = (inr resp, s') ->
  exists (chs ids : list N), get_managed_channel_ids a s = (inr chs, s)
    /\ NoDup ids /\ rr_retried_count resp = Z.of_nat (length ids) /\ (length ids <= limit)%nat
    /\ (forall id, id ∉ ids -> outbox (durable s') !! id = outbox (work s) !! id)
    /\ (forall id, id ∈ ids -> exists r now, outbox (work s) !! id = Some r
          /\ has_status MANUAL_RETRY_STATUSES r = true /\ may_manage_delivery a (Outbox.channel_id r) (work s)
          /\ outbox (durable s') !! id = Some (reset_row now r))
    /\ ((length ids < limit)%nat -> forall id r, outbox (work s) !! id = Some r ->
          is_Some (channels (work s) !! Outbox.channel_id r) -> Outbox.channel_id r ∈ chs ->
          has_status MANUAL_RETRY_STATUSES r = true -> id ∈ ids).
Proof.
  intros Hkey Hclean Hr. unfold retry_all in Hr.
  apply bind_ok in Hr as (chs & s1 & Hchs & Hr). pose proof Hchs as [-> Hman]%managed_channels_ok.
  apply bind_ok in Hr as (sel & s1 & [-> ->]%gets_ok & Hr). set (sel := take limit _) in *.
  destruct (reset_all_run sel s) as (items & s2 & Hl & Hd2 & _ & Hspec).
  rewrite (bind_step _ _ _ _ _ Hl) in Hr.
  apply bind_ok in Hr as (x & s3 & Hlog & Hr).
  apply (same_run outbox) in Hlog as [Ho3 Hd3]; [|pres].
  apply bind_ok in Hr as (y & s4 & Hc & [-> ->]%ret_ok).
  assert (Hsel : forall r slug, (r, slug) ∈ sel -> outbox (work s) !! Outbox.id r = Some r
    /\ has_status MANUAL_RETRY_STATUSES r = true /\ may_manage_delivery a (Outbox.channel_id r) (work s)).
  { intros r slug Hin. assert (Hj : (r, slug) ∈ joined (fun r => in_channels chs r && has_status MANUAL_RETRY_STATUSES r) (work s)).
    { eapply elem_of_order_by, subseteq_take. exact Hin. }
    apply elem_of_joined in Hj as ([Hch%bool_decide_eq_true Hst]%andb_prop & [k Hk] & _).
    split; [by rewrite (Hkey _ _ Hk)|]. split; [done|by apply Hman]. }
  assert (Hnd : NoDup ((fun p => Outbox.id p.1) <$> sel)).
  { eapply sublist_NoDup; [|apply fmap_sublist, sublist_take].
    rewrite order_by_perm. by apply joined_nodup. }
  assert (Hout : outbox (durable s4) = outbox (work s2) \/ sel = []).
  { case_bool_decide; [by right|left]. apply commit_ok in Hc as (_ & -> & _). congruence. }
  assert (Hall : (length ((fun p => Outbox.id p.1) <$> sel) < limit)%nat -> forall id r,
    outbox (work s) !! id = Some r -> is_Some (channels (work s) !! Outbox.channel_id r) ->
    Outbox.channel_id r ∈ chs -> has_status MANUAL_RETRY_STATUSES r = true -> id ∈ ((fun p => Outbox.id p.1) <$> sel)).
  { rewrite length_fmap. subst sel. rewrite length_take. intros Hlt id r Hr [c Hc'] Hin Hst.
    rewrite firstn_all2 by lia. apply list_elem_of_fmap. exists (r, Channel.channel_slug c).
    split; [symmetry; by apply Hkey|]. apply elem_of_order_by. eapply joined_intro; [done..|].
    unfold in_channels. by rewrite bool_decide_true, Hst. }
  exists chs, ((fun p => Outbox.id p.1) <$> sel). split; [done|]. split; [done|]. split; [by rewrite length_fmap|].
  split; [rewrite length_fmap; subst sel; rewrite length_take; lia|].
  destruct Hout as [Hout|Hnil].
  - rewrite Hout. split; [intros id; by apply Hspec|]. split; [|exact Hall].
    intros id Hid. destruct (proj2 (Hspec Hnd id) Hid) as [now Hnow].
    apply list_elem_of_fmap in Hid as ([r slug] & -> & Hin). destruct (Hsel r slug Hin) as (Hr & Hst & Hm).
    exists r, now. cbn [fst] in *. rewrite Hr in Hnow. done.
  - rewrite Hnil in *. rewrite bool_decide_true in Hc by done.
    apply rollback_ok in Hc as (_ & -> & _). split; [|split; [by intros id ?%elem_of_nil|exact Hall]].
    intros id _. by rewrite Hd3, Hd2, Hclean.
Qed.

(** Manual retries respect the worker's invariant, on every path: after
    [retry_one] or [retry_all], successful or failed at any statement, every
    committed outbox row is still in a state the worker's machine allows. *)
Theorem manual_retry_keeps_outbox_ok settings a id limit s :
  outbox_ok settings (outbox (durable s)) -> outbox_ok settings (outbox (work s)) ->
  outbox_ok settings (outbox (durable (retry_one a id s).2))
  /\ outbox_ok settings (outbox (durable (retry_all a limit s).2)).
Proof.
  intros Hd Hw.
  assert (H1 : preserves (keeps (fun st => outbox_ok settings (outbox st))) (retry_one a id)).
  { unfold retry_one, get_managed_channel_ids, get_user. pres; apply keeps_reset. }
  assert (H2 : preserves (keeps (fun st => outbox_ok settings (outbox st))) (retry_all a limit)).
  { unfold retry_all, get_managed_channel_ids, get_user. pres; apply keeps_reset. }
  split; [by apply (H1 s)|by apply (H2 s)].
Qed.

(** The delivery statistics add up: the six counters partition the outbox
    rows of the channels the actor manages. *)
Theorem delivery_stats_partition a s d s' :
  get_stats a s = (inr d, s') ->
  s' = s /\ exists ids, get_managed_channel_ids a s = (inr ids, s)
    /\ ds_pending d + ds_publishing d + ds_published d + ds_retry_scheduled d + ds_failed d + ds_dead_lettered d
       = Z.of_nat (length (List.filter (in_channels ids) (rows (outbox (work s))))).
Proof.
  unfold get_stats. intros Hr. apply bind_ok in Hr as (ids & s1 & Hm & [-> ->]%gets_ok).
  pose proof Hm as [-> _]%managed_channels_ok. split; [done|]. exists ids. split; [done|].
  cbn [ds_pending ds_publishing ds_published ds_retry_scheduled ds_failed ds_dead_lettered]. unfold count_status.
  induction (rows (outbox (work s))) as [|r l IH]; [done|]. cbn [List.filter].
  destruct (in_channels ids r); cbn [andb]; [|exact IH]. rewrite !has_status_single.
  destruct (Outbox.status r); change (status_eqb ?a ?a) with true; unfold status_eqb;
    rewrite ?bool_decide_false by done; rewrite ?bool_decide_true by done; cbn [length]; lia.
Qed.
End DeliveryProperties.

(** ** Concrete runs *)

Definition dead_row : Outbox.t :=
  demo_outbox_row <| Outbox.status := dead_lettered |> <| Outbox.attempts := 5 |>
    <| Outbox.last_error := Some (py "refused") |> <| Outbox.dead_lettered_at := Some 9 |>.

Definition delivery_session : Session (H := still_world) :=
  open_session (H := still_world) (demo_store <| outbox := {[40%N := dead_row]} |>) tt.

Lemma outbox_keyed_delivery : outbox_keyed (outbox (work delivery_session)).
Proof. intros id r. cbn. rewrite lookup_singleton_Some. by intros [<- <-]. Qed.

Lemma outbox_ok_delivery : outbox_ok default_settings (outbox (durable delivery_session)).
Proof.
  intros id r. cbn. rewrite lookup_singleton_Some. intros [<- <-]. vm_compute. split; [done|]. split; by eexists.
Qed.

Lemma retry_one_is_authorized_witness :
  exists resp s', retry_one (H := still_world) 3 40 delivery_session = (inr resp, s')
    /\ rr_retried_count resp = 1 /\ may_manage_delivery 3 7 demo_store.
Proof.
  destruct (retry_one (H := still_world) 3 40 delivery_session) as [[e|resp] s'] eqn:E.
  - exfalso. assert (X : is_ok (retry_one (H := still_world) 3 40 delivery_session).1 = true)
      by (vm_compute; reflexivity). rewrite E in X. discriminate X.
  - exists resp, s'. split; [reflexivity|].
    destruct (retry_one_is_authorized (H := still_world) 3 40 delivery_session resp s' outbox_keyed_delivery E)
      as (r & Hr & Hm & Hs).
    assert (Hr' : outbox (work delivery_session) !! 40%N = Some dead_row) by reflexivity.
    rewrite Hr' in Hr. apply (inj Some) in Hr as <-.
    assert (Hst : has_status MANUAL_RETRY_STATUSES dead_row = true) by reflexivity.
    rewrite Hst in Hs. split; [apply Hs|]. exact Hm.
Defined.

Lemma retry_all_is_precise_witness :
  exists resp s' ids, retry_all (H := still_world) 3 10 delivery_session = (inr resp, s')
    /\ rr_retried_count resp = Z.of_nat (length ids) /\ 40%N ∈ ids.
Proof.
  destruct (retry_all (H := still_world) 3 10 delivery_session) as [[e|resp] s'] eqn:E.
  - exfalso. assert (X : is_ok (retry_all (H := still_world) 3 10 delivery_session).1 = true)
      by (vm_compute; reflexivity). rewrite E in X. discriminate X.
  - destruct (retry_all_is_precise (H := still_world) 3 10 delivery_session resp s' outbox_keyed_delivery eq_refl E)
      as (chs & ids & Hm & _ & Hn & _ & _ & Hin & Hall).
    exists resp, s', ids. split; [reflexivity|]. split; [exact Hn|].
    assert (Hc : get_managed_channel_ids (H := still_world) 3 delivery_session = (inr [7%N], delivery_session))
      by (vm_compute; reflexivity).
    rewrite Hc in Hm. injection Hm as <-.
    assert (Hlen : rr_retried_count resp = 1).
    { assert (X : match (retry_all (H := still_world) 3 10 delivery_session).1 with
                  | inr r => rr_retried_count r | inl _ => 0 end = 1) by (vm_compute; reflexivity).
      rewrite E in X. exact X. }
    apply (Hall ltac:(lia) 40%N dead_row); [reflexivity|by eexists|set_solver|reflexivity].
Defined.

Lemma manual_retry_keeps_outbox_ok_witness :
  outbox_ok default_settings (outbox (durable (retry_all (H := still_world) 3 10 delivery_session).2)).
Proof.
  apply (manual_retry_keeps_outbox_ok (H := still_world) default_settings 3 40 10 delivery_session);
    apply outbox_ok_delivery.
Defined.

Lemma delivery_stats_partition_witness :
  exists d, get_stats (H := still_world) 3 delivery_session = (inr d, delivery_session)
    /\ ds_dead_lettered d = 1.
Proof.
  destruct (get_stats (H := still_world) 3 delivery_session) as [[e|d] s'] eqn:E.
  - exfalso. assert (X : is_ok (get_stats (H := still_world) 3 delivery_session).1 = true)
      by (vm_compute; reflexivity). rewrite E in X. discriminate X.
  - destruct (delivery_stats_partition (H := still_world) 3 delivery_session d s' E) as [-> _].
    exists d. split; [reflexivity|].
    assert (X : match (get_stats (H := still_world) 3 delivery_session).1 with
                | inr r => ds_dead_lettered r | inl _ => 0 end = 1) by (vm_compute; reflexivity).
    rewrite E in X. exact X.
Defined.
