(* ===== verification/Tasks.v ===== *)
(** * Asynchronous tasks

    An [async] function is a tree of atomic segments: the code from one [await]
    to the next runs without interruption and then gives the control back to
    the event loop, which may run any other task, or let the rest of the world
    change, before it resumes the function.  [sched] is one step of that loop,
    cancellation included.  [wp] is a small program logic for tasks that run
    among others: a state invariant indexed by what has been observed so far,
    and knowledge that the rest of the world only extends. *)

From S2P Require Import Prelude.
From stdpp Require Import gmap.

Section Tasks.
Context {St : Type}.

(** A finished task, or a segment to run and what follows it. *)
Inductive task (A : Type) : Type :=
| Done (r : res A)
| Step (f : St -> St * task A).
Arguments Done {A} r.
Arguments Step {A} f.

Global Instance task_ret : MRet task := fun A x => Done (inr x).
Fixpoint task_bind {A B} (t : task A) (k : A -> task B) : task B :=
  match t with
  | Done (inl e) => Done (inl e)
  | Done (inr a) => k a
  | Step f => Step (fun s => let '(s', t') := f s in (s', task_bind t' k))
  end.
Global Instance task_mbind : MBind task := fun A B k t => task_bind t k.

(** [try: t except ...: h]. *)
Fixpoint task_try {A} (t : task A) (h : exc -> task A) : task A :=
  match t with
  | Done (inl e) => h e
  | Done (inr a) => Done (inr a)
  | Step f => Step (fun s => let '(s', t') := f s in (s', task_try t' h))
  end.

Definition task_raise {A} (e : exc) : task A := Done (inl e).
(** A segment without an [await]. *)
Definition atomic_ {A} (f : St -> res A * St) : task A := Step (fun s => let '(r, s') := f s in (s', Done r)).
Definition reading {A} (f : St -> A) : task A := atomic_ (fun s => (inr (f s), s)).
Definition writing (f : St -> St) : task unit := atomic_ (fun s => (inr tt, f s)).

(** [for x in l: body(x)]. *)
Fixpoint task_for {A} (l : list A) (body : A -> task unit) : task unit :=
  match l with
  | [] => mret tt
  | x :: l => body x ;; task_for l body
  end.

(** Induction on the segments of a task. *)
Fixpoint task_segments {A} (P : task A -> Prop) (HD : forall r, P (Done r)) (HS : forall f, (forall s, P (f s).2) -> P (Step f))
  (t : task A) : P t :=
  match t with
  | Done r => HD r
  | Step f => HS f (fun s => match f s as p return P p.2 with (s', t') => task_segments P HD HS t' end)
  end.

(** A task that runs without interference. *)
Fixpoint run_alone {A} (t : task A) (s : St) : res A * St :=
  match t with
  | Done r => (r, s)
  | Step f => let '(s', t') := f s in run_alone t' s'
  end.

Lemma run_alone_bind {A B} (t : task A) (k : A -> task B) s :
  run_alone (t ≫= k) s = match run_alone t s with (inl e, s') => (inl e, s') | (inr a, s') => run_alone (k a) s' end.
Proof.
  change (t ≫= k) with (task_bind t k). revert s. induction t as [[e|a]|f IH] using task_segments; intros s; [done..|].
  cbn [task_bind run_alone]. specialize (IH s). destruct (f s) as [s' t']. apply IH.
Qed.
Lemma run_alone_try {A} (t : task A) h s :
  run_alone (task_try t h) s = match run_alone t s with (inl e, s') => run_alone (h e) s' | ok => ok end.
Proof.
  revert s. induction t as [[e|a]|f IH] using task_segments; intros s; [done..|].
  cbn [task_try run_alone]. specialize (IH s). destruct (f s) as [s' t']. apply IH.
Qed.
Lemma run_alone_atomic {A} (f : St -> res A * St) s : run_alone (atomic_ f) s = f s.
Proof. cbn. by destruct (f s). Qed.

(** ** The event loop *)

Record config := { shared : St; pool : gmap N (task unit) }.

Section Sched.
(** How the rest of the world may change the state, and the tasks that may be
    started. *)
Context (env : St -> St -> Prop) (starts : task unit -> Prop).

Inductive sched (c : config) : config -> Prop :=
| sched_run i f s' t' :
    pool c !! i = Some (Step f) -> f (shared c) = (s', t') ->
    sched c {| shared := s'; pool := <[i := t']> (pool c) |}
| sched_start i t :
    pool c !! i = None -> starts t -> sched c {| shared := shared c; pool := <[i := t]> (pool c) |}
| sched_cancel i : sched c {| shared := shared c; pool := delete i (pool c) |}
| sched_env s' : env (shared c) s' -> sched c {| shared := s'; pool := pool c |}.

(** Running one task for a number of segments. *)
Definition run_task (i : N) (c : config) : config :=
  match pool c !! i with
  | Some (Step f) => let '(s', t') := f (shared c) in {| shared := s'; pool := <[i := t']> (pool c) |}
  | _ => c
  end.

Lemma run_task_sched i n c : rtc sched c (Nat.iter n (run_task i) c).
Proof.
  assert (Hone : forall d, rtc sched d (run_task i d)).
  { intros d. unfold run_task. destruct (pool d !! i) as [[r|f]|] eqn:E; [apply rtc_refl| |apply rtc_refl].
    destruct (f (shared d)) as [s' t'] eqn:Ef. apply rtc_once. by eapply sched_run. }
  induction n as [|n IH]; [apply rtc_refl|]. rewrite Nat.iter_succ. etrans; [exact IH|apply Hone].
Qed.
End Sched.

(** ** Reasoning about a task among others *)

Section Wp.
Context {W : Type} (le : W -> W -> Prop) `{!PreOrder le} (Inv : W -> St -> Prop).

Fixpoint wp {A} (t : task A) (Q : W -> res A -> Prop) (w : W) : Prop :=
  match t with
  | Done r => Q w r
  | Step f => forall w1 s, le w w1 -> Inv w1 s ->
      let '(s', t') := f s in exists w2, le w1 w2 /\ Inv w2 s' /\ wp t' Q w2
  end.

Definition stable {A} (Q : W -> res A -> Prop) : Prop := forall w w' r, le w w' -> Q w r -> Q w' r.

Lemma wp_weaken {A} (t : task A) (Q Q' : W -> res A -> Prop) w w' :
  stable Q -> le w w' -> (forall w'' r, le w' w'' -> Q w'' r -> Q' w'' r) -> wp t Q w -> wp t Q' w'.
Proof.
  intros Hs. revert w w'. induction t as [r|f IH] using task_segments; intros w w' Hle HQ; cbn [wp].
  - intros H. apply HQ; [done|by eapply Hs].
  - intros H w1 s Hle1 Hi. specialize (H w1 s (transitivity Hle Hle1) Hi). specialize (IH s).
    destruct (f s) as [s' t']. destruct H as (w2 & Hle2 & Hi2 & Ht). exists w2. split_and!; [done|done|].
    eapply IH; [reflexivity| |exact Ht]. intros w3 r Hle3. apply HQ. etrans; [exact Hle1|]. by etrans.
Qed.

Lemma wp_bind {A B} (t : task A) (k : A -> task B) (Q : W -> res B -> Prop) w :
  wp t (fun w' r => match r with inl e => Q w' (inl e) | inr a => wp (k a) Q w' end) w -> wp (t ≫= k) Q w.
Proof.
  change (t ≫= k) with (task_bind t k). revert w. induction t as [[e|a]|f IH] using task_segments; intros w; [done..|].
  cbn [wp task_bind]. intros H w1 s Hle Hi. specialize (H w1 s Hle Hi). specialize (IH s). destruct (f s) as [s' t'].
  destruct H as (w2 & Hle2 & Hi2 & Ht). exists w2. split_and!; [done|done|]. by apply IH.
Qed.

Lemma wp_try {A} (t : task A) (h : exc -> task A) (Q : W -> res A -> Prop) w :
  wp t (fun w' r => match r with inl e => wp (h e) Q w' | inr a => Q w' (inr a) end) w -> wp (task_try t h) Q w.
Proof.
  revert w. induction t as [[e|a]|f IH] using task_segments; intros w; [done..|].
  cbn [wp task_try]. intros H w1 s Hle Hi. specialize (H w1 s Hle Hi). specialize (IH s). destruct (f s) as [s' t'].
  destruct H as (w2 & Hle2 & Hi2 & Ht). exists w2. split_and!; [done|done|]. by apply IH.
Qed.

Lemma wp_atomic {A} (f : St -> res A * St) (Q : W -> res A -> Prop) w :
  (forall w1 s r s', le w w1 -> Inv w1 s -> f s = (r, s') -> exists w2, le w1 w2 /\ Inv w2 s' /\ Q w2 r) -> wp (atomic_ f) Q w.
Proof.
  intros H w1 s Hle Hi. specialize (H w1 s (f s).1 (f s).2 Hle Hi). destruct (f s) as [r s']. by apply H.
Qed.

Lemma wp_reading {A} (f : St -> A) (Q : W -> res A -> Prop) w :
  (forall w1 s, le w w1 -> Inv w1 s -> Q w1 (inr (f s))) -> wp (reading f) Q w.
Proof. intros H. apply wp_atomic. intros w1 s r s' Hle Hi [= <- <-]. exists w1. split_and!; [done|done|by apply H]. Qed.

Lemma wp_writing (f : St -> St) (Q : W -> res unit -> Prop) w :
  (forall w1 s, le w w1 -> Inv w1 s -> Inv w1 (f s) /\ Q w1 (inr tt)) -> wp (writing f) Q w.
Proof. intros H. apply wp_atomic. intros w1 s r s' Hle Hi [= <- <-]. exists w1. by destruct (H w1 s Hle Hi). Qed.

(** A loop whose body establishes nothing that later turns rely on. *)
Lemma wp_for {A} (l : list A) (body : A -> task unit) (Q : W -> res unit -> Prop) w :
  stable Q -> (forall w', le w w' -> Q w' (inr tt)) ->
  (forall x w', x ∈ l -> le w w' -> wp (body x) Q w') -> wp (task_for l body) Q w.
Proof.
  intros Hs. revert w. induction l as [|x l IH]; intros w HQ Hb; [by apply HQ|]. cbn [task_for]. apply wp_bind.
  assert (Hx : wp (body x) (fun w' r => Q w' r /\ le w w') w).
  { assert (Hst : forall (t : task unit) w0, le w w0 -> wp t Q w0 -> wp t (fun w' r => Q w' r /\ le w w') w0).
    { intros t w0 Hle Ht. eapply wp_weaken; [exact Hs|reflexivity| |exact Ht]. intros w'' r Hle'' Hq. split; [done|by etrans]. }
    apply Hst; [done|]. apply Hb; [apply list_elem_of_here|done]. }
  eapply wp_weaken; [|reflexivity| |exact Hx].
  - intros w1 w2 r Hle [H1 H2]. split; [by eapply Hs|by etrans].
  - intros w1 r Hle [H1 _]. destruct r as [e|[]]; [done|]. apply IH; [intros w' Hle'; apply HQ; by etrans|].
    intros y w' Hy Hle'. apply Hb; [by apply list_elem_of_further|by etrans].
Qed.

(** *** Soundness for the event loop *)

Context (env : St -> St -> Prop) (starts : task unit -> Prop).
Context (Henv : forall w s s', Inv w s -> env s s' -> exists w', le w w' /\ Inv w' s').
Context (Hstarts : forall t w, starts t -> wp t (fun _ _ => True) w).

Definition safe (w : W) (c : config) : Prop :=
  Inv w (shared c) /\ map_Forall (fun _ t => wp t (fun _ _ => True) w) (pool c).

Lemma safe_step w c c' : safe w c -> sched env starts c c' -> exists w', le w w' /\ safe w' c'.
Proof.
  intros [Hi Hp] Hstep.
  assert (Hup : forall w', le w w' -> map_Forall (fun _ t => wp t (fun _ _ => True) w') (pool c)).
  { intros w' Hle i t Ht. eapply wp_weaken; [intros ?????; exact I|exact Hle| |exact (Hp i t Ht)]. done. }
  destruct Hstep as [i f s' t' Hf E|i t Hn Ht|i|s' He].
  - pose proof (Hp i _ Hf) as Hw. cbn [wp] in Hw. specialize (Hw w (shared c) (reflexivity w) Hi). rewrite E in Hw.
    destruct Hw as (w2 & Hle & Hi2 & Ht). exists w2. split; [done|]. split; [done|].
    apply map_Forall_insert_2; [done|by apply Hup].
  - exists w. split; [done|]. split; [done|]. apply map_Forall_insert_2; [by apply Hstarts|done].
  - exists w. split; [done|]. split; [done|]. by apply map_Forall_delete.
  - destruct (Henv w _ _ Hi He) as (w' & Hle & Hi'). exists w'. split; [done|]. split; [done|by apply Hup].
Qed.

Lemma safe_run w c c' : safe w c -> rtc (sched env starts) c c' -> exists w', le w w' /\ safe w' c'.
Proof.
  intros Hs Hr. revert w Hs. induction Hr as [c|c c1 c' Hstep _ IH]; intros w Hs; [by exists w|].
  destruct (safe_step w c c1 Hs Hstep) as (w1 & Hle & Hs1). destruct (IH w1 Hs1) as (w' & Hle' & Hs').
  exists w'. split; [by etrans|done].
Qed.
End Wp.
End Tasks.
Arguments task : clear implicits.
Arguments config : clear implicits.
Arguments Done {St A} r.
Arguments Step {St A} f.
