(* ===== verification/WorkBudget.v ===== *)
(** * Work budgets of a WebSocket (realtime/ws_abuse_control.py)

    A socket has a bucket of tokens for the commands it sends and one for the
    rows of history it asks for.  Seconds and tokens are Python floats in the
    code; they are exact rationals here, rounding is not modelled. *)

From S2P Require Import Prelude.
From Stdlib Require Import QArith Qround Qminmax Lqa.
Local Open Scope Q_scope.

Record TokenBucket := MkTokenBucket {
  capacity : Q;
  refill_per_second : Q;
  tokens : Q;
  updated_at : Q
}.

(** [__post_init__]: a new bucket is full. *)
Definition new_bucket (cap rate now : Q) : TokenBucket := MkTokenBucket cap rate cap now.

(** [consume] at the instant [now]: the seconds to wait when it refuses. *)
Definition consume (b : TokenBucket) (cost now : Q) : option Z * TokenBucket :=
  let elapsed := Qmax 0 (now - updated_at b) in
  let available := Qmin (capacity b) (tokens b + elapsed * refill_per_second b) in
  if Qle_bool cost available
  then (None, MkTokenBucket (capacity b) (refill_per_second b) (available - cost) now)
  else (Some (Z.max 1 (Qceiling ((cost - available) / refill_per_second b))),
        MkTokenBucket (capacity b) (refill_per_second b) available now).

Definition COMMAND_COSTS (command_type : string) : option Z :=
  if decide (command_type ∈ ["ping"; "auth"; "sync"; "invalid"; "unsupported"]) then Some 1%Z
  else if decide (command_type ∈ ["seen"; "unsubscribe"]) then Some 3%Z
  else if decide (command_type ∈ ["subscribe"; "resume"]) then Some 10%Z
  else None.

Record WebSocketWorkBudget := MkWorkBudget { commands_ : TokenBucket; history_ : TokenBucket }.

Definition new_budget (command_capacity : Z) (command_refill : Q) (history_capacity : Z) (history_refill now : Q) : WebSocketWorkBudget :=
  MkWorkBudget (new_bucket (inject_Z command_capacity) command_refill now)
    (new_bucket (inject_Z history_capacity) history_refill now).

Definition command_cost (command_type : string) : Z := default 1%Z (COMMAND_COSTS command_type).

Definition charge_command (b : WebSocketWorkBudget) (command_type : string) (now : Q) : option Z * WebSocketWorkBudget :=
  let '(r, c) := consume (commands_ b) (inject_Z (command_cost command_type)) now in (r, MkWorkBudget c (history_ b)).

Definition reserve_history_rows (b : WebSocketWorkBudget) (maximum_rows : Z) (now : Q) : option Z * WebSocketWorkBudget :=
  if (maximum_rows <=? 0)%Z then (None, b)
  else let '(r, h) := consume (history_ b) (inject_Z maximum_rows) now in (r, MkWorkBudget (commands_ b) h).

(** ** What a bucket lets through *)

(** A bucket holds at most its capacity, and never a debt. *)
Definition bucket_ok (b : TokenBucket) : Prop :=
  0 <= tokens b <= capacity b /\ 0 < refill_per_second b.

Lemma consume_cases b cost now :
  exists available, available == Qmin (capacity b) (tokens b + Qmax 0 (now - updated_at b) * refill_per_second b) /\
  ((cost <= available /\ consume b cost now = (None, MkTokenBucket (capacity b) (refill_per_second b) (available - cost) now))
   \/ (available < cost /\ exists n, consume b cost now = (Some n, MkTokenBucket (capacity b) (refill_per_second b) available now)
       /\ (1 <= n)%Z /\ (cost - available) / refill_per_second b <= inject_Z n)).
Proof.
  unfold consume. set (available := Qmin _ _). exists available. split; [reflexivity|].
  destruct (Qle_bool cost available) eqn:E; [left|right].
  - split; [by apply Qle_bool_iff|done].
  - split; [apply Qnot_le_lt; intros Hle; apply Qle_bool_iff in Hle; congruence|].
    eexists. split; [reflexivity|]. split; [lia|]. eapply Qle_trans; [apply Qle_ceiling|]. rewrite <-Zle_Qle. lia.
Qed.

Lemma consume_keeps_rate b cost now r b' :
  consume b cost now = (r, b') -> capacity b' = capacity b /\ refill_per_second b' = refill_per_second b /\ updated_at b' = now.
Proof. unfold consume. destruct (Qle_bool _ _); by intros [= <- <-]. Qed.

Lemma elapsed_nonneg now b : 0 < refill_per_second b -> 0 <= Qmax 0 (now - updated_at b) * refill_per_second b.
Proof. intros Hr. apply Qmult_le_0_compat; [apply Q.le_max_l|lra]. Qed.

(** One call: the tokens never exceed what was there plus what has flowed in. *)
Lemma bucket_consume_ok b cost now r b' :
  bucket_ok b -> 0 <= cost -> consume b cost now = (r, b') ->
  bucket_ok b' /\ tokens b' + match r with None => cost | Some _ => 0 end
    <= tokens b + Qmax 0 (now - updated_at b) * refill_per_second b.
Proof.
  intros [[H0 H1] Hr] Hc E. pose proof (elapsed_nonneg now b Hr) as He.
  destruct (consume_cases b cost now) as (a & Ha & [[Hle E']|(Hlt & n & E' & _)]); rewrite E' in E; injection E as <- <-;
    unfold bucket_ok; cbn [tokens capacity refill_per_second];
    pose proof (Q.le_min_l (capacity b) (tokens b + Qmax 0 (now - updated_at b) * refill_per_second b)) as Hm1;
    pose proof (Q.le_min_r (capacity b) (tokens b + Qmax 0 (now - updated_at b) * refill_per_second b)) as Hm2;
    rewrite <-Ha in Hm1, Hm2.
  - split_and!; lra.
  - assert (0 <= a) by (rewrite Ha; apply Q.min_glb; lra). split_and!; lra.
Qed.

(** A run of calls, each at its instant: what they admitted. *)
Fixpoint consume_all (b : TokenBucket) (calls : list (Q * Q)) : Q * TokenBucket :=
  match calls with
  | [] => (0, b)
  | (cost, now) :: calls =>
      let '(r, b) := consume b cost now in
      let '(total, b) := consume_all b calls in
      (match r with None => cost | Some _ => 0 end + total, b)
  end.

(** Instants that do not go backwards, from [t] on. *)
Fixpoint instants_from (t : Q) (calls : list (Q * Q)) : Prop :=
  match calls with
  | [] => True
  | (cost, now) :: calls => t <= now /\ 0 <= cost /\ instants_from now calls
  end.

Lemma consume_all_bound b calls total b' :
  bucket_ok b -> instants_from (updated_at b) calls -> consume_all b calls = (total, b') ->
  bucket_ok b' /\ tokens b' + total <= tokens b + (updated_at b' - updated_at b) * refill_per_second b.
Proof.
  revert b total. induction calls as [|[cost now] calls IH]; intros b total Hb Hi E; cbn [consume_all] in E.
  - injection E as <- <-. split; [done|]. lra.
  - destruct Hi as (Ht & Hc & Hi). destruct (consume b cost now) as [r b1] eqn:E1.
    destruct (consume_all b1 calls) as [total1 b2] eqn:E2. injection E as <- <-.
    destruct (bucket_consume_ok _ _ _ _ _ Hb Hc E1) as [Hb1 H1].
    destruct (consume_keeps_rate _ _ _ _ _ E1) as (_ & Er & Eu).
    rewrite <-Eu in Hi. destruct (IH b1 total1 Hb1 Hi E2) as [Hb2 H2]. split; [done|].
    rewrite Er, Eu in H2. rewrite (Q.max_r 0 (now - updated_at b)) in H1 by lra. lra.
Qed.

(** ** Waiting as told *)

Lemma retry_suffices b cost now n b1 later :
  bucket_ok b -> cost <= capacity b -> consume b cost now = (Some n, b1) -> now + inject_Z n <= later ->
  (consume b1 cost later).1 = None.
Proof.
  intros [[H0 H1] Hr] Hcap E Hl.
  destruct (consume_cases b cost now) as (a & Ha & [[Hle E']|(Hlt & m & E' & Hm & Hwait)]); rewrite E' in E; [done|].
  injection E as <- <-. destruct (consume_cases (MkTokenBucket (capacity b) (refill_per_second b) a now) cost later)
    as (a' & Ha' & [[Hle E2]|(Hlt' & n' & E2 & _)]); rewrite E2; [done|]. exfalso.
  cbn [capacity refill_per_second tokens updated_at] in Ha'. apply (Qlt_not_le _ _ Hlt'). rewrite Ha'. apply Q.min_glb; [done|].
  assert (Hn : 1 <= inject_Z m) by (change 1 with (inject_Z 1); by rewrite <-Zle_Qle).
  rewrite Q.max_r by lra.
  assert (Hk : cost - a <= inject_Z m * refill_per_second b).
  { apply (Qmult_le_compat_r _ _ (refill_per_second b)) in Hwait; [|lra].
    assert (Ef : (cost - a) / refill_per_second b * refill_per_second b == cost - a) by (field; lra).
    by rewrite Ef in Hwait. }
  assert (Hk2 : inject_Z m * refill_per_second b <= (later - now) * refill_per_second b) by (apply Qmult_le_compat_r; lra).
  lra.
Qed.

(** The budgets the configuration allows: every command fits into a full bucket. *)
Lemma command_cost_bounds command_type : (1 <= command_cost command_type <= 10)%Z.
Proof. unfold command_cost, COMMAND_COSTS. repeat case_decide; cbn; lia. Qed.

(** The commands of one socket, each at its instant: the work they admitted. *)
Fixpoint charge_all (b : WebSocketWorkBudget) (calls : list (string * Q)) : Z * WebSocketWorkBudget :=
  match calls with
  | [] => (0%Z, b)
  | (command_type, now) :: calls =>
      let '(r, b) := charge_command b command_type now in
      let '(total, b) := charge_all b calls in
      ((match r with None => command_cost command_type | Some _ => 0 end + total)%Z, b)
  end.

Definition costs (calls : list (string * Q)) : list (Q * Q) := (fun c => (inject_Z (command_cost c.1), c.2)) <$> calls.

Lemma charge_all_consumes b calls total b' :
  charge_all b calls = (total, b') -> exists q, consume_all (commands_ b) (costs calls) = (q, commands_ b') /\ q == inject_Z total.
Proof.
  revert b total. induction calls as [|[c now] calls IH]; intros b total E; cbn [charge_all] in E.
  - injection E as <- <-. by exists 0.
  - unfold charge_command in E. unfold costs. rewrite fmap_cons. cbn [consume_all fst snd]. fold (costs calls).
    destruct (consume (commands_ b) _ now) as [r b1]. destruct (charge_all _ calls) as [t2 b2] eqn:E2. injection E as <- <-.
    destruct (IH _ _ E2) as (q & Eq & Hq). cbn [commands_] in Eq. rewrite Eq. eexists. split; [reflexivity|].
    rewrite Hq. destruct r; by rewrite inject_Z_plus.
Qed.

(** The instants of a socket's commands, none before its budget was made. *)
Fixpoint in_order (t : Q) (calls : list (string * Q)) : Prop :=
  match calls with
  | [] => True
  | (_, now) :: calls => t <= now /\ in_order now calls
  end.

Lemma in_order_costs t calls : in_order t calls -> instants_from t (costs calls).
Proof.
  revert t. induction calls as [|[c now] calls IH]; intros t; [done|]. cbn. intros [Ht Hc]. split_and!; [done| |by apply IH].
  change 0 with (inject_Z 0). rewrite <-Zle_Qle. pose proof (command_cost_bounds c). lia.
Qed.

(** The ranges the settings are validated against. *)
Definition budget_settings_ok (cap : Z) (rate : Q) : Prop := (10 <= cap)%Z /\ 0 < rate.

Lemma new_bucket_ok cap rate now : (0 <= cap)%Z -> 0 < rate -> bucket_ok (new_bucket (inject_Z cap) rate now).
Proof.
  intros Hc Hr. unfold bucket_ok, new_bucket. cbn. split_and!; [|apply Qle_refl|done].
  change 0 with (inject_Z 0). by rewrite <-Zle_Qle.
Qed.

(** C40. Whatever a client sends, and whenever, the work its socket was admitted
    for by the instant of its last command is at most the capacity of the
    command bucket plus what flowed into it since the socket was opened. *)
Theorem admitted_work_is_bounded (cap hcap : Z) (rate hrate t0 : Q) calls total b' :
  budget_settings_ok cap rate -> in_order t0 calls ->
  charge_all (new_budget cap rate hcap hrate t0) calls = (total, b') ->
  inject_Z total <= inject_Z cap + (updated_at (commands_ b') - t0) * rate.
Proof.
  intros [Hc Hr] Ho E. destruct (charge_all_consumes _ _ _ _ E) as (q & Eq & Hq).
  destruct (consume_all_bound _ _ _ _ (new_bucket_ok cap rate t0 ltac:(lia) Hr) (in_order_costs _ _ Ho) Eq) as [[[H0 _] _] Hb].
  cbn [tokens updated_at refill_per_second new_bucket] in Hb. lra.
Qed.

Lemma admitted_work_is_bounded_witness : exists b',
  charge_all (new_budget 10 1 300 5 0) [("subscribe", 1); ("resume", 2); ("seen", 4); ("ping", 5)] = (14%Z, b')
  /\ inject_Z 14 <= inject_Z 10 + (updated_at (commands_ b') - 0) * 1.
Proof.
  eexists. split; [vm_compute; reflexivity|].
  refine (admitted_work_is_bounded 10 300 1 5 0 [("subscribe", 1); ("resume", 2); ("seen", 4); ("ping", 5)] 14 _ _ _ _).
  - split; [lia|reflexivity].
  - cbn. repeat split; unfold Qle; cbn; lia.
  - vm_compute. reflexivity.
Defined.

(** No command is refused for ever: a socket refused with [retry_after]
    seconds that stays silent that long is admitted, at any state its budget
    can be in. *)
Theorem waiting_as_told_is_enough (b : WebSocketWorkBudget) command_type now n b1 later :
  bucket_ok (commands_ b) -> 10 <= capacity (commands_ b) ->
  charge_command b command_type now = (Some n, b1) -> now + inject_Z n <= later ->
  (charge_command b1 command_type later).1 = None.
Proof.
  intros Hb Hc E Hl. unfold charge_command in *. destruct (consume (commands_ b) _ now) as [r c1] eqn:E1. injection E as -> <-.
  cbn [commands_].
  assert (Hcost : inject_Z (command_cost command_type) <= capacity (commands_ b)).
  { eapply Qle_trans; [|exact Hc]. change 10 with (inject_Z 10). rewrite <-Zle_Qle. by destruct (command_cost_bounds command_type). }
  pose proof (retry_suffices _ _ _ _ _ later Hb Hcost E1 Hl) as Hr. by destruct (consume c1 _ later).
Qed.

Lemma waiting_as_told_is_enough_witness : exists b1,
  charge_command (MkWorkBudget (MkTokenBucket 60 (1#2) 7 0) (new_bucket 300 5 0)) "subscribe" 1 = (Some 5%Z, b1)
  /\ (charge_command b1 "subscribe" 6).1 = None.
Proof.
  eexists. split; [vm_compute; reflexivity|].
  refine (waiting_as_told_is_enough (MkWorkBudget (MkTokenBucket 60 (1#2) 7 0) (new_bucket 300 5 0)) "subscribe" 1 5 _ 6 _ _ _ _).
  - repeat split; unfold Qle, Qlt; cbn; lia.
  - unfold Qle; cbn; lia.
  - vm_compute. reflexivity.
  - unfold Qle; cbn; lia.
Defined.
