(* ===== verification/WsTickets.v ===== *)
(** * WebSocket tickets (backend/app/services/ws_ticket_service.py)

    A ticket is a random value whose hash is the key of a Redis entry; the
    entry names the user, the session and two expiries.  Redis is outside the
    repository: its two commands are the class [TicketRedis], and
    [TicketRedisLaws] says what SET NX EX and GETDEL do to the live entries.  A
    command that fails may or may not have been executed, and an entry may
    expire at any time. *)

From S2P Require Import Prelude PyStr Json JsonLoads Models Session EventIntegrity Outbox.
From S2P Require Import Encryption Channels Messages MerkleAudit MerkleAuditProps Auth.
Local Open Scope Z_scope.

(** What a Redis client returns for a value, with or without
    [decode_responses]. *)
Inductive redis_value := RBytes (bs : list Z) | RStr (s : list Z).

(** [raw.decode("utf-8")] of bytes. *)
Definition redis_text (v : redis_value) : res pystr :=
  match v with
  | RStr s => mret s
  | RBytes bs => match utf8_decode bs with Some s => mret s | None => raise (ValueError "UnicodeDecodeError") end
  end.

Class TicketRedis `{World} := {
  redis_set_nx : list Z -> list Z -> Z -> ext -> res bool * ext;
  redis_getdel : list Z -> ext -> res (option redis_value) * ext;
  (** The entries that have not expired. *)
  live : ext -> gmap (list Z) (list Z)
}.

Class TicketRedisLaws `{TicketRedis} := {
  set_nx_stores : forall k v ttl x x', redis_set_nx k v ttl x = (inr true, x') ->
    live x !! k = None /\ live x' ⊆ <[k := v]> (live x);
  set_nx_refuses : forall k v ttl x x', redis_set_nx k v ttl x = (inr false, x') -> live x' ⊆ live x;
  set_nx_fails : forall k v ttl x e x', redis_set_nx k v ttl x = (inl e, x') -> live x' ⊆ <[k := v]> (live x);
  getdel_takes : forall k x v x', redis_getdel k x = (inr (Some v), x') ->
    exists text, live x !! k = Some text /\ redis_text v = inr text /\ live x' ⊆ delete k (live x);
  getdel_misses : forall k x x', redis_getdel k x = (inr None, x') -> live x !! k = None /\ live x' ⊆ live x;
  getdel_fails : forall k x e x', redis_getdel k x = (inl e, x') -> live x' ⊆ live x
}.

Record WebSocketTicket := { value : pystr; expires_at : instant }.
Record WebSocketTicketClaims := {
  claim_user_id : uuid; claim_session_id : uuid; claim_authentication_expires_at : instant
}.

Definition ticket_unavailable : exc := AppError 503 "WS_TICKET_UNAVAILABLE".
Definition ticket_invalid : exc := AppError 401 "WS_TICKET_INVALID".
Definition KEY_PREFIX : pystr := py "auth:ws-ticket:".

Definition _key (v : pystr) : res pystr := digest ← sha256_hex v; mret (KEY_PREFIX ++ digest).

(** [except RedisError as exc: raise AppError(...)]. *)
Definition unavailable_on_redis {A} (e : exc) : res A :=
  match e with RedisError _ => raise ticket_unavailable | _ => raise e end.

(** [payload[key]] of a decoded JSON value. *)
Definition getitem (v : pyval) (key : string) : res pyval :=
  match v with
  | PDict kvs => match assoc (py key) kvs with Some x => mret x | None => raise (KeyError key) end
  | _ => raise (TypeError "indices")
  end.

Section Tickets.
Context `{HW : World} `{HR : !TicketRedis} `{HC : Conversions} `{HF : Floats} (ws_ticket_ttl_seconds : Z).

Definition redis_call {A} (op : ext -> res A * ext) : M A := fun s =>
  let '(r, x) := op (outside s) in (r, s <| outside := x |>).

(** [_datetime]: a naive reading is taken as UTC. *)
Definition _datetime (v : pyval) : res instant :=
  match fromisoformat (py_str v) with
  | None => raise (ValueError "isoformat")
  | Some (offset, local) => _as_utc offset local
  end.

Definition ticket_payload (auth : AccessContext) (expires : instant) : pyval :=
  PDict [(py "user_id", PStr (uuid_str (User.id (ac_user auth)))); (py "session_id", PStr (uuid_str (ac_session_id auth)));
         (py "authentication_expires_at", PStr (isoformat (ac_authentication_expires_at auth)));
         (py "ticket_expires_at", PStr (isoformat expires))].

(** [for _ in range(n)]: the value of the first token that is stored. *)
Fixpoint store_ticket (n : nat) (payload : pystr) (ttl_seconds : Z) : M (option pystr) :=
  match n with
  | O => mret None
  | S n =>
      token ← token_urlsafe;
      key ← of_res (_key token);
      stored ← redis_call (redis_set_nx key payload ttl_seconds);
      if (stored : bool) then mret (Some token) else store_ticket n payload ttl_seconds
  end.

Definition issue (auth : AccessContext) : M WebSocketTicket :=
  now ← utcnow;
  let expires := Z.min (now + ws_ticket_ttl_seconds * 1000000) (ac_authentication_expires_at auth) in
  let remaining := expires - now in
  guard (0 <? remaining) (AppError 401 "AUTH_EXPIRED") ;;
  let payload := json_dumps_compact (ticket_payload auth expires) in
  let ttl_seconds := Z.max 1 ((remaining + 999999) / 1000000) in
  stored ← try_except (store_ticket 3 payload ttl_seconds) (fun e => of_res (unavailable_on_redis e));
  match stored with
  | Some token => mret {| value := token; expires_at := expires |}
  | None => throw ticket_unavailable
  end.

Definition read_claims (text : pystr) : res (WebSocketTicketClaims * instant) :=
  payload ← json_loads text;
  user ← getitem payload "user_id"; user_id ← uuid_of user;
  session ← getitem payload "session_id"; session_id ← uuid_of session;
  auth_raw ← getitem payload "authentication_expires_at"; auth_expires_at ← _datetime auth_raw;
  ticket_raw ← getitem payload "ticket_expires_at"; ticket_expires_at ← _datetime ticket_raw;
  mret ({| claim_user_id := user_id; claim_session_id := session_id; claim_authentication_expires_at := auth_expires_at |},
        ticket_expires_at).

(** [except (KeyError, TypeError, ValueError, json.JSONDecodeError)]. *)
Definition invalid_on_bad_payload {A} (r : res A) : res A :=
  match r with
  | inl (KeyError _ | TypeError _ | ValueError _) => raise ticket_invalid
  | _ => r
  end.

Definition take_raw (v : pystr) : M (option redis_value) :=
  try_except (key ← of_res (_key v); redis_call (redis_getdel key)) (fun e => of_res (unavailable_on_redis e)).

Definition consume (v : pystr) : M WebSocketTicketClaims :=
  guard (negb (bool_decide (v = [])) && (Z.of_nat (length v) <=? 256)) ticket_invalid ;;
  raw ← take_raw v;
  raw ← of_option ticket_invalid raw;
  text ← of_res (redis_text raw);
  '(claims, ticket_expires_at) ← of_res (invalid_on_bad_payload (read_claims text));
  now ← utcnow;
  guard (negb ((ticket_expires_at <=? now) || (claim_authentication_expires_at claims <=? now))) ticket_invalid ;;
  mret claims.

(** ** Interleaved use by every process of the backend

    Each operation touches Redis with single commands, so a history is a
    sequence of operations and of expirations. *)

Inductive ticket_step (s : Session) : Session -> Prop :=
| step_issue auth : ticket_step s (issue auth s).2
| step_consume v : ticket_step s (consume v s).2
| step_expire x : live x ⊆ live (outside s) -> ticket_step s (s <| outside := x |>).

(** No token drawn between two points of a history has this key. *)
Definition undrawn (k : pystr) (s s' : Session) : Prop :=
  forall i, (token_at s <= i < token_at s')%nat -> _key (fresh_token i) <> inr k.

(** The entry of a key only disappears. *)
Definition only_expires (k : pystr) (s s' : Session) : Prop :=
  (token_at s <= token_at s')%nat
  /\ (undrawn k s s' -> live (outside s') !! k = None \/ live (outside s') !! k = live (outside s) !! k).

Lemma undrawn_split k s1 s2 s3 : (token_at s1 <= token_at s2)%nat -> (token_at s2 <= token_at s3)%nat ->
  undrawn k s1 s3 -> undrawn k s1 s2 /\ undrawn k s2 s3.
Proof. intros H1 H2 Hu. split; intros i Hi; apply Hu; lia. Qed.

Global Instance only_expires_refl k : Reflexive (only_expires k).
Proof. intros s. split; [done|]. by right. Qed.
Global Instance only_expires_trans k : Transitive (only_expires k).
Proof.
  intros s1 s2 s3 [L1 H1] [L2 H2]. split; [lia|]. intros [U1 U2]%(undrawn_split k s1 s2 s3 L1 L2).
  destruct (H1 U1) as [E1|E1], (H2 U2) as [E2|E2]; rewrite ?E2, ?E1; auto.
Qed.

Lemma subseteq_at (m m' : gmap (list Z) (list Z)) k : m' ⊆ m -> m' !! k = None \/ m' !! k = m !! k.
Proof. intros Hs. destruct (m' !! k) as [v|] eqn:E; [right|by left]. symmetry. by eapply lookup_weaken. Qed.

Lemma shrinks_expires k s s' : token_at s' = token_at s -> live (outside s') ⊆ live (outside s) -> only_expires k s s'.
Proof. intros Et Hs. split; [lia|]. intros _. by apply subseteq_at. Qed.

Section Laws.
Context `{HL : !TicketRedisLaws}.

Lemma getdel_shrinks key x r x' : redis_getdel key x = (r, x') -> live x' ⊆ live x.
Proof.
  destruct r as [e|[v|]]; intros E; [by eapply getdel_fails| |by destruct (getdel_misses _ _ _ E)].
  destruct (getdel_takes _ _ _ _ E) as (text & _ & _ & Hs). etrans; [exact Hs|apply delete_subseteq].
Qed.

Lemma set_nx_grows key v ttl x r x' k : redis_set_nx key v ttl x = (r, x') -> key <> k ->
  live x' !! k = None \/ live x' !! k = live x !! k.
Proof.
  intros E Hk. destruct r as [e|[]].
  - destruct (subseteq_at _ _ k (set_nx_fails _ _ _ _ _ _ E)) as [?|E']; [by left|right]. by rewrite E', lookup_insert_ne.
  - destruct (set_nx_stores _ _ _ _ _ E) as [_ Hs].
    destruct (subseteq_at _ _ k Hs) as [?|E']; [by left|right]. by rewrite E', lookup_insert_ne.
  - apply subseteq_at. by eapply set_nx_refuses.
Qed.

Lemma expires_store k n payload ttl : preserves (only_expires k) (store_ticket n payload ttl).
Proof.
  induction n as [|n IH]; cbn [store_ticket]; [by intros s|]. intros s.
  set (s1 := s <| token_at ::= S |>).
  assert (Hd : only_expires k s s1) by (split; [cbn; lia|intros _; by right]).
  rewrite (bind_step token_urlsafe _ s (fresh_token (token_at s)) s1) by done.
  destruct (_key (fresh_token (token_at s))) as [e|key] eqn:Ek.
  { rewrite (bind_fail (of_res (inl e)) _ s1 e s1) by done. done. }
  rewrite (bind_step (of_res (inr key)) _ s1 key s1) by done.
  destruct (redis_set_nx key payload ttl (outside s1)) as [r x] eqn:E. set (s2 := s1 <| outside := x |>).
  assert (H2 : only_expires k s s2).
  { split; [cbn; lia|]. intros Hu. eapply (set_nx_grows key payload ttl (outside s)); [exact E|]. intros ->.
    apply (Hu (token_at s)); [cbn; lia|done]. }
  assert (Ec : redis_call (redis_set_nx key payload ttl) s1 = (r, s2)) by (unfold redis_call; by rewrite E).
  destruct r as [e|[]].
  - by rewrite (bind_fail _ _ _ _ _ Ec).
  - by rewrite (bind_step _ _ _ _ _ Ec).
  - rewrite (bind_step _ _ _ _ _ Ec). etrans; [exact H2|apply IH].
Qed.

Lemma expires_utcnow k : preserves (only_expires k) utcnow.
Proof. intros s. split; [done|]. by right. Qed.

Lemma expires_issue k auth : preserves (only_expires k) (issue auth).
Proof.
  unfold issue. apply pres_bind; [apply _|apply expires_utcnow|]. intros now.
  apply pres_bind; [apply _|apply pres_guard; apply _|]. intros _.
  apply pres_bind; [apply _| |intros [t|]; [apply pres_ret; apply _|apply pres_throw; apply _]].
  apply pres_try; [apply _|apply expires_store|intros e; apply pres_of_res; apply _].
Qed.

Lemma take_raw_run v s r s' : take_raw v s = (r, s') ->
  token_at s' = token_at s /\ clock_at s' = clock_at s /\ live (outside s') ⊆ live (outside s)
  /\ forall raw, r = inr (Some raw) -> exists k text, _key v = inr k /\ live (outside s) !! k = Some text
       /\ redis_text raw = inr text /\ live (outside s') !! k = None.
Proof.
  unfold take_raw, try_except, mbind, M_bind, of_res, redis_call. destruct (_key v) as [e|k].
  { intros [= <- <-]. split_and!; [done..|]. intros raw E. by destruct e. }
  destruct (redis_getdel k (outside s)) as [[e|o] x] eqn:E; intros [= <- <-]; cbn [token_at clock_at outside upd].
  - split_and!; [done|done|by eapply getdel_shrinks|]. intros raw Er. by destruct e.
  - split_and!; [done|done|by eapply getdel_shrinks|]. intros raw [= ->].
    destruct (getdel_takes _ _ _ _ E) as (text & Hl & Ht & Hs). exists k, text. split_and!; [done..|].
    destruct (live x !! k) as [w|] eqn:Ew; [|done]. by eapply lookup_weaken in Hs; [rewrite lookup_delete_eq in Hs|].
Qed.

Lemma expires_consume k v : preserves (only_expires k) (consume v).
Proof.
  unfold consume. apply pres_bind; [apply _|apply pres_guard; apply _|]. intros _. apply pres_bind; [apply _| |].
  { intros s. destruct (take_raw v s) as [r s'] eqn:E. destruct (take_raw_run _ _ _ _ E) as (? & _ & ? & _).
    by apply shrinks_expires. }
  intros raw. apply pres_bind; [apply _|apply pres_of_option; apply _|]. intros raw'.
  apply pres_bind; [apply _|apply pres_of_res; apply _|]. intros text.
  apply pres_bind; [apply _|apply pres_of_res; apply _|]. intros [claims t].
  apply pres_bind; [apply _|apply expires_utcnow|]. intros now.
  apply pres_bind; [apply _|apply pres_guard; apply _|]. intros _. apply pres_ret. apply _.
Qed.

Lemma history_expires k s s' : rtc ticket_step s s' -> only_expires k s s'.
Proof.
  induction 1 as [s|s s1 s' Hstep _ IH]; [done|]. etrans; [|exact IH]. destruct Hstep as [auth|v|x Hx].
  - apply expires_issue.
  - apply expires_consume.
  - by apply shrinks_expires.
Qed.

(** A successful draw stores its payload under the key it returns. *)
Lemma store_ticket_ok n payload ttl s token s' : store_ticket n payload ttl s = (inr (Some token), s') ->
  clock_at s' = clock_at s /\ exists k, _key token = inr k /\ (live (outside s') !! k = None \/ live (outside s') !! k = Some payload).
Proof.
  revert s. induction n as [|n IH]; intros s; cbn [store_ticket]; [done|]. intros E.
  apply bind_ok in E as (t & s1 & [= <- <-] & E). apply bind_ok in E as (k & s2 & E2 & E).
  unfold of_res in E2. injection E2 as Ek <-. apply bind_ok in E as (b & s3 & E3 & E). unfold redis_call in E3.
  destruct (redis_set_nx k payload ttl _) as [r x] eqn:Er. injection E3 as -> <-. destruct b.
  - injection E as <- <-. split; [done|]. exists k. split; [done|]. destruct (set_nx_stores _ _ _ _ _ Er) as [_ Hs].
    destruct (subseteq_at _ _ k Hs) as [?|E']; [by left|right]. cbn [outside upd]. by rewrite E', lookup_insert_eq.
  - apply IH in E. cbn in E. done.
Qed.

Lemma consume_ticket_ok v s claims s' : consume v s = (inr claims, s') ->
  exists k text te, _key v = inr k /\ live (outside s) !! k = Some text /\ live (outside s') !! k = None
    /\ read_claims text = inr (claims, te) /\ clock (clock_at s) < te
    /\ clock (clock_at s) < claim_authentication_expires_at claims.
Proof.
  unfold consume. intros E. apply bind_ok in E as ([] & s0 & E0 & E).
  unfold guard in E0. destruct (_ && _); [|done]. injection E0 as <-.
  apply bind_ok in E as (o & s1 & E1 & E). apply bind_ok in E as (raw & s2 & E2 & E).
  destruct o as [raw0|]; [|done]. injection E2 as -> <-.
  destruct (take_raw_run _ _ _ _ E1) as (_ & Ec & _ & Hr). destruct (Hr raw eq_refl) as (k & text & Hk & Hl & Ht & Hd).
  rewrite Ht in E. apply bind_ok in E as (t & s2 & [= <- <-] & E). apply bind_ok in E as ([c te] & s2 & E2 & E).
  unfold of_res in E2. injection E2 as Er <-. apply bind_ok in E as (now & s2 & [= <- <-] & E).
  apply bind_ok in E as ([] & s3 & E3 & E). injection E as -> <-.
  unfold guard in E3. destruct (negb _) eqn:Eg; [|done]. injection E3 as <-. apply negb_true_iff, orb_false_iff in Eg as [G1 G2].
  exists k, text, te. rewrite Ec in G1, G2. split_and!; [done..| |lia|lia].
  unfold invalid_on_bad_payload in Er. by destruct (read_claims text) as [[]|].
Qed.
End Laws.

(** ** What a ticket carries *)

Lemma isoformat_scalar t : instant_ok t -> scalar_str (isoformat t) = true.
Proof.
  intros Ht. unfold isoformat. pose proof (iso_us_scalar t Ht) as Hs.
  rewrite !scalar_str_app. rewrite scalar_str_take by done. cbn [andb scalar_str forallb is_scalar].
  apply andb_true_intro. split; [done|]. apply andb_true_intro. split; [|done].
  destruct (_ =? 0); [apply scalar_str_take|]; by apply scalar_str_drop.
Qed.

(** [datetime.fromisoformat] reads back what [isoformat] printed for an
    instant. *)
Definition reads_back_iso (t : instant) : Prop := datetime_ok t = true /\ fromisoformat (isoformat t) = Some (Some 0, t).

Lemma read_issued auth expires :
  uuid_ok (User.id (ac_user auth)) -> uuid_ok (ac_session_id auth) ->
  reads_back_iso (ac_authentication_expires_at auth) -> reads_back_iso expires ->
  read_claims (json_dumps_compact (ticket_payload auth expires))
  = inr ({| claim_user_id := User.id (ac_user auth); claim_session_id := ac_session_id auth;
            claim_authentication_expires_at := ac_authentication_expires_at auth |}, expires).
Proof.
  intros Hu Hs [Ha1 Ha2] [He1 He2]. unfold read_claims. rewrite loads_compact.
  2:{ unfold ticket_payload. cbn [loadable forallb fst snd]. apply datetime_instant in Ha1, He1.
      rewrite !uuid_str_scalar, !isoformat_scalar by done. apply andb_true_intro. split; [|done].
      apply bool_decide_eq_true. apply (bool_decide_unpack _). vm_compute. exact I. }
  cbn [mbind res_bind mret res_ret].
  change (getitem (ticket_payload auth expires) "user_id") with (@inr exc _ (PStr (uuid_str (User.id (ac_user auth))))).
  change (getitem (ticket_payload auth expires) "session_id") with (@inr exc _ (PStr (uuid_str (ac_session_id auth)))).
  change (getitem (ticket_payload auth expires) "authentication_expires_at")
    with (@inr exc _ (PStr (isoformat (ac_authentication_expires_at auth)))).
  change (getitem (ticket_payload auth expires) "ticket_expires_at") with (@inr exc _ (PStr (isoformat expires))).
  cbn [mbind res_bind mret res_ret]. unfold uuid_of, _datetime. cbn [py_str]. rewrite !uuid_text_str by done.
  cbn [mbind res_bind mret res_ret]. rewrite Ha2, He2. unfold _as_utc, _as_utc_datetime. rewrite ?Z.sub_0_r.
  rewrite Ha1. cbn [mbind res_bind mret res_ret]. by rewrite He1.
Qed.

(** The entry a successful [issue] leaves. *)
Lemma issue_ok `{!TicketRedisLaws} auth s t s' : issue auth s = (inr t, s') ->
  expires_at t = Z.min (clock (clock_at s) + ws_ticket_ttl_seconds * 1000000) (ac_authentication_expires_at auth)
  /\ exists k, _key (value t) = inr k /\ (live (outside s') !! k = None
       \/ live (outside s') !! k = Some (json_dumps_compact (ticket_payload auth (expires_at t)))).
Proof.
  unfold issue. intros E. apply bind_ok in E as (now & s1 & [= <- <-] & E). apply bind_ok in E as ([] & s2 & E2 & E).
  unfold guard in E2. destruct (0 <? _); [|done]. injection E2 as <-. apply bind_ok in E as (o & s3 & E3 & E).
  destruct o as [token|]; [|done]. injection E as <- <-. cbn [value expires_at]. split; [done|].
  unfold try_except in E3. destruct (store_ticket _ _ _ _) as [[e|o] s4] eqn:E4.
  { unfold of_res, unavailable_on_redis in E3. by destruct e. }
  injection E3 as -> <-. by destruct (store_ticket_ok _ _ _ _ _ _ E4) as [_ Hk].
Qed.

(** A live entry is handed over unless Redis fails. *)
Lemma consume_live `{!TicketRedisLaws} v k s text claims te :
  v <> [] -> Z.of_nat (length v) <= 256 -> _key v = inr k -> live (outside s) !! k = Some text ->
  is_ok (redis_getdel k (outside s)).1 = true -> read_claims text = inr (claims, te) ->
  clock (clock_at s) < te -> clock (clock_at s) < claim_authentication_expires_at claims ->
  (consume v s).1 = inr claims.
Proof.
  intros Hv Hlen Hk Hl Hok Hr Hte Hta. unfold consume.
  rewrite (bind_step (guard _ _) _ s tt s).
  2:{ unfold guard. rewrite bool_decide_eq_false_2 by done. by replace (_ <=? 256) with true by lia. }
  destruct (redis_getdel k (outside s)) as [[e|[raw|]] x] eqn:E; [done| |by destruct (getdel_misses _ _ _ E); congruence].
  destruct (getdel_takes _ _ _ _ E) as (text' & Hl' & Ht & _). assert (text' = text) as -> by congruence.
  set (s1 := s <| outside := x |>).
  rewrite (bind_step _ _ s (Some raw) s1).
  2:{ unfold take_raw, try_except, mbind, M_bind, of_res, redis_call. by rewrite Hk, E. }
  rewrite (bind_step _ _ s1 raw s1) by done. rewrite Ht, (bind_step _ _ s1 text s1) by done.
  rewrite Hr, (bind_step _ _ s1 (claims, te) s1) by done.
  rewrite (bind_step utcnow _ s1 (clock (clock_at s)) (s1 <| clock_at ::= S |>)) by done.
  rewrite (bind_step (guard _ _) _ _ tt (s1 <| clock_at ::= S |>)); [done|].
  unfold guard. replace (te <=? _) with false by lia. by replace (claim_authentication_expires_at claims <=? _) with false by lia.
Qed.
End Tickets.

(** C38. A ticket works once, for whom it was issued and in time, whatever the
    other processes of the backend do with Redis: presented while its entry is
    live it is accepted (unless Redis fails or it has expired); if it is
    accepted, the claims are exactly the user, the session and the
    authentication expiry it was issued for and neither expiry has passed; and
    once accepted it is refused for ever. *)
Theorem ticket_works_once `{World} `{!TicketRedis} `{!TicketRedisLaws} `{Conversions} `{Floats}
    (ttl : Z) (auth : AccessContext) (s s1 s2 : Session) (t : WebSocketTicket) (k : pystr) :
  uuid_ok (User.id (ac_user auth)) -> uuid_ok (ac_session_id auth) ->
  reads_back_iso (ac_authentication_expires_at auth) -> reads_back_iso (expires_at t) ->
  issue ttl auth s = (inr t, s1) -> _key (value t) = inr k ->
  rtc (ticket_step ttl) s1 s2 -> undrawn k s1 s2 ->
  let claims := {| claim_user_id := User.id (ac_user auth); claim_session_id := ac_session_id auth;
                   claim_authentication_expires_at := ac_authentication_expires_at auth |} in
  expires_at t = Z.min (clock (clock_at s) + ttl * 1000000) (ac_authentication_expires_at auth)
  /\ (value t <> [] -> Z.of_nat (length (value t)) <= 256 -> is_Some (live (outside s2) !! k) ->
      is_ok (redis_getdel k (outside s2)).1 = true -> clock (clock_at s2) < expires_at t ->
      (consume (value t) s2).1 = inr claims)
  /\ forall claims' s3, consume (value t) s2 = (inr claims', s3) ->
      claims' = claims /\ clock (clock_at s2) < expires_at t
      /\ forall s4, rtc (ticket_step ttl) s3 s4 -> undrawn k s3 s4 -> is_ok (consume (value t) s4).1 = false.
Proof.
  intros Hu Hs Ha He Hi Hk Hr Hq claims. destruct (issue_ok _ _ _ _ _ Hi) as (Ee & k' & Hk' & Hl1).
  assert (k' = k) as -> by congruence. pose proof (read_issued auth (expires_at t) Hu Hs Ha He) as Hread.
  assert (Hl2 : live (outside s2) !! k = None
    \/ live (outside s2) !! k = Some (json_dumps_compact (ticket_payload auth (expires_at t)))).
  { destruct (history_expires ttl k _ _ Hr) as [_ Hx]. destruct (Hx Hq) as [?| ->]; [by left|done]. }
  split; [done|]. split.
  - intros Hv Hlen [text Ht] Hok Hc. rewrite Ht in Hl2. destruct Hl2 as [?|Et]; [done|]. apply (inj Some) in Et as ->.
    eapply consume_live; [done..|exact Hread|done|cbn; lia].
  - intros claims' s3 Hc. destruct (consume_ticket_ok _ _ _ _ Hc) as (k3 & text & te & Hk3 & Ht & Hd & Hrd & Hte & _).
    assert (k3 = k) as -> by congruence. rewrite Ht in Hl2. destruct Hl2 as [?|Et]; [done|]. apply (inj Some) in Et as ->.
    rewrite Hread in Hrd. apply (inj inr) in Hrd. apply pair_equal_spec in Hrd as [<- <-]. split_and!; [done|done|]. intros s4 Hr4 Hq4.
    destruct (history_expires ttl k _ _ Hr4) as [_ Hx]. specialize (Hx Hq4). rewrite Hd in Hx.
    destruct (consume (value t) s4) as [[e|c] s5] eqn:E5; [done|].
    destruct (consume_ticket_ok _ _ _ _ E5) as (k5 & text5 & ? & Hk5 & Ht5 & _). assert (k5 = k) as -> by congruence.
    rewrite Ht5 in Hx. by destruct Hx.
Qed.

(** A Redis without expiry. *)
Definition ticket_world : World := {|
  clock := fun n => 1700000000000123 + Z.of_nat n * 1000;
  fresh_uuid := N.of_nat; fresh_token := fun n => py "ticket-" ++ str_of_Z (Z.of_nat n);
  db_fault := fun _ => None; ext := gmap (list Z) (list Z) |}.
Definition map_redis : @TicketRedis ticket_world := {|
  redis_set_nx := fun k v ttl (x : @ext ticket_world) =>
    match x !! k with Some _ => (inr false, x) | None => (inr true, <[k := v]> x) end;
  redis_getdel := fun k (x : @ext ticket_world) => (inr (RStr <$> (x !! k)), delete k x);
  live := fun x : @ext ticket_world => x |}.
Lemma map_redis_laws : @TicketRedisLaws ticket_world map_redis.
Proof.
  split; cbn; intros k.
  - intros v ttl x x'. by destruct (x !! k) eqn:E; intros [= <-].
  - intros v ttl x x'. by destruct (x !! k) eqn:E; intros [= <-].
  - intros v ttl x e x'. by destruct (x !! k) eqn:E; intros [=].
  - intros x v x'. destruct (x !! k) as [text|] eqn:E; [|done]. intros [= <- <-]. by exists text.
  - intros x x'. destruct (x !! k) as [text|] eqn:E; [done|]. intros [= <-]. split; [done|]. apply delete_subseteq.
  - done.
Qed.

Definition ticket_session : @Session ticket_world := @open_session ticket_world empty_store ∅.
Definition ticket_auth : AccessContext :=
  {| ac_user := demo_user 7 "alice"; ac_session_id := 9%N; ac_token_expires_at := 1700000900000123;
     ac_authentication_expires_at := 1700000900000123 |}.

Lemma ticket_works_once_witness :
  let run := @issue ticket_world map_redis 30 ticket_auth ticket_session in
  is_ok run.1 = true /\ exists t s1, run = (inr t, s1)
  /\ (@consume ticket_world map_redis toy_conversions plain_floats (value t) s1).1
     = inr {| claim_user_id := 7; claim_session_id := 9; claim_authentication_expires_at := 1700000900000123 |}
  /\ forall c s2, @consume ticket_world map_redis toy_conversions plain_floats (value t) s1 = (inr c, s2) ->
     is_ok (@consume ticket_world map_redis toy_conversions plain_floats (value t) s2).1 = false.
Proof.
  intros run. split; [vm_compute; reflexivity|].
  set (t := {| value := py "ticket-0"; expires_at := 1700000030000123 |}).
  destruct run as [r s1] eqn:E. assert (r = inr t) as ->.
  { assert (Er : r = run.1) by by rewrite E. rewrite Er. vm_compute. reflexivity. }
  destruct (_key (value t)) as [e|k] eqn:Ek; [exfalso; revert Ek; vm_compute; discriminate|].
  pose proof (@ticket_works_once ticket_world map_redis map_redis_laws toy_conversions plain_floats 30 ticket_auth ticket_session
    s1 s1 t k) as Hw.
  assert (Hs1 : @live ticket_world map_redis (outside s1) !! k = Some (json_dumps_compact (ticket_payload ticket_auth (expires_at t)))
    /\ clock_at s1 = 1%nat).
  { assert (Es : s1 = run.2) by by rewrite E. rewrite Es. clear -Ek. revert Ek. vm_compute. intros [= <-]. split; reflexivity. }
  destruct Hw as (_ & H1 & H2);
    [reflexivity|reflexivity|split; vm_compute; reflexivity|split; vm_compute; reflexivity|exact E|exact Ek|reflexivity
    |intros i Hi; lia|].
  exists t, s1. split; [reflexivity|]. split.
  - apply H1; [discriminate|vm_compute; discriminate|destruct Hs1 as [-> _]; by eexists|reflexivity|].
    destruct Hs1 as [_ ->]. vm_compute. reflexivity.
  - intros c s2 Ec. destruct (H2 c s2 Ec) as (_ & _ & H3). apply (H3 s2); [reflexivity|intros i Hi; lia].
Defined.
