(* ===== verification/AuthControl.v ===== *)
(** * Revocation events between processes (backend/app/realtime/auth_control.py)

    A revocation is published as JSON on one Redis channel; every process reads
    it back in [_auth_control_loop] (realtime/ws_manager.py), which ignores what
    it cannot read. *)

From S2P Require Import Prelude PyStr Json JsonLoads Models Session Outbox Encryption.
From S2P Require Import MerkleAudit MerkleAuditProps Auth WsTickets.
Local Open Scope Z_scope.

Definition auth_control_channel : pystr := py "rt.auth_control".

Record AuthControlEvent := MkControl { ev_user_id : uuid; ev_reason : pystr; ev_session_id : option uuid }.

Definition control_type : pystr := py "auth.session_revoked".

(** The dictionary that is published. *)
Definition control_dict (user sid reason : pyval) : pyval :=
  PDict [(py "type", PStr control_type); (py "user_id", user); (py "session_id", sid); (py "reason", reason)].

Definition to_json (e : AuthControlEvent) : pystr :=
  json_dumps_compact (control_dict (PStr (uuid_str (ev_user_id e)))
    (match ev_session_id e with Some u => PStr (uuid_str u) | None => PNone end) (PStr (ev_reason e))).

Definition for_session (r : SessionRevocation) : AuthControlEvent := MkControl (rv_user_id r) (py (rv_reason r)) (Some (rv_session_id r)).
Definition for_user (r : UserRevocation) : AuthControlEvent := MkControl (ur_user_id r) (py (ur_reason r)) None.

(** [str(v)] of a list or a dictionary is the interpreter's. *)
Class Reprs := { container_repr : pyval -> list Z }.
Definition str_of `{Reprs} (v : pyval) : pystr :=
  match v with PList _ | PTuple _ | PDict _ => container_repr v | _ => py_str v end.

(** [str(v or default)], where a missing key is [None]. *)
Definition str_or `{Reprs} (v : option pyval) (otherwise : pystr) : pystr :=
  match v with Some v => if truthy v then str_of v else otherwise | None => otherwise end.

(** [v == "..."]. *)
Definition is_str (v : option pyval) (s : pystr) : bool :=
  match v with Some (PStr t) => str_eqb t s | _ => false end.

Section Events.
Context `{HC : Conversions} `{HF : Floats} `{HR : Reprs}.

(** What follows [json.loads] in [from_json]. *)
Definition control_of (payload : pyval) : res AuthControlEvent :=
  match payload with
  | PDict kvs =>
      if is_str (assoc (py "type") kvs) control_type then
        user ← getitem payload "user_id"; user_id ← uuid_of user;
        session_id ← match assoc (py "session_id") kvs with
                     | Some v => if truthy v then u ← uuid_of v; mret (Some u) else mret None
                     | None => mret None
                     end;
        mret (MkControl user_id (take 123 (str_or (assoc (py "reason") kvs) (py "session revoked"))) session_id)
      else raise (ValueError "unsupported auth control event")
  | _ => raise (AttributeError "get")
  end.

Definition from_json (raw : redis_value) : res AuthControlEvent :=
  raw ← redis_text raw; payload ← json_loads raw; control_of payload.

(** One message of [_auth_control_loop]: the event to handle, nothing for a
    message that is ignored; an exception ends the loop's task. *)
Definition receive_control (raw : redis_value) : res (option AuthControlEvent) :=
  match from_json raw with
  | inr e => mret (Some e)
  | inl (KeyError _ | TypeError _ | ValueError _) => mret None
  | inl e => raise e
  end.

Lemma redis_text_error raw e : redis_text raw = inl e -> exists w, e = ValueError w.
Proof. destruct raw as [bs|s]; cbn; [|done]. destruct (utf8_decode bs); [done|]. intros [= <-]. eauto. Qed.

Lemma control_dict_loadable user sid reason :
  loadable user = true -> loadable sid = true -> loadable reason = true -> loadable (control_dict user sid reason) = true.
Proof.
  intros H1 H2 H3. cbn [loadable control_dict forallb fst snd]. rewrite H1, H2, H3. apply andb_true_intro. split; [|done].
  apply bool_decide_eq_true. apply (bool_decide_unpack _). vm_compute. exact I.
Qed.

Lemma from_json_loaded text v : json_loads text = inr v -> from_json (RStr text) = control_of v.
Proof. intros E. unfold from_json. cbn [redis_text mbind res_bind mret res_ret]. by rewrite E. Qed.

Lemma control_of_dict user sid reason :
  control_of (control_dict user sid reason)
  = (user_id ← uuid_of user;
     session_id ← (if truthy sid then u ← uuid_of sid; mret (Some u) else mret None);
     mret (MkControl user_id (take 123 (str_or (Some reason) (py "session revoked"))) session_id)).
Proof.
  unfold control_of, control_dict. set (kvs := [_; _; _; _]).
  assert (E1 : is_str (assoc (py "type") kvs) control_type = true) by (vm_compute; reflexivity).
  assert (E2 : assoc (py "user_id") kvs = Some user) by reflexivity.
  assert (E3 : assoc (py "session_id") kvs = Some sid) by reflexivity.
  assert (E4 : assoc (py "reason") kvs = Some reason) by reflexivity.
  unfold getitem. by rewrite E1, E2, E3, E4.
Qed.

(** An event published by one process is read by every other as the same
    event. *)
Lemma control_roundtrip e :
  uuid_ok (ev_user_id e) -> (forall u, ev_session_id e = Some u -> uuid_ok u) ->
  ev_reason e <> [] -> (length (ev_reason e) <= 123)%nat -> scalar_str (ev_reason e) = true ->
  from_json (RStr (to_json e)) = inr e.
Proof.
  intros Hu Hs Hr Hlen Hsc. destruct e as [u r s]. cbn [ev_user_id ev_reason ev_session_id] in *.
  set (sid := match s with Some u => PStr (uuid_str u) | None => PNone end).
  assert (Hl : loadable (control_dict (PStr (uuid_str u)) sid (PStr r)) = true).
  { apply control_dict_loadable; [apply uuid_str_scalar|unfold sid; destruct s; [apply uuid_str_scalar|done]|done]. }
  unfold to_json. cbn [ev_user_id ev_reason ev_session_id]. fold sid.
  rewrite (from_json_loaded _ _ (loads_compact _ Hl)), control_of_dict.
  rewrite uuid_of_str_ok by done. cbn [mbind res_bind].
  assert (Es : (if truthy sid then u ← uuid_of sid; mret (Some u) else mret None) = @inr exc _ s).
  { unfold sid. destruct s as [w|]; [|done]. rewrite uuid_of_str_ok by auto.
    pose proof (uuid_str_nonempty w) as Hn. by destruct (uuid_str w). }
  rewrite Es. cbn [mbind res_bind mret res_ret]. unfold str_or. cbn [str_of py_str].
  destruct r as [|c r]; [done|]. cbn [truthy]. by rewrite take_ge.
Qed.

(** ** The failures of the scanner *)

Definition value_error {A} (r : res A) : Prop := match r with inl (ValueError _) | inr _ => True | _ => False end.

Lemma value_error_bind {A B} (r : res A) (f : A -> res B) : value_error r -> (forall a, value_error (f a)) -> value_error (r ≫= f).
Proof. destruct r as [e|a]; cbn; auto. Qed.

Lemma scan_number_fails s : value_error (scan_number s).
Proof.
  unfold scan_number. destruct (match s with [] => _ | _ => _ end) as [sign s1].
  destruct (scan_digits s1) as [[ds s2]|]; [|done]. destruct (scan_fraction s2) as [frac s3]. destruct (scan_exponent s3) as [expo s4].
  destruct (frac ++ expo); [|done]. apply value_error_bind; [|done]. unfold int_of_digits. by destruct (_ <? _)%nat.
Qed.

Lemma scan_items_fails {A} (item : pystr -> res (A * list Z)) close fuel s :
  (forall s, value_error (item s)) -> value_error (scan_items item close fuel s).
Proof.
  intros Hi. revert s. induction fuel as [|fuel IH]; intros s; [done|]. cbn [scan_items]. apply value_error_bind; [done|].
  intros [x s1]. destruct (skip_ws s1) as [|c s2]; [done|]. destruct (c =? close); [done|]. destruct (c =? 44); [|done].
  apply value_error_bind; [done|]. by intros [xs s3].
Qed.

Lemma scan_member_fails item s : (forall s, value_error (item s)) -> value_error (scan_member item s).
Proof.
  intros Hi. unfold scan_member. destruct (negb _); [done|]. destruct (scan_string _) as [[key s1]|]; [|done].
  destruct (negb _); [done|]. apply value_error_bind; [done|]. by intros [v s3].
Qed.

Lemma scan_word_fails s : value_error (scan_word s).
Proof.
  unfold scan_word. do 6 (destruct (after _ s); [done|]). apply scan_number_fails.
Qed.

Lemma scan_once_fails fuel s : value_error (scan_once fuel s).
Proof.
  revert s. induction fuel as [|fuel IH]; intros s; [done|]. cbn [scan_once]. destruct s as [|c s1]; [done|].
  destruct (c =? 34); [by destruct (scan_string s1) as [[t r]|]|]. destruct (c =? 91).
  - cbv zeta. destruct (closes _ _); [done|]. apply value_error_bind; [by apply scan_items_fails|]. by intros [xs r].
  - destruct (c =? 123); [|apply scan_word_fails]. cbv zeta. destruct (closes _ _); [done|].
    apply value_error_bind; [apply scan_items_fails; intros s; by apply scan_member_fails|]. by intros [xs r].
Qed.

Lemma json_loads_fails s : value_error (json_loads s).
Proof.
  unfold json_loads. apply value_error_bind; [apply scan_once_fails|]. intros [v r]. by destruct (skip_ws r).
Qed.

(** What [from_json] may raise that the loop catches. *)
Definition caught (e : exc) : bool := match e with KeyError _ | TypeError _ | ValueError _ => true | _ => false end.

Lemma receive_control_run raw :
  receive_control raw = match from_json raw with inr e => inr (Some e) | inl e => if caught e then inr None else inl e end.
Proof. unfold receive_control. by destruct (from_json raw) as [[]|]. Qed.

Lemma control_of_object kvs e : control_of (PDict kvs) = inl e -> caught e = true.
Proof.
  unfold control_of, getitem, uuid_of. destruct (is_str _ _); [|by intros [= <-]].
  destruct (assoc (py "user_id") kvs) as [u|]; [|by intros [= <-]]. cbn [mbind res_bind mret res_ret].
  destruct (uuid_text (py_str u)); [|by intros [= <-]]. cbn [mbind res_bind mret res_ret].
  destruct (assoc (py "session_id") kvs) as [v|]; [|done]. destruct (truthy v); [|done].
  destruct (uuid_text (py_str v)); [done|by intros [= <-]].
Qed.
End Events.


Definition no_reprs : Reprs := {| container_repr _ := [] |}.


(** The subscriber of revocations ignores every message it cannot read,
    except one kind: a message that is JSON but not an object raises
    [AttributeError], which the loop does not catch, and ends the
    subscriber's task. *)
Theorem subscriber_dies_on_non_objects `{Conversions} `{Floats} `{Reprs} (raw : redis_value) (e : exc) :
  receive_control raw = inl e <->
  e = AttributeError "get" /\ exists text v, redis_text raw = inr text /\ json_loads text = inr v /\ forall kvs, v <> PDict kvs.
Proof.
  rewrite receive_control_run. unfold from_json. destruct (redis_text raw) as [e1|text] eqn:Et; cbn [mbind res_bind].
  { apply redis_text_error in Et as [w ->]. split; [done|]. by intros (_ & t & v & [=] & _). }
  pose proof (json_loads_fails text) as Hf. destruct (json_loads text) as [e1|v] eqn:Ev; cbn [mbind res_bind].
  { split; [|intros (_ & t & v & [= <-] & E & _); congruence]. cbn in Hf. by destruct e1. }
  destruct v as [|b|n|r|s|u|o t|s|l|l|kvs];
    try (cbn; split; [intros [= <-]; split; [done|]; by eexists text, _|by intros [-> _]]).
  split; [|intros (_ & t & v & [= <-] & E & Hn); rewrite Ev in E; injection E as <-; by destruct (Hn kvs)].
  destruct (control_of (PDict kvs)) as [e1|ev] eqn:Ec; [|done]. apply control_of_object in Ec. by rewrite Ec.
Qed.
