(* ===== verification/WsManager.v ===== *)
(** * Realtime connections (backend/app/realtime/ws_manager.py, protocol.py)

    The methods of [WSManager] as tasks over the state of one process: the
    manager's dictionaries, the frames written to the sockets, and the database
    it reads.  A segment of a task is what runs between two awaits; every query
    is a segment of its own.  [_subscription_generations] and
    [_subscription_checked_at] hold dictionaries that a task keeps across an
    await while another task may replace them, so they are references into a
    heap.

    Parameters: pydantic's validation of a client's payload ([Protocol]), the
    texts of exceptions, presence in Redis (its calls never raise), the
    encryption primitives. *)

From S2P Require Import Prelude PyStr Json JsonLoads Models Session Identifiers Rbac Outbox.
From S2P Require Import Encryption Channels Messages MerkleAudit Auth WsTickets AuthControl WorkBudget Tasks.
From Stdlib Require Import QArith.
Local Open Scope Z_scope.

(** ** Protocol *)

Record WSEnvelope := { env_type : pystr; env_request_id : option uuid; env_payload : pyval }.
Record WSSubscribePayload := { sub_channel_ids : list N; sub_from_seq_id : option Z }.
Record WSUnsubscribePayload := { unsub_channel_ids : list N }.
Record WSResumeCursor := { cur_channel_id : N; cur_last_seen_seq_id : option Z }.
(** [since] is a datetime: its offset and its local reading. *)
Record WSResumePayload := { res_channels : list WSResumeCursor; res_since : option (option Z * Z); res_limit : Z }.
Record WSSyncState := { st_channel_id : N; st_last_seen_seq_id : option Z; st_last_seen_at : option (option Z * Z) }.
Record WSSyncPayload := { sync_states : list WSSyncState }.
Record WSSeenPayload := { seen_channel_id : N; seen_last_seen_seq_id : option Z; seen_last_seen_at : option Z }.

(** [model_validate] and [model_dump]; the texts of errors. *)
Class Protocol := {
  parse_client_envelope : pyval -> exc + WSEnvelope;
  validate_subscribe : pyval -> exc + WSSubscribePayload;
  validate_unsubscribe : pyval -> exc + WSUnsubscribePayload;
  validate_resume : pyval -> exc + WSResumePayload;
  validate_sync : pyval -> exc + WSSyncPayload;
  validate_seen : pyval -> exc + WSSeenPayload;
  dump_sync_state : WSSyncState -> pyval;
  str_exc : exc -> list Z;
  app_error_message : exc -> list Z;
  app_error_details : exc -> pyval
}.

Definition iso_datetime (d : option Z * Z) : pystr :=
  let s := str_of_datetime d.1 d.2 in take 10 s ++ [84] ++ drop 11 s.

(** ** State *)

(** A dictionary object: the socket it was made for and a serial number. *)
Abbreviation ref := (N * N)%type (only parsing).

Record Manager := MkManager {
  _subscriptions : gmap N (gset (list Z));
  _subscription_generations : gmap N ref;
  _subscription_checked_at : gmap N ref;
  generation_dicts : gmap ref (gmap (list Z) Z);
  checked_dicts : gmap ref (gmap (list Z) Q);
  next_serial : N;
  _connections : gmap N (list N);
  _session_connections : gmap N (list N);
  _socket_sessions : gmap N N;
  _socket_users : gmap N (N * list Z);
  _presence_connection_ids : gmap N (list Z);
  _closing_sockets : gset N;
  _socket_work_budgets : gmap N WebSocketWorkBudget;
  _last_subscribe_history_requests : gmap N (list (list Z) * option Z)
}.
Global Instance eta_Manager : Eta Manager := fun m =>
  MkManager (_subscriptions m) (_subscription_generations m) (_subscription_checked_at m) (generation_dicts m)
    (checked_dicts m) (next_serial m) (_connections m) (_session_connections m) (_socket_sessions m) (_socket_users m)
    (_presence_connection_ids m) (_closing_sockets m) (_socket_work_budgets m) (_last_subscribe_history_requests m).

Definition new_manager : Manager := MkManager ∅ ∅ ∅ ∅ ∅ 0 ∅ ∅ ∅ ∅ ∅ ∅ ∅ ∅.

(** What a frame answers: a command of the client, a request for history, or
    an event from Redis. *)
Inductive Origin := Reply | History | Forwarded (event : list (list Z * pyval)).
Record Frame := { frame_to : N; frame_origin : Origin; frame_body : pyval }.

Inductive PresenceOp := PresenceRegister | PresenceRefresh | PresenceDisconnect.

Class WsSettings := {
  max_websocket_connections_per_user : Z;
  ws_history_batch_limit : Z;
  ws_max_inbound_message_bytes : Z;
  ws_command_budget_capacity : Z;
  ws_command_budget_refill_per_second : Q;
  ws_history_budget_capacity : Z;
  ws_history_budget_refill_per_second : Q;
  ws_membership_auth_cache_ttl_seconds : Q
}.

Section Process.
Context `{HW : World}.

Record Process := MkProcess {
  manager : Manager;
  session : Session;
  (** [time.monotonic()]. *)
  monotonic : Q;
  open_sockets : gset N;
  wire : list Frame;
  (** The database states that have been committed so far; nothing reads
      them. *)
  past : list Store
}.
Global Instance eta_Process : Eta Process := fun p =>
  MkProcess (manager p) (session p) (monotonic p) (open_sockets p) (wire p) (past p).
End Process.

(** [d.setdefault(k, {})[x] = x] of a dictionary of dictionaries, and its
    inverse, which drops an entry that becomes empty. *)
Definition add_socket (d : gmap N (list N)) (k x : N) : gmap N (list N) :=
  let l := default [] (d !! k) in
  if decide (x ∈ l) then d else <[k := l ++ [x]]> d.
Definition drop_from (l : list N) (x : N) : list N := filter (fun y => y <> x) l.
Definition remove_socket (d : gmap N (list N)) (k x : N) : gmap N (list N) :=
  match drop_from (default [] (d !! k)) x with
  | [] => delete k d
  | l => <[k := l]> d
  end.
Definition remove_everywhere (d : gmap N (list N)) (x : N) : gmap N (list N) :=
  omap (fun l => match drop_from l x with [] => None | l => Some l end) d.

Section Manager.
Context `{HW : World} `{HU : UnicodeData} `{HB : BackendSettings} `{HCr : Crypto} `{HE : EncryptionSettings} `{HO : Orm}.
Context `{HC : Conversions} `{HF : Floats} `{HR : Reprs} `{HP : Protocol} `{HS : WsSettings}.
(** What a presence call does to Redis. *)
Context (presence : PresenceOp -> N -> list Z -> list Z -> ext -> ext).
(** PUBLISH. *)
Context (publish : list Z -> list Z -> ext -> res unit * ext).

Abbreviation T := (task Process).

Definition manage (f : Manager -> Manager) : T unit := writing (fun p => p <| manager ::= f |>).
Definition managed {A} (f : Manager -> A) : T A := reading (fun p => f (manager p)).

(** [async with self._session_factory() as db]: a transaction on what is
    committed; leaving the block drops what was not. *)
Definition in_db {A} (m : M A) : T A := atomic_ (fun p =>
  let '(r, s) := m (session p <| work := durable (session p) |>) in
  (r, p <| session := s <| work := durable s |> |> <| past ::= fun l => l ++ [durable s] |>)).

Definition call_presence (op : PresenceOp) (user_id : N) (username connection_id : pystr) : T unit :=
  writing (fun p => p <| session ::= fun s => s <| outside ::= presence op user_id username connection_id |> |>).

(** ** Frames *)

Definition build_envelope (msg_type : pystr) (payload : pyval) (request_id : option uuid) : M pyval :=
  now ← utcnow;
  mret (PDict [(py "type", PStr msg_type); (py "request_id", opt_id request_id); (py "payload", payload);
               (py "ts", PStr (isoformat now))]).

Definition build_error (message code : pystr) (request_id : option uuid) (details : pyval) : M pyval :=
  build_envelope (py "error") (PDict [(py "code", PStr code); (py "message", PStr message); (py "details", details)]) request_id.

(** [await websocket.send_json(...)]: a closed socket raises. *)
Definition send_json (k : N) (origin : Origin) (body : M pyval) : T unit := atomic_ (fun p =>
  let '(r, s) := body (session p) in
  let p := p <| session := s |> in
  match r with
  | inl e => (inl e, p)
  | inr body =>
      if decide (k ∈ open_sockets p)
      then (inr tt, p <| wire ::= fun l => l ++ [{| frame_to := k; frame_origin := origin; frame_body := body |}] |>)
      else (inl (RuntimeError "websocket closed"), p)
  end).

Definition accept (k : N) : T unit := writing (fun p => p <| open_sockets ::= fun o => {[k]} ∪ o |>).
Definition close (k : N) : T unit := atomic_ (fun p =>
  if decide (k ∈ open_sockets p) then (inr tt, p <| open_sockets ::= fun o => o ∖ {[k]} |>)
  else (inl (RuntimeError "websocket closed"), p)).

(** The "sync" envelope around some messages. *)
Definition sync_envelope (since : option pyval) (items : list pyval) (request_id : option uuid) : M pyval :=
  now ← utcnow;
  build_envelope (py "sync")
    (PDict ([(py "server_time", PStr (isoformat now))] ++ (match since with Some v => [(py "since", v)] | None => [] end)
            ++ [(py "channel_updates", PList []); (py "membership_updates", PList []); (py "messages", PList items)]))
    request_id.

(** ** Budgets *)

Definition new_socket_budget (now : Q) : WebSocketWorkBudget :=
  new_budget ws_command_budget_capacity ws_command_budget_refill_per_second
    ws_history_budget_capacity ws_history_budget_refill_per_second now.
Definition _initialize_socket_controls (k : N) (now : Q) (m : Manager) : Manager :=
  m <| _socket_work_budgets ::= <[k := new_socket_budget now]> |>.
Definition _cleanup_socket_controls (k : N) (m : Manager) : Manager :=
  m <| _socket_work_budgets ::= delete k |> <| _last_subscribe_history_requests ::= delete k |>.

(** [_socket_controls] and one use of the budget it returns. *)
Definition use_budget (k : N) (use : WebSocketWorkBudget -> Q -> option Z * WebSocketWorkBudget) : T (option Z) :=
  atomic_ (fun p =>
    let budget := default (new_socket_budget (monotonic p)) (_socket_work_budgets (manager p) !! k) in
    let '(r, budget) := use budget (monotonic p) in
    (inr r, p <| manager ::= fun m => m <| _socket_work_budgets ::= <[k := budget]> |> |>)).

Definition _send_budget_error (k : N) (request_id : option uuid) (budget : string) (retry_after_seconds : Z) : T unit :=
  send_json k Reply (build_error (py "WebSocket work budget exceeded") (py "RATE_LIMITED") request_id
    (PDict [(py "budget", PStr (py budget)); (py "retry_after_seconds", PInt retry_after_seconds)])).

Definition _reserve_history_work (k : N) (request_id : option uuid) (maximum_rows : Z) : T bool :=
  retry_after ← use_budget k (fun b now => reserve_history_rows b maximum_rows now);
  match retry_after with
  | None => mret true
  | Some n => _send_budget_error k request_id "history_rows" n ;; mret false
  end.

(** ** Membership *)

(** The rows of the join of memberships and live channels for a user, with an
    approved role: channel and generation. *)
Definition approved_rows (user_id : N) (st : Store) : list (N * Z) :=
  omap (fun kv : (N * N) * ChannelMembership.t =>
          if bool_decide (kv.1.2 = user_id) && approved (ChannelMembership.role kv.2) then
            c ← channels st !! kv.1.1;
            match Channel.deleted_at c with None => Some (kv.1.1, Channel.membership_generation c) | Some _ => None end
          else None) (map_to_list (channel_memberships st)).

Definition channel_states (rows : list (N * Z)) : gmap (list Z) Z :=
  list_to_map ((fun r => (uuid_str r.1, r.2)) <$> rows).

Definition _member_channel_states (user_id : N) : T (gmap (list Z) Z) :=
  rows ← in_db (gets (approved_rows user_id)); mret (channel_states rows).

Definition _member_channel_ids (user_id : N) : T (gset (list Z)) :=
  states ← _member_channel_states user_id; mret (dom states).

(** The same join for one channel. *)
Definition approved_generation (user_id channel_id : N) (st : Store) : option Z :=
  m ← channel_memberships st !! (channel_id, user_id);
  if approved (ChannelMembership.role m) then
    c ← channels st !! channel_id;
    match Channel.deleted_at c with None => Some (Channel.membership_generation c) | Some _ => None end
  else None.

Definition _ensure_user_bindings (user_id : N) : T unit :=
  _ ← in_db (n ← enqueue_user_broker_binding_reconciliation user_id; commit ;; mret n); mret tt.

(** ** Subscriptions *)

(** [self._subscriptions[k] = set(states)] with fresh dictionaries of
    generations and of the time of the check. *)
Definition subscribe_to (k : N) (states : gmap (list Z) Z) (now : Q) (m : Manager) : Manager :=
  let r := (k, next_serial m) in
  m <| _subscriptions ::= <[k := dom states]> |>
    <| _subscription_generations ::= <[k := r]> |> <| _subscription_checked_at ::= <[k := r]> |>
    <| generation_dicts ::= <[r := states]> |> <| checked_dicts ::= <[r := (fun _ => now) <$> states]> |>
    <| next_serial ::= N.succ |>.

(** [subs.discard(channel_id)] of the set of a socket, if it has one. *)
Definition discard_subscription (k : N) (channel_id : pystr) (m : Manager) : Manager :=
  m <| _subscriptions ::= alter (fun s => s ∖ {[channel_id]}) k |>.
(** [dict.pop(channel_id, None)] through references. *)
Definition forget_in (g c : ref) (channel_id : pystr) (m : Manager) : Manager :=
  m <| generation_dicts ::= alter (delete channel_id) g |> <| checked_dicts ::= alter (delete channel_id) c |>.
(** The same on the dictionaries of a socket, if it has some. *)
Definition forget_channel (k : N) (channel_id : pystr) (m : Manager) : Manager :=
  let m := match _subscription_generations m !! k with
           | Some g => m <| generation_dicts ::= alter (delete channel_id) g |> | None => m end in
  match _subscription_checked_at m !! k with
  | Some c => m <| checked_dicts ::= alter (delete channel_id) c |> | None => m end.

(** ** Connections *)

Definition quota_exceeded : exc := AppError 429 "WEBSOCKET_QUOTA_EXCEEDED".

(** The locked prefix of [connect]: the quota is checked and the slot reserved
    without an await. *)
Definition reserve_slot (k user_id : N) (username : pystr) : T (list Z) := atomic_ (fun p =>
  let m := manager p in
  if max_websocket_connections_per_user <=? Z.of_nat (length (default [] (_connections m !! user_id)))
  then (inl quota_exceeded, p)
  else
    let '(r, s) := token_urlsafe (session p) in
    match r with
    | inl e => (inl e, p <| session := s |>)
    | inr connection_id =>
        let m := m <| _connections ::= fun d => add_socket d user_id k |> in
        let m := _initialize_socket_controls k (monotonic p) m in
        let m := m <| _presence_connection_ids ::= <[k := connection_id]> |> <| _socket_users ::= <[k := (user_id, username)]> |> in
        (inr connection_id, p <| session := s |> <| manager := m |>)
    end).

Definition connect (k user_id : N) (username : pystr) (session_id : N) (pre_accepted : bool) : T unit :=
  connection_id ← reserve_slot k user_id username;
  task_try
    ((if pre_accepted then mret tt else accept k) ;;
     call_presence PresenceRegister user_id username connection_id ;;
     _ensure_user_bindings user_id ;;
     channel_states ← _member_channel_states user_id;
     writing (fun p => p <| manager ::= subscribe_to k channel_states (monotonic p) |>))
    (fun e =>
       manage (fun m => m <| _connections ::= fun d => remove_socket d user_id k |>) ;;
       call_presence PresenceDisconnect user_id username connection_id ;;
       manage (fun m => _cleanup_socket_controls k
         (m <| _presence_connection_ids ::= delete k |> <| _socket_users ::= delete k |>)) ;;
       task_raise e) ;;
  manage (fun m => m <| _session_connections ::= fun d => add_socket d session_id k |>
                     <| _socket_sessions ::= <[k := session_id]> |>).

Definition forget_session (k : N) (m : Manager) : Manager :=
  match _socket_sessions m !! k with
  | Some session_id => m <| _socket_sessions ::= delete k |> <| _session_connections ::= fun d => remove_socket d session_id k |>
  | None => m
  end.

(** What [disconnect] removes before its last await. *)
Definition drop_socket (k : N) (m : Manager) : Manager :=
  let m := m <| _subscriptions ::= delete k |> <| _subscription_generations ::= delete k |>
             <| _subscription_checked_at ::= delete k |> in
  let m := _cleanup_socket_controls k m in
  let m := m <| _closing_sockets ::= fun c => c ∖ {[k]} |> <| _connections ::= fun d => remove_everywhere d k |> in
  let m := forget_session k m in
  m <| _socket_users ::= delete k |> <| _presence_connection_ids ::= delete k |>.

Definition disconnect (k : N) : T unit :=
  identity ← atomic_ (fun p =>
    (inr (match _socket_users (manager p) !! k, _presence_connection_ids (manager p) !! k with
          | Some user, Some c => Some (user, c)
          | _, _ => None
          end), p <| manager ::= drop_socket k |>));
  match identity with
  | Some ((user_id, username), connection_id) => call_presence PresenceDisconnect user_id username connection_id
  | None => mret tt
  end.

(** Whether a socket is already being closed; it is from now on. *)
Definition mark_closing (k : N) : T bool := atomic_ (fun p =>
  (inr (bool_decide (k ∈ _closing_sockets (manager p))),
   p <| manager ::= fun m => m <| _closing_sockets ::= fun c => {[k]} ∪ c |> |>)).

(** Closing some sockets; one that is being closed is skipped, one that fails to
    close is logged.  The number that was closed. *)
Fixpoint close_each (l : list N) : T Z :=
  match l with
  | [] => mret 0
  | k :: l =>
      closing ← mark_closing k;
      if (closing : bool) then close_each l
      else
        n ← task_try (close k ;; mret 1) (fun _ => mret 0);
        rest ← close_each l;
        mret (n + rest)
  end.

Definition disconnect_user (user_id : N) : T Z :=
  sockets ← managed (fun m => default [] (_connections m !! user_id)); close_each sockets.
Definition disconnect_session (session_id : N) : T Z :=
  sockets ← managed (fun m => default [] (_session_connections m !! session_id)); close_each sockets.

Definition handle_auth_control_event (e : AuthControlEvent) : T Z :=
  match ev_session_id e with
  | Some session_id => disconnect_session session_id
  | None => disconnect_user (ev_user_id e)
  end.

(** A revocation is handled here at once and published for the other
    processes; a Redis failure is not an error. *)
Definition dispatch_auth_control (e : AuthControlEvent) : T bool :=
  _ ← handle_auth_control_event e;
  task_try
    (atomic_ (fun p => let '(r, x) := publish auth_control_channel (to_json e) (outside (session p)) in
                       (r, p <| session ::= fun s => s <| outside := x |> |>)) ;; mret true)
    (fun err => match err with RedisError _ => mret false | _ => task_raise err end).

(** [_auth_control_loop] on the messages it receives. *)
Fixpoint _auth_control_loop (received : list redis_value) : T unit :=
  match received with
  | [] => mret tt
  | raw :: received =>
      event ← (match receive_control raw with inl e => task_raise e | inr v => mret v end : T _);
      (match event with Some e => _ ← handle_auth_control_event e; mret tt | None => mret tt end) ;;
      _auth_control_loop received
  end.

(** ** History *)

Definition lift {A} (r : res A) : T A := Done r.

Definition payload_of (m : Message.t) (sender : option User.t) (content_text : option (list Z)) (content_json : pyval) : pyval :=
  PDict [(py "id", str_id (Message.id m)); (py "channel_id", str_id (Message.channel_id m));
    (py "sender_user_id", str_id (Message.sender_user_id m));
    (py "sender_username", opt_str (User.username <$> sender)); (py "sender_display_name", opt_str (sender ≫= User.display_name));
    (py "sender_avatar_url", opt_str (sender ≫= User.avatar_url)); (py "seq_id", PInt (Message.seq_id m));
    (py "content_type", PStr (content_type_value (Message.content_type m))); (py "content_text", opt_str content_text);
    (py "content_json", content_json); (py "reply_to_message_id", opt_id (Message.reply_to_message_id m));
    (py "reply_to_seq_id", opt_int (Message.reply_to_seq_id m));
    (py "attachments", if is_deleted m then PNone else Message.attachments m); (py "is_pinned", PBool (Message.is_pinned m));
    (py "client_msg_id", opt_id (Message.client_msg_id m)); (py "created_at", PStr (isoformat (Message.created_at m)));
    (py "updated_at", PStr (isoformat (Message.updated_at m))); (py "edited_at", opt_iso (Message.edited_at m));
    (py "deleted_at", opt_iso (Message.deleted_at m));
    (py "reactions_summary", PDict [(py "counts", PDict []); (py "my_reaction", PList [])])].

Definition decrypted_content (m : Message.t) : res (option (list Z) * pyval) :=
  if is_deleted m then mret (None, PNone)
  else
    match Message.content_type m with
    | text_ => match Message.content_text m with
               | Some t => t ← decrypt_message (Some t); mret (Some t, PNone)
               | None => mret (None, PNone)
               end
    | json_ => v ← decrypt_json_payload (Message.content_json m); mret (None, v)
    end.

(** [sender_cache]. *)
Abbreviation senders := (gmap N (option User.t)).

Definition _message_payload (m : Message.t) (cache : senders) : T (pyval * senders) :=
  '(content_text, content_json) ← lift (decrypted_content m);
  '(sender, cache) ←
    (match cache !! Message.sender_user_id m with
     | Some sender => mret (sender, cache)
     | None => sender ← in_db (get_user (Message.sender_user_id m)); mret (sender, <[Message.sender_user_id m := sender]> cache)
     end : T _);
  mret (payload_of m sender content_text content_json, cache).

(** The rows of one query, until no more may be sent: what may still be sent,
    the cache and the items. *)
Fixpoint payloads (l : list Message.t) (remaining : Z) (cache : senders) (items : list pyval) : T (Z * senders * list pyval) :=
  match l with
  | [] => mret (remaining, cache, items)
  | m :: l =>
      '(item, cache) ← _message_payload m cache;
      if remaining - 1 <=? 0 then mret (remaining - 1, cache, items ++ [item])
      else payloads l (remaining - 1) cache (items ++ [item])
  end.

Definition history_rows (channel_id : N) (after : option Z) (remaining : Z) (st : Store) : list Message.t :=
  take (Z.to_nat remaining) (by_seq (messages_of channel_id (fun m =>
    negb (is_deleted m) && match after with Some n => n <? Message.seq_id m | None => true end) st)).

Fixpoint history_items (channel_ids : list (list Z)) (from_seq_id : option Z) (remaining : Z) (cache : senders)
    (items : list pyval) : T (list pyval) :=
  match channel_ids with
  | [] => mret items
  | channel_id_raw :: channel_ids =>
      if remaining <=? 0 then mret items
      else
        channel_id ← lift (match uuid_text channel_id_raw with Some u => inr u | None => inl (ValueError "badly formed UUID") end);
        rows ← in_db (gets (history_rows channel_id from_seq_id remaining));
        '(remaining, cache, items) ← payloads rows remaining cache items;
        history_items channel_ids from_seq_id remaining cache items
  end.

Definition history_limit : Z := Z.min ws_history_batch_limit ws_history_budget_capacity.

Definition _send_history (k : N) (channel_ids : list (list Z)) (from_seq_id : option Z) (request_id : option uuid) : T Z :=
  items ← history_items channel_ids from_seq_id history_limit ∅ [];
  send_json k History (sync_envelope None items request_id) ;;
  mret (Z.of_nat (length items)).

(** ** Commands *)

(** [build_error] of a payload that does not validate. *)
Definition invalid_payload (k : N) (message : string) (request_id : option uuid) (e : exc) : T unit :=
  send_json k Reply (build_error (py message) (py "VALIDATION_ERROR") request_id (PDict [(py "error", PStr (str_exc e))])).

Definition _handle_sync_request (k : N) (payload : pyval) (request_id : option uuid) : T unit :=
  match validate_sync payload with
  | inl e => invalid_payload k "invalid sync payload" request_id e
  | inr req =>
      send_json k Reply (build_error (py "use REST /sync for backfill") (py "SYNC_USE_REST") request_id
        (PDict [(py "states", PList (dump_sync_state <$> sync_states req))]))
  end.

Definition _handle_seen (k user_id : N) (payload : pyval) (request_id : option uuid) : T unit :=
  match validate_seen payload with
  | inl e => invalid_payload k "invalid seen payload" request_id e
  | inr req =>
      match seen_last_seen_seq_id req with
      | None =>
          send_json k Reply (build_error (py "last_seen_seq_id is required") (py "VALIDATION_ERROR") request_id
            (PDict [(py "channel_id", str_id (seen_channel_id req))]))
      | Some seq =>
          r ← task_try
            (state ← in_db (mark_seen (seen_channel_id req) user_id
               {| sr_last_seen_message_id := None; sr_last_seen_seq_id := Some seq; sr_last_seen_at := seen_last_seen_at req |});
             mret (inr state))
            (fun e => match e with AppError _ _ => mret (inl e) | _ => task_raise e end);
          match r with
          | inl e =>
              let code := match e with AppError _ code => py code | _ => [] end in
              send_json k Reply (build_error (app_error_message e) code request_id (app_error_details e))
          | inr state =>
              send_json k Reply (build_envelope (py "seen")
                (PDict [(py "channel_id", str_id (UserChannelState.channel_id state)); (py "user_id", str_id (UserChannelState.user_id state));
                        (py "last_seen_message_id", opt_id (UserChannelState.last_seen_message_id state));
                        (py "last_seen_seq_id", opt_int (UserChannelState.last_seen_seq_id state));
                        (py "last_seen_at", opt_iso (UserChannelState.last_seen_at state));
                        (py "unread_count", PInt (UserChannelState.unread_count state))]) request_id)
          end
      end
  end.

(** [sorted(...)] of a set of strings. *)
Definition sorted_set (s : gset (list Z)) : list (list Z) := order_by id (elements s).

Definition _handle_subscribe (k user_id : N) (payload : pyval) (request_id : option uuid) : T unit :=
  match validate_subscribe payload with
  | inl e => invalid_payload k "invalid subscribe payload" request_id e
  | inr req =>
      let wanted : gset (list Z) := list_to_set (uuid_str <$> sub_channel_ids req) in
      let history_signature := (sorted_set wanted, sub_from_seq_id req) in
      unchanged ← managed (fun m => bool_decide (default ∅ (_subscriptions m !! k) = wanted)
                                    && bool_decide (_last_subscribe_history_requests m !! k = Some history_signature));
      if (unchanged : bool) then send_json k Reply (sync_envelope None [] request_id)
      else
        let limit := if decide (wanted = ∅) then 0 else history_limit in
        reserved ← _reserve_history_work k request_id limit;
        if (reserved : bool) then
          allowed_states ← _member_channel_states user_id;
          let granted_states := filter (fun kv : list Z * Z => kv.1 ∈ wanted) allowed_states in
          let granted := sorted_set (dom granted_states) in
          writing (fun p => p <| manager ::= subscribe_to k granted_states (monotonic p) |>) ;;
          _ ← _send_history k granted (sub_from_seq_id req) request_id;
          manage (fun m => m <| _last_subscribe_history_requests ::=
            if decide (dom granted_states = wanted) then <[k := history_signature]> else delete k |>)
        else mret tt
  end.

Definition unsubscribe_from (k : N) (channel_ids : list N) (m : Manager) : Manager :=
  let m := fold_left (fun m c => forget_channel k (uuid_str c) (discard_subscription k (uuid_str c) m)) channel_ids m in
  m <| _subscriptions ::= <[k := default ∅ (_subscriptions m !! k)]> |> <| _last_subscribe_history_requests ::= delete k |>.

Definition _handle_unsubscribe (k : N) (payload : pyval) (request_id : option uuid) : T unit :=
  match validate_unsubscribe payload with
  | inl e => invalid_payload k "invalid unsubscribe payload" request_id e
  | inr req =>
      manage (unsubscribe_from k (unsub_channel_ids req)) ;;
      send_json k Reply (sync_envelope None [] request_id)
  end.

Fixpoint resume_items (cursors : list WSResumeCursor) (allowed : gset (list Z)) (remaining : Z) (cache : senders)
    (items : list pyval) : T (list pyval) :=
  match cursors with
  | [] => mret items
  | cursor :: cursors =>
      if decide (uuid_str (cur_channel_id cursor) ∈ allowed) then
        if remaining <=? 0 then mret items
        else
          rows ← in_db (gets (history_rows (cur_channel_id cursor) (Some (default 0 (cur_last_seen_seq_id cursor))) remaining));
          '(remaining, cache, items) ← payloads rows remaining cache items;
          resume_items cursors allowed remaining cache items
      else resume_items cursors allowed remaining cache items
  end.

Definition _handle_resume (k user_id : N) (payload : pyval) (request_id : option uuid) : T unit :=
  match validate_resume payload with
  | inl e => invalid_payload k "invalid resume payload" request_id e
  | inr req =>
      let limit := Z.max 1 (Z.min (if res_limit req =? 0 then 200 else res_limit req) history_limit) in
      reserved ← _reserve_history_work k request_id limit;
      if (reserved : bool) then
        allowed ← _member_channel_ids user_id;
        items ← resume_items (res_channels req) allowed limit ∅ [];
        let since := match res_since req with Some d => PStr (iso_datetime d) | None => PNone end in
        send_json k History (sync_envelope (Some since) items request_id)
      else mret tt
  end.

(** The commands with a handler of their own. *)
Definition known_commands : list string := ["ping"; "auth"; "subscribe"; "unsubscribe"; "resume"; "sync"; "seen"].
Definition command_kind (msg_type : pystr) : string :=
  default "unsupported" (List.find (fun c => str_eqb msg_type (py c)) known_commands).

Definition dispatch (k user_id session_id : N) (e : WSEnvelope) : T unit :=
  let kind := command_kind (env_type e) in
  let request_id := env_request_id e in
  if String.eqb kind "ping" then send_json k Reply (build_envelope (py "pong") (PDict []) request_id)
  else if String.eqb kind "auth" then
    send_json k Reply (build_envelope (py "hello") (PDict [(py "user_id", str_id user_id); (py "session_id", str_id session_id)]) request_id)
  else if String.eqb kind "subscribe" then _handle_subscribe k user_id (env_payload e) request_id
  else if String.eqb kind "unsubscribe" then _handle_unsubscribe k (env_payload e) request_id
  else if String.eqb kind "resume" then _handle_resume k user_id (env_payload e) request_id
  else if String.eqb kind "sync" then _handle_sync_request k (env_payload e) request_id
  else if String.eqb kind "seen" then _handle_seen k user_id (env_payload e) request_id
  else send_json k Reply (build_error (py "unsupported message type") (py "VALIDATION_ERROR") request_id
                            (PDict [(py "type", PStr (env_type e))])).

(** [_inbound_loop] on the frames it receives. *)
Fixpoint _inbound_loop (k user_id session_id : N) (received : list (list Z)) : T unit :=
  match received with
  | [] => mret tt
  | raw :: received =>
      size ← lift (match utf8_encode raw with Some bs => inr (Z.of_nat (length bs)) | None => inl (ValueError "surrogates not allowed") end);
      if (ws_max_inbound_message_bytes <? Z.of_nat (length raw)) || (ws_max_inbound_message_bytes <? size) then
        send_json k Reply (build_error (py "WebSocket message exceeds the configured size limit") (py "MESSAGE_TOO_LARGE") None
          (PDict [(py "max_bytes", PInt ws_max_inbound_message_bytes)])) ;;
        close k
      else
        (match json_loads raw ≫= parse_client_envelope with
         | inl e =>
             retry_after ← use_budget k (fun b now => charge_command b "invalid" now);
             match retry_after with
             | Some n => _send_budget_error k None "commands" n
             | None => invalid_payload k "invalid envelope" None e
             end
         | inr envelope =>
             retry_after ← use_budget k (fun b now => charge_command b (command_kind (env_type envelope)) now);
             match retry_after with
             | Some n => _send_budget_error k (env_request_id envelope) "commands" n
             | None => dispatch k user_id session_id envelope
             end
         end) ;;
        _inbound_loop k user_id session_id received
  end.

(** ** Events *)

Definition _decrypt_event_payload (event : list (list Z * pyval)) : res (list (list Z * pyval)) :=
  let event_type := str_or (assoc (py "type") event) [] in
  if negb (bool_decide (event_type ∈ [py "message"; py "message_updated"])) then mret event
  else
    match assoc (py "deleted_at") event with
    | Some PNone | None =>
        if is_str (assoc (py "content_type") event) (py "text") then
          text ← match assoc (py "content_text") event with
                 | Some PNone | None => mret PNone
                 | Some v => t ← decrypt_message (Some (str_of v)); mret (PStr t)
                 end;
          mret (dict_set (dict_set event (py "content_text") text) (py "content_json") PNone)
        else if is_str (assoc (py "content_type") event) (py "json") then
          v ← decrypt_json_payload (default PNone (assoc (py "content_json") event));
          mret (dict_set (dict_set event (py "content_text") PNone) (py "content_json") v)
        else raise decryption_failed
    | Some _ => mret (dict_set (dict_set event (py "content_text") PNone) (py "content_json") PNone)
    end.

(** [self._subscription_generations.setdefault(k, {})], and the same for the
    times of the checks. *)
Definition own_dicts (k : N) (m : Manager) : ref * ref * Manager :=
  let '(g, m) := match _subscription_generations m !! k with
                 | Some g => (g, m)
                 | None => let r := (k, next_serial m) in
                     (r, m <| _subscription_generations ::= <[k := r]> |> <| generation_dicts ::= <[r := ∅]> |>
                           <| next_serial ::= N.succ |>)
                 end in
  match _subscription_checked_at m !! k with
  | Some c => (g, c, m)
  | None => let r := (k, next_serial m) in
      (g, r, m <| _subscription_checked_at ::= <[k := r]> |> <| checked_dicts ::= <[r := ∅]> |> <| next_serial ::= N.succ |>)
  end.

(** [int(event["membership_generation"])]; what the [except] does not catch is
    raised. *)
Definition event_generation (event : list (list Z * pyval)) : res (option Z) :=
  match getitem (PDict event) "membership_generation" ≫= int_of with
  | inr n => mret (Some n)
  | inl (KeyError _ | TypeError _ | ValueError _) => mret None
  | inl e => raise e
  end.

(** The part of [_authorize_channel_delivery] before the query: whether the
    cached check is enough, with the dictionaries and the generation. *)
Definition authorize_cached (k : N) (channel_id : pystr) (event : list (list Z * pyval)) : T (bool * (ref * ref * option Z)) :=
  atomic_ (fun p =>
    let '(g, c, m) := own_dicts k (manager p) in
    let p := p <| manager := m |> in
    let cached_generation := default ∅ (generation_dicts m !! g) !! channel_id in
    let checked_at := default 0%Q (default ∅ (checked_dicts m !! c) !! channel_id) in
    match event_generation event with
    | inl e => (inl e, p)
    | inr eg =>
        let fresh := Qle_bool (monotonic p - checked_at) ws_membership_auth_cache_ttl_seconds in
        let known := match eg, cached_generation with Some n, Some cached => n <=? cached | _, _ => false end in
        (inr (known && fresh, (g, c, eg)), p)
    end).

Definition _authorize_channel_delivery (k user_id : N) (channel_id : pystr) (event : list (list Z * pyval)) : T bool :=
  '(cached, (g, c, eg)) ← authorize_cached k channel_id event;
  if (cached : bool) then mret true
  else
    match uuid_text channel_id with
    | None => mret false
    | Some channel_uuid =>
        current ← in_db (gets (approved_generation user_id channel_uuid));
        match current with
        | None => manage (fun m => forget_in g c channel_id (discard_subscription k channel_id m)) ;; mret false
        | Some current_generation =>
            if match eg with Some n => current_generation <? n | None => false end then mret false
            else
              writing (fun p => p <| manager ::= fun m =>
                m <| generation_dicts ::= alter (insert channel_id current_generation) g |>
                  <| checked_dicts ::= alter (insert channel_id (monotonic p)) c |> |>) ;;
              mret true
        end
    end.

Definition channel_of (event : list (list Z * pyval)) : pystr := str_or (assoc (py "channel_id") event) [].
Definition type_of (event : list (list Z * pyval)) : pystr := str_or (assoc (py "type") event) (py "event").
Definition is_targeted (user_id : N) (event : list (list Z * pyval)) : bool :=
  str_eqb (type_of event) (py "membership_update") && str_eqb (str_or (assoc (py "user_id") event) []) (uuid_str user_id).

Definition _forward_event (k user_id : N) (event : pyval) : T bool :=
  match event with
  | PDict event =>
      let channel_id := channel_of event in
      let event_type := type_of event in
      if bool_decide (event_type ∈ [py "message"; py "message_updated"]) && bool_decide (channel_id = []) then mret false
      else
        authorized ←
          (if is_targeted user_id event then
             (if negb (bool_decide (channel_id = []))
                 && negb (bool_decide (str_or (assoc (py "new_role") event) (py "none") ∈ [py "owner"; py "admin"; py "member"]))
              then manage (fun m => forget_channel k channel_id (discard_subscription k channel_id m)
                                      <| _last_subscribe_history_requests ::= delete k |>)
              else mret tt) ;;
             mret true
           else if bool_decide (channel_id = []) then mret true
           else
             subscribed ← managed (fun m => bool_decide (channel_id ∈ default ∅ (_subscriptions m !! k)));
             if (subscribed : bool) then _authorize_channel_delivery k user_id channel_id event else mret false);
        if (authorized : bool) then
          match _decrypt_event_payload event with
          | inl (AppError _ _) => mret false
          | inl e => task_raise e
          | inr authorized_event =>
              send_json k (Forwarded event) (build_envelope event_type (PDict authorized_event) None) ;; mret true
          end
        else mret false
  | _ => task_raise (AttributeError "get")
  end.

(** [_redis_forward_loop] on the messages it receives. *)
Fixpoint _redis_forward_loop (k user_id : N) (received : list redis_value) : T unit :=
  match received with
  | [] => mret tt
  | raw :: received =>
      text ← lift (redis_text raw);
      (match json_loads text with
       | inl _ => mret tt
       | inr event => _ ← _forward_event k user_id event; mret tt
       end) ;;
      _redis_forward_loop k user_id received
  end.

(** ** A socket's life *)

(** [_presence_heartbeat_loop] for a number of beats. *)
Fixpoint _presence_heartbeat_loop (k user_id : N) (username : pystr) (beats : nat) : T unit :=
  match beats with
  | O => mret tt
  | S beats =>
      connection_id ← managed (fun m => _presence_connection_ids m !! k);
      match connection_id with
      | None => mret tt
      | Some c => call_presence PresenceRefresh user_id username c ;; _presence_heartbeat_loop k user_id username beats
      end
  end.

Definition say_hello (k user_id session_id : N) : T unit :=
  send_json k Reply (now ← utcnow; build_envelope (py "hello")
    (PDict [(py "server_time", PStr (isoformat now)); (py "user_id", str_id user_id); (py "session_id", str_id session_id)]) None).
End Manager.
