(* ===== verification/WsManagerProps.v ===== *)
(** * What reaches a socket

    The tasks of [WsManager] under every interleaving, with the database
    changing underneath: an ordinary event is written to a socket only if its
    user was an approved member of the channel in a committed state whose
    generation is not older than the event's; history only comes from channels
    the user was a member of; a user never has more connections than the
    quota. *)

From S2P Require Import Prelude PyStr Json JsonLoads Models Session EventIntegrity Identifiers Rbac Outbox.
From S2P Require Import Encryption Channels ChannelProps Messages MessageProps MerkleAudit MerkleAuditProps Auth WsTickets AuthControl.
From S2P Require Import WorkBudget Tasks WsManager.
From Stdlib Require Import QArith.
Local Open Scope Z_scope.

(** Channel identifiers are UUIDs. *)
Definition ids_ok (st : Store) : Prop := map_Forall (fun (k : N * N) _ => uuid_ok k.1) (channel_memberships st).

Section Invariant.
Context `{HW : World} `{HU : UnicodeData} `{HB : BackendSettings} `{HCr : Crypto} `{HE : EncryptionSettings} `{HO : Orm}.
Context `{HC : Conversions} `{HF : Floats} `{HR : Reprs} `{HP : Protocol} `{HS : WsSettings}.
Context (presence : PresenceOp -> N -> list Z -> list Z -> ext -> ext) (publish : list Z -> list Z -> ext -> res unit * ext).
(** The user of a socket. *)
Context (user_of : N -> N).

(** A text names a channel that the user was an approved member of, at this
    generation, in one of these states. *)
Definition was_member (w : list Store) (user : N) (channel : pystr) (generation : Z) : Prop :=
  exists db c, db ∈ w /\ uuid_text channel = Some c /\ approved_generation user c db = Some generation.

Definition member_of (w : list Store) (user : N) (c : N) : Prop :=
  exists db g, db ∈ w /\ approved_generation user c db = Some g.

(** A message of a channel the user was an approved member of. *)
Definition item_ok (w : list Store) (user : N) (item : pyval) : Prop :=
  exists m sender text json, item = payload_of m sender text json /\ member_of w user (Message.channel_id m).

Definition forward_ok (w : list Store) (user : N) (event : list (list Z * pyval)) : Prop :=
  is_targeted user event = true
  \/ (channel_of event = [] /\ type_of event ∉ [py "message"; py "message_updated"])
  \/ exists g, was_member w user (channel_of event) g /\ forall n, event_generation event = inr (Some n) -> n <= g.

(** The messages of a "sync" frame. *)
Definition sync_frame (body : pyval) (items : list pyval) : Prop :=
  exists since request_id s s', sync_envelope since items request_id s = (inr body, s').

Definition frame_ok (w : list Store) (f : Frame) : Prop :=
  match frame_origin f with
  | Reply => True
  | History => exists items, sync_frame (frame_body f) items /\ Forall (item_ok w (user_of (frame_to f))) items
  | Forwarded event => forward_ok w (user_of (frame_to f)) event
  end.

Definition quota_ok (d : gmap N (list N)) : Prop :=
  forall u l, d !! u = Some l -> Z.of_nat (length l) <= max_websocket_connections_per_user.

Record process_ok (w : list Store) (p : Process) : Prop := {
  ok_past : past p = w;
  ok_now : durable (session p) ∈ w;
  ok_ids : Forall ids_ok w;
  ok_refs : forall k r, _subscription_generations (manager p) !! k = Some r -> r.1 = k;
  ok_dicts : forall r d c g, generation_dicts (manager p) !! r = Some d -> d !! c = Some g -> was_member w (user_of r.1) c g;
  ok_quota : quota_ok (_connections (manager p));
  ok_wire : Forall (frame_ok w) (wire p)
}.

Lemma was_member_more w w' user c g : w `prefix_of` w' -> was_member w user c g -> was_member w' user c g.
Proof. intros [l ->] (db & cu & Hd & Hc & Hg). exists db, cu. split_and!; [apply elem_of_app; by left|done..]. Qed.
Lemma member_of_more w w' user c : w `prefix_of` w' -> member_of w user c -> member_of w' user c.
Proof. intros [l ->] (db & g & Hd & Hg). exists db, g. split; [apply elem_of_app; by left|done]. Qed.
Lemma was_member_of w user c g : uuid_ok c -> was_member w user (uuid_str c) g -> member_of w user c.
Proof. intros Hu (db & c' & Hd & Hc & Hg). rewrite uuid_text_str in Hc by done. injection Hc as <-. by exists db, g. Qed.
Lemma item_ok_more w w' user i : w `prefix_of` w' -> item_ok w user i -> item_ok w' user i.
Proof. intros Hw (m & sd & t & j & -> & Ha). exists m, sd, t, j. split; [done|by eapply member_of_more]. Qed.
Lemma items_ok_more w w' user l : w `prefix_of` w' -> Forall (item_ok w user) l -> Forall (item_ok w' user) l.
Proof. intros Hw Hl. eapply Forall_impl; [exact Hl|]. intros x. by apply item_ok_more. Qed.
Lemma forward_ok_more w w' user e : w `prefix_of` w' -> forward_ok w user e -> forward_ok w' user e.
Proof.
  intros Hw [?|[?|(g & Ha & Hg)]]; [by left|by right; left|]. right. right. exists g. split; [by eapply was_member_more|done].
Qed.
Lemma frame_ok_more w w' f : w `prefix_of` w' -> frame_ok w f -> frame_ok w' f.
Proof.
  intros Hw. unfold frame_ok. destruct (frame_origin f); [done| |by apply forward_ok_more].
  intros (items & Hs & Hf). exists items. split; [done|by eapply items_ok_more].
Qed.

(** Changes that touch none of what the invariant is about. *)
Lemma process_ok_manager w p f :
  process_ok w p ->
  (forall k r, _subscription_generations (f (manager p)) !! k = Some r -> r.1 = k) ->
  (forall r d c g, generation_dicts (f (manager p)) !! r = Some d -> d !! c = Some g -> was_member w (user_of r.1) c g) ->
  quota_ok (_connections (f (manager p))) ->
  process_ok w (p <| manager ::= f |>).
Proof. intros [] H1 H2 H3. split; cbn; done. Qed.

(** A new committed state. *)
Lemma process_ok_commit w p s :
  process_ok w p -> ids_ok (durable s) ->
  process_ok (w ++ [durable s]) (p <| session := s <| work := durable s |> |> <| past ::= fun l => l ++ [durable s] |>).
Proof.
  intros [H1 H2 H3 H4 H5 H6 H7] Hi. assert (Hp : w `prefix_of` w ++ [durable s]) by by eexists. split; cbn.
  - by rewrite H1.
  - apply elem_of_app. right. by apply list_elem_of_singleton.
  - apply Forall_app. split; [done|by constructor].
  - done.
  - intros r d c g Hr Hd. eapply was_member_more; [exact Hp|eauto].
  - done.
  - eapply Forall_impl; [exact H7|]. intros f. by apply frame_ok_more.
Qed.

(** ** Tasks that keep the invariant *)

Abbreviation safely := (wp prefix process_ok).

(** A task that keeps the invariant whatever has been observed. *)
Definition ok {A} (t : task Process A) : Prop := forall w, safely t (fun _ _ => True) w.

Lemma stable_true {A} : stable prefix (fun (_ : list Store) (_ : res A) => True).
Proof. intros ?????. exact I. Qed.

Lemma ok_bind {A B} (t : task Process A) (f : A -> task Process B) : ok t -> (forall a, ok (f a)) -> ok (t ≫= f).
Proof.
  intros Ht Hf w. apply (wp_bind _ _). eapply (wp_weaken _ _); [apply stable_true|reflexivity| |apply Ht].
  intros w' [e|a] _ _; [done|]. apply Hf.
Qed.
Lemma ok_ret {A} (a : A) : ok (mret a).
Proof. by intros w. Qed.
Lemma ok_raise {A} e : ok (task_raise (A := A) e).
Proof. by intros w. Qed.
Lemma ok_lift {A} (r : res A) : ok (lift r).
Proof. by intros w. Qed.
Lemma ok_try {A} (t : task Process A) h : ok t -> (forall e, ok (h e)) -> ok (task_try t h).
Proof.
  intros Ht Hh w. apply (wp_try _ _). eapply (wp_weaken _ _); [apply stable_true|reflexivity| |apply Ht].
  intros w' [e|a] _ _; [apply Hh|done].
Qed.
(** What is known stays known. *)
Lemma safely_ok {A} (t : task Process A) w : ok t -> safely t (fun _ _ => True) w.
Proof. intros Ht. apply Ht. Qed.

Lemma ok_atomic {A} (f : Process -> res A * Process) :
  (forall w p, process_ok w p -> process_ok w (f p).2) -> ok (atomic_ f).
Proof.
  intros Hf w. apply (wp_atomic _ _). intros w1 p r p' _ Hp E. exists w1. split_and!; [reflexivity| |done].
  specialize (Hf w1 p Hp). by rewrite E in Hf.
Qed.
Lemma ok_managed {A} (f : Manager -> A) : ok (managed f).
Proof. by apply ok_atomic. Qed.

(** Updates of the manager that leave the dictionaries of generations and the
    connections alone. *)
Definition leaves_alone (f : Manager -> Manager) : Prop := forall m,
  _subscription_generations (f m) = _subscription_generations m /\ generation_dicts (f m) = generation_dicts m
  /\ _connections (f m) = _connections m.
Lemma process_ok_alone w p f : leaves_alone f -> process_ok w p -> process_ok w (p <| manager ::= f |>).
Proof.
  intros Hf Hp. destruct (Hf (manager p)) as (E1 & E2 & E3).
  apply process_ok_manager; [done|rewrite E1; apply Hp|rewrite E2; apply Hp|rewrite E3; apply Hp].
Qed.
Lemma ok_manage f : leaves_alone f -> ok (manage f).
Proof. intros Hf. apply ok_atomic. intros w p Hp. by apply process_ok_alone. Qed.

(** Clock readings, tokens and other services. *)
Lemma process_ok_session w p s : durable s = durable (session p) -> process_ok w p -> process_ok w (p <| session := s |>).
Proof. intros E [H1 H2 H3 H4 H5 H6 H7]. split; cbn; [done|by rewrite E|done..]. Qed.

Lemma ok_presence op u name c : ok (call_presence presence op u name c).
Proof. apply ok_atomic. intros w p Hp. by apply (process_ok_session w p (session p <| outside ::= presence op u name c |>)). Qed.

(** *** Transactions *)

Lemma ok_in_db {A} (m : M A) : preserves (keeps ids_ok) m -> ok (in_db m).
Proof.
  intros Hm w. apply (wp_atomic _ _). intros w1 p r p' _ Hp E. pose proof (Hm (session p <| work := durable (session p) |>)) as Hk.
  assert (Hd : ids_ok (durable (session p))).
  { destruct Hp as [_ Hn Hi _ _ _ _]. rewrite Forall_forall in Hi. by apply Hi. }
  destruct (m _) as [r1 s1]. injection E as <- <-. destruct (Hk Hd Hd) as [H1 _]. cbn in H1.
  exists (w1 ++ [durable s1]). split_and!; [by eexists|by apply process_ok_commit|done].
Qed.

(** A query: its answer is about a state that is observed from now on. *)
Lemma wp_query {A} (f : Store -> A) (Q : list Store -> res A -> Prop) w :
  (forall w' db, w `prefix_of` w' -> db ∈ w' -> ids_ok db -> Q w' (inr (f db))) -> safely (in_db (gets f)) Q w.
Proof.
  intros HQ. apply (wp_atomic _ _). intros w1 p r p' Hle Hp E. injection E as <- <-.
  assert (Hd : ids_ok (durable (session p))).
  { destruct Hp as [_ Hn Hi _ _ _ _]. rewrite Forall_forall in Hi. by apply Hi. }
  exists (w1 ++ [durable (session p)]). split_and!; [by eexists| |].
  - set (s1 := session p <| work := durable (session p) |>). assert (E1 : durable s1 = durable (session p)) by reflexivity.
    rewrite <-E1 in Hd. pose proof (process_ok_commit w1 p s1 Hp Hd) as Hc. exact Hc.
  - apply HQ; [etrans; [exact Hle|by eexists]|apply elem_of_app; right; by apply list_elem_of_singleton|done].
Qed.

(** *** Frames *)

Definition clock_only {A} (m : M A) : Prop := forall s, durable (m s).2 = durable s.

Lemma wp_send k origin body (Q : list Store -> res unit -> Prop) w :
  clock_only body ->
  (forall w' s b s', w `prefix_of` w' -> body s = (inr b, s') -> frame_ok w' {| frame_to := k; frame_origin := origin; frame_body := b |}) ->
  (forall w' r, w `prefix_of` w' -> Q w' r) ->
  safely (send_json k origin body) Q w.
Proof.
  intros Hb Hf HQ. apply (wp_atomic _ _). intros w1 p r p' Hle Hp E. exists w1. split_and!; [reflexivity| |by apply HQ].
  pose proof (Hb (session p)) as Hs. destruct (body (session p)) as [[e|b] s] eqn:Eb.
  - injection E as _ <-. by apply process_ok_session.
  - cbn in Hs. apply (process_ok_session w1 p s Hs) in Hp. cbv zeta in E. case_decide; injection E as _ <-; [|done].
    destruct Hp as [H1 H2 H3 H4 H5 H6 H7]. split; cbn; try done. apply Forall_app. split; [done|]. constructor; [|done]. by eapply Hf.
Qed.

Lemma clock_only_same {A} (m : M A) : preserves (same unit_part) m -> clock_only m.
Proof. intros Hm s. apply Hm. Qed.
Lemma clock_envelope t v r : clock_only (build_envelope t v r).
Proof. apply clock_only_same. unfold build_envelope. pres. Qed.
Lemma clock_sync since items r : clock_only (sync_envelope since items r).
Proof. apply clock_only_same. unfold sync_envelope, build_envelope. pres. Qed.

Lemma ok_reply k body : clock_only body -> ok (send_json k Reply body).
Proof. intros Hb w. by apply wp_send. Qed.

(** *** Sequencing with knowledge *)

(** What holds of a result, if there is one. *)
Definition returning {A} (R : list Store -> A -> Prop) (w : list Store) (r : res A) : Prop :=
  match r with inl _ => True | inr a => R w a end.

Lemma returning_stable {A} (R : list Store -> A -> Prop) :
  (forall w w' a, w `prefix_of` w' -> R w a -> R w' a) -> stable prefix (returning R).
Proof. intros HRs w w' [e|a] Hle; [done|]. cbn. eauto. Qed.

Lemma wp_seq {A B} (t : task Process A) (f : A -> task Process B) R S w :
  (forall w w' a, w `prefix_of` w' -> R w a -> R w' a) -> safely t (returning R) w ->
  (forall w' a, w `prefix_of` w' -> R w' a -> safely (f a) (returning S) w') -> safely (t ≫= f) (returning S) w.
Proof.
  intros HRs Ht Hf. apply (wp_bind _ _). eapply (wp_weaken _ _); [by apply returning_stable|reflexivity| |exact Ht].
  intros w' [e|a] Hle Ha; [done|]. by apply Hf.
Qed.
Lemma wp_after {A B} (t : task Process A) (f : A -> task Process B) S w :
  ok t -> (forall w' a, w `prefix_of` w' -> safely (f a) (returning S) w') -> safely (t ≫= f) (returning S) w.
Proof.
  intros Ht Hf. apply (wp_seq _ _ (fun _ _ => True)); [done| |intros w' a Hle _; by apply Hf].
  eapply (wp_weaken _ _); [apply stable_true|reflexivity| |apply Ht]. by intros w' [e|a].
Qed.
Lemma ok_returning {A} (t : task Process A) w : ok t -> safely t (returning (fun _ _ => True)) w.
Proof. intros Ht. eapply (wp_weaken _ _); [apply stable_true|reflexivity| |apply Ht]. by intros w' [e|a]. Qed.
Lemma returning_ok {A} (t : task Process A) : (forall w, safely t (returning (fun _ _ => True)) w) -> ok t.
Proof.
  intros Ht w. eapply (wp_weaken _ _); [|reflexivity| |apply Ht]; [|done]. apply returning_stable. done.
Qed.

(** ** Budgets *)

Lemma ok_use_budget k use : ok (use_budget k use).
Proof.
  apply ok_atomic. intros w p Hp. cbv zeta. match goal with |- context [use ?a ?b] => destruct (use a b) as [r b0] end. cbn [snd]. by apply process_ok_alone.
Qed.
Lemma ok_budget_error k r b n : ok (_send_budget_error k r b n).
Proof. apply ok_reply, clock_envelope. Qed.
Lemma ok_reserve k r n : ok (_reserve_history_work k r n).
Proof.
  apply ok_bind; [apply ok_use_budget|]. intros [x|]; [|apply ok_ret]. apply ok_bind; [apply ok_budget_error|]. intros _. apply ok_ret.
Qed.
Lemma ok_invalid k m r e : ok (invalid_payload k m r e).
Proof. apply ok_reply, clock_envelope. Qed.

(** ** Membership *)

Lemma approved_rows_generation user db c g : (c, g) ∈ approved_rows user db -> approved_generation user c db = Some g.
Proof.
  unfold approved_rows. rewrite list_elem_of_omap. intros ([[c' u] m] & Hm%elem_of_map_to_list & E). cbn [fst snd] in E.
  destruct (bool_decide (u = user) && approved (ChannelMembership.role m)) eqn:Eb; [|done].
  apply andb_prop in Eb as [->%bool_decide_eq_true Ha]. destruct (channels db !! c') as [ch|] eqn:Ec; [|done]. cbn in E.
  destruct (Channel.deleted_at ch) eqn:Ed; [done|]. injection E as -> <-. unfold approved_generation. rewrite Hm. cbn.
  rewrite Ha, Ec. cbn. by rewrite Ed.
Qed.

Lemma approved_generation_id user db c g : ids_ok db -> approved_generation user c db = Some g -> uuid_ok c.
Proof.
  intros Hi. unfold approved_generation. destruct (channel_memberships db !! (c, user)) as [m|] eqn:Em; [|done].
  intros _. apply (Hi (c, user) m Em).
Qed.

(** Every answer of [_member_channel_states] is about an observed state. *)
Definition states_ok (w : list Store) (user : N) (states : gmap (list Z) Z) : Prop :=
  forall c g, states !! c = Some g -> exists cu, c = uuid_str cu /\ uuid_ok cu /\ was_member w user c g.

Lemma states_ok_more w w' user st : w `prefix_of` w' -> states_ok w user st -> states_ok w' user st.
Proof.
  intros Hle Hs c g Hc. destruct (Hs c g Hc) as (cu & -> & Hu & Ha). exists cu. split_and!; [done..|by eapply was_member_more].
Qed.

Lemma channel_states_ok w user db : db ∈ w -> ids_ok db -> states_ok w user (channel_states (approved_rows user db)).
Proof.
  intros Hd Hi c g Hc. unfold channel_states in Hc. apply elem_of_list_to_map_2, list_elem_of_fmap in Hc as ([cu g'] & E & Hin).
  injection E as -> ->. apply approved_rows_generation in Hin. pose proof (approved_generation_id _ _ _ _ Hi Hin) as Hu.
  exists cu. split_and!; [done|done|]. exists db, cu. split_and!; [done|by apply uuid_text_str|done].
Qed.

Lemma wp_member_states user w : safely (_member_channel_states user) (returning (fun w' => states_ok w' user)) w.
Proof.
  apply (wp_bind _ _). apply wp_query. intros w' db Hle Hd Hi. cbn. by apply channel_states_ok.
Qed.

Lemma subscribe_to_ok w p k states now : process_ok w p -> states_ok w (user_of k) states ->
  process_ok w (p <| manager ::= subscribe_to k states now |>).
Proof.
  intros Hp Hs. apply process_ok_manager; [done| | |apply Hp]; cbn.
  - intros j r. rewrite lookup_insert_Some. intros [[<- <-]|[_ Hr]]; [done|]. by apply (ok_refs _ _ Hp).
  - intros r d c g. rewrite lookup_insert_Some. intros [[<- <-]|[_ Hr]] Hd; [|by eapply (ok_dicts _ _ Hp)].
    by destruct (Hs c g Hd) as (cu & _ & _ & Ha).
Qed.

Lemma wp_subscribe k states w : states_ok w (user_of k) states ->
  safely (writing (fun p => p <| manager ::= subscribe_to k states (monotonic p) |>)) (returning (fun _ _ => True)) w.
Proof.
  intros Hs. apply (wp_writing _ _). intros w1 p Hle Hp. split; [|done]. apply subscribe_to_ok; [done|by eapply states_ok_more].
Qed.

(** ** History *)

Lemma keeps_get_user u : preserves (keeps ids_ok) (get_user u).
Proof. unfold get_user. pres. Qed.

Lemma wp_message_payload m cache user w : member_of w user (Message.channel_id m) ->
  safely (_message_payload m cache) (returning (fun w' r => item_ok w' user r.1)) w.
Proof.
  intros Hm. unfold _message_payload. apply wp_after; [apply ok_lift|]. intros w1 [ct cj] Hle1. apply wp_after.
  { destruct (cache !! _); [apply ok_ret|]. apply ok_bind; [apply ok_in_db, keeps_get_user|]. intros u. apply ok_ret. }
  intros w2 [sender cache'] Hle2. cbn. exists m, sender, ct, cj. split; [done|]. eapply member_of_more; [|exact Hm]. by etrans.
Qed.

Lemma wp_payloads l remaining cache items user w :
  Forall (fun m => member_of w user (Message.channel_id m)) l -> Forall (item_ok w user) items ->
  safely (payloads l remaining cache items) (returning (fun w' r => Forall (item_ok w' user) r.2)) w.
Proof.
  revert remaining cache items w. induction l as [|m l IH]; intros remaining cache items w Hl Hi; cbn [payloads]; [done|].
  apply Forall_cons in Hl as [Hm Hl]. eapply wp_seq; [|by apply wp_message_payload|].
  { intros w1 w2 r Hle. by apply item_ok_more. }
  intros w1 [item cache'] Hle Hitem. cbn [fst] in Hitem.
  assert (Hn : Forall (item_ok w1 user) (items ++ [item])).
  { apply Forall_app. split; [by eapply items_ok_more|by constructor]. }
  destruct (_ <=? 0); [done|]. apply IH; [|done]. eapply Forall_impl; [exact Hl|]. intros x. by apply member_of_more.
Qed.

Lemma history_rows_channel c after n st : Forall (fun m => Message.channel_id m = c) (history_rows c after n st).
Proof.
  apply Forall_forall. intros m Hm. unfold history_rows in Hm. apply elem_of_take in Hm as (i & Hm & _).
  apply list_elem_of_lookup_2 in Hm as Hm'.
  unfold by_seq in Hm'. rewrite elem_of_order_by in Hm'. by apply elem_of_messages_of in Hm' as (_ & E & _).
Qed.

(** The rows of a channel the user is a member of become items. *)
Lemma wp_channel_items {B} c after remaining cache items user w (f : Z * gmap N (option User.t) * list pyval -> task Process B) S :
  member_of w user c -> Forall (item_ok w user) items ->
  (forall w' r, w `prefix_of` w' -> Forall (item_ok w' user) r.2 -> safely (f r) (returning S) w') ->
  safely (rows ← in_db (gets (history_rows c after remaining)); r ← payloads rows remaining cache items; f r) (returning S) w.
Proof.
  intros Hc Hi Hf. apply (wp_bind _ _). apply wp_query. intros w' db Hle Hd _. eapply wp_seq; [|apply wp_payloads|].
  - intros w1 w2 r Hle'. by apply items_ok_more.
  - eapply Forall_impl; [apply history_rows_channel|]. intros m ->. by eapply member_of_more.
  - by eapply items_ok_more.
  - intros w2 r Hle2 Hr. apply Hf; [by etrans|done].
Qed.

(** Texts of identifiers of channels the user is a member of. *)
Definition channel_text (w : list Store) (user : N) (c : pystr) : Prop := exists cu, c = uuid_str cu /\ uuid_ok cu /\ member_of w user cu.

Lemma channel_texts_more w w' user l : w `prefix_of` w' -> Forall (channel_text w user) l -> Forall (channel_text w' user) l.
Proof.
  intros Hle Hl. eapply Forall_impl; [exact Hl|]. intros c (cu & -> & Hu & Hm). exists cu. split_and!; [done..|by eapply member_of_more].
Qed.

Lemma wp_history_items l from remaining cache items user w :
  Forall (channel_text w user) l -> Forall (item_ok w user) items ->
  safely (history_items l from remaining cache items) (returning (fun w' r => Forall (item_ok w' user) r)) w.
Proof.
  revert remaining cache items w. induction l as [|c l IH]; intros remaining cache items w Hl Hi; cbn [history_items]; [done|].
  destruct (remaining <=? 0); [done|]. apply Forall_cons in Hl as [(cu & -> & Hu & Hm) Hl]. rewrite uuid_text_str by done.
  apply (wp_channel_items cu from remaining cache items user w (fun '(r, ca, it) => history_items l from r ca it)); [done..|].
  intros w' [[r ca] it] Hle Hit. apply IH; [by eapply channel_texts_more|done].
Qed.

Lemma wp_resume_items l allowed remaining cache items user w :
  (forall c, c ∈ allowed -> channel_text w user c) -> Forall (fun cur => uuid_ok (cur_channel_id cur)) l -> Forall (item_ok w user) items ->
  safely (resume_items l allowed remaining cache items) (returning (fun w' r => Forall (item_ok w' user) r)) w.
Proof.
  revert remaining cache items w. induction l as [|cur l IH]; intros remaining cache items w Ha Hl Hi; cbn [resume_items]; [done|].
  apply Forall_cons in Hl as [Hc Hl]. case_decide as Hin; [|by apply IH]. destruct (remaining <=? 0); [done|].
  destruct (Ha _ Hin) as (cu & E & Hu & Hm). apply uuid_str_inj in E; [|done..]. rewrite E.
  apply (wp_channel_items cu (Some (default 0 (cur_last_seen_seq_id cur))) remaining cache items user w
    (fun '(r, ca, it) => resume_items l allowed r ca it)); [done..|].
  intros w' [[r ca] it] Hle Hit. apply IH; [|done|done]. intros c Hc'. destruct (Ha c Hc') as (c0 & -> & Hu0 & Hm0).
  exists c0. split_and!; [done..|by eapply member_of_more].
Qed.

Lemma wp_send_history_frame k since items request_id w : Forall (item_ok w (user_of k)) items ->
  safely (send_json k History (sync_envelope since items request_id)) (returning (fun _ _ => True)) w.
Proof.
  intros Hi. apply wp_send; [apply clock_sync| |by intros w' []]. intros w' s b s' Hle E. cbn. exists items.
  split; [by exists since, request_id, s, s'|by eapply items_ok_more].
Qed.

Lemma wp_send_history k l from request_id w : Forall (channel_text w (user_of k)) l ->
  safely (_send_history k l from request_id) (returning (fun _ _ => True)) w.
Proof.
  intros Hl. unfold _send_history. eapply wp_seq; [|by apply wp_history_items|].
  { intros w1 w2 r Hle. by apply items_ok_more. }
  intros w' items Hle Hi. eapply wp_seq; [|by apply wp_send_history_frame|]; [done|]. done.
Qed.

(** ** Commands *)

Lemma ok_handle_sync k v r : ok (_handle_sync_request k v r).
Proof. unfold _handle_sync_request. destruct (validate_sync v); [apply ok_invalid|apply ok_reply, clock_envelope]. Qed.

Lemma keeps_mark_seen c u req : preserves (keeps ids_ok) (mark_seen c u req).
Proof.
  unfold_message. unfold enqueue_channel_event_outbox, _get_channel_delivery_state, get_channel, get_membership. pres.
Qed.

Lemma ok_handle_seen k u v r : ok (_handle_seen k u v r).
Proof.
  unfold _handle_seen. destruct (validate_seen v) as [e|req]; [apply ok_invalid|].
  destruct (seen_last_seen_seq_id req) as [n|]; [|apply ok_reply, clock_envelope]. apply ok_bind.
  - apply ok_try; [apply ok_bind; [apply ok_in_db, keeps_mark_seen|intros st; apply ok_ret]|].
    intros []; first [apply ok_ret|apply ok_raise].
  - intros [e|st]; apply ok_reply, clock_envelope.
Qed.

Lemma ok_handle_subscribe k v r : ok (_handle_subscribe k (user_of k) v r).
Proof.
  unfold _handle_subscribe. destruct (validate_subscribe v) as [e|req]; [apply ok_invalid|]. cbv zeta.
  apply ok_bind; [apply ok_managed|]. intros [|]; [apply ok_reply, clock_sync|].
  apply ok_bind; [apply ok_reserve|]. intros [|]; [|apply ok_ret]. apply returning_ok. intros w.
  eapply wp_seq; [|apply wp_member_states|]. { intros w1 w2 st Hle. by apply states_ok_more. }
  intros w1 states Hle Hst. set (granted := filter _ states).
  assert (Hg : states_ok w1 (user_of k) granted).
  { intros c g [Hc _]%map_lookup_filter_Some. by apply Hst. }
  eapply wp_seq; [|by apply wp_subscribe|]; [done|]. intros w2 _ Hle2 _. eapply wp_seq; [|apply wp_send_history|]; [done| |].
  - apply Forall_forall. intros c Hc. unfold sorted_set in Hc. rewrite elem_of_order_by, elem_of_elements, elem_of_dom in Hc.
    destruct Hc as [g Hc]. destruct (Hg c g Hc) as (cu & -> & Hu & Ha). exists cu. split_and!; [done..|].
    eapply was_member_of; [done|]. by eapply was_member_more.
  - intros w3 _ Hle3 _. apply ok_returning. by apply ok_manage.
Qed.

Lemma ok_handle_resume k v r :
  (forall req, validate_resume v = inr req -> Forall (fun cur => uuid_ok (cur_channel_id cur)) (res_channels req)) ->
  ok (_handle_resume k (user_of k) v r).
Proof.
  intros Hv. unfold _handle_resume. destruct (validate_resume v) as [e|req]; [apply ok_invalid|]. specialize (Hv req eq_refl). cbv zeta.
  apply ok_bind; [apply ok_reserve|]. intros [|]; [|apply ok_ret]. apply returning_ok. intros w.
  unfold _member_channel_ids. eapply (wp_seq _ _ (fun w' allowed => forall c, c ∈ allowed -> channel_text w' (user_of k) c)).
  { intros w1 w2 a Hle Ha c Hc. destruct (Ha c Hc) as (c0 & -> & Hu0 & Hm0). exists c0. split_and!; [done..|by eapply member_of_more]. }
  - eapply wp_seq; [|apply wp_member_states|]. { intros w1 w2 st Hle. by apply states_ok_more. }
    intros w1 st Hle Hst. cbn. intros c [g Hc]%elem_of_dom. destruct (Hst c g Hc) as (cu & -> & Hu & Ha). exists cu. split_and!; [done..|by eapply was_member_of].
  - intros w1 allowed Hle Ha. eapply wp_seq; [|by apply wp_resume_items|].
    { intros w2 w3 it Hle'. by apply items_ok_more. }
    intros w2 items Hle2 Hi. by apply wp_send_history_frame.
Qed.

(** Updates that only forget: generations disappear, nothing is added. *)
Definition forgets (f : Manager -> Manager) : Prop := forall m,
  _subscription_generations (f m) = _subscription_generations m /\ _connections (f m) = _connections m
  /\ forall r d, generation_dicts (f m) !! r = Some d -> exists d', generation_dicts m !! r = Some d' /\ d ⊆ d'.

Lemma process_ok_forgets w p f : forgets f -> process_ok w p -> process_ok w (p <| manager ::= f |>).
Proof.
  intros Hf Hp. destruct (Hf (manager p)) as (E1 & E2 & E3).
  apply process_ok_manager; [done|rewrite E1; apply Hp| |rewrite E2; apply Hp]. intros r d c g Hr Hd.
  destruct (E3 r d Hr) as (d' & Hr' & Hs). eapply (ok_dicts _ _ Hp); [exact Hr'|]. by eapply lookup_weaken.
Qed.
Lemma ok_forget f : forgets f -> ok (manage f).
Proof. intros Hf. apply ok_atomic. intros w p Hp. by apply process_ok_forgets. Qed.

Lemma forgets_alone f : leaves_alone f -> forgets f.
Proof. intros Hf m. destruct (Hf m) as (E1 & E2 & E3). split_and!; [done..|]. intros r d. rewrite E2. eauto. Qed.
Lemma forgets_compose f g : forgets f -> forgets g -> forgets (fun m => g (f m)).
Proof.
  intros Hf Hg m. destruct (Hf m) as (F1 & F2 & F3), (Hg (f m)) as (G1 & G2 & G3). split_and!; [congruence..|].
  intros r d Hr. destruct (G3 r d Hr) as (d1 & Hr1 & Hs1). destruct (F3 r d1 Hr1) as (d2 & Hr2 & Hs2).
  exists d2. split; [done|by etrans].
Qed.
Lemma forgets_fold {A} (f : A -> Manager -> Manager) l : (forall x, forgets (f x)) -> forgets (fun m => fold_left (fun m x => f x m) l m).
Proof.
  intros Hf. induction l as [|x l IH]; cbn [fold_left]; [by apply forgets_alone|].
  apply (forgets_compose (f x) (fun m => fold_left (fun m x => f x m) l m)); [apply Hf|done].
Qed.

Lemma forgets_delete r c : forgets (fun m => m <| generation_dicts ::= alter (delete c) r |>).
Proof.
  intros m. split_and!; [done..|]. cbn. intros r' d. rewrite lookup_alter_Some.
  intros [(_ & d' & Hd & ->)|[_ Hd]]; [|by exists d]. exists d'. split; [done|apply delete_subseteq].
Qed.
Lemma forgets_forget_in g c ch : forgets (forget_in g c ch).
Proof.
  apply (forgets_compose (fun m => m <| generation_dicts ::= alter (delete ch) g |>) (fun m => m <| checked_dicts ::= alter (delete ch) c |>));
    [apply forgets_delete|by apply forgets_alone].
Qed.
Lemma forgets_discard k c : forgets (discard_subscription k c).
Proof. by apply forgets_alone. Qed.
Lemma forgets_channel k c : forgets (forget_channel k c).
Proof.
  intros m. unfold forget_channel. destruct (_subscription_generations m !! k) as [g|].
  - destruct (forgets_delete g c m) as (F1 & F2 & F3). cbv zeta.
    destruct (_subscription_checked_at _ !! k); (split_and!; [done..|exact F3]).
  - cbv zeta. destruct (_subscription_checked_at m !! k); (split_and!; [done..|]); cbn; eauto.
Qed.

Lemma ok_handle_unsubscribe k v r : ok (_handle_unsubscribe k v r).
Proof.
  unfold _handle_unsubscribe. destruct (validate_unsubscribe v) as [e|req]; [apply ok_invalid|].
  apply ok_bind; [|intros _; apply ok_reply, clock_sync]. apply ok_forget. unfold unsubscribe_from.
  apply (forgets_compose (fun m => fold_left (fun m c => forget_channel k (uuid_str c) (discard_subscription k (uuid_str c) m))
      (unsub_channel_ids req) m)
    (fun m => m <| _subscriptions ::= <[k := default ∅ (_subscriptions m !! k)]> |> <| _last_subscribe_history_requests ::= delete k |>));
    [|by apply forgets_alone].
  apply (forgets_fold (fun c m => forget_channel k (uuid_str c) (discard_subscription k (uuid_str c) m))). intros c.
  apply forgets_compose; [apply forgets_discard|apply forgets_channel].
Qed.

(** pydantic only accepts UUIDs as identifiers. *)
Definition valid_cursors : Prop := forall v req, validate_resume v = inr req -> Forall (fun cur => uuid_ok (cur_channel_id cur)) (res_channels req).

Lemma ok_dispatch k sid e : valid_cursors -> ok (dispatch k (user_of k) sid e).
Proof.
  intros Hv. unfold dispatch. cbv zeta. repeat (case_match; [|]);
    first [apply ok_reply, clock_envelope|apply ok_handle_subscribe|apply ok_handle_unsubscribe|apply ok_handle_resume; apply Hv
          |apply ok_handle_sync|apply ok_handle_seen].
Qed.

Lemma ok_close k : ok (close k).
Proof. apply ok_atomic. intros w p [H1 H2 H3 H4 H5 H6 H7]. by case_decide. Qed.

Lemma ok_inbound k sid l : valid_cursors -> ok (_inbound_loop k (user_of k) sid l).
Proof.
  intros Hv. induction l as [|raw l IH]; cbn [_inbound_loop]; [apply ok_ret|]. apply ok_bind; [apply ok_lift|]. intros size.
  destruct (_ || _).
  - apply ok_bind; [apply ok_reply, clock_envelope|]. intros _. apply ok_close.
  - apply ok_bind; [|by intros _]. destruct (json_loads raw ≫= parse_client_envelope) as [e|env].
    + apply ok_bind; [apply ok_use_budget|]. intros [n|]; [apply ok_budget_error|apply ok_invalid].
    + apply ok_bind; [apply ok_use_budget|]. intros [n|]; [apply ok_budget_error|by apply ok_dispatch].
Qed.

(** ** Events *)

Lemma own_dicts_ok w p k g c m : process_ok w p -> own_dicts k (manager p) = (g, c, m) ->
  g.1 = k /\ process_ok w (p <| manager := m |>).
Proof.
  intros Hp E. unfold own_dicts in E.
  set (m1 := match _subscription_generations (manager p) !! k with
             | Some g => (g, manager p)
             | None => ((k, next_serial (manager p)),
                 manager p <| _subscription_generations ::= <[k := (k, next_serial (manager p))]> |>
                   <| generation_dicts ::= <[(k, next_serial (manager p)) := ∅]> |> <| next_serial ::= N.succ |>)
             end) in E.
  assert (H1 : m1.1.1 = k /\ process_ok w (p <| manager := m1.2 |>)).
  { unfold m1. destruct (_subscription_generations (manager p) !! k) as [g0|] eqn:Eg; cbn [fst snd].
    - split; [by apply (ok_refs _ _ Hp)|by destruct p].
    - split; [done|]. apply (process_ok_manager w p (fun _ => manager p <| _subscription_generations ::= <[k := (k, next_serial (manager p))]> |>
        <| generation_dicts ::= <[(k, next_serial (manager p)) := ∅]> |> <| next_serial ::= N.succ |>)); [done| | |apply Hp]; cbn.
      + intros j r. rewrite lookup_insert_Some. intros [[<- <-]|[_ Hr]]; [done|]. by apply (ok_refs _ _ Hp).
      + intros r d x y. rewrite lookup_insert_Some. intros [[<- <-]|[_ Hr]] Hd; [done|]. by eapply (ok_dicts _ _ Hp). }
  destruct m1 as [g1 m1]. cbn [fst snd] in H1. destruct H1 as [Hg Hp1].
  destruct (_subscription_checked_at m1 !! k) as [c1|]; injection E as <- <- <-; (split; [done|]); [done|].
  set (f := fun m => m <| _subscription_checked_at ::= <[k := (k, next_serial m)]> |>
    <| checked_dicts ::= <[(k, next_serial m) := ∅]> |> <| next_serial ::= N.succ |>).
  assert (Hf : leaves_alone f) by done. pose proof (process_ok_alone w (p <| manager := m1 |>) f Hf Hp1) as Hx. exact Hx.
Qed.

Definition cleared (w : list Store) (user : N) (channel : pystr) (event : list (list Z * pyval)) : Prop :=
  exists g, was_member w user channel g /\ forall n, event_generation event = inr (Some n) -> n <= g.

Lemma cleared_more w w' user c e : w `prefix_of` w' -> cleared w user c e -> cleared w' user c e.
Proof. intros Hle (g & Ha & Hg). exists g. split; [by eapply was_member_more|done]. Qed.

Definition cache_answer (k : N) (channel : pystr) (event : list (list Z * pyval)) (w : list Store)
    (a : bool * ((N * N) * (N * N) * option Z)) : Prop :=
  let '(cached, (g, c, eg)) := a in
  g.1 = k /\ event_generation event = inr eg /\ (cached = true -> cleared w (user_of k) channel event).

Lemma wp_authorize_cached k channel event w :
  safely (authorize_cached k channel event) (returning (cache_answer k channel event)) w.
Proof.
  apply (wp_atomic _ _). intros w1 p r p' Hle Hp E. exists w1. split; [reflexivity|].
  destruct (own_dicts k (manager p)) as [[g c] m] eqn:Eo. destruct (own_dicts_ok _ _ _ _ _ _ Hp Eo) as [Hg Hp1].
  destruct (event_generation event) as [e|eg] eqn:Ee; injection E as <- <-; (split; [exact Hp1|]); [done|].
  cbn [returning cache_answer]. split_and!; [done..|]. intros [Hk _]%andb_prop. destruct eg as [n|]; [|done].
  destruct (default ∅ (generation_dicts m !! g) !! channel) as [cached|] eqn:Ec; [|done].
  destruct (generation_dicts m !! g) as [d|] eqn:Ed; cbn [default] in Ec; [|by rewrite lookup_empty in Ec].
  exists cached. split; [|intros n' E'; rewrite Ee in E'; injection E' as <-; lia].
  rewrite <-Hg. by eapply (ok_dicts _ _ Hp1).
Qed.

Lemma wp_authorize k channel event w :
  safely (_authorize_channel_delivery k (user_of k) channel event)
    (returning (fun w' b => b = true -> cleared w' (user_of k) channel event)) w.
Proof.
  unfold _authorize_channel_delivery. eapply wp_seq; [|apply wp_authorize_cached|].
  { intros w1 w2 [cached [[g c] eg]] Hle (H1 & H2 & H3). split_and!; [done..|]. intros Hc. eapply cleared_more; [exact Hle|auto]. }
  intros w1 [cached [[g c] eg]] Hle (Hg & He & Hc). destruct cached; [by cbn; auto|].
  destruct (uuid_text channel) as [cu|] eqn:Eu; [|done]. apply (wp_bind _ _). apply wp_query. intros w2 db Hle2 Hd Hi.
  destruct (approved_generation (user_of k) cu db) as [current|] eqn:Ea.
  2:{ apply wp_after; [|done]. apply ok_forget. apply (forgets_compose (discard_subscription k channel)); [apply forgets_discard|apply forgets_forget_in]. }
  destruct (match eg with Some n => current <? n | None => false end) eqn:En; [done|].
  assert (Hm : was_member w2 (user_of k) channel current) by (exists db, cu; split_and!; done).
  eapply (wp_seq _ _ (fun w' _ => was_member w' (user_of k) channel current)).
  { intros w3 w4 a Hle'. by apply was_member_more. }
  - apply (wp_writing _ _). intros w3 p Hle3 Hp. split; [|by eapply was_member_more].
    apply (process_ok_manager w3 p (fun m => m <| generation_dicts ::= alter (insert channel current) g |>
      <| checked_dicts ::= alter (insert channel (monotonic p)) c |>)); [done|apply Hp| |apply Hp]. cbn.
    intros r d x y. rewrite lookup_alter_Some. intros [(<- & d' & Hd' & ->)|[_ Hd']]; [|by apply (ok_dicts _ _ Hp)].
    rewrite lookup_insert_Some. intros [[<- <-]|[_ Hx]]; [|by eapply (ok_dicts _ _ Hp)]. rewrite Hg. by eapply was_member_more.
  - intros w3 _ Hle3 Hw3. cbn. intros _. exists current. split; [done|]. intros n E. rewrite He in E. injection E as ->. lia.
Qed.

Lemma ok_forward_event k event : ok (_forward_event k (user_of k) event).
Proof.
  unfold _forward_event. destruct event as [| | | | | | | | | |event]; try apply ok_raise. cbv zeta.
  destruct (bool_decide (type_of event ∈ _) && bool_decide (channel_of event = [])) eqn:E0; [apply ok_ret|].
  apply returning_ok. intros w. eapply (wp_seq _ _ (fun w' (b : bool) => b = true -> forward_ok w' (user_of k) event)).
  { intros w1 w2 b Hle Hb Ht. eapply forward_ok_more; [exact Hle|auto]. }
  - destruct (is_targeted (user_of k) event) eqn:Et.
    + apply wp_after; [|by cbn; intros; left].
      match goal with |- ok (if ?b then _ else _) => destruct b end; [|apply ok_ret]. apply ok_forget.
      apply (forgets_compose (fun m => forget_channel k (channel_of event) (discard_subscription k (channel_of event) m))
        (fun m => m <| _last_subscribe_history_requests ::= delete k |>)); [|by apply forgets_alone].
      apply forgets_compose; [apply forgets_discard|apply forgets_channel].
    + destruct (bool_decide (channel_of event = [])) eqn:E1.
      { cbn. intros _. right. left. apply bool_decide_eq_true in E1. split; [done|]. rewrite andb_true_r in E0. by apply bool_decide_eq_false in E0. }
      apply wp_after; [apply ok_managed|]. intros w1 [|] Hle; [|done].
      eapply (wp_weaken _ _); [|reflexivity| |apply wp_authorize].
      * apply returning_stable. intros w2 w3 b Hle' Hb Ht. eapply cleared_more; [exact Hle'|auto].
      * intros w2 [e|b] Hle2; [done|]. cbn. intros Hb Ht. right. right. by apply Hb.
  - intros w1 [|] Hle Hf; [|done]. specialize (Hf eq_refl).
    destruct (_decrypt_event_payload event) as [[]|ev]; try done. eapply (wp_seq _ _ (fun _ _ => True)); [done| |done].
    apply wp_send; [apply clock_envelope| |by intros w2 []]. intros w2 s b s' Hle2 _. cbn. by eapply forward_ok_more.
Qed.

Lemma ok_forward_loop k l : ok (_redis_forward_loop k (user_of k) l).
Proof.
  induction l as [|raw l IH]; cbn [_redis_forward_loop]; [apply ok_ret|]. apply ok_bind; [apply ok_lift|]. intros text.
  apply ok_bind; [|by intros _]. destruct (json_loads text); [apply ok_ret|]. apply ok_bind; [apply ok_forward_event|]. intros _. apply ok_ret.
Qed.

(** ** Connections *)

Lemma drop_from_length l x : (length (drop_from l x) <= length l)%nat.
Proof. apply sublist_length, sublist_filter. Qed.

Lemma quota_add d u k : quota_ok d -> Z.of_nat (length (default [] (d !! u))) < max_websocket_connections_per_user -> quota_ok (add_socket d u k).
Proof.
  intros Hd Hl v l. unfold add_socket. case_decide; [apply Hd|]. rewrite lookup_insert_Some.
  intros [[<- <-]|[_ Hv]]; [|by eapply Hd]. rewrite length_app. cbn [length]. lia.
Qed.
Lemma quota_remove d u k : quota_ok d -> quota_ok (remove_socket d u k).
Proof.
  intros Hd v l. unfold remove_socket. destruct (drop_from (default [] (d !! u)) k) as [|x l'] eqn:E.
  - rewrite lookup_delete_Some. intros [_ Hv]. by eapply Hd.
  - rewrite lookup_insert_Some. intros [[<- <-]|[_ Hv]]; [|by eapply Hd]. rewrite <-E.
    pose proof (drop_from_length (default [] (d !! u)) k) as Hlen. destruct (d !! u) as [l0|] eqn:Eu; cbn [default] in *; [|done].
    apply Hd in Eu. unfold default, id in *. lia.
Qed.
Lemma quota_everywhere d k : quota_ok d -> quota_ok (remove_everywhere d k).
Proof.
  intros Hd v l. unfold remove_everywhere. rewrite lookup_omap, bind_Some. intros (l0 & Hv & E).
  pose proof (drop_from_length l0 k). apply Hd in Hv. destruct (drop_from l0 k); [done|]. injection E as <-. lia.
Qed.

(** Updates of the connections that keep the quota. *)
Lemma process_ok_connections w p f :
  (forall m, _subscription_generations (f m) = _subscription_generations m \/
     exists k, _subscription_generations (f m) = delete k (_subscription_generations m)) ->
  (forall m, generation_dicts (f m) = generation_dicts m) ->
  quota_ok (_connections (f (manager p))) ->
  process_ok w p -> process_ok w (p <| manager ::= f |>).
Proof.
  intros H1 H2 H3 Hp. apply process_ok_manager; [done| |rewrite H2; apply Hp|done].
  intros j r. destruct (H1 (manager p)) as [-> |[k ->]]; [apply Hp|]. rewrite lookup_delete_Some. intros [_ Hr]. by apply (ok_refs _ _ Hp).
Qed.

Lemma ok_reserve_slot k u name : ok (reserve_slot k u name).
Proof.
  apply ok_atomic. intros w p Hp. cbv zeta. destruct (Z.leb_spec max_websocket_connections_per_user
    (Z.of_nat (length (default [] (_connections (manager p) !! u))))) as [Hle|Hlt]; [done|].
  unfold token_urlsafe. cbn [fst snd]. set (s1 := session p <| token_at ::= S |>).
  set (f := fun m => _initialize_socket_controls k (monotonic p) (m <| _connections ::= fun d => add_socket d u k |>)
    <| _presence_connection_ids ::= <[k := fresh_token (token_at (session p))]> |> <| _socket_users ::= <[k := (u, name)]> |>).
  assert (Hp1 : process_ok w (p <| session := s1 |>)) by by apply process_ok_session.
  assert (Hf : process_ok w (p <| session := s1 |> <| manager ::= f |>)); [|exact Hf].
  apply process_ok_connections; [by left|done| |done]. cbn. apply quota_add; [apply Hp|lia].
Qed.

Lemma keeps_bindings u : preserves (keeps ids_ok) (n ← enqueue_user_broker_binding_reconciliation u; commit ;; mret n).
Proof. unfold enqueue_user_broker_binding_reconciliation. unfold_outbox. pres. Qed.

Lemma ok_accept k : ok (accept k).
Proof. apply ok_atomic. by intros w p [H1 H2 H3 H4 H5 H6 H7]. Qed.

Lemma ok_connect k name sid pre : ok (connect presence k (user_of k) name sid pre).
Proof.
  unfold connect. apply ok_bind; [apply ok_reserve_slot|]. intros c. apply ok_bind; [|intros _; by apply ok_manage]. apply ok_try.
  - apply ok_bind; [destruct pre; [apply ok_ret|apply ok_accept]|]. intros _. apply ok_bind; [apply ok_presence|]. intros _.
    apply ok_bind; [apply ok_bind; [apply ok_in_db, keeps_bindings|intros n; apply ok_ret]|]. intros _. apply returning_ok. intros w.
    eapply wp_seq; [|apply wp_member_states|]. { intros w1 w2 st Hle. by apply states_ok_more. }
    intros w1 st Hle Hst. by apply wp_subscribe.
  - intros e. apply ok_bind.
    { apply ok_atomic. intros w p Hp. apply process_ok_connections; [by left|done| |done]. apply quota_remove, Hp. }
    intros _. apply ok_bind; [apply ok_presence|]. intros _. apply ok_bind; [by apply ok_manage|]. intros _. apply ok_raise.
Qed.

Lemma drop_socket_run k m :
  _subscription_generations (drop_socket k m) = delete k (_subscription_generations m)
  /\ generation_dicts (drop_socket k m) = generation_dicts m /\ _connections (drop_socket k m) = remove_everywhere (_connections m) k.
Proof. unfold drop_socket, forget_session. cbv zeta. destruct (_socket_sessions _ !! k); done. Qed.

Lemma ok_disconnect k : ok (disconnect presence k).
Proof.
  apply ok_bind; [|intros [[[u name] c]|]; [apply ok_presence|apply ok_ret]]. apply ok_atomic. intros w p Hp. cbn [snd].
  destruct (drop_socket_run k (manager p)) as (_ & _ & E3).
  apply process_ok_connections; [intros m; right; exists k; apply drop_socket_run|intros m; apply drop_socket_run| |done].
  rewrite E3. apply quota_everywhere, Hp.
Qed.

Lemma ok_close_each l : ok (close_each l).
Proof.
  induction l as [|k l IH]; cbn [close_each]; [apply ok_ret|]. apply ok_bind.
  { apply ok_atomic. intros w p Hp. cbn [snd]. by apply process_ok_alone. }
  intros [|]; [done|]. apply ok_bind.
  - apply ok_try; [apply ok_bind; [apply ok_close|intros _; apply ok_ret]|intros e; apply ok_ret].
  - intros n. apply ok_bind; [done|]. intros rest. apply ok_ret.
Qed.
Lemma ok_handle_control e : ok (handle_auth_control_event e).
Proof.
  unfold handle_auth_control_event, disconnect_session, disconnect_user.
  destruct (ev_session_id e); (apply ok_bind; [apply ok_managed|intros l; apply ok_close_each]).
Qed.
Lemma ok_control_loop l : ok (_auth_control_loop l).
Proof.
  induction l as [|raw l IH]; cbn [_auth_control_loop]; [apply ok_ret|]. apply ok_bind.
  { destruct (receive_control raw); [apply ok_raise|apply ok_ret]. }
  intros [e|]; (apply ok_bind; [|by intros _]); [|apply ok_ret]. apply ok_bind; [apply ok_handle_control|]. intros n. apply ok_ret.
Qed.
Lemma ok_dispatch_control e : ok (dispatch_auth_control publish e).
Proof.
  apply ok_bind; [apply ok_handle_control|]. intros _. apply ok_try; [|by intros []; first [apply ok_ret|apply ok_raise]].
  apply ok_bind; [|intros _; apply ok_ret]. apply ok_atomic. intros w p Hp.
  destruct (publish auth_control_channel (to_json e) (outside (session p))) as [r x]. cbn [snd].
  by apply (process_ok_session w p (session p <| outside := x |>)).
Qed.
Lemma ok_heartbeat k u name n : ok (_presence_heartbeat_loop presence k u name n).
Proof.
  induction n as [|n IH]; cbn [_presence_heartbeat_loop]; [apply ok_ret|]. apply ok_bind; [apply ok_managed|].
  intros [c|]; [|apply ok_ret]. apply ok_bind; [apply ok_presence|by intros _].
Qed.
Lemma ok_hello k u sid : ok (say_hello k u sid).
Proof. apply ok_reply, clock_only_same. unfold build_envelope. pres. Qed.

(** ** The event loop *)

(** The tasks a process runs for its sockets and for revocations. *)
Inductive manager_task : task Process unit -> Prop :=
| task_connect k name sid pre : manager_task (connect presence k (user_of k) name sid pre)
| task_hello k sid : manager_task (say_hello k (user_of k) sid)
| task_inbound k sid received : manager_task (_inbound_loop k (user_of k) sid received)
| task_forward k received : manager_task (_redis_forward_loop k (user_of k) received)
| task_heartbeat k name beats : manager_task (_presence_heartbeat_loop presence k (user_of k) name beats)
| task_expiry k : manager_task (close k)
| task_disconnect k : manager_task (disconnect presence k)
| task_control received : manager_task (_auth_control_loop received)
| task_dispatch e : manager_task (_ ← dispatch_auth_control publish e; mret tt).

(** Anything else may happen: other requests and processes commit, time passes,
    clients hang up.  Channel identifiers remain UUIDs. *)
Definition elsewhere (p p' : Process) : Prop :=
  manager p' = manager p /\ wire p' = wire p /\ past p' = past p ++ [durable (session p')] /\ ids_ok (durable (session p')).

Definition fresh_process (p : Process) : Prop :=
  manager p = new_manager /\ wire p = [] /\ past p = [durable (session p)] /\ ids_ok (durable (session p)).

Lemma manager_task_ok t : valid_cursors -> manager_task t -> ok t.
Proof.
  intros Hv [].
  - apply ok_connect.
  - apply ok_hello.
  - by apply ok_inbound.
  - apply ok_forward_loop.
  - apply ok_heartbeat.
  - apply ok_close.
  - apply ok_disconnect.
  - apply ok_control_loop.
  - apply ok_bind; [apply ok_dispatch_control|]. intros _. apply ok_ret.
Qed.

Lemma elsewhere_ok w p p' : process_ok w p -> elsewhere p p' -> exists w', w `prefix_of` w' /\ process_ok w' p'.
Proof.
  intros [H1 H2 H3 H4 H5 H6 H7] (Em & Ew & Ep & Hi). exists (w ++ [durable (session p')]).
  assert (Hle : w `prefix_of` w ++ [durable (session p')]) by by eexists. split; [done|]. split; rewrite ?Em, ?Ew.
  - by rewrite Ep, H1.
  - apply elem_of_app. right. by apply list_elem_of_singleton.
  - apply Forall_app. split; [done|by constructor].
  - done.
  - intros r d c g Hr Hd. eapply was_member_more; [exact Hle|eauto].
  - done.
  - eapply Forall_impl; [exact H7|]. intros f. by apply frame_ok_more.
Qed.

Lemma reachable_ok p c :
  valid_cursors -> fresh_process p -> rtc (sched elsewhere manager_task) {| shared := p; pool := ∅ |} c ->
  process_ok (past (shared c)) (shared c).
Proof.
  intros Hv (Em & Ew & Ep & Hi) Hr.
  assert (Hs : safe prefix process_ok (past p) {| shared := p; pool := ∅ |}).
  { split; [|apply map_Forall_empty]. cbn. split; rewrite ?Em, ?Ew, ?Ep; cbn; try done.
    - by apply list_elem_of_singleton.
    - by constructor. }
  destruct (safe_run prefix process_ok elsewhere manager_task elsewhere_ok) with (w := past p) (c := {| shared := p; pool := (∅ : gmap N _) |}) (c' := c)
    as (w' & _ & Hok & _); [intros t w Ht; by apply manager_task_ok|done|done|].
  by rewrite (ok_past _ _ Hok).
Qed.
End Invariant.

Section Theorems.
Context `{HW : World} `{HU : UnicodeData} `{HB : BackendSettings} `{HCr : Crypto} `{HE : EncryptionSettings} `{HO : Orm}.
Context `{HC : Conversions} `{HF : Floats} `{HR : Reprs} `{HP : Protocol} `{HS : WsSettings}.
Context (presence : PresenceOp -> N -> list Z -> list Z -> ext -> ext) (publish : list Z -> list Z -> ext -> res unit * ext).
Context (user_of : N -> N).

Abbreviation runs := (rtc (sched elsewhere (manager_task presence publish user_of))).

(** C31. Whatever the interleaving of the tasks of a process with each other, with
    revocations, reconnections and changes of the database: an event that was
    written to a socket either was a membership change of that very user, or
    names no channel and is no message, or is of a channel of which the user
    was an approved member in a committed state whose membership generation is
    at least the event's.  An event stamped after a removal therefore never
    reaches the removed user, although checks are cached across awaits. *)
Theorem forwarded_events_are_authorized (p : Process) (c : config Process) (f : Frame) (event : list (list Z * pyval)) :
  valid_cursors -> fresh_process p -> runs {| shared := p; pool := ∅ |} c ->
  f ∈ wire (shared c) -> frame_origin f = Forwarded event ->
  let user := user_of (frame_to f) in
  is_targeted user event = true
  \/ (channel_of event = [] /\ type_of event ∉ [py "message"; py "message_updated"])
  \/ exists db channel generation, db ∈ past (shared c) /\ uuid_text (channel_of event) = Some channel
       /\ approved_generation user channel db = Some generation
       /\ forall n, event_generation event = inr (Some n) -> n <= generation.
Proof.
  intros Hv Hp Hr Hf Ho user. pose proof (ok_wire _ _ _ (reachable_ok presence publish user_of p c Hv Hp Hr)) as Hw.
  rewrite Forall_forall in Hw. specialize (Hw f Hf). unfold frame_ok in Hw. rewrite Ho in Hw.
  destruct Hw as [?|[?|(g & (db & ch & Hd & Hc & Hg) & Hn)]]; [by left|by right; left|]. right. right. by exists db, ch, g.
Qed.

(** C32. History that reaches a socket, on subscription or on resumption, consists
    of messages of channels of which the socket's user was an approved member
    in a committed state, under every interleaving. *)
Theorem history_is_of_member_channels (p : Process) (c : config Process) (f : Frame) :
  valid_cursors -> fresh_process p -> runs {| shared := p; pool := ∅ |} c ->
  f ∈ wire (shared c) -> frame_origin f = History ->
  exists since items request_id s s', sync_envelope since items request_id s = (inr (frame_body f), s')
  /\ forall item, item ∈ items -> exists m sender text json db generation,
       item = payload_of m sender text json /\ db ∈ past (shared c)
       /\ approved_generation (user_of (frame_to f)) (Message.channel_id m) db = Some generation.
Proof.
  intros Hv Hp Hr Hf Ho. pose proof (ok_wire _ _ _ (reachable_ok presence publish user_of p c Hv Hp Hr)) as Hw.
  rewrite Forall_forall in Hw. specialize (Hw f Hf). unfold frame_ok in Hw. rewrite Ho in Hw.
  destruct Hw as (items & (since & rid & s & s' & E) & Hi). exists since, items, rid, s, s'. split; [done|].
  intros item Hin. rewrite Forall_forall in Hi. destruct (Hi item Hin) as (m & sd & t & j & -> & db & g & Hd & Hg).
  by exists m, sd, t, j, db, g.
Qed.

(** C33. A user never has more registered connections than the quota, however
    handshakes, failures and disconnections interleave. *)
Theorem connection_quota_holds (p : Process) (c : config Process) (user : N) :
  valid_cursors -> fresh_process p -> 0 <= max_websocket_connections_per_user ->
  runs {| shared := p; pool := ∅ |} c ->
  Z.of_nat (length (default [] (_connections (manager (shared c)) !! user))) <= max_websocket_connections_per_user.
Proof.
  intros Hv Hp Hm Hr. pose proof (ok_quota _ _ _ (reachable_ok presence publish user_of p c Hv Hp Hr)) as Hq.
  destruct (_connections (manager (shared c)) !! user) as [l|] eqn:E; [|done]. by apply (Hq user l).
Qed.
End Theorems.

(** ** Revocation *)

Section Revocation.
Context `{HW : World}.

Lemma close_each_alone l (p : Process) : exists n p', run_alone (close_each l) p = (inr n, p')
  /\ forall k, k ∈ open_sockets p' <-> k ∈ open_sockets p /\ (k ∉ l \/ k ∈ _closing_sockets (manager p)).
Proof.
  revert p. induction l as [|k0 l IH]; intros p; cbn [close_each].
  { exists 0, p. split; [done|]. intros k. split; [intros ?; split; [done|left; apply not_elem_of_nil]|by intros [? _]]. }
  rewrite run_alone_bind. unfold mark_closing. rewrite run_alone_atomic.
  set (p1 := p <| manager ::= fun m => m <| _closing_sockets ::= fun c => {[k0]} ∪ c |> |>).
  assert (E1 : _closing_sockets (manager p1) = {[k0]} ∪ _closing_sockets (manager p)) by done.
  destruct (bool_decide (k0 ∈ _closing_sockets (manager p))) eqn:Ec.
  - apply bool_decide_eq_true in Ec. destruct (IH p1) as (n & p' & E & Hk). exists n, p'. split; [done|]. intros k.
    rewrite (Hk k), E1, not_elem_of_cons, elem_of_union, elem_of_singleton. change (open_sockets p1) with (open_sockets p).
    split; intros [Ho Hc]; (split; [done|]).
    + destruct Hc as [Hc|[-> |Hc]]; [|by right|by right]. destruct (decide (k = k0)) as [->|Hn]; [by right|by left].
    + destruct Hc as [[_ Hc]|Hc]; [by left|by right; right].
  - apply bool_decide_eq_false in Ec. rewrite run_alone_bind, run_alone_try, run_alone_bind. unfold close. rewrite run_alone_atomic.
    assert (Hrest : forall n1 p2, _closing_sockets (manager p2) = {[k0]} ∪ _closing_sockets (manager p) ->
      (forall k, k ∈ open_sockets p2 <-> k ∈ open_sockets p /\ k <> k0) ->
      exists n p', run_alone (rest ← close_each l; mret (n1 + rest)) p2 = (inr n, p')
        /\ forall k, k ∈ open_sockets p' <-> k ∈ open_sockets p /\ (k ∉ k0 :: l \/ k ∈ _closing_sockets (manager p))).
    { intros n1 p2 Hcl Hop. rewrite run_alone_bind. destruct (IH p2) as (n & p' & E & Hk). rewrite E. exists (n1 + n), p'.
      split; [done|]. intros k. rewrite (Hk k), Hop, Hcl, not_elem_of_cons, elem_of_union, elem_of_singleton. split.
      - intros [[Ho Hn] Hc]. split; [done|]. destruct Hc as [Hc|[Hc|Hc]]; [left; done|done|by right].
      - intros [Ho Hc]. destruct (decide (k = k0)) as [->|Hn]; [by destruct Hc as [[? _]|Hc]|]. split; [done|].
        destruct Hc as [[_ Hc]|Hc]; [by left|by right; right]. }
    case_decide as Hd; apply Hrest; try done.
    + intros k. cbn. rewrite elem_of_difference, elem_of_singleton. done.
    + intros k. change (open_sockets p1) with (open_sockets p) in *. split; [|by intros [? _]]. intros Hk. split; [done|]. by intros ->.
Qed.

(** C34. Handling a revocation terminates and closes every socket registered for
    the session, or for the user when the event names no session, except those
    that are already being closed; every other socket stays as it is. *)
Theorem revocation_closes_registered_sockets (e : AuthControlEvent) (p : Process) :
  let targets := match ev_session_id e with
                 | Some session_id => default [] (_session_connections (manager p) !! session_id)
                 | None => default [] (_connections (manager p) !! ev_user_id e)
                 end in
  exists n p', run_alone (handle_auth_control_event e) p = (inr n, p')
  /\ forall k, k ∈ open_sockets p' <-> k ∈ open_sockets p /\ (k ∉ targets \/ k ∈ _closing_sockets (manager p)).
Proof.
  unfold handle_auth_control_event, disconnect_session, disconnect_user, managed, reading.
  destruct (ev_session_id e) as [sid|]; cbv zeta; rewrite run_alone_bind, run_alone_atomic; apply close_each_alone.
Qed.
End Revocation.

(** ** A concrete run *)

Section Demo.
Local Existing Instances still_world ascii_ucd demo_settings toy_crypto demo_encryption async_orm toy_conversions plain_floats no_reprs.

(** A protocol in which every subscription asks for channel 7. *)
Definition toy_protocol : Protocol := {|
  parse_client_envelope := fun v =>
    match v with
    | PDict kvs => match assoc (py "type") kvs with
                   | Some (PStr t) => inr {| env_type := t; env_request_id := None; env_payload := PDict [] |}
                   | _ => inl (ValueError "type")
                   end
    | _ => inl (ValueError "envelope")
    end;
  validate_subscribe := fun _ => inr {| sub_channel_ids := [7%N; 8%N]; sub_from_seq_id := None |};
  validate_unsubscribe := fun _ => inr {| unsub_channel_ids := [7%N] |};
  validate_resume := fun _ => inr {| res_channels := [{| cur_channel_id := 7; cur_last_seen_seq_id := None |}]; res_since := None; res_limit := 200 |};
  validate_sync := fun _ => inr {| sync_states := [] |};
  validate_seen := fun _ => inl (ValueError "seen");
  dump_sync_state := fun _ => PNone; str_exc := fun _ => []; app_error_message := fun _ => []; app_error_details := fun _ => PNone |}.
Definition toy_ws : WsSettings := {|
  max_websocket_connections_per_user := 5; ws_history_batch_limit := 100; ws_max_inbound_message_bytes := 16384;
  ws_command_budget_capacity := 60; ws_command_budget_refill_per_second := 1; ws_history_budget_capacity := 300;
  ws_history_budget_refill_per_second := 5; ws_membership_auth_cache_ttl_seconds := 1 |}.
Local Existing Instances toy_protocol toy_ws.

Definition no_presence : PresenceOp -> N -> list Z -> list Z -> ext -> ext := fun _ _ _ _ x => x.
Definition no_publish : list Z -> list Z -> ext -> res unit * ext := fun _ _ x => (inr tt, x).
Definition bob (_ : N) : N := 4.

Definition old_message : Message.t :=
  Message.Row 11 7 3 1 text_ None PNone None None PNone false None 1735689600000000 1735689600000000 None None.
Definition demo_process : Process :=
  let s := open_session (demo_store <| messages := {[11%N := old_message]} |>) tt in
  MkProcess new_manager s 100 ∅ [] [durable s].

Definition demo_event : list (list Z * pyval) :=
  [(py "type", PStr (py "message")); (py "channel_id", PStr (uuid_str 7)); (py "membership_generation", PInt 1);
   (py "content_type", PStr (py "text")); (py "content_text", PNone)].
Definition demo_subscribe : pystr := json_dumps_compact (PDict [(py "type", PStr (py "subscribe"))]).

Definition started (i : N) (t : task Process unit) (n : nat) (c : config Process) : config Process :=
  Nat.iter n (run_task i) {| shared := shared c; pool := <[i := t]> (pool c) |}.
Definition demo_run : config Process :=
  started 3 (_inbound_loop 1 4 9 [demo_subscribe]) 40
    (started 2 (_redis_forward_loop 1 4 [RStr (json_dumps_compact (PDict demo_event))]) 40
      (started 1 (connect no_presence 1 4 (py "bob") 9 false) 40 {| shared := demo_process; pool := ∅ |})).

Lemma started_runs i t n c : pool c !! i = None -> manager_task no_presence no_publish bob t ->
  rtc (sched elsewhere (manager_task no_presence no_publish bob)) c (started i t n c).
Proof. intros Hi Ht. eapply rtc_l; [by apply (sched_start _ _ c i t)|]. apply run_task_sched. Qed.

Lemma run_task_other i (d : config Process) j : i <> j -> pool (run_task i d) !! j = pool d !! j.
Proof.
  intros Hij. unfold run_task. destruct (pool d !! i) as [[r|f]|]; [done| |done].
  destruct (f (shared d)) as [s' t']. cbn [pool]. by rewrite lookup_insert_ne.
Qed.
Lemma started_pool i t n c j : i <> j -> pool (started i t n c) !! j = pool c !! j.
Proof.
  intros Hij. unfold started. induction n as [|n IH]; [cbn; by rewrite lookup_insert_ne|]. rewrite Nat.iter_succ.
  by rewrite run_task_other.
Qed.

Lemma demo_runs : rtc (sched elsewhere (manager_task no_presence no_publish bob)) {| shared := demo_process; pool := ∅ |} demo_run.
Proof.
  etrans; [apply (started_runs 1); [done|exact (task_connect _ _ bob 1 (py "bob") 9 false)]|].
  etrans; [apply (started_runs 2); [by rewrite started_pool|exact (task_forward _ _ bob 1 [RStr (json_dumps_compact (PDict demo_event))])]|].
  apply started_runs; [by rewrite !started_pool|exact (task_inbound _ _ bob 1 9 [demo_subscribe])].
Qed.

Lemma demo_fresh : fresh_process demo_process.
Proof.
  split_and!; [done..|]. intros [c u] m. cbn. rewrite !lookup_insert_Some, lookup_singleton_Some.
  intros [[[= <- <-] _]|[_ [[[= <- <-] _]|[_ [[= <- <-] _]]]]]; reflexivity.
Qed.

Lemma toy_cursors : valid_cursors.
Proof. intros v req [= <-]. by repeat constructor. Qed.

Lemma demo_frame_in i f : wire (shared demo_run) !! i = Some f -> f ∈ wire (shared demo_run).
Proof. apply list_elem_of_lookup_2. Qed.

(** A handshake of session 9 that a revocation of that session overtakes. *)
Definition handshake : config Process :=
  started 1 (connect no_presence 1 4 (py "bob") 9 false) 2 {| shared := demo_process; pool := ∅ |}.
Definition overtaken : config Process :=
  Nat.iter 40 (run_task 1) (started 2 (_auth_control_loop [RStr (to_json (MkControl 4 (py "logout") (Some 9%N)))]) 40 handshake).


Lemma forwarded_events_are_authorized_witness :
  exists f, wire (shared demo_run) !! 0%nat = Some f /\ frame_origin f = Forwarded demo_event
  /\ (is_targeted 4 demo_event = true
      \/ (channel_of demo_event = [] /\ type_of demo_event ∉ [py "message"; py "message_updated"])
      \/ exists db channel generation, db ∈ past (shared demo_run) /\ uuid_text (channel_of demo_event) = Some channel
           /\ approved_generation 4 channel db = Some generation
           /\ forall n, event_generation demo_event = inr (Some n) -> n <= generation).
Proof.
  destruct (wire (shared demo_run) !! 0%nat) as [f|] eqn:E; [|exfalso; revert E; vm_compute; discriminate].
  assert (Ho : frame_origin f = Forwarded demo_event).
  { assert (X : frame_origin <$> (wire (shared demo_run) !! 0%nat) = Some (Forwarded demo_event)) by (vm_compute; reflexivity).
    rewrite E in X. by apply (inj Some) in X. }
  exists f. split; [reflexivity|]. split; [exact Ho|].
  exact (forwarded_events_are_authorized no_presence no_publish bob demo_process demo_run f demo_event toy_cursors demo_fresh demo_runs
    (demo_frame_in _ _ E) Ho).
Defined.

Lemma history_is_of_member_channels_witness :
  exists f, wire (shared demo_run) !! 1%nat = Some f /\ frame_origin f = History
  /\ exists since items request_id s s', sync_envelope since items request_id s = (inr (frame_body f), s')
     /\ forall item, item ∈ items -> exists m sender text json db generation,
          item = payload_of m sender text json /\ db ∈ past (shared demo_run)
          /\ approved_generation 4 (Message.channel_id m) db = Some generation.
Proof.
  destruct (wire (shared demo_run) !! 1%nat) as [f|] eqn:E; [|exfalso; revert E; vm_compute; discriminate].
  assert (Ho : frame_origin f = History).
  { assert (X : frame_origin <$> (wire (shared demo_run) !! 1%nat) = Some History) by (vm_compute; reflexivity).
    rewrite E in X. by apply (inj Some) in X. }
  exists f. split; [reflexivity|]. split; [exact Ho|].
  exact (history_is_of_member_channels no_presence no_publish bob demo_process demo_run f toy_cursors demo_fresh demo_runs
    (demo_frame_in _ _ E) Ho).
Defined.

Lemma connection_quota_holds_witness :
  length (default [] (_connections (manager (shared demo_run)) !! 4%N)) = 1%nat
  /\ Z.of_nat (length (default [] (_connections (manager (shared demo_run)) !! 4%N))) <= 5.
Proof.
  split; [vm_compute; reflexivity|].
  assert (Hq : 0 <= @max_websocket_connections_per_user toy_ws) by (vm_compute; discriminate).
  exact (connection_quota_holds no_presence no_publish bob demo_process demo_run 4 toy_cursors demo_fresh Hq demo_runs).
Defined.
End Demo.
