(* ===== verification/Presence.v ===== *)
(** * Presence (backend/app/realtime/presence.py)

    A user is online while some connection holds an unexpired lease.  The leases
    live in Redis: a sorted set of connections per user, an index of all leases
    by expiry, the names of the users and the set of the names that are online.
    Three Lua scripts change them, each atomically.

    Redis is outside the repository: its commands are the class [RedisData], and
    [RedisLaws] says what each documented command does to the value of its key
    and that it leaves every other key alone. *)

From S2P Require Import Prelude PyStr Identifiers.
From Stdlib Require Import QArith.
Local Open Scope Z_scope.

(** ** Redis *)

Class RedisData := {
  redis : Type;
  (** The values of keys; a key that does not exist is empty. *)
  zset : redis -> list Z -> gmap (list Z) Q;
  hash : redis -> list Z -> gmap (list Z) (list Z);
  members : redis -> list Z -> gset (list Z);
  (** ZRANGEBYSCORE key -inf max, ZCARD, ZSCORE and HGET. *)
  zrangebyscore : list Z -> Q -> redis -> list (list Z);
  zcard : list Z -> redis -> Z;
  zscore : list Z -> list Z -> redis -> option Q;
  hget : list Z -> list Z -> redis -> option (list Z);
  zadd : list Z -> Q -> list Z -> redis -> redis;
  zrem : list Z -> list Z -> redis -> redis;
  zremrangebyscore : list Z -> Q -> redis -> redis;
  hset : list Z -> list Z -> list Z -> redis -> redis;
  hdel : list Z -> list Z -> redis -> redis;
  sadd : list Z -> list Z -> redis -> redis;
  (** SREM also answers how many were removed. *)
  srem : list Z -> list Z -> redis -> Z * redis;
  del : list Z -> redis -> redis;
  expire : list Z -> Z -> redis -> redis
}.

Section Changes.
Context `{RedisData}.

Definition zset_becomes (k : list Z) (f : gmap (list Z) Q -> gmap (list Z) Q) (r r' : redis) : Prop :=
  (forall k', zset r' k' = if decide (k' = k) then f (zset r k) else zset r k')
  /\ (forall k', hash r' k' = hash r k') /\ (forall k', members r' k' = members r k').
Definition hash_becomes (k : list Z) (f : gmap (list Z) (list Z) -> gmap (list Z) (list Z)) (r r' : redis) : Prop :=
  (forall k', hash r' k' = if decide (k' = k) then f (hash r k) else hash r k')
  /\ (forall k', zset r' k' = zset r k') /\ (forall k', members r' k' = members r k').
Definition members_become (k : list Z) (f : gset (list Z) -> gset (list Z)) (r r' : redis) : Prop :=
  (forall k', members r' k' = if decide (k' = k) then f (members r k) else members r k')
  /\ (forall k', zset r' k' = zset r k') /\ (forall k', hash r' k' = hash r k').
End Changes.

(** The entries of a sorted set with a score above a bound. *)
Definition above (x : Q) (z : gmap (list Z) Q) : gmap (list Z) Q := filter (fun kv : list Z * Q => Qle_bool kv.2 x = false) z.

Class RedisLaws `{RedisData} := {
  zrange_elem : forall k x r m, m ∈ zrangebyscore k x r <-> exists s, zset r k !! m = Some s /\ Qle_bool s x = true;
  zcard_size : forall k r, zcard k r = Z.of_nat (size (zset r k));
  zscore_lookup : forall k m r, zscore k m r = zset r k !! m;
  hget_lookup : forall k f r, hget k f r = hash r k !! f;
  zadd_sets : forall k s m r, zset_becomes k (insert m s) r (zadd k s m r);
  zrem_deletes : forall k m r, zset_becomes k (delete m) r (zrem k m r);
  zremrange_filters : forall k x r, zset_becomes k (above x) r (zremrangebyscore k x r);
  hset_sets : forall k f v r, hash_becomes k (insert f v) r (hset k f v r);
  hdel_deletes : forall k f r, hash_becomes k (delete f) r (hdel k f r);
  sadd_adds : forall k m r, members_become k (fun s => {[m]} ∪ s) r (sadd k m r);
  srem_removes : forall k m r, members_become k (fun s => s ∖ {[m]}) r (srem k m r).2
    /\ (srem k m r).1 = if decide (m ∈ members r k) then 1 else 0;
  (** DEL of a sorted set. *)
  del_deletes : forall k r, hash r k = ∅ -> members r k = ∅ -> zset_becomes k (fun _ => ∅) r (del k r);
  (** EXPIRE only sets a timer. *)
  expire_keeps : forall k ttl r, zset_becomes k (fun z => z) r (expire k ttl r)
}.

(** ** The service *)

Record PresenceService := { namespace : pystr; online_key : pystr; lease_seconds : Z; reaper_batch_size : Z }.

Definition online_users_key : pystr := py "rt.online_users".

(** The constructor, with the two settings it falls back on. *)
Definition new_presence_service (presence_lease_seconds presence_reaper_batch_size : Z) (namespace : pystr) (online_key : option pystr)
    (lease_seconds reaper_batch_size : option Z) : PresenceService :=
  {| namespace := rstrip_when (Z.eqb 58) namespace;
     online_key := match online_key with None | Some [] => online_users_key | Some key => key end;
     lease_seconds := match lease_seconds with None | Some 0 => presence_lease_seconds | Some n => n end;
     reaper_batch_size := match reaper_batch_size with None | Some 0 => presence_reaper_batch_size | Some n => n end |}.

Definition user_key_prefix (svc : PresenceService) : pystr := namespace svc ++ py ":user:".
Definition user_key (svc : PresenceService) (user_id : N) : pystr := user_key_prefix svc ++ uuid_str user_id.
Definition expiration_index_key (svc : PresenceService) : pystr := namespace svc ++ py ":expirations".
Definition usernames_key (svc : PresenceService) : pystr := namespace svc ++ py ":usernames".

(** An entry of the index. *)
Definition entry (user_id connection_id : pystr) : pystr := user_id ++ [58] ++ connection_id.

Section Scripts.
Context `{RedisData}.

(** The helpers of redis_pubsub.py. *)
Definition mark_user_online `{UnicodeData} (username : pystr) (r : redis) : res redis :=
  name ← normalize_username username; mret (sadd online_users_key name r).
Definition mark_user_offline `{UnicodeData} (username : pystr) (r : redis) : res redis :=
  name ← normalize_username username; mret (srem online_users_key name r).2.
Definition user_pubsub_channel `{UnicodeData} (username : pystr) : res pystr :=
  name ← normalize_username username; mret (py "rt.user." ++ name).

(** The first lines of two of the scripts. *)
Definition purge (ukey index user_id : pystr) (now : Q) (r : redis) : redis :=
  let expired := zrangebyscore ukey now r in
  let r := fold_left (fun r c => zrem index (entry user_id c) r) expired r in
  zremrangebyscore ukey now r.

Definition _REGISTER_OR_REFRESH_SCRIPT (ukey index usernames online user_id connection_id username : pystr)
    (now expires_at : Q) (key_ttl : Z) (r : redis) : Z * redis :=
  let r := purge ukey index user_id now r in
  let before := zcard ukey r in
  let r := zadd ukey expires_at connection_id r in
  let r := zadd index expires_at (entry user_id connection_id) r in
  let r := hset usernames user_id username r in
  let r := expire ukey key_ttl r in
  let r := sadd online username r in
  (if before =? 0 then 1 else 0, r).

Definition _DISCONNECT_SCRIPT (ukey index usernames online user_id connection_id username : pystr) (now : Q) (r : redis) : Z * redis :=
  let r := purge ukey index user_id now r in
  let before := zcard ukey r in
  let r := zrem ukey connection_id r in
  let r := zrem index (entry user_id connection_id) r in
  let remaining := zcard ukey r in
  if remaining =? 0 then
    let r := del ukey r in
    let r := hdel usernames user_id r in
    let r := (srem online username r).2 in
    (if 0 <? before then -1 else 0, r)
  else (0, r).

(** One turn of the loop of [_REAP_SCRIPT]: the names that went offline so far
    and the state. *)
Definition reap_member (index usernames online prefix : pystr) (now : Q) (acc : list (list Z) * redis) (member : pystr) : list (list Z) * redis :=
  let '(offline, r) := acc in
  match break_at (Z.eqb 58) member with
  | (user_id, _ :: connection_id) =>
      match zscore index member r with
      | Some score =>
          if Qle_bool score now then
            let r := zrem index member r in
            let ukey := prefix ++ user_id in
            let r := match zscore ukey connection_id r with
                     | Some s => if Qle_bool s now then zrem ukey connection_id r else r
                     | None => r
                     end in
            let r := zremrangebyscore ukey now r in
            if zcard ukey r =? 0 then
              let r := del ukey r in
              let username := hget usernames user_id r in
              let r := hdel usernames user_id r in
              match username with
              | Some name => let '(n, r) := srem online name r in (if n =? 1 then offline ++ [name] else offline, r)
              | None => (offline, r)
              end
            else (offline, r)
          else (offline, r)
      | None => (offline, r)
      end
  | (_, []) => (offline, zrem index member r)
  end.

Definition _REAP_SCRIPT (index usernames online prefix : pystr) (now : Q) (batch : Z) (r : redis) : list (list Z) * redis :=
  let due := take (Z.to_nat batch) (zrangebyscore index now r) in
  fold_left (reap_member index usernames online prefix now) due ([], r).

(** ** The methods

    A call of Redis may fail before or after the script has run; without a
    Redis client every call fails before. *)
Inductive eval_outcome := Answers | FailsBefore | FailsAfter.
Inductive PresenceTransition := online | offline | none | unknown.

Definition eval_script {A} (o : eval_outcome) (script : redis -> A * redis) (r : redis) : option A * redis :=
  match o with
  | Answers => let '(a, r) := script r in (Some a, r)
  | FailsBefore => (None, r)
  | FailsAfter => (None, (script r).2)
  end.

Context `{UnicodeData}.

Definition _register_or_refresh (svc : PresenceService) (o : eval_outcome) (user_id : N) (username connection_id : pystr) (now : Q)
    (r : redis) : PresenceTransition * redis :=
  match normalize_username username with
  | inl _ => (unknown, r)
  | inr name =>
      let expires_at := (now + inject_Z (lease_seconds svc))%Q in
      let key_ttl := Z.max (lease_seconds svc + 1) (lease_seconds svc * 2) in
      let '(result, r) := eval_script o (_REGISTER_OR_REFRESH_SCRIPT (user_key svc user_id) (expiration_index_key svc) (usernames_key svc)
        (online_key svc) (uuid_str user_id) connection_id name now expires_at key_ttl) r in
      (match result with Some n => if n =? 1 then online else none | None => unknown end, r)
  end.

(** [PresenceService.register] and [PresenceService.refresh]. *)
Definition presence_register := _register_or_refresh.
Definition presence_refresh := _register_or_refresh.

Definition disconnect (svc : PresenceService) (o : eval_outcome) (user_id : N) (username connection_id : pystr) (now : Q)
    (r : redis) : PresenceTransition * redis :=
  match normalize_username username with
  | inl _ => (unknown, r)
  | inr name =>
      let '(result, r) := eval_script o (_DISCONNECT_SCRIPT (user_key svc user_id) (expiration_index_key svc) (usernames_key svc)
        (online_key svc) (uuid_str user_id) connection_id name now) r in
      (match result with Some n => if n =? -1 then offline else none | None => unknown end, r)
  end.

Record PresenceReapResult := { offline_usernames : list (list Z); available : bool }.

Definition reap_expired (svc : PresenceService) (o : eval_outcome) (now : Q) (r : redis) : PresenceReapResult * redis :=
  let '(result, r) := eval_script o (_REAP_SCRIPT (expiration_index_key svc) (usernames_key svc) (online_key svc) (user_key_prefix svc)
    now (reaper_batch_size svc)) r in
  (match result with
   | Some names => {| offline_usernames := names; available := true |}
   | None => {| offline_usernames := []; available := false |}
   end, r).
End Scripts.
