(* ===== verification/PresenceProps.v ===== *)
(** * Presence refines a table of leases

    The abstract state is a finite map from a user and a connection to the
    expiry of its lease.  Every script simulates the obvious change of that
    table, for any order of calls, of failed calls and of expired Redis keys,
    as long as the clock readings do not go backwards. *)

From S2P Require Import Prelude PyStr Identifiers Encryption MerkleAuditProps Presence.
From Stdlib Require Import QArith Lqa.
Local Open Scope Z_scope.

(** ** Keys *)

Lemma uuid_str_no_colon u : forallb (fun x => negb (58 =? x)) (uuid_str u) = true.
Proof.
  pose proof (uuid_str_chars u) as Hc. rewrite forallb_forall in *. intros x Hx. specialize (Hc x Hx).
  unfold is_lower_hex, is_digit in Hc. destruct (Z.eqb_spec 58 x); [|done]. subst. done.
Qed.

Lemma break_entry u c : break_at (Z.eqb 58) (entry (uuid_str u) c) = (uuid_str u, 58 :: c).
Proof. unfold entry. cbn [app]. apply break_at_app; [apply uuid_str_no_colon|done]. Qed.

Lemma entry_inj u v c d : uuid_ok u -> uuid_ok v -> entry (uuid_str u) c = entry (uuid_str v) d -> u = v /\ c = d.
Proof.
  intros Hu Hv E. pose proof (break_entry u c) as E1. rewrite E, break_entry in E1. apply pair_equal_spec in E1 as [E2 E3].
  apply (f_equal tail) in E3. split; [|exact (eq_sym E3)]. symmetry. by apply uuid_str_inj in E2.
Qed.

Lemma user_key_inj svc u v : uuid_ok u -> uuid_ok v -> user_key svc u = user_key svc v -> u = v.
Proof. intros Hu Hv E. unfold user_key in E. apply app_inv_head in E. by apply uuid_str_inj in E. Qed.

Lemma user_key_index svc u : user_key svc u <> expiration_index_key svc.
Proof.
  unfold user_key, user_key_prefix, expiration_index_key. rewrite <-app_assoc. intros E%app_inv_head.
  change (py ":user:") with ([58] ++ [117] ++ py "ser:") in E. change (py ":expirations") with ([58] ++ [101] ++ py "xpirations") in E. discriminate E.
Qed.
Lemma user_key_usernames svc u : user_key svc u <> usernames_key svc.
Proof.
  unfold user_key, user_key_prefix, usernames_key. rewrite <-app_assoc. intros E%app_inv_head.
  change (py ":user:") with (py ":user" ++ [58]) in E. change (py ":usernames") with (py ":user" ++ [110] ++ py "ames") in E.
  rewrite <-app_assoc in E. apply app_inv_head in E. discriminate E.
Qed.

(** ** Scores *)

Lemma above_lookup x z m s : above x z !! m = Some s <-> z !! m = Some s /\ (x < s)%Q.
Proof.
  unfold above. rewrite map_lookup_filter_Some. cbn [snd]. split; intros [H1 H2]; (split; [done|]).
  - apply Qnot_le_lt. intros Hle%Qle_bool_iff. congruence.
  - destruct (Qle_bool s x) eqn:E; [|done]. apply Qle_bool_iff in E. lra.
Qed.

Section Presence.
Context `{HD : RedisData} `{HL : !RedisLaws} `{HU : UnicodeData}.
Context (svc : PresenceService) (known : N -> Prop) (raw_name name_of : N -> list Z).
Context (Hnames : forall u, known u -> normalize_username (raw_name u) = inr (name_of u)).
Context (Hinj : forall u v, uuid_ok u -> uuid_ok v -> name_of u = name_of v -> u = v).
Context (Honline : forall u, user_key svc u <> online_key svc).
Context (Hlease : 0 < lease_seconds svc).

Abbreviation leases := (gmap (N * list Z) Q).
Abbreviation index := (expiration_index_key svc).
Abbreviation names := (usernames_key svc).

(** The lease table and the Redis state agree on every lease that has not
    expired at [t]; what else Redis holds will be reaped. *)
Record simulates (t : Q) (l : leases) (r : redis) : Prop := {
  sim_zset : forall u c s, uuid_ok u -> (t < s)%Q -> zset r (user_key svc u) !! c = Some s <-> l !! (u, c) = Some s;
  sim_index : forall u c s, uuid_ok u -> (t < s)%Q -> zset r index !! entry (uuid_str u) c = Some s <-> l !! (u, c) = Some s;
  sim_entries : forall m s, zset r index !! m = Some s -> exists u c, uuid_ok u /\ m = entry (uuid_str u) c;
  sim_covers : forall u c s, uuid_ok u -> zset r (user_key svc u) !! c = Some s -> is_Some (zset r index !! entry (uuid_str u) c);
  sim_named : forall u c s, uuid_ok u -> zset r (user_key svc u) !! c = Some s -> hash r names !! uuid_str u = Some (name_of u);
  sim_hash : forall k n, hash r names !! k = Some n -> exists u c, uuid_ok u /\ k = uuid_str u /\ n = name_of u
    /\ is_Some (zset r index !! entry (uuid_str u) c);
  sim_online : forall x, x ∈ members r (online_key svc) <-> exists k, hash r names !! k = Some x;
  sim_free : forall u, hash r (user_key svc u) = ∅ /\ members r (user_key svc u) = ∅
}.

Lemma simulates_later t t' l r : (t <= t')%Q -> simulates t l r -> simulates t' l r.
Proof. intros Ht []. split; try done; intros u c s Hu Hs; [apply sim_zset0|apply sim_index0]; (done || lra). Qed.

(** ** Views of the common steps *)

Lemma zset_at k f r r' : zset_becomes k f r r' -> zset r' k = f (zset r k).
Proof. intros [E _]. rewrite E. by rewrite decide_True. Qed.
Lemma zset_other k f r r' k' : zset_becomes k f r r' -> k' <> k -> zset r' k' = zset r k'.
Proof. intros [E _] Hk. rewrite E. by rewrite decide_False. Qed.
Lemma zset_hash k f r r' k' : zset_becomes k f r r' -> hash r' k' = hash r k'.
Proof. intros (_ & E & _). apply E. Qed.
Lemma zset_members k f r r' k' : zset_becomes k f r r' -> members r' k' = members r k'.
Proof. intros (_ & _ & E). apply E. Qed.

(** Removing the expired entries of a user from the index. *)
Lemma forget_entries (uid : pystr) cs r :
  let r' := fold_left (fun r c => zrem index (entry uid c) r) cs r in
  (forall k, k <> index -> zset r' k = zset r k) /\ (forall k, hash r' k = hash r k) /\ (forall k, members r' k = members r k)
  /\ forall m, zset r' index !! m = if decide (m ∈ (entry uid <$> cs)) then None else zset r index !! m.
Proof.
  revert r. induction cs as [|c cs IH]; intros r; cbn [fold_left].
  - split_and!; [done..|]. intros m. rewrite decide_False; [done|]. apply not_elem_of_nil.
  - pose proof (zrem_deletes index (entry uid c) r) as Hz. destruct (IH (zrem index (entry uid c) r)) as (H1 & H2 & H3 & H4).
    split_and!.
    + intros k Hk. rewrite H1 by done. by eapply zset_other.
    + intros k. rewrite H2. by eapply zset_hash.
    + intros k. rewrite H3. by eapply zset_members.
    + intros m. rewrite H4, (zset_at _ _ _ _ Hz), fmap_cons. destruct (decide (m = entry uid c)) as [->|Hm].
      * rewrite lookup_delete_eq. rewrite (decide_True _ _ (list_elem_of_here _ _)). by case_decide.
      * rewrite lookup_delete_ne by done. case_decide as H5.
        -- by rewrite decide_True by by apply list_elem_of_further.
        -- rewrite decide_False; [done|]. by intros [?|?]%elem_of_cons.
Qed.

(** The state after the first lines of the scripts. *)
Lemma purge_run u now r : uuid_ok u ->
  let r' := purge (user_key svc u) index (uuid_str u) now r in
  zset r' (user_key svc u) = above now (zset r (user_key svc u))
  /\ (forall k, k <> user_key svc u -> k <> index -> zset r' k = zset r k)
  /\ (forall k, hash r' k = hash r k) /\ (forall k, members r' k = members r k)
  /\ forall m s, zset r' index !! m = Some s <->
       zset r index !! m = Some s /\ forall c s', m = entry (uuid_str u) c -> zset r (user_key svc u) !! c = Some s' -> (now < s')%Q.
Proof.
  intros Hu r'. unfold r', purge.
  destruct (forget_entries (uuid_str u) (zrangebyscore (user_key svc u) now r) r) as (F1 & F2 & F3 & F4). set (r1 := fold_left _ _ r) in *.
  pose proof (zremrange_filters (user_key svc u) now r1) as Hz. pose proof (user_key_index svc u) as Hne.
  split_and!.
  - by rewrite (zset_at _ _ _ _ Hz), F1.
  - intros k Hk Hi. rewrite (zset_other _ _ _ _ k Hz) by done. by apply F1.
  - intros k. rewrite (zset_hash _ _ _ _ k Hz). apply F2.
  - intros k. rewrite (zset_members _ _ _ _ k Hz). apply F3.
  - intros m s. rewrite (zset_other _ _ _ _ index Hz) by done. rewrite F4. case_decide as Hd.
    + split; [done|]. intros [_ Hc]. apply list_elem_of_fmap in Hd as (c & -> & (s' & Hs & Hle)%zrange_elem).
      specialize (Hc c s' eq_refl Hs). apply Qle_bool_iff in Hle. lra.
    + split; [|by intros [? _]]. intros Hm. split; [done|]. intros c s' -> Hs. apply Qnot_le_lt. intros Hle. apply Hd, list_elem_of_fmap. exists c.
      split; [done|]. apply zrange_elem. exists s'. split; [done|by apply Qle_bool_iff].
Qed.

(** What the three views are after a script that changed one user: its
    connections, the index, the names and the online set. *)
Record views (u : N) (z i : gmap (list Z) Q) (h : gmap (list Z) (list Z)) (o : gset (list Z)) (r r' : redis) : Prop := {
  v_user : zset r' (user_key svc u) = z;
  v_index : zset r' index = i;
  v_zset : forall k, k <> user_key svc u -> k <> index -> zset r' k = zset r k;
  v_names : hash r' names = h;
  v_hash : forall k, k <> names -> hash r' k = hash r k;
  v_online : members r' (online_key svc) = o;
  v_members : forall k, k <> online_key svc -> members r' k = members r k
}.

Lemma v_other u z i h o r r' v : views u z i h o r r' -> uuid_ok u -> uuid_ok v -> v <> u ->
  zset r' (user_key svc v) = zset r (user_key svc v).
Proof.
  intros Hv Hu Hw Hne. apply (v_zset _ _ _ _ _ _ _ Hv); [|apply user_key_index]. intros E. by apply user_key_inj in E.
Qed.
Lemma v_free u z i h o r r' : views u z i h o r r' ->
  (forall v, hash r (user_key svc v) = ∅ /\ members r (user_key svc v) = ∅) ->
  forall v, hash r' (user_key svc v) = ∅ /\ members r' (user_key svc v) = ∅.
Proof.
  intros Hv Hf v. rewrite (v_hash _ _ _ _ _ _ _ Hv) by apply user_key_usernames. rewrite (v_members _ _ _ _ _ _ _ Hv) by done. apply Hf.
Qed.

(** The live entries of a purged index. *)
Definition purged (u : N) (now : Q) (r : redis) (i : gmap (list Z) Q) : Prop := forall m s,
  i !! m = Some s <-> zset r index !! m = Some s
    /\ forall c s', m = entry (uuid_str u) c -> zset r (user_key svc u) !! c = Some s' -> (now < s')%Q.

Lemma register_views u c now e ttl r : uuid_ok u -> exists i, purged u now r i /\
  let out := _REGISTER_OR_REFRESH_SCRIPT (user_key svc u) index names (online_key svc) (uuid_str u) c (name_of u) now e ttl r in
  views u (<[c := e]> (above now (zset r (user_key svc u)))) (<[entry (uuid_str u) c := e]> i)
    (<[uuid_str u := name_of u]> (hash r names)) ({[name_of u]} ∪ members r (online_key svc)) r out.2
  /\ out.1 = if decide (above now (zset r (user_key svc u)) = ∅) then 1 else 0.
Proof.
  intros Hu. destruct (purge_run u now r Hu) as (P1 & P2 & P3 & P4 & P5). unfold _REGISTER_OR_REFRESH_SCRIPT. cbv zeta.
  set (r1 := purge _ _ _ _ _) in *. exists (zset r1 index). split; [exact P5|].
  pose proof (user_key_index svc u) as Hne.
  pose proof (zadd_sets (user_key svc u) e c r1) as Z2. set (r2 := zadd (user_key svc u) e c r1) in *.
  pose proof (zadd_sets index e (entry (uuid_str u) c) r2) as Z3. set (r3 := zadd index _ _ r2) in *.
  pose proof (hset_sets names (uuid_str u) (name_of u) r3) as (H4 & H4' & H4''). set (r4 := hset _ _ _ r3) in *.
  pose proof (expire_keeps (user_key svc u) ttl r4) as Z5. set (r5 := expire _ _ r4) in *.
  pose proof (sadd_adds (online_key svc) (name_of u) r5) as (M6 & M6' & M6''). set (r6 := sadd _ _ r5) in *. cbn [fst snd].
  assert (Zs : forall k, zset r5 k = zset r4 k).
  { intros k. destruct (decide (k = user_key svc u)) as [->|Hk]; [by rewrite (zset_at _ _ _ _ Z5)|by rewrite (zset_other _ _ _ _ k Z5)]. }
  split.
  - split.
    + by rewrite M6', Zs, H4', (zset_other _ _ _ _ _ Z3), (zset_at _ _ _ _ Z2), P1.
    + by rewrite M6', Zs, H4', (zset_at _ _ _ _ Z3), (zset_other _ _ _ _ _ Z2).
    + intros k Hk Hi. by rewrite M6', Zs, H4', (zset_other _ _ _ _ _ Z3), (zset_other _ _ _ _ _ Z2), P2.
    + by rewrite M6'', (zset_hash _ _ _ _ _ Z5), H4, decide_True, (zset_hash _ _ _ _ _ Z3), (zset_hash _ _ _ _ _ Z2), P3.
    + intros k Hk. by rewrite M6'', (zset_hash _ _ _ _ _ Z5), H4, decide_False, (zset_hash _ _ _ _ _ Z3), (zset_hash _ _ _ _ _ Z2), P3.
    + by rewrite M6, decide_True, (zset_members _ _ _ _ _ Z5), H4'', (zset_members _ _ _ _ _ Z3), (zset_members _ _ _ _ _ Z2), P4.
    + intros k Hk. by rewrite M6, decide_False, (zset_members _ _ _ _ _ Z5), H4'', (zset_members _ _ _ _ _ Z3), (zset_members _ _ _ _ _ Z2), P4.
  - rewrite zcard_size, P1. case_decide as Hd; [by rewrite Hd, map_size_empty|].
    destruct (Z.eqb_spec (Z.of_nat (size (above now (zset r (user_key svc u))))) 0) as [E|]; [|done].
    exfalso. apply Hd, map_size_empty_inv. lia.
Qed.

Lemma purged_live t l u now r i c s v : simulates t l r -> (t <= now)%Q -> uuid_ok u -> uuid_ok v -> purged u now r i -> (now < s)%Q ->
  i !! entry (uuid_str v) c = Some s <-> l !! (v, c) = Some s.
Proof.
  intros Hs Ht Hu Hv Hp Hlt. rewrite (Hp _ _), (sim_index _ _ _ Hs v c s Hv) by lra. split; [by intros [? _]|]. intros Hl. split; [done|].
  intros c' s' E Hz. apply entry_inj in E as [-> <-]; [|done..]. apply (sim_zset _ _ _ Hs u c s Hu) in Hl; [|lra].
  rewrite Hz in Hl. by injection Hl as ->.
Qed.

(** Entries of the index that a purge keeps: those of other users, and of
    connections that are still there. *)
Lemma purged_other u now r i v c : uuid_ok u -> uuid_ok v -> v <> u -> purged u now r i ->
  i !! entry (uuid_str v) c = zset r index !! entry (uuid_str v) c.
Proof.
  intros Hu Hv Hne Hp. apply option_eq. intros s. rewrite (Hp _ s). split; [by intros [? _]|]. intros Hi. split; [done|].
  intros c' s' E _. apply entry_inj in E as [? _]; done.
Qed.
Lemma purged_kept t l u now r i c s : simulates t l r -> uuid_ok u -> purged u now r i ->
  above now (zset r (user_key svc u)) !! c = Some s -> is_Some (i !! entry (uuid_str u) c).
Proof.
  intros Hs Hu Hp [Hz Hlt]%above_lookup. destruct (sim_covers _ _ _ Hs u c s Hu Hz) as [s0 Hi]. exists s0. apply Hp. split; [done|].
  intros c' s' E Hz'. apply entry_inj in E as [_ <-]; [|done..]. rewrite Hz in Hz'. by injection Hz' as <-.
Qed.

Lemma register_simulates t l r u c now e ttl : simulates t l r -> (t <= now)%Q -> (now < e)%Q -> uuid_ok u ->
  simulates now (<[(u, c) := e]> l)
    (_REGISTER_OR_REFRESH_SCRIPT (user_key svc u) index names (online_key svc) (uuid_str u) c (name_of u) now e ttl r).2.
Proof.
  intros Hs Ht He Hu. destruct (register_views u c now e ttl r Hu) as (i & Hp & Hv & _). set (out := _REGISTER_OR_REFRESH_SCRIPT _ _ _ _ _ _ _ _ _ _ _) in *.
  split.
  - intros v d s Hw Hlt. destruct (decide (v = u)) as [->|Hne].
    + rewrite (v_user _ _ _ _ _ _ _ Hv). destruct (decide (d = c)) as [->|Hd]; [by rewrite !lookup_insert_eq|].
      rewrite !lookup_insert_ne by congruence. rewrite above_lookup, (sim_zset _ _ _ Hs) by (done || lra). split; [by intros [? _]|done].
    + rewrite (v_other _ _ _ _ _ _ _ v Hv) by done. rewrite lookup_insert_ne by congruence. apply (sim_zset _ _ _ Hs); [done|lra].
  - intros v d s Hw Hlt. rewrite (v_index _ _ _ _ _ _ _ Hv). destruct (decide ((v, d) = (u, c))) as [[= -> ->]|Hne].
    + by rewrite !lookup_insert_eq.
    + rewrite (lookup_insert_ne i), lookup_insert_ne by (congruence || (intros E; apply Hne; apply entry_inj in E as [-> ->]; done)).
      exact (purged_live t l u now r i d s v Hs Ht Hu Hw Hp Hlt).
  - intros m s. rewrite (v_index _ _ _ _ _ _ _ Hv), lookup_insert_Some. intros [[<- _]|[_ Hi]]; [by exists u, c|].
    apply Hp in Hi as [Hi _]. by apply (sim_entries _ _ _ Hs) in Hi.
  - intros v d s Hw. rewrite (v_index _ _ _ _ _ _ _ Hv). destruct (decide ((v, d) = (u, c))) as [[= -> ->]|Hne]; [rewrite lookup_insert_eq; by eexists|].
    rewrite (lookup_insert_ne i); [|intros E; apply Hne; apply entry_inj in E as [-> ->]; done].
    destruct (decide (v = u)) as [->|Hn].
    + rewrite (v_user _ _ _ _ _ _ _ Hv), lookup_insert_ne by congruence. by eapply purged_kept.
    + rewrite (v_other _ _ _ _ _ _ _ v Hv) by done. rewrite (purged_other u now r i v d) by done. by apply (sim_covers _ _ _ Hs).
  - intros v d s Hw. rewrite (v_names _ _ _ _ _ _ _ Hv). destruct (decide (v = u)) as [->|Hn]; [by rewrite lookup_insert_eq|].
    rewrite (v_other _ _ _ _ _ _ _ v Hv) by done. rewrite lookup_insert_ne by (intros E; by apply uuid_str_inj in E). by apply (sim_named _ _ _ Hs).
  - intros k n. rewrite (v_names _ _ _ _ _ _ _ Hv), lookup_insert_Some, (v_index _ _ _ _ _ _ _ Hv).
    intros [[<- <-]|[Hk Hn]]; [exists u, c; split_and!; [done..|rewrite lookup_insert_eq; by eexists]|].
    destruct (sim_hash _ _ _ Hs k n Hn) as (v & d & Hw & -> & -> & Hi). exists v, d. split_and!; [done..|].
    assert (Hne : v <> u) by (by intros ->). rewrite lookup_insert_ne; [by rewrite (purged_other u now r i v d)|].
    intros E. apply entry_inj in E as [? _]; done.
  - intros x. rewrite (v_online _ _ _ _ _ _ _ Hv), (v_names _ _ _ _ _ _ _ Hv), elem_of_union, elem_of_singleton, (sim_online _ _ _ Hs). split.
    + intros [->|[k Hk]]; [exists (uuid_str u); by rewrite lookup_insert_eq|]. destruct (decide (k = uuid_str u)) as [->|Hne].
      * exists (uuid_str u). rewrite lookup_insert_eq. destruct (sim_hash _ _ _ Hs _ _ Hk) as (v & d & Hw & E & -> & _).
        apply uuid_str_inj in E as ->; done.
      * exists k. by rewrite lookup_insert_ne.
    + intros [k [[<- <-]|[_ Hk]]%lookup_insert_Some]; [by left|right; eauto].
  - eapply v_free; [exact Hv|apply (sim_free _ _ _ Hs)].
Qed.

(** Scripts that only drop leases of one user: what is left of the user's
    connections are live leases, and the user stays online exactly if some are
    left. *)
Lemma drop_simulates t l l' r r' u now z i h o :
  simulates t l r -> (t <= now)%Q -> uuid_ok u -> views u z i h o r r' ->
  (forall v d, v <> u -> l' !! (v, d) = l !! (v, d)) ->
  (forall d s, (now < s)%Q -> z !! d = Some s <-> l' !! (u, d) = Some s) ->
  (forall d s, (now < s)%Q -> i !! entry (uuid_str u) d = Some s <-> l' !! (u, d) = Some s) ->
  (forall m s, i !! m = Some s -> zset r index !! m = Some s) ->
  (forall v d, uuid_ok v -> v <> u -> i !! entry (uuid_str v) d = zset r index !! entry (uuid_str v) d) ->
  (forall d s, z !! d = Some s -> zset r (user_key svc u) !! d = Some s /\ is_Some (i !! entry (uuid_str u) d)) ->
  (z = ∅ /\ h = delete (uuid_str u) (hash r names) /\ o = members r (online_key svc) ∖ {[name_of u]}
   \/ z <> ∅ /\ h = hash r names /\ o = members r (online_key svc)) ->
  simulates now l' r'.
Proof.
  intros Hs Ht Hu Hv Hl Hz Hi Hisub Hioth Hcov Hcase.
  assert (Hidx : forall v d s, uuid_ok v -> (now < s)%Q -> i !! entry (uuid_str v) d = Some s <-> l' !! (v, d) = Some s).
  { intros v d s Hw Hlt. destruct (decide (v = u)) as [->|Hne]; [by apply Hi|]. rewrite Hioth, Hl by done. apply (sim_index _ _ _ Hs); [done|lra]. }
  assert (Hh : forall k n, h !! k = Some n -> hash r names !! k = Some n).
  { destruct Hcase as [(_ & -> & _)|(_ & -> & _)]; [|done]. intros k n. rewrite lookup_delete_Some. by intros [_ ?]. }
  split.
  - intros v d s Hw Hlt. destruct (decide (v = u)) as [->|Hne]; [rewrite (v_user _ _ _ _ _ _ _ Hv); by apply Hz|].
    rewrite (v_other _ _ _ _ _ _ _ v Hv), Hl by done. apply (sim_zset _ _ _ Hs); [done|lra].
  - intros v d s Hw Hlt. rewrite (v_index _ _ _ _ _ _ _ Hv). by apply Hidx.
  - intros m s. rewrite (v_index _ _ _ _ _ _ _ Hv). intros Hm. by apply Hisub, (sim_entries _ _ _ Hs) in Hm.
  - intros v d s Hw. rewrite (v_index _ _ _ _ _ _ _ Hv). destruct (decide (v = u)) as [->|Hne].
    + rewrite (v_user _ _ _ _ _ _ _ Hv). intros Hd. by apply Hcov in Hd as [_ ?].
    + rewrite (v_other _ _ _ _ _ _ _ v Hv), Hioth by done. by apply (sim_covers _ _ _ Hs).
  - intros v d s Hw. rewrite (v_names _ _ _ _ _ _ _ Hv). destruct (decide (v = u)) as [->|Hne].
    + rewrite (v_user _ _ _ _ _ _ _ Hv). intros Hd. destruct Hcase as [(-> & _)|(_ & -> & _)]; [by rewrite lookup_empty in Hd|].
      apply Hcov in Hd as [Hd _]. by eapply (sim_named _ _ _ Hs).
    + rewrite (v_other _ _ _ _ _ _ _ v Hv) by done. intros Hd. apply (sim_named _ _ _ Hs) in Hd; [|done].
      destruct Hcase as [(_ & -> & _)|(_ & -> & _)]; [|done]. rewrite lookup_delete_ne; [done|]. intros E. by apply uuid_str_inj in E.
  - intros k n. rewrite (v_names _ _ _ _ _ _ _ Hv), (v_index _ _ _ _ _ _ _ Hv). intros Hk.
    destruct (sim_hash _ _ _ Hs k n (Hh k n Hk)) as (v & d & Hw & -> & -> & Hd). destruct (decide (v = u)) as [->|Hne].
    + destruct Hcase as [(_ & -> & _)|(Hne & _ & _)]; [by rewrite lookup_delete_eq in Hk|].
      destruct (map_choose _ Hne) as (d' & s & Hd'). exists u, d'. split_and!; [done..|]. by apply Hcov in Hd' as [_ ?].
    + exists v, d. split_and!; [done..|]. by rewrite Hioth.
  - intros x. rewrite (v_online _ _ _ _ _ _ _ Hv), (v_names _ _ _ _ _ _ _ Hv). destruct Hcase as [(_ & -> & ->)|(_ & -> & ->)]; [|apply (sim_online _ _ _ Hs)].
    rewrite elem_of_difference, elem_of_singleton, (sim_online _ _ _ Hs). split.
    + intros [[k Hk] Hx]. exists k. rewrite lookup_delete_ne; [done|]. intros <-. apply Hx.
      destruct (sim_hash _ _ _ Hs _ _ Hk) as (v & d & Hw & E & -> & _). apply uuid_str_inj in E as ->; done.
    + intros [k [Hk Hn]%lookup_delete_Some]. split; [eauto|]. intros ->.
      destruct (sim_hash _ _ _ Hs _ _ Hn) as (v & d & Hw & -> & E & _). apply Hinj in E as ->; done.
  - eapply v_free; [exact Hv|apply (sim_free _ _ _ Hs)].
Qed.

(** The end of two scripts: a user without connections goes offline. *)
Lemma offline_views u z i r r1 name :
  views u z i (hash r names) (members r (online_key svc)) r r1 ->
  (hash r1 (user_key svc u) = ∅ /\ members r1 (user_key svc u) = ∅) ->
  views u ∅ i (delete (uuid_str u) (hash r names)) (members r (online_key svc) ∖ {[name]}) r
    (srem (online_key svc) name (hdel names (uuid_str u) (del (user_key svc u) r1))).2.
Proof.
  intros Hv [F1 F2]. pose proof (del_deletes (user_key svc u) r1 F1 F2) as Z2. set (r2 := del _ r1) in *.
  pose proof (hdel_deletes names (uuid_str u) r2) as (H3 & H3' & H3''). set (r3 := hdel _ _ r2) in *.
  destruct (srem_removes (online_key svc) name r3) as [(M4 & M4' & M4'') _]. set (r4 := (srem _ _ r3).2) in *.
  pose proof (user_key_index svc u) as Hne. split.
  - by rewrite M4', H3', (zset_at _ _ _ _ Z2).
  - rewrite M4', H3', (zset_other _ _ _ _ _ Z2) by done. apply (v_index _ _ _ _ _ _ _ Hv).
  - intros k Hk Hi. rewrite M4', H3', (zset_other _ _ _ _ _ Z2) by done. by apply (v_zset _ _ _ _ _ _ _ Hv).
  - by rewrite M4'', H3, decide_True, (zset_hash _ _ _ _ _ Z2), (v_names _ _ _ _ _ _ _ Hv).
  - intros k Hk. rewrite M4'', H3, decide_False, (zset_hash _ _ _ _ _ Z2) by done. by apply (v_hash _ _ _ _ _ _ _ Hv).
  - by rewrite M4, decide_True, H3'', (zset_members _ _ _ _ _ Z2), (v_online _ _ _ _ _ _ _ Hv).
  - intros k Hk. rewrite M4, decide_False, H3'', (zset_members _ _ _ _ _ Z2) by done. by apply (v_members _ _ _ _ _ _ _ Hv).
Qed.

Lemma card_zero k r : (zcard k r =? 0) = bool_decide (zset r k = ∅).
Proof.
  rewrite zcard_size. destruct (Z.eqb_spec (Z.of_nat (size (zset r k))) 0) as [E|E].
  - rewrite bool_decide_eq_true_2; [done|]. apply map_size_empty_inv. lia.
  - rewrite bool_decide_eq_false_2; [done|]. intros E'. apply E. by rewrite E', map_size_empty.
Qed.

Lemma disconnect_views t l r u c now : simulates t l r -> uuid_ok u -> exists i, purged u now r i /\
  let z := above now (zset r (user_key svc u)) in
  let out := _DISCONNECT_SCRIPT (user_key svc u) index names (online_key svc) (uuid_str u) c (name_of u) now r in
  (exists h o, views u (delete c z) (delete (entry (uuid_str u) c) i) h o r out.2
    /\ (delete c z = ∅ /\ h = delete (uuid_str u) (hash r names) /\ o = members r (online_key svc) ∖ {[name_of u]}
        \/ delete c z <> ∅ /\ h = hash r names /\ o = members r (online_key svc)))
  /\ out.1 = if decide (z <> ∅ /\ delete c z = ∅) then -1 else 0.
Proof.
  intros Hs Hu. destruct (purge_run u now r Hu) as (P1 & P2 & P3 & P4 & P5). unfold _DISCONNECT_SCRIPT. cbv zeta.
  set (r1 := purge _ _ _ _ _) in *. exists (zset r1 index). split; [exact P5|].
  pose proof (user_key_index svc u) as Hne.
  pose proof (zrem_deletes (user_key svc u) c r1) as Z2. set (r2 := zrem (user_key svc u) c r1) in *.
  pose proof (zrem_deletes index (entry (uuid_str u) c) r2) as Z3. set (r3 := zrem index _ r2) in *.
  assert (Hv : views u (delete c (above now (zset r (user_key svc u)))) (delete (entry (uuid_str u) c) (zset r1 index))
    (hash r names) (members r (online_key svc)) r r3).
  { split.
    - by rewrite (zset_other _ _ _ _ _ Z3), (zset_at _ _ _ _ Z2), P1.
    - by rewrite (zset_at _ _ _ _ Z3), (zset_other _ _ _ _ _ Z2).
    - intros k Hk Hi. by rewrite (zset_other _ _ _ _ _ Z3), (zset_other _ _ _ _ _ Z2), P2.
    - by rewrite (zset_hash _ _ _ _ _ Z3), (zset_hash _ _ _ _ _ Z2), P3.
    - intros k _. by rewrite (zset_hash _ _ _ _ _ Z3), (zset_hash _ _ _ _ _ Z2), P3.
    - by rewrite (zset_members _ _ _ _ _ Z3), (zset_members _ _ _ _ _ Z2), P4.
    - intros k _. by rewrite (zset_members _ _ _ _ _ Z3), (zset_members _ _ _ _ _ Z2), P4. }
  rewrite card_zero, (v_user _ _ _ _ _ _ _ Hv). case_bool_decide as Hd.
  - cbn [fst snd]. split.
    + eexists _, _. split; [|left; split_and!; [done..|reflexivity|reflexivity]]. rewrite Hd. eapply (offline_views u _ _ r r3 (name_of u)).
      * exact Hv.
      * eapply v_free; [exact Hv|apply (sim_free _ _ _ Hs)].
    + assert (Eb : (0 <? zcard (user_key svc u) r1) = negb (bool_decide (zset r1 (user_key svc u) = ∅))).
      { rewrite <-card_zero, zcard_size. by destruct (size (zset r1 (user_key svc u))). }
      rewrite Eb, P1. clear Eb. case_bool_decide as Hz; cbn [negb].
      * rewrite decide_False; [reflexivity|]. by intros [? _].
      * rewrite decide_True; [reflexivity|]. by split.
  - cbn [fst snd]. split; [|rewrite decide_False; [done|by intros [_ ?]]]. eexists _, _. split; [exact Hv|]. by right.
Qed.

Lemma disconnect_simulates t l r u c now : simulates t l r -> (t <= now)%Q -> uuid_ok u ->
  simulates now (delete (u, c) l)
    (_DISCONNECT_SCRIPT (user_key svc u) index names (online_key svc) (uuid_str u) c (name_of u) now r).2.
Proof.
  intros Hs Ht Hu. destruct (disconnect_views t l r u c now Hs Hu) as (i & Hp & (h & o & Hv & Hcase) & _). cbv zeta in Hv, Hcase.
  eapply (drop_simulates t l (delete (u, c) l) r _ u now _ _ h o Hs Ht Hu Hv); [| | | | | |exact Hcase].
  - intros v d Hne. by rewrite lookup_delete_ne by congruence.
  - intros d s Hlt. rewrite !lookup_delete_Some, above_lookup, (sim_zset _ _ _ Hs) by (done || lra). split.
    + intros (Hd & Hl & _). split; [congruence|done].
    + intros [Hd Hl]. split_and!; [congruence|done|done].
  - intros d s Hlt. rewrite !lookup_delete_Some, (purged_live t l u now r i d s u Hs Ht Hu Hu Hp Hlt). split; intros [Hd Hl]; (split; [|done]).
    + congruence.
    + intros E. apply entry_inj in E as [_ ->]; done.
  - intros m s [_ Hm]%lookup_delete_Some. by apply Hp in Hm as [? _].
  - intros v d Hw Hne. rewrite lookup_delete_ne; [by apply purged_other with (u := u) (now := now)|]. intros E. apply entry_inj in E as [? _]; done.
  - intros d s [Hd Hz]%lookup_delete_Some. split; [by apply above_lookup in Hz as [? _]|].
    rewrite lookup_delete_ne; [by eapply purged_kept|]. intros E. apply entry_inj in E as [_ ?]; done.
Qed.

(** ** Reaping *)

Lemma zremrange_after_zrem u c (cond : bool) now r1 r2 :
  r2 = zremrangebyscore (user_key svc u) now (if cond then zrem (user_key svc u) c r1 else r1) ->
  (cond = true -> forall s, zset r1 (user_key svc u) !! c = Some s -> Qle_bool s now = true) ->
  zset_becomes (user_key svc u) (above now) r1 r2.
Proof.
  intros -> Hc. destruct cond; [|apply zremrange_filters]. specialize (Hc eq_refl).
  pose proof (zrem_deletes (user_key svc u) c r1) as Z2. set (r2 := zrem _ _ r1) in *.
  pose proof (zremrange_filters (user_key svc u) now r2) as Z3. split_and!.
  - intros k. case_decide as Hk.
    + subst k. rewrite (zset_at _ _ _ _ Z3), (zset_at _ _ _ _ Z2). apply map_eq. intros m. apply option_eq. intros s.
      rewrite !above_lookup, lookup_delete_Some. split; [by intros [[_ ?] ?]|]. intros [Hm Hlt]. split_and!; [|done|done].
      intros <-. apply Hc, Qle_bool_iff in Hm. lra.
    + by rewrite (zset_other _ _ _ _ _ Z3), (zset_other _ _ _ _ _ Z2).
  - intros k. by rewrite (zset_hash _ _ _ _ _ Z3), (zset_hash _ _ _ _ _ Z2).
  - intros k. by rewrite (zset_members _ _ _ _ _ Z3), (zset_members _ _ _ _ _ Z2).
Qed.

(** The user and index keys of a due entry have been cleaned. *)
Lemma reap_views u c now r r1 r2 : zset_becomes index (delete (entry (uuid_str u) c)) r r1 -> zset_becomes (user_key svc u) (above now) r1 r2 ->
  views u (above now (zset r (user_key svc u))) (delete (entry (uuid_str u) c) (zset r index)) (hash r names) (members r (online_key svc)) r r2.
Proof.
  intros Z1 Z2. pose proof (user_key_index svc u) as Hne. split.
  - by rewrite (zset_at _ _ _ _ Z2), (zset_other _ _ _ _ _ Z1).
  - by rewrite (zset_other _ _ _ _ _ Z2), (zset_at _ _ _ _ Z1).
  - intros k Hk Hi. by rewrite (zset_other _ _ _ _ _ Z2), (zset_other _ _ _ _ _ Z1).
  - by rewrite (zset_hash _ _ _ _ _ Z2), (zset_hash _ _ _ _ _ Z1).
  - intros k _. by rewrite (zset_hash _ _ _ _ _ Z2), (zset_hash _ _ _ _ _ Z1).
  - by rewrite (zset_members _ _ _ _ _ Z2), (zset_members _ _ _ _ _ Z1).
  - intros k _. by rewrite (zset_members _ _ _ _ _ Z2), (zset_members _ _ _ _ _ Z1).
Qed.

(** A user without leases whose name is no longer recorded is not online. *)
Lemma nameless_views t l u z i r r2 : simulates t l r -> uuid_ok u ->
  views u z i (hash r names) (members r (online_key svc)) r r2 -> hash r names !! uuid_str u = None ->
  views u ∅ i (delete (uuid_str u) (hash r names)) (members r (online_key svc) ∖ {[name_of u]}) r (hdel names (uuid_str u) (del (user_key svc u) r2)).
Proof.
  intros Hs Hu Hv En. pose proof (user_key_index svc u) as Hne. destruct (v_free _ _ _ _ _ _ _ Hv (sim_free _ _ _ Hs) u) as [F1 F2].
  pose proof (del_deletes (user_key svc u) r2 F1 F2) as Z3. set (r3 := del (user_key svc u) r2) in *.
  pose proof (hdel_deletes names (uuid_str u) r3) as (H4 & H4' & H4''). set (r4 := hdel names (uuid_str u) r3) in *. split.
  - by rewrite H4', (zset_at _ _ _ _ Z3).
  - rewrite H4', (zset_other _ _ _ _ _ Z3) by done. apply (v_index _ _ _ _ _ _ _ Hv).
  - intros k Hk Hi. rewrite H4', (zset_other _ _ _ _ _ Z3) by done. by apply (v_zset _ _ _ _ _ _ _ Hv).
  - by rewrite H4, decide_True, (zset_hash _ _ _ _ _ Z3), (v_names _ _ _ _ _ _ _ Hv).
  - intros k Hk. rewrite H4, decide_False, (zset_hash _ _ _ _ _ Z3) by done. by apply (v_hash _ _ _ _ _ _ _ Hv).
  - rewrite H4'', (zset_members _ _ _ _ _ Z3), (v_online _ _ _ _ _ _ _ Hv). apply leibniz_equiv. intros x.
    rewrite elem_of_difference, elem_of_singleton. split; [|by intros [? _]]. intros Hx. split; [done|]. intros ->.
    apply (sim_online _ _ _ Hs) in Hx as [k Hk]. destruct (sim_hash _ _ _ Hs _ _ Hk) as (v & d & Hw & -> & E & _).
    apply Hinj in E as ->; [congruence|done..].
  - intros k Hk. rewrite H4'', (zset_members _ _ _ _ _ Z3). by apply (v_members _ _ _ _ _ _ _ Hv).
Qed.

(** What a turn of the reaper's loop guarantees. *)
Definition reaped (l : leases) (u : N) (c : list Z) (now : Q) (r r' : redis) : Prop :=
  simulates now l r' /\ (forall m s, zset r' index !! m = Some s -> zset r index !! m = Some s)
  /\ forall s, zset r' index !! entry (uuid_str u) c = Some s -> (now < s)%Q.

Lemma reap_drop t l r r' u c now s0 h o : simulates t l r -> (t <= now)%Q -> uuid_ok u ->
  zset r index !! entry (uuid_str u) c = Some s0 -> (s0 <= now)%Q ->
  let z := above now (zset r (user_key svc u)) in
  views u z (delete (entry (uuid_str u) c) (zset r index)) h o r r' ->
  (z = ∅ /\ h = delete (uuid_str u) (hash r names) /\ o = members r (online_key svc) ∖ {[name_of u]}
   \/ z <> ∅ /\ h = hash r names /\ o = members r (online_key svc)) ->
  reaped l u c now r r'.
Proof.
  intros Hs Ht Hu E0 Ele z Hv Hcase. set (i := delete _ _) in *. split_and!.
  - eapply (drop_simulates t l l r r' u now z i _ _ Hs Ht Hu Hv); [done| | | | | |exact Hcase].
    + intros d s Hlt. unfold z. rewrite above_lookup, (sim_zset _ _ _ Hs) by (done || lra). split; [by intros [? _]|done].
    + intros d s Hlt. unfold i. rewrite lookup_delete_Some, (sim_index _ _ _ Hs) by (done || lra). split; [by intros [_ ?]|].
      intros Hl. split; [|done]. intros E. rewrite <-(sim_index _ _ _ Hs u d s Hu) in Hl by lra. rewrite <-E, E0 in Hl. injection Hl as <-. lra.
    + intros m s [_ Hm]%lookup_delete_Some. done.
    + intros v d Hw Hn. unfold i. rewrite lookup_delete_ne; [done|]. intros E. apply entry_inj in E as [? _]; done.
    + intros d s [Hz Hlt]%above_lookup. split; [done|]. unfold i. rewrite lookup_delete_ne; [by eapply (sim_covers _ _ _ Hs)|].
      intros E. apply entry_inj in E as [_ <-]; [|done..]. apply (sim_zset _ _ _ Hs) in Hz; [|done|lra].
      apply (sim_index _ _ _ Hs) in Hz; [|done|lra]. rewrite E0 in Hz. injection Hz as <-. lra.
  - intros m s. rewrite (v_index _ _ _ _ _ _ _ Hv). by intros [_ ?]%lookup_delete_Some.
  - intros s. rewrite (v_index _ _ _ _ _ _ _ Hv). unfold i. by rewrite lookup_delete_eq.
Qed.

Lemma reap_member_simulates t l acc u c now : simulates t l acc.2 -> (t <= now)%Q -> uuid_ok u ->
  reaped l u c now acc.2 (reap_member index names (online_key svc) (user_key_prefix svc) now acc (entry (uuid_str u) c)).2.
Proof.
  destruct acc as [off r]. cbn [snd]. intros Hs Ht Hu. unfold reap_member. rewrite break_entry. fold (user_key svc u).
  rewrite zscore_lookup. destruct (zset r index !! entry (uuid_str u) c) as [s0|] eqn:E0.
  2:{ cbn [snd]. split_and!; [by eapply simulates_later|done|]. intros s Hx. congruence. }
  destruct (Qle_bool s0 now) eqn:Ele.
  2:{ cbn [snd]. split_and!; [by eapply simulates_later|done|]. intros s Hx. rewrite E0 in Hx. injection Hx as <-.
      apply Qnot_le_lt. intros Hle%Qle_bool_iff. congruence. }
  apply Qle_bool_iff in Ele. cbv zeta.
  pose proof (zrem_deletes index (entry (uuid_str u) c) r) as Z1. set (r1 := zrem index (entry (uuid_str u) c) r) in *.
  rewrite zscore_lookup. set (r2 := zremrangebyscore (user_key svc u) now _).
  assert (Z2 : zset_becomes (user_key svc u) (above now) r1 r2).
  { unfold r2. destruct (zset r1 (user_key svc u) !! c) as [s1|] eqn:E1; [|by apply (zremrange_after_zrem u c false now r1)].
    destruct (Qle_bool s1 now) eqn:E2; [|by apply (zremrange_after_zrem u c false now r1)].
    apply (zremrange_after_zrem u c true now r1); [done|]. intros _ s. rewrite E1. by intros [= <-]. }
  clearbody r2. pose proof (reap_views u c now r r1 r2 Z1 Z2) as Hv.
  rewrite card_zero, (v_user _ _ _ _ _ _ _ Hv). case_bool_decide as Hd.
  2:{ cbn [snd]. eapply (reap_drop t l r r2 u c now s0); [done..|exact Hv|by right]. }
  rewrite Hd in Hv. destruct (v_free _ _ _ _ _ _ _ Hv (sim_free _ _ _ Hs) u) as [F1 F2].
  rewrite hget_lookup, (zset_hash _ _ _ _ _ (del_deletes (user_key svc u) r2 F1 F2)), (v_names _ _ _ _ _ _ _ Hv).
  destruct (hash r names !! uuid_str u) as [name|] eqn:En.
  - assert (name = name_of u) as ->.
    { destruct (sim_hash _ _ _ Hs _ _ En) as (v & d & Hw & E & -> & _). apply uuid_str_inj in E as ->; done. }
    pose proof (offline_views u _ _ r r2 (name_of u) Hv (conj F1 F2)) as Hx.
    destruct (srem _ _ _) as [n r4]. cbn [snd] in Hx. destruct (n =? 1); cbn [snd];
      (eapply (reap_drop t l r r4 u c now s0); [done..|rewrite Hd; exact Hx|by left]).
  - cbn [snd]. eapply (reap_drop t l r _ u c now s0); [done..| |by left]. rewrite Hd. by eapply nameless_views.
Qed.

Lemma reap_fold_simulates now l due acc t :
  simulates t l acc.2 -> (t <= now)%Q -> Forall (fun m => exists u c, uuid_ok u /\ m = entry (uuid_str u) c) due ->
  let out := fold_left (reap_member index names (online_key svc) (user_key_prefix svc) now) due acc in
  simulates now l out.2 /\ (forall m s, zset out.2 index !! m = Some s -> zset acc.2 index !! m = Some s)
  /\ forall m s, m ∈ due -> zset out.2 index !! m = Some s -> (now < s)%Q.
Proof.
  revert acc t. induction due as [|m due IH]; intros acc t Hs Ht Hd; cbn [fold_left].
  - split_and!; [by eapply simulates_later|done|]. intros m s Hm. by apply elem_of_nil in Hm.
  - apply Forall_cons in Hd as [(u & c & Hu & ->) Hd]. destruct (reap_member_simulates t l acc u c now Hs Ht Hu) as (H1 & H2 & H3).
    set (acc1 := reap_member _ _ _ _ _ _ _) in *. destruct (IH acc1 now H1 (Qle_refl now) Hd) as (I1 & I2 & I3).
    split_and!; [done|by eauto|]. intros m s [->|Hm]%elem_of_cons Hx; [|by eauto]. eauto.
Qed.

(** One reaper run. *)
Lemma reap_simulates t l r now batch : simulates t l r -> (t <= now)%Q ->
  let r' := (_REAP_SCRIPT index names (online_key svc) (user_key_prefix svc) now batch r).2 in
  simulates now l r' /\ (Z.of_nat (length (zrangebyscore index now r)) <= batch -> forall m s, zset r' index !! m = Some s -> (now < s)%Q).
Proof.
  intros Hs Ht. unfold _REAP_SCRIPT. cbv zeta. set (due := take (Z.to_nat batch) (zrangebyscore index now r)).
  assert (Hdue : Forall (fun m => exists u c, uuid_ok u /\ m = entry (uuid_str u) c) due).
  { apply Forall_forall. intros m (j & Hm & _)%elem_of_take. apply list_elem_of_lookup_2, zrange_elem in Hm as (s & Hm & _).
    by apply (sim_entries _ _ _ Hs) in Hm. }
  destruct (reap_fold_simulates now l due ([], r) t Hs Ht Hdue) as (H1 & H2 & H3). split; [done|]. intros Hb m s Hm.
  apply Qnot_le_lt. intros Hle. assert (Hin : m ∈ due).
  { unfold due. rewrite take_ge by lia. apply zrange_elem. exists s. split; [by apply (H2 m s)|by apply Qle_bool_iff]. }
  specialize (H3 m s Hin Hm). lra.
Qed.

(** ** Histories *)

(** A call that failed before its script ran changed nothing. *)
Definition effect (o : eval_outcome) (f : leases -> leases) (l : leases) : leases :=
  match o with FailsBefore => l | _ => f l end.
Definition lease_end (now : Q) : Q := (now + inject_Z (lease_seconds svc))%Q.

(** Calls by any process ([presence_refresh] is [presence_register]), with clock readings that do not go backwards, and the
    timers of user keys: [key_ttl] exceeds the lease, so that a key only
    disappears when its leases have expired. *)
Inductive presence_step : Q * leases * redis -> Q * leases * redis -> Prop :=
| step_register t l r now o u c : (t <= now)%Q -> uuid_ok u -> known u ->
    presence_step (t, l, r) (now, effect o (insert (u, c) (lease_end now)) l, (presence_register svc o u (raw_name u) c now r).2)
| step_disconnect t l r now o u c : (t <= now)%Q -> uuid_ok u -> known u ->
    presence_step (t, l, r) (now, effect o (delete (u, c)) l, (disconnect svc o u (raw_name u) c now r).2)
| step_reap t l r now o : (t <= now)%Q -> presence_step (t, l, r) (now, l, (reap_expired svc o now r).2)
| step_timer t l r now u r' : (t <= now)%Q -> uuid_ok u ->
    (forall c s, zset r (user_key svc u) !! c = Some s -> (s <= now)%Q) ->
    zset_becomes (user_key svc u) (fun _ => ∅) r r' -> presence_step (t, l, r) (now, l, r').

Lemma lease_end_later now : (now < lease_end now)%Q.
Proof. unfold lease_end. assert (0 < inject_Z (lease_seconds svc))%Q by (change 0%Q with (inject_Z 0); by rewrite <-Zlt_Qlt). lra. Qed.

Lemma timer_simulates t l r r' now u : simulates t l r -> (t <= now)%Q -> uuid_ok u ->
  (forall c s, zset r (user_key svc u) !! c = Some s -> (s <= now)%Q) ->
  zset_becomes (user_key svc u) (fun _ => ∅) r r' -> simulates now l r'.
Proof.
  intros Hs Ht Hu Hx Hz. pose proof (user_key_index svc u) as Hne.
  assert (Ei : zset r' index = zset r index) by (by rewrite (zset_other _ _ _ _ _ Hz)).
  assert (Ez : forall v c s, uuid_ok v -> zset r' (user_key svc v) !! c = Some s -> zset r (user_key svc v) !! c = Some s).
  { intros v c s Hv. destruct (decide (user_key svc v = user_key svc u)) as [E|E]; [rewrite E, (zset_at _ _ _ _ Hz); by rewrite lookup_empty|].
    by rewrite (zset_other _ _ _ _ _ Hz). }
  split; rewrite ?Ei.
  - intros v c s Hv Hlt. split; [intros Hc; apply Ez in Hc; [|done]; apply (sim_zset _ _ _ Hs) in Hc; [done|done|lra]|].
    intros Hl. apply (sim_zset _ _ _ Hs) in Hl; [|done|lra]. destruct (decide (user_key svc v = user_key svc u)) as [E|E].
    + rewrite E in Hl. apply Hx in Hl. lra.
    + by rewrite (zset_other _ _ _ _ _ Hz).
  - intros v c s Hv Hlt. apply (sim_index _ _ _ Hs); [done|lra].
  - apply (sim_entries _ _ _ Hs).
  - intros v c s Hv Hc. eapply (sim_covers _ _ _ Hs); [done|by apply Ez].
  - intros v c s Hv Hc. rewrite (zset_hash _ _ _ _ _ Hz). eapply (sim_named _ _ _ Hs); [done|by apply Ez].
  - intros k n. rewrite (zset_hash _ _ _ _ _ Hz). apply (sim_hash _ _ _ Hs).
  - intros x. rewrite (zset_members _ _ _ _ _ Hz), (zset_hash _ _ _ _ _ Hz). apply (sim_online _ _ _ Hs).
  - intros v. rewrite (zset_members _ _ _ _ _ Hz), (zset_hash _ _ _ _ _ Hz). apply (sim_free _ _ _ Hs).
Qed.

Lemma step_simulates x y : presence_step x y -> simulates x.1.1 x.1.2 x.2 -> simulates y.1.1 y.1.2 y.2.
Proof.
  intros [t l r now o u c Ht Hu Hk|t l r now o u c Ht Hu Hk|t l r now o Ht|t l r now u r' Ht Hu Hx Hz] Hs; cbn [fst snd] in *.
  - unfold presence_register, _register_or_refresh. rewrite Hnames by done. pose proof (register_simulates t l r u c now (lease_end now)
      (Z.max (lease_seconds svc + 1) (lease_seconds svc * 2)) Hs Ht (lease_end_later now) Hu) as H1. fold (lease_end now).
    unfold eval_script. destruct o; cbn [effect]; [|exact (simulates_later t now l r Ht Hs)|exact H1].
    destruct (_REGISTER_OR_REFRESH_SCRIPT _ _ _ _ _ _ _ _ _ _ _) as [n r1]. done.
  - unfold disconnect. rewrite Hnames by done. pose proof (disconnect_simulates t l r u c now Hs Ht Hu) as H1.
    unfold eval_script. destruct o; cbn [effect]; [|exact (simulates_later t now l r Ht Hs)|exact H1].
    destruct (_DISCONNECT_SCRIPT _ _ _ _ _ _ _ _ _) as [n r1]. done.
  - unfold reap_expired. destruct (reap_simulates t l r now (reaper_batch_size svc) Hs Ht) as [H1 _].
    unfold eval_script. destruct o; [|exact (simulates_later t now l r Ht Hs)|exact H1]. destruct (_REAP_SCRIPT _ _ _ _ _ _ _) as [n r1]. done.
  - by eapply timer_simulates.
Qed.

Lemma history_simulates x y : rtc presence_step x y -> simulates x.1.1 x.1.2 x.2 -> simulates y.1.1 y.1.2 y.2.
Proof. induction 1 as [x|x x1 y Hstep _ IH]; [done|]. intros Hs. by apply IH, (step_simulates x). Qed.

(** Redis without any presence. *)
Definition nobody (r : redis) : Prop :=
  (forall u, zset r (user_key svc u) = ∅) /\ zset r index = ∅ /\ hash r names = ∅ /\ members r (online_key svc) = ∅
  /\ forall u, hash r (user_key svc u) = ∅ /\ members r (user_key svc u) = ∅.

Lemma nobody_simulates t r : nobody r -> simulates t ∅ r.
Proof.
  intros (H1 & H2 & H3 & H4 & H5). split; rewrite ?H2, ?H3, ?H4; try (intros *; rewrite ?H1, ?lookup_empty; done).
  - intros x. rewrite elem_of_empty. split; [done|]. intros [k Hk]. by rewrite lookup_empty in Hk.
Qed.

(** A user with a lease that has not expired. *)
Definition live_lease (l : leases) (now : Q) (u : N) (c : list Z) : Prop := exists s, l !! (u, c) = Some s /\ (now < s)%Q.

Lemma above_empty t l r now u : simulates t l r -> (t <= now)%Q -> uuid_ok u ->
  above now (zset r (user_key svc u)) = ∅ <-> forall c, ~ live_lease l now u c.
Proof.
  intros Hs Ht Hu. split.
  - intros E c (s & Hl & Hlt). apply (sim_zset _ _ _ Hs) in Hl; [|done|lra].
    assert (Hx : above now (zset r (user_key svc u)) !! c = Some s) by (by apply above_lookup). by rewrite E, lookup_empty in Hx.
  - intros Hn. apply map_eq. intros c. rewrite lookup_empty. destruct (above now _ !! c) as [s|] eqn:E; [|done]. exfalso.
    apply above_lookup in E as [Hz Hlt]. apply (Hn c). exists s. split; [|done]. apply (sim_zset _ _ _ Hs) in Hz; [done|done|lra].
Qed.
End Presence.

Section Theorems.
Context `{HD : RedisData} `{HL : !RedisLaws} `{HU : UnicodeData}.

(** Users whose names normalize to distinct texts, and keys that are apart. *)
Record presence_setting (svc : PresenceService) (known : N -> Prop) (raw_name name_of : N -> list Z) : Prop := {
  ps_names : forall u, known u -> normalize_username (raw_name u) = inr (name_of u);
  ps_distinct : forall u v, uuid_ok u -> uuid_ok v -> name_of u = name_of v -> u = v;
  ps_online : forall u, user_key svc u <> online_key svc;
  ps_lease : 0 < lease_seconds svc
}.

(** C36. Presence is exact: after any history of registrations, refreshes,
    disconnections, reaper runs, failed Redis calls and expired keys, a reaper
    run that takes in all due entries leaves online exactly the users who hold
    an unexpired lease. *)
Theorem reaped_presence_is_exact (svc : PresenceService) (known : N -> Prop) (raw_name name_of : N -> list Z) (t0 : Q) (r0 : redis) (t : Q) (l : gmap (N * list Z) Q) (r : redis) (now : Q) :
  presence_setting svc known raw_name name_of -> nobody svc r0 ->
  rtc (presence_step svc known raw_name) (t0, ∅, r0) (t, l, r) -> (t <= now)%Q ->
  Z.of_nat (length (zrangebyscore (expiration_index_key svc) now r)) <= reaper_batch_size svc ->
  let r' := (reap_expired svc Answers now r).2 in
  forall x, x ∈ members r' (online_key svc) <-> exists u c, uuid_ok u /\ x = name_of u /\ live_lease l now u c.
Proof.
  intros [Hn Hd Ho Hl] H0 Hr Ht Hb r'.
  pose proof (history_simulates svc known raw_name name_of Hn Hd Ho Hl _ _ Hr (nobody_simulates svc name_of t0 r0 H0)) as Hs. cbn [fst snd] in Hs.
  destruct (reap_simulates svc name_of Hd Ho t l r now (reaper_batch_size svc) Hs Ht) as [Hs' Hdue]. specialize (Hdue Hb).
  assert (Er : r' = (_REAP_SCRIPT (expiration_index_key svc) (usernames_key svc) (online_key svc) (user_key_prefix svc) now (reaper_batch_size svc) r).2).
  { unfold r', reap_expired, eval_script. by destruct (_REAP_SCRIPT _ _ _ _ _ _ _). }
  rewrite <-Er in Hs', Hdue. intros x. rewrite (sim_online _ _ _ _ _ Hs'). split.
  - intros [k Hk]. destruct (sim_hash _ _ _ _ _ Hs' k x Hk) as (u & c & Hu & -> & -> & s & Hi). exists u, c. split_and!; [done..|].
    pose proof (Hdue _ _ Hi) as Hlt. exists s. split; [|done]. by apply (sim_index _ _ _ _ _ Hs').
  - intros (u & c & Hu & -> & s & Hlu & Hlt). exists (uuid_str u). apply (sim_zset _ _ _ _ _ Hs') in Hlu; [|done|done].
    by eapply (sim_named _ _ _ _ _ Hs').
Qed.

(** C37. The transitions that are reported are real: after any history, a
    registration reports that the user came online exactly if the user held no
    unexpired lease, and a disconnection reports that the user went offline
    exactly if it ended the user's last one. *)
Theorem reported_transitions_are_real (svc : PresenceService) (known : N -> Prop) (raw_name name_of : N -> list Z) (t0 : Q) (r0 : redis) (t : Q) (l : gmap (N * list Z) Q) (r : redis)
    (now : Q) (u : N) (c : list Z) :
  presence_setting svc known raw_name name_of -> nobody svc r0 ->
  rtc (presence_step svc known raw_name) (t0, ∅, r0) (t, l, r) -> (t <= now)%Q -> uuid_ok u -> known u ->
  ((presence_register svc Answers u (raw_name u) c now r).1 = online <-> forall d, ~ live_lease l now u d)
  /\ ((disconnect svc Answers u (raw_name u) c now r).1 = offline
      <-> (exists d, live_lease l now u d) /\ forall d, live_lease l now u d -> d = c).
Proof.
  intros [Hn Hd Ho Hl] H0 Hr Ht Hu Hk.
  pose proof (history_simulates svc known raw_name name_of Hn Hd Ho Hl _ _ Hr (nobody_simulates svc name_of t0 r0 H0)) as Hs. cbn [fst snd] in Hs.
  pose proof (above_empty svc name_of t l r now u Hs Ht Hu) as Ha. unfold presence_register, _register_or_refresh, disconnect. rewrite Hn by done. split.
  - destruct (register_views svc name_of u c now (now + inject_Z (lease_seconds svc))%Q (Z.max (lease_seconds svc + 1) (lease_seconds svc * 2)) r Hu)
      as (i & _ & _ & E). unfold eval_script. destruct (_REGISTER_OR_REFRESH_SCRIPT _ _ _ _ _ _ _ _ _ _ _) as [n r1].
    cbn [fst snd] in *. rewrite E, <-Ha. by case_decide.
  - destruct (disconnect_views svc name_of Ho t l r u c now Hs Hu) as (i & _ & _ & E). unfold eval_script.
    destruct (_DISCONNECT_SCRIPT _ _ _ _ _ _ _ _ _) as [n r1]. cbn [fst snd] in *. rewrite E. set (z := above now _) in *.
    assert (Hz : forall d, is_Some (z !! d) <-> live_lease l now u d).
    { intros d. unfold z, live_lease. split.
      - intros [s [Hx Hlt]%above_lookup]. exists s. split; [|done]. apply (sim_zset _ _ _ _ _ Hs) in Hx; [done|done|lra].
      - intros (s & Hx & Hlt). exists s. apply above_lookup. split; [|done]. apply (sim_zset _ _ _ _ _ Hs); [done|lra|done]. }
    case_decide as Hc.
    + split; [|done]. intros _. destruct Hc as [Hne Hdel]. split.
      * destruct (map_choose _ Hne) as (d & s & Hx). exists d. apply Hz. by eexists.
      * intros d Hlive. destruct (decide (d = c)) as [|Hdc]; [done|]. apply Hz in Hlive as [s Hx].
        assert (Hx' : delete c z !! d = Some s) by (by rewrite lookup_delete_ne). by rewrite Hdel, lookup_empty in Hx'.
    + split; [done|]. intros [[d Hlive] Hall]. exfalso. apply Hc. split.
      * intros Ez. apply Hz in Hlive as [s Hx]. by rewrite Ez, lookup_empty in Hx.
      * apply map_eq. intros e. rewrite lookup_empty. destruct (delete c z !! e) as [s|] eqn:Ex; [|done].
        apply lookup_delete_Some in Ex as [Hce Hx]. exfalso. apply Hce. symmetry. apply Hall, Hz. by eexists.
Qed.
End Theorems.

(** ** A Redis of finite maps *)

Record mem_redis := MemRedis {
  mr_zsets : gmap (list Z) (gmap (list Z) Q); mr_hashes : gmap (list Z) (gmap (list Z) (list Z)); mr_sets : gmap (list Z) (gset (list Z)) }.

Definition mr_zset (r : mem_redis) (k : list Z) : gmap (list Z) Q := default ∅ (mr_zsets r !! k).
Definition mr_hash (r : mem_redis) (k : list Z) : gmap (list Z) (list Z) := default ∅ (mr_hashes r !! k).
Definition mr_members (r : mem_redis) (k : list Z) : gset (list Z) := default ∅ (mr_sets r !! k).
Definition on_zset (k : list Z) (f : gmap (list Z) Q -> gmap (list Z) Q) (r : mem_redis) : mem_redis :=
  MemRedis (<[k := f (mr_zset r k)]> (mr_zsets r)) (mr_hashes r) (mr_sets r).
Definition on_hash (k : list Z) (f : gmap (list Z) (list Z) -> gmap (list Z) (list Z)) (r : mem_redis) : mem_redis :=
  MemRedis (mr_zsets r) (<[k := f (mr_hash r k)]> (mr_hashes r)) (mr_sets r).
Definition on_set (k : list Z) (f : gset (list Z) -> gset (list Z)) (r : mem_redis) : mem_redis :=
  MemRedis (mr_zsets r) (mr_hashes r) (<[k := f (mr_members r k)]> (mr_sets r)).

Definition mem_redis_data : RedisData := {|
  redis := mem_redis; zset := mr_zset; hash := mr_hash; members := mr_members;
  zrangebyscore := fun k x r => (map_to_list (filter (fun kv : list Z * Q => Qle_bool kv.2 x = true) (mr_zset r k))).*1;
  zcard := fun k r => Z.of_nat (size (mr_zset r k));
  zscore := fun k m r => mr_zset r k !! m;
  hget := fun k f r => mr_hash r k !! f;
  zadd := fun k s m => on_zset k (insert m s);
  zrem := fun k m => on_zset k (delete m);
  zremrangebyscore := fun k x => on_zset k (above x);
  hset := fun k f v => on_hash k (insert f v);
  hdel := fun k f => on_hash k (delete f);
  sadd := fun k m => on_set k (fun s => {[m]} ∪ s);
  srem := fun k m r => (if decide (m ∈ mr_members r k) then 1 else 0, on_set k (fun s => s ∖ {[m]}) r);
  del := fun k r => MemRedis (delete k (mr_zsets r)) (delete k (mr_hashes r)) (delete k (mr_sets r));
  expire := fun _ _ r => r |}.

Lemma on_zset_becomes k f r : zset_becomes (H := mem_redis_data) k f r (on_zset k f r).
Proof.
  split; [|done]. intros k'. cbn. unfold mr_zset at 1, on_zset. cbn. case_decide as E; [subst; by rewrite lookup_insert_eq|].
  by rewrite lookup_insert_ne.
Qed.
Lemma on_hash_becomes k f r : hash_becomes (H := mem_redis_data) k f r (on_hash k f r).
Proof.
  split; [|done]. intros k'. cbn. unfold mr_hash at 1, on_hash. cbn. case_decide as E; [subst; by rewrite lookup_insert_eq|].
  by rewrite lookup_insert_ne.
Qed.
Lemma on_set_becomes k f r : members_become (H := mem_redis_data) k f r (on_set k f r).
Proof.
  split; [|done]. intros k'. cbn. unfold mr_members at 1, on_set. cbn. case_decide as E; [subst; by rewrite lookup_insert_eq|].
  by rewrite lookup_insert_ne.
Qed.

Lemma default_delete {A} (d : A) (m : gmap (list Z) A) k k' :
  default d (delete k m !! k') = if decide (k' = k) then d else default d (m !! k').
Proof. case_decide as E; [subst; by rewrite lookup_delete_eq|]. by rewrite lookup_delete_ne. Qed.

Lemma mem_redis_laws : RedisLaws (H := mem_redis_data).
Proof.
  split; try done.
  - intros k x r m. cbn. rewrite list_elem_of_fmap. split.
    + intros ([m' s] & -> & [Hm Hs]%elem_of_map_to_list%map_lookup_filter_Some). by exists s.
    + intros (s & Hm & Hs). exists (m, s). split; [done|]. apply elem_of_map_to_list, map_lookup_filter_Some. done.
  - intros. apply on_zset_becomes.
  - intros. apply on_zset_becomes.
  - intros. apply on_zset_becomes.
  - intros. apply on_hash_becomes.
  - intros. apply on_hash_becomes.
  - intros. apply on_set_becomes.
  - intros. split; [apply on_set_becomes|done].
  - intros k r Hh Hm. cbn in *. unfold mr_hash in Hh. unfold mr_members in Hm.
    split_and!; intros k'; cbn; unfold mr_zset, mr_hash, mr_members; cbn; rewrite default_delete; [done| |]; case_decide; by subst.
  - intros k ttl r. split; [|done]. intros k'. case_decide; by subst.
Qed.

(** Two users who connect at 0 and at 10. *)
Definition example_service : PresenceService := new_presence_service 60 200 (py "presence") None None None.
Definition example_user (u : N) : Prop := u = 3%N \/ u = 4%N.
Definition empty_redis : @redis mem_redis_data := MemRedis ∅ ∅ ∅.
#[local] Existing Instances mem_redis_data mem_redis_laws ascii_ucd.

Definition example_register (u : N) (c : string) (now : Q) (r : @redis mem_redis_data) : @redis mem_redis_data :=
  (presence_register (H := mem_redis_data) example_service Answers u (uuid_str u) (py c) now r).2.
Definition example_redis : @redis mem_redis_data := example_register 4 "b" 10 (example_register 3 "a" 0 empty_redis).
Definition example_leases : gmap (N * list Z) Q := <[(4%N, py "b") := lease_end example_service 10]> (<[(3%N, py "a") := lease_end example_service 0]> ∅).

Lemma example_setting : presence_setting example_service example_user uuid_str uuid_str.
Proof.
  split; [|intros u v Hu Hv E; by apply uuid_str_inj in E| |done].
  - intros u [-> | ->]; vm_compute; reflexivity.
  - intros u E. apply (f_equal (take 1)) in E. vm_compute in E. discriminate E.
Qed.

Lemma example_nobody : nobody example_service empty_redis.
Proof. split_and!; done. Qed.

Lemma example_history : rtc (presence_step example_service example_user uuid_str) (0%Q, ∅, empty_redis) (10%Q, example_leases, example_redis).
Proof.
  eapply rtc_l; [apply (step_register example_service example_user uuid_str 0 ∅ empty_redis 0 Answers 3 (py "a")); [by apply Qle_refl|done|by left]|].
  eapply rtc_l; [|apply rtc_refl].
  apply (step_register example_service example_user uuid_str 0 _ _ 10 Answers 4 (py "b")); [by vm_compute|done|by right].
Qed.

(** Witness of exact presence: at 65 only the lease of the second user lives. *)
Lemma reaped_presence_is_exact_witness :
  (forall x, x ∈ members (reap_expired example_service Answers 65 example_redis).2 (py "rt.online_users")
     <-> exists u c, uuid_ok u /\ x = uuid_str u /\ live_lease example_leases 65 u c)
  /\ (reap_expired example_service Answers 65 example_redis).1 = {| offline_usernames := [uuid_str 3]; available := true |}.
Proof.
  split; [|vm_compute; reflexivity].
  exact (reaped_presence_is_exact example_service example_user uuid_str uuid_str 0 empty_redis 10 example_leases example_redis 65
    example_setting example_nobody example_history ltac:(vm_compute; discriminate) ltac:(vm_compute; discriminate)).
Defined.

(** Witness of real transitions: at 65 the first user's lease has expired. *)
Lemma reported_transitions_are_real_witness :
  ((presence_register example_service Answers 3 (uuid_str 3) (py "a2") 65 example_redis).1 = online
    <-> forall d, ~ live_lease example_leases 65 3 d)
  /\ (presence_register example_service Answers 3 (uuid_str 3) (py "a2") 65 example_redis).1 = online.
Proof.
  split; [|vm_compute; reflexivity].
  exact (proj1 (reported_transitions_are_real example_service example_user uuid_str uuid_str 0 empty_redis 10 example_leases example_redis 65 3 (py "a2")
    example_setting example_nobody example_history ltac:(vm_compute; discriminate) ltac:(done) ltac:(by left))).
Defined.
